(** * Buffer manager (bufmgr.c): the buffer header state word and the
      pin / I/O / eviction / checkpoint protocols built on it.

    The development embeds the functions of
    [src/backend/storage/buffer/bufmgr.c] that manipulate the atomic state
    word of a shared buffer header, and proves what each of them does to the
    word.  Shared memory is modelled from the point of view of one backend:
    the header it operates on, and a schedule of stores that other backends
    perform between two atomic accesses of this backend.  Loops that spin or
    wait for other backends take a fuel, and a loop still going when its
    fuel is used up has the outcome [Spin].  Statistics, resource-owner
    bookkeeping, tracing, and the LWLocks of other modules (content locks,
    mapping partition locks) are left out. *)

From Stdlib Require Import ZArith List Bool Lia String.
Import ListNotations.
Local Open Scope Z_scope.

(** ** The 32-bit state word *)

(** [uint32] arithmetic wraps modulo 2^32. *)
Definition u32 (x : Z) : Z := x mod 2 ^ 32.

(** [~x] on a [uint32]. *)
Definition not32 (x : Z) : Z := Z.lxor x 0xFFFFFFFF.

(** *** Layout of the state word

    The macros below are declared in [storage/buf_internals.h], which is
    not among the sources embedded here.  The spec fixes the packing: an
    18-bit REFCOUNT, a 4-bit USAGE_COUNT with values 0..5, and ten one-bit
    flags; the refcount is in the low bits, then the usage count, then the
    flags. *)

(** Modelled from the spec: the unit of the 18-bit REFCOUNT field
    ([buf_internals.h]). *)
Definition BUF_REFCOUNT_ONE : Z := 1.

(** Modelled from the spec: the 18 bits of REFCOUNT ([buf_internals.h]). *)
Definition BUF_REFCOUNT_MASK : Z := Z.shiftl 1 18 - 1.

(** Modelled from the spec: the 4 bits of USAGE_COUNT, above REFCOUNT
    ([buf_internals.h]). *)
Definition BUF_USAGECOUNT_MASK : Z := 0x003C0000.

(** Modelled from the spec: the unit of USAGE_COUNT ([buf_internals.h]). *)
Definition BUF_USAGECOUNT_ONE : Z := Z.shiftl 1 18.

(** Modelled from the spec: the position of USAGE_COUNT
    ([buf_internals.h]). *)
Definition BUF_USAGECOUNT_SHIFT : Z := 18.

(** Modelled from the spec: the ten flag bits ([buf_internals.h]). *)
Definition BUF_FLAG_MASK : Z := 0xFFC00000.

(** Modelled from the spec: SPIN_LOCK, the header spinlock
    ([buf_internals.h]). *)
Definition BM_LOCKED : Z := Z.shiftl 1 22.

(** Modelled from the spec: DIRTY, the frame differs from disk
    ([buf_internals.h]). *)
Definition BM_DIRTY : Z := Z.shiftl 1 23.

(** Modelled from the spec: VALID, the contents are the tagged page
    ([buf_internals.h]). *)
Definition BM_VALID : Z := Z.shiftl 1 24.

(** Modelled from the spec: TAG_VALID, the tag is in the mapping table
    ([buf_internals.h]). *)
Definition BM_TAG_VALID : Z := Z.shiftl 1 25.

(** Modelled from the spec: IO_IN_PROGRESS ([buf_internals.h]). *)
Definition BM_IO_IN_PROGRESS : Z := Z.shiftl 1 26.

(** Modelled from the spec: IO_ERROR, the last I/O failed
    ([buf_internals.h]). *)
Definition BM_IO_ERROR : Z := Z.shiftl 1 27.

(** Modelled from the spec: JUST_DIRTIED, dirtied since the write started
    ([buf_internals.h]). *)
Definition BM_JUST_DIRTIED : Z := Z.shiftl 1 28.

(** Modelled from the spec: PIN_COUNT_WAITER, somebody waits for a cleanup
    lock ([buf_internals.h]). *)
Definition BM_PIN_COUNT_WAITER : Z := Z.shiftl 1 29.

(** Modelled from the spec: CHECKPOINT_NEEDED, selected by the current
    checkpoint ([buf_internals.h]). *)
Definition BM_CHECKPOINT_NEEDED : Z := Z.shiftl 1 30.

(** Modelled from the spec: PERMANENT, written at every checkpoint
    ([buf_internals.h]). *)
Definition BM_PERMANENT : Z := Z.shiftl 1 31.

(** Modelled from the spec: the cap of USAGE_COUNT ([buf_internals.h]). *)
Definition BM_MAX_USAGE_COUNT : Z := 5.

(** Modelled from the spec: the REFCOUNT field of a state word
    ([buf_internals.h]). *)
Definition BUF_STATE_GET_REFCOUNT (state : Z) : Z :=
  Z.land state BUF_REFCOUNT_MASK.

(** Modelled from the spec: the USAGE_COUNT field of a state word
    ([buf_internals.h]). *)
Definition BUF_STATE_GET_USAGECOUNT (state : Z) : Z :=
  Z.shiftr (Z.land state BUF_USAGECOUNT_MASK) BUF_USAGECOUNT_SHIFT.

(** The C test [(state & mask)] used as a condition. *)
Definition flag_set (state mask : Z) : bool := negb (Z.land state mask =? 0).

(** The flag bits of a state word. *)
Definition flags_of (state : Z) : Z := Z.land state BUF_FLAG_MASK.

(** ** Shared memory as seen by one backend *)

Record BufferTag := mkTag {
  spcOid : Z;
  dbOid : Z;
  relNumber : Z;
  forkNum : Z;
  blockNum : Z
}.

(** The shared part of one frame: the mutable fields of its [BufferDesc] and
    the LSN stored in the header of its page ([BufferGetLSN]). *)
Record Frame := mkFrame {
  tag : BufferTag;
  state : Z;
  wait_backend_pgprocno : Z;
  page_lsn : Z
}.

(** What the backend does to the outside world, oldest first. *)
Inductive event :=
| EvXLogFlush (recptr : Z)
| EvSmgrWrite (t : BufferTag)
| EvProcSendSignal (pgprocno : Z)
| EvIOCVBroadcast
| EvBufTableDelete (t : BufferTag)
| EvScheduleWriteback (t : BufferTag)
| EvMarkLocalBufferDirty (buffer : Z)
| EvPageDirtied.

(** One backend working on one frame.  [env] is the schedule of the other
    backends: before each atomic access of this backend to the state word,
    the next entry is consumed; [Some f] means the others have left the frame
    as [f], [None] (or an exhausted schedule) that they left it alone.
    [PrivateRefCount] is this backend's local pin count for the frame
    (0 when it has no [PrivateRefCountEntry]). *)
Record Backend := mkBackend {
  buf_id : Z;
  frame : Frame;
  env : list (option Frame);
  PrivateRefCount : Z;
  MyProc_pgprocno : Z;
  PinCountWaitBuf : bool;
  events : list event
}.

Definition set_frame (f : Frame) (w : Backend) : Backend :=
  mkBackend (buf_id w) f (env w) (PrivateRefCount w) (MyProc_pgprocno w)
            (PinCountWaitBuf w) (events w).

Definition set_env (e : list (option Frame)) (w : Backend) : Backend :=
  mkBackend (buf_id w) (frame w) e (PrivateRefCount w) (MyProc_pgprocno w)
            (PinCountWaitBuf w) (events w).

Definition set_PrivateRefCount (n : Z) (w : Backend) : Backend :=
  mkBackend (buf_id w) (frame w) (env w) n (MyProc_pgprocno w)
            (PinCountWaitBuf w) (events w).

Definition set_PinCountWaitBuf (b : bool) (w : Backend) : Backend :=
  mkBackend (buf_id w) (frame w) (env w) (PrivateRefCount w)
            (MyProc_pgprocno w) b (events w).

Definition emit (e : event) (w : Backend) : Backend :=
  mkBackend (buf_id w) (frame w) (env w) (PrivateRefCount w)
            (MyProc_pgprocno w) (PinCountWaitBuf w) (events w ++ [e]).

Definition with_state (v : Z) (f : Frame) : Frame :=
  mkFrame (tag f) v (wait_backend_pgprocno f) (page_lsn f).

Definition with_tag (t : BufferTag) (f : Frame) : Frame :=
  mkFrame t (state f) (wait_backend_pgprocno f) (page_lsn f).

Definition with_waiter (p : Z) (f : Frame) : Frame :=
  mkFrame (tag f) (state f) p (page_lsn f).

Definition set_state (v : Z) (w : Backend) : Backend :=
  set_frame (with_state v (frame w)) w.

(** The state word currently in shared memory. *)
Definition mem (w : Backend) : Z := state (frame w).

(** The other backends run: one entry of the schedule is consumed. *)
Definition env_step (w : Backend) : Backend :=
  match env w with
  | [] => w
  | None :: rest => set_env rest w
  | Some f :: rest => set_frame f (set_env rest w)
  end.

Fixpoint env_steps (k : nat) (w : Backend) : Backend :=
  match k with
  | O => w
  | S k' => env_steps k' (env_step w)
  end.

(** ** Outcomes: return, [elog(ERROR)], or still spinning *)

Inductive outcome (A : Type) :=
| Done (a : A) (w : Backend)
| Raise (msg : string) (w : Backend)
| Spin.
Arguments Done {A} a w.
Arguments Raise {A} msg w.
Arguments Spin {A}.

Definition M (A : Type) := Backend -> outcome A.

Definition ret {A} (a : A) : M A := fun w => Done a w.

Definition bind {A B} (m : M A) (k : A -> M B) : M B :=
  fun w => match m w with
           | Done a w' => k a w'
           | Raise msg w' => Raise msg w'
           | Spin => Spin
           end.

Notation "x <- m ;; k" := (bind m (fun x => k))
  (at level 61, m at next level, right associativity).
Notation "m ;;; k" := (bind m (fun _ => k))
  (at level 61, right associativity).

Definition modify (f : Backend -> Backend) : M unit := fun w => Done tt (f w).
Definition elog_ERROR {A} (msg : string) : M A := fun w => Raise msg w.

(** ** Atomic accesses to the state word *)

Definition pg_atomic_read_u32 : M Z :=
  fun w => let w1 := env_step w in Done (mem w1) w1.

(** [pg_atomic_compare_exchange_u32(&state, &expected, newval)]: the result
    is the success flag and the updated [expected]. *)
Definition pg_atomic_compare_exchange_u32 (expected newval : Z) : M (bool * Z) :=
  fun w =>
    let w1 := env_step w in
    if mem w1 =? expected
    then Done (true, expected) (set_state newval w1)
    else Done (false, mem w1) w1.

(** [LockBufHdr]: fetch-or [BM_LOCKED] until the old value had it clear. *)
Fixpoint LockBufHdr (fuel : nat) : M Z :=
  fun w =>
    match fuel with
    | O => Spin
    | S n =>
        let w1 := env_step w in
        let old_buf_state := mem w1 in
        let w2 := set_state (Z.lor old_buf_state BM_LOCKED) w1 in
        if flag_set old_buf_state BM_LOCKED
        then LockBufHdr n w2
        else Done (Z.lor old_buf_state BM_LOCKED) w2
    end.

(** [UnlockBufHdr(desc, buf_state)]: a plain store of the word without
    [BM_LOCKED]. *)
Definition UnlockBufHdr (buf_state : Z) : M unit :=
  modify (set_state (Z.land buf_state (not32 BM_LOCKED))).

(** [WaitBufHdrUnlocked]: re-read until [BM_LOCKED] is clear. *)
Fixpoint WaitBufHdrUnlocked (fuel : nat) : M Z :=
  fun w =>
    match fuel with
    | O => Spin
    | S n =>
        let w1 := env_step w in
        if flag_set (mem w1) BM_LOCKED
        then WaitBufHdrUnlocked n w1
        else Done (mem w1) w1
    end.

(** The lock-free update loop shared by [MarkBufferDirty], [PinBuffer] and
    [UnpinBuffer]:
<<
    for (;;) {
        if (old_buf_state & BM_LOCKED)
            old_buf_state = WaitBufHdrUnlocked(buf);
        buf_state = update(old_buf_state);
        if (pg_atomic_compare_exchange_u32(&buf->state, &old_buf_state, buf_state))
            break;
    }
>>
    It returns [(old_buf_state, buf_state)] as they are at the [break]. *)
Fixpoint cas_loop (update : Z -> Z) (fuel : nat) (old_buf_state : Z) : M (Z * Z) :=
  match fuel with
  | O => fun _ => Spin
  | S n =>
      old <- (if flag_set old_buf_state BM_LOCKED
              then WaitBufHdrUnlocked n
              else ret old_buf_state) ;;
      let buf_state := update old in
      r <- pg_atomic_compare_exchange_u32 old buf_state ;;
      if fst r then ret (old, buf_state) else cas_loop update n (snd r)
  end.

(** Shared memory holds [uint32] state words. *)
Definition is_u32 (x : Z) : Prop := 0 <= x < 2 ^ 32.

Definition u32_entry (e : option Frame) : Prop :=
  match e with
  | Some f => is_u32 (state f)
  | None => True
  end.

Definition u32_world (w : Backend) : Prop :=
  is_u32 (mem w) /\ Forall u32_entry (env w).

(** No other backend holds the header spinlock at the moments this backend
    looks at the word. *)
Definition unlocked_entry (e : option Frame) : Prop :=
  match e with
  | Some f => flag_set (state f) BM_LOCKED = false
  | None => True
  end.

Definition lock_free_world (w : Backend) : Prop :=
  flag_set (mem w) BM_LOCKED = false /\ Forall unlocked_entry (env w).

(** Every word the frame takes shows at least one pin: this backend holds
    one. *)
Definition pinned_entry (e : option Frame) : Prop :=
  match e with
  | Some f => 0 < BUF_STATE_GET_REFCOUNT (state f)
  | None => True
  end.

Definition pinned_world (w : Backend) : Prop :=
  0 < BUF_STATE_GET_REFCOUNT (mem w) /\ Forall pinned_entry (env w).

Definition gets {A} (f : Backend -> A) : M A := fun w => Done (f w) w.

(** A read of the state word by the holder of the header spinlock: nobody
    else stores to the word while [BM_LOCKED] is set. *)
Definition read_locked : M Z := gets mem.

(** ** The I/O gate: [WaitIO], [StartBufferIO], [TerminateBufferIO] *)

Fixpoint WaitIO (fuel : nat) : M unit :=
  match fuel with
  | O => fun _ => Spin
  | S n =>
      buf_state <- LockBufHdr n ;;
      UnlockBufHdr buf_state ;;;
      if negb (flag_set buf_state BM_IO_IN_PROGRESS)
      then ret tt
      else WaitIO n                      (* ConditionVariableSleep *)
  end.

(** The [for (;;)] loop of [StartBufferIO]: it leaves with the header
    spinlock held and returns the word it found, free of
    [BM_IO_IN_PROGRESS]. *)
Fixpoint StartBufferIO_wait (fuel : nat) : M Z :=
  match fuel with
  | O => fun _ => Spin
  | S n =>
      buf_state <- LockBufHdr n ;;
      if negb (flag_set buf_state BM_IO_IN_PROGRESS)
      then ret buf_state
      else UnlockBufHdr buf_state ;;; WaitIO n ;;; StartBufferIO_wait n
  end.

Definition StartBufferIO (fuel : nat) (forInput : bool) : M bool :=
  buf_state <- StartBufferIO_wait fuel ;;
  if (if forInput
      then flag_set buf_state BM_VALID
      else negb (flag_set buf_state BM_DIRTY))
  then
    (* someone else already did the I/O *)
    UnlockBufHdr buf_state ;;; ret false
  else
    let buf_state := Z.lor buf_state BM_IO_IN_PROGRESS in
    UnlockBufHdr buf_state ;;; ret true.

(** The word [TerminateBufferIO] stores (before [UnlockBufHdr] drops
    [BM_LOCKED]) when it found [buf_state] under the spinlock. *)
Definition TerminateBufferIO_word (clear_dirty : bool) (set_flag_bits : Z)
    (buf_state : Z) : Z :=
  let buf_state :=
    Z.land buf_state (not32 (Z.lor BM_IO_IN_PROGRESS BM_IO_ERROR)) in
  let buf_state :=
    if clear_dirty && negb (flag_set buf_state BM_JUST_DIRTIED)
    then Z.land buf_state (not32 (Z.lor BM_DIRTY BM_CHECKPOINT_NEEDED))
    else buf_state in
  Z.lor buf_state set_flag_bits.

Definition TerminateBufferIO (fuel : nat) (clear_dirty : bool)
    (set_flag_bits : Z) : M unit :=
  buf_state <- LockBufHdr fuel ;;
  UnlockBufHdr (TerminateBufferIO_word clear_dirty set_flag_bits buf_state) ;;;
  modify (emit EvIOCVBroadcast).

(** [AbortBufferIO]; the WARNING about repeated write failures is not
    part of the model. *)
Definition AbortBufferIO (fuel : nat) : M unit :=
  buf_state <- LockBufHdr fuel ;;
  UnlockBufHdr buf_state ;;;
  TerminateBufferIO fuel false BM_IO_ERROR.

(** ** [MarkBufferDirty] *)

Definition MarkBufferDirty_update (old_buf_state : Z) : Z :=
  Z.lor old_buf_state (Z.lor BM_DIRTY BM_JUST_DIRTIED).

(** [buffer] is the [Buffer] number; for a shared buffer ([buffer > 0]) the
    backend's frame is [GetBufferDescriptor(buffer - 1)]. *)
Definition MarkBufferDirty (fuel : nat) (buffer : Z) : M unit :=
  if buffer =? 0 then elog_ERROR "bad buffer ID"
  else if buffer <? 0 then modify (emit (EvMarkLocalBufferDirty buffer))
  else
    old_buf_state <- pg_atomic_read_u32 ;;
    r <- cas_loop MarkBufferDirty_update fuel old_buf_state ;;
    if negb (flag_set (fst r) BM_DIRTY)
    then modify (emit EvPageDirtied)       (* vacuum accounting *)
    else ret tt.

(** ** Pins *)

(** [NULL] is the default strategy, [Some ring] a strategy ring. *)
Definition BufferAccessStrategy := option nat.

Definition PinBuffer_update (strategy : BufferAccessStrategy)
    (old_buf_state : Z) : Z :=
  (* increase refcount *)
  let buf_state := u32 (old_buf_state + BUF_REFCOUNT_ONE) in
  match strategy with
  | None =>
      (* Default case: increase usagecount unless already max. *)
      if BUF_STATE_GET_USAGECOUNT buf_state <? BM_MAX_USAGE_COUNT
      then u32 (buf_state + BUF_USAGECOUNT_ONE)
      else buf_state
  | Some _ =>
      if BUF_STATE_GET_USAGECOUNT buf_state =? 0
      then u32 (buf_state + BUF_USAGECOUNT_ONE)
      else buf_state
  end.

Definition PinBuffer (fuel : nat) (strategy : BufferAccessStrategy) : M bool :=
  ref <- gets PrivateRefCount ;;
  result <-
    (if ref =? 0 then                    (* ref == NULL *)
       old_buf_state <- pg_atomic_read_u32 ;;
       r <- cas_loop (PinBuffer_update strategy) fuel old_buf_state ;;
       ret (flag_set (snd r) BM_VALID)
     else
       (* If we previously pinned the buffer, it must surely be valid. *)
       ret true) ;;
  modify (set_PrivateRefCount (ref + 1)) ;;;
  ret result.

(** Called with the header spinlock held and no pin of this backend: the
    new [PrivateRefCountEntry] starts at 0 and is incremented once. *)
Definition PinBuffer_Locked : M unit :=
  buf_state <- read_locked ;;
  let buf_state := u32 (buf_state + BUF_REFCOUNT_ONE) in
  UnlockBufHdr buf_state ;;;
  modify (set_PrivateRefCount (0 + 1)).

Definition UnpinBuffer_update (old_buf_state : Z) : Z :=
  u32 (old_buf_state - BUF_REFCOUNT_ONE).

(** The tail of [UnpinBuffer] that supports [LockBufferForCleanup];
    [buf_state] is the word the decrement installed. *)
Definition UnpinBuffer_wakeup (fuel : nat) (buf_state : Z) : M unit :=
  if flag_set buf_state BM_PIN_COUNT_WAITER then
    buf_state <- LockBufHdr fuel ;;
    if flag_set buf_state BM_PIN_COUNT_WAITER
       && (BUF_STATE_GET_REFCOUNT buf_state =? 1)
    then
      (* we just released the last pin other than the waiter's *)
      wait_backend_pgprocno <- gets (fun w => wait_backend_pgprocno (frame w)) ;;
      let buf_state := Z.land buf_state (not32 BM_PIN_COUNT_WAITER) in
      UnlockBufHdr buf_state ;;;
      modify (emit (EvProcSendSignal wait_backend_pgprocno))
    else UnlockBufHdr buf_state
  else ret tt.

Definition UnpinBuffer (fuel : nat) : M unit :=
  ref <- gets PrivateRefCount ;;
  modify (set_PrivateRefCount (ref - 1)) ;;;
  if ref - 1 =? 0 then
    old_buf_state <- pg_atomic_read_u32 ;;
    r <- cas_loop UnpinBuffer_update fuel old_buf_state ;;
    UnpinBuffer_wakeup fuel (snd r)
  else ret tt.

Definition CheckBufferIsPinnedOnce : M unit :=
  ref <- gets PrivateRefCount ;;
  if negb (ref =? 1) then elog_ERROR "incorrect local pin count" else ret tt.

(** ** [FlushBuffer] *)

Definition XLogFlush (recptr : Z) : M unit := modify (emit (EvXLogFlush recptr)).
Definition smgrwrite (t : BufferTag) : M unit := modify (emit (EvSmgrWrite t)).

Definition FlushBuffer (fuel : nat) : M unit :=
  started <- StartBufferIO fuel false ;;
  if negb started then ret tt
  else
    buf_state <- LockBufHdr fuel ;;
    (* Run PageGetLSN while holding header lock *)
    recptr <- gets (fun w => page_lsn (frame w)) ;;
    let buf_state := Z.land buf_state (not32 BM_JUST_DIRTIED) in
    UnlockBufHdr buf_state ;;;
    (if flag_set buf_state BM_PERMANENT then XLogFlush recptr else ret tt) ;;;
    t <- gets (fun w => tag (frame w)) ;;
    smgrwrite t ;;;
    TerminateBufferIO fuel true 0.

(** ** Victim acquisition *)

(** Modelled from the spec: [ClearBufferTag] is declared in
    [storage/buf_internals.h], which is not among the sources embedded here;
    the spec takes the zero tag as the invalid sentinel. *)
Definition ClearBufferTag : M unit :=
  modify (fun w => set_frame (with_tag (mkTag 0 0 0 0 0) (frame w)) w).

Definition InvalidateVictimBuffer (fuel : nat) : M bool :=
  (* have buffer pinned, so it's safe to read tag without lock *)
  t <- gets (fun w => tag (frame w)) ;;
  buf_state <- LockBufHdr fuel ;;
  if negb (BUF_STATE_GET_REFCOUNT buf_state =? 1) || flag_set buf_state BM_DIRTY
  then
    UnlockBufHdr buf_state ;;; ret false
  else
    ClearBufferTag ;;;
    let buf_state :=
      Z.land buf_state (not32 (Z.lor BUF_FLAG_MASK BUF_USAGECOUNT_MASK)) in
    UnlockBufHdr buf_state ;;;
    (* finally delete buffer from the buffer mapping table *)
    modify (emit (EvBufTableDelete t)) ;;;
    ret true.

(** Modelled from the spec: [StrategyGetBuffer], [StrategyRejectBuffer]
    (freelist.c), [XLogNeedsFlush] and the content lock are not among the
    sources embedded here.  One candidate is what one call of [StrategyGetBuffer]
    hands out: a frame with its header spinlock held and REFCOUNT 0, as the
    spec says of the clock sweep, together with the answers the other modules
    give while this candidate is being processed. *)
Record candidate := mkCandidate {
  c_buf_id : Z;
  c_frame : Frame;                       (* the header, spinlock held *)
  c_env : list (option Frame);           (* what the others do to it *)
  c_from_ring : bool;
  c_content_lock : bool;                 (* LWLockConditionalAcquire *)
  c_needs_flush : bool;                  (* XLogNeedsFlush(lsn) *)
  c_reject : bool                        (* StrategyRejectBuffer *)
}.

(** The backend turns to the frame [StrategyGetBuffer] returned; it holds no
    pin on it. *)
Definition focus (c : candidate) (w : Backend) : Backend :=
  mkBackend (c_buf_id c) (c_frame c) (c_env c) 0 (MyProc_pgprocno w)
            (PinCountWaitBuf w) (events w).

Definition ScheduleBufferTagForWriteback : M unit :=
  t <- gets (fun w => tag (frame w)) ;;
  modify (emit (EvScheduleWriteback t)).

(** The part of one round of [GetVictimBuffer] that writes a dirty victim
    out.  The result is [(keep, buf_state)]: [keep = false] stands for the
    [goto again] taken after unpinning. *)
Definition GetVictimBuffer_flush (fuel : nat) (strategy : BufferAccessStrategy)
    (c : candidate) (buf_state : Z) : M (bool * Z) :=
  if flag_set buf_state BM_DIRTY then
    if negb (c_content_lock c) then
      (* Someone else has locked the buffer, so give it up *)
      UnpinBuffer fuel ;;; ret (false, buf_state)
    else
      r <- match strategy with
           | Some _ =>
               (* Read the LSN while holding buffer header lock *)
               buf_state <- LockBufHdr fuel ;;
               UnlockBufHdr buf_state ;;;
               if c_needs_flush c && c_reject c
               then UnpinBuffer fuel ;;; ret (false, buf_state)
               else ret (true, buf_state)
           | None => ret (true, buf_state)
           end ;;
      if fst r then
        (* OK, do the I/O *)
        FlushBuffer fuel ;;;
        ScheduleBufferTagForWriteback ;;;
        ret r
      else ret r
  else ret (true, buf_state).

(** [GetVictimBuffer]: each [goto again] consumes the next candidate; when
    none is left, [StrategyGetBuffer] fails with the error the spec gives
    for a sweep that finds no replaceable frame.  The returned value is the
    [Buffer] number; the backend is left focused on the returned frame. *)
Fixpoint GetVictimBuffer (fuel : nat) (strategy : BufferAccessStrategy)
    (candidates : list candidate) : M Z :=
  match candidates with
  | [] => elog_ERROR "no unpinned buffers available"
  | c :: rest =>
      modify (focus c) ;;;
      buf_state <- read_locked ;;
      (* Pin the buffer and then release the buffer spinlock *)
      PinBuffer_Locked ;;;
      CheckBufferIsPinnedOnce ;;;
      r <- GetVictimBuffer_flush fuel strategy c buf_state ;;
      if negb (fst r) then GetVictimBuffer fuel strategy rest
      else
        let buf_state := snd r in
        if flag_set buf_state BM_TAG_VALID then
          ok <- InvalidateVictimBuffer fuel ;;
          if ok then gets (fun w => buf_id w + 1)
          else UnpinBuffer fuel ;;; GetVictimBuffer fuel strategy rest
        else gets (fun w => buf_id w + 1)
  end.

(** ** [LockBufferForCleanup] (shared buffers) *)

(** The [for (;;)] loop.  The content lock taken and released around each
    round and the recovery-conflict logging of a hot standby are not part of
    the model; [ProcWaitForSignal] is a point where the others run, which the
    next [LockBufHdr] accounts for. *)
Fixpoint LockBufferForCleanup_loop (fuel : nat) : M unit :=
  match fuel with
  | O => fun _ => Spin
  | S n =>
      buf_state <- LockBufHdr n ;;
      if BUF_STATE_GET_REFCOUNT buf_state =? 1 then
        (* Successfully acquired exclusive lock with pincount 1 *)
        UnlockBufHdr buf_state
      else if flag_set buf_state BM_PIN_COUNT_WAITER then
        UnlockBufHdr buf_state ;;;
        elog_ERROR "multiple backends attempting to wait for pincount 1"
      else
        (* Failed, so mark myself as waiting for pincount 1 *)
        modify (fun w => set_frame (with_waiter (MyProc_pgprocno w) (frame w)) w) ;;;
        modify (set_PinCountWaitBuf true) ;;;
        let buf_state := Z.lor buf_state BM_PIN_COUNT_WAITER in
        UnlockBufHdr buf_state ;;;
        (* Wait to be signaled by UnpinBuffer(), then remove the flag *)
        buf_state <- LockBufHdr n ;;
        waiter <- gets (fun w => wait_backend_pgprocno (frame w)) ;;
        me <- gets MyProc_pgprocno ;;
        let buf_state :=
          if flag_set buf_state BM_PIN_COUNT_WAITER && (waiter =? me)
          then Z.land buf_state (not32 BM_PIN_COUNT_WAITER)
          else buf_state in
        UnlockBufHdr buf_state ;;;
        modify (set_PinCountWaitBuf false) ;;;
        (* Loop back and try again *)
        LockBufferForCleanup_loop n
  end.

Definition LockBufferForCleanup (fuel : nat) : M unit :=
  CheckBufferIsPinnedOnce ;;;
  LockBufferForCleanup_loop fuel.

(** ** The mark phase of [BufferSync] *)

(** The checkpoint request flags are declared in [access/xlog.h], which
    is not among the sources embedded here; the spec names shutdown,
    end-of-recovery and flush-all as the requests that write unlogged
    buffers too. *)

(** Modelled from the spec: the shutdown request ([access/xlog.h]). *)
Definition CHECKPOINT_IS_SHUTDOWN : Z := 0x0001.

(** Modelled from the spec: the end-of-recovery request
    ([access/xlog.h]). *)
Definition CHECKPOINT_END_OF_RECOVERY : Z := 0x0002.

(** Modelled from the spec: no delays between writes ([access/xlog.h]). *)
Definition CHECKPOINT_IMMEDIATE : Z := 0x0004.

(** Modelled from the spec: forced checkpoint ([access/xlog.h]). *)
Definition CHECKPOINT_FORCE : Z := 0x0008.

(** Modelled from the spec: the flush-all request ([access/xlog.h]). *)
Definition CHECKPOINT_FLUSH_ALL : Z := 0x0010.

Record CkptSortItem := mkCkptSortItem {
  ck_tsId : Z;
  ck_relNumber : Z;
  ck_forkNum : Z;
  ck_blockNum : Z;
  ck_buf_id : Z
}.

Definition BufferSync_mask (flags : Z) : Z :=
  let mask := BM_DIRTY in
  if negb (flag_set flags
             (Z.lor (Z.lor CHECKPOINT_IS_SHUTDOWN CHECKPOINT_END_OF_RECOVERY)
                    CHECKPOINT_FLUSH_ALL))
  then Z.lor mask BM_PERMANENT
  else mask.

(** The body of the marking loop for the frame at index [buf_id]; the
    result is the item appended to [CkptBufferIds], if any. *)
Definition BufferSync_mark_buffer (fuel : nat) (mask : Z) (buf_id : Z)
    : M (option CkptSortItem) :=
  buf_state <- LockBufHdr fuel ;;
  if Z.land buf_state mask =? mask then
    let buf_state := Z.lor buf_state BM_CHECKPOINT_NEEDED in
    t <- gets (fun w => tag (frame w)) ;;
    UnlockBufHdr buf_state ;;;
    ret (Some (mkCkptSortItem (spcOid t) (relNumber t) (forkNum t)
                              (blockNum t) buf_id))
  else
    UnlockBufHdr buf_state ;;; ret None.

(** [for (buf_id = 0; buf_id < NBuffers; buf_id++)] over the descriptor
    array, each frame with its own schedule of the other backends.  The
    result is the array after the scan and the filled prefix of
    [CkptBufferIds] (its length is [num_to_scan]); [None] when a header
    spinlock is never obtained. *)
Fixpoint BufferSync_mark (fuel : nat) (mask : Z) (buf_id : Z)
    (BufferDescriptors : list Backend)
    : option (list Backend * list CkptSortItem) :=
  match BufferDescriptors with
  | [] => Some ([], [])
  | bufHdr :: rest =>
      match BufferSync_mark_buffer fuel mask buf_id bufHdr with
      | Done item bufHdr' =>
          match BufferSync_mark fuel mask (buf_id + 1) rest with
          | Some (rest', items) =>
              Some (bufHdr' :: rest',
                    match item with
                    | Some it => it :: items
                    | None => items
                    end)
          | None => None
          end
      | _ => None
      end
  end.

(** ** The choice of strategy in [DropRelationBuffers] *)

Definition u64 (x : Z) : Z := x mod 2 ^ 64.

(** Modelled from the spec: [InvalidBlockNumber] is declared in
    [storage/block.h], which is not among the sources embedded here.  A
    [BlockNumber] is a [uint32]; the invalid one is the largest. *)
Definition InvalidBlockNumber : Z := 0xFFFFFFFF.

(** Modelled from the spec: [BlockNumberIsValid] ([storage/block.h]) takes
    a [BlockNumber], so its argument is converted to [uint32]. *)
Definition BlockNumberIsValid (blockNumber : Z) : bool :=
  negb (u32 blockNumber =? InvalidBlockNumber).

Definition BUF_DROP_FULL_SCAN_THRESHOLD (NBuffers : Z) : Z :=
  u64 (Z.quot NBuffers 32).

(** The first loop of [DropRelationBuffers]; a fork is given by the result
    of [smgrnblocks_cached] for it and by its [firstDelBlock]. *)
Fixpoint count_blocks_to_invalidate (forks : list (Z * Z))
    (nBlocksToInvalidate : Z) : Z :=
  match forks with
  | [] => nBlocksToInvalidate
  | (nForkBlock, firstDelBlock) :: rest =>
      if nForkBlock =? InvalidBlockNumber then InvalidBlockNumber
      else count_blocks_to_invalidate rest
             (u64 (nBlocksToInvalidate + u32 (nForkBlock - firstDelBlock)))
  end.

Inductive drop_path :=
| DropLocalBuffers         (* a temporary relation of this backend *)
| DropNothing              (* a temporary relation of another backend *)
| FindAndDrop              (* lookups in the mapping table *)
| FullScan.                (* scan of the whole pool *)

Definition DropRelationBuffers_path (NBuffers : Z) (is_temp mine : bool)
    (forks : list (Z * Z)) : drop_path :=
  if is_temp then (if mine then DropLocalBuffers else DropNothing)
  else
    let nBlocksToInvalidate := count_blocks_to_invalidate forks 0 in
    if BlockNumberIsValid nBlocksToInvalidate
       && (nBlocksToInvalidate <? BUF_DROP_FULL_SCAN_THRESHOLD NBuffers)
    then FindAndDrop
    else FullScan.

(** The spec's wording of the mark condition: [DIRTY] is set and, unless
    the checkpoint flags include shutdown, end-of-recovery or flush-all,
    [PERMANENT] is set too. *)
Definition spec_checkpoint_needed (flags state : Z) : bool :=
  flag_set state BM_DIRTY
  && (flag_set flags CHECKPOINT_IS_SHUTDOWN
      || flag_set flags CHECKPOINT_END_OF_RECOVERY
      || flag_set flags CHECKPOINT_FLUSH_ALL
      || flag_set state BM_PERMANENT).

Definition CkptSortItem_of (buf_id : Z) (f : Frame) : CkptSortItem :=
  mkCkptSortItem (spcOid (tag f)) (relNumber (tag f)) (forkNum (tag f))
                 (blockNum (tag f)) buf_id.

(** The spec's wording of the size of a drop: the total number of blocks to
    invalidate, over the forks [(nblocks, first_block)]. *)
Fixpoint spec_blocks_to_invalidate (forks : list (Z * Z)) : Z :=
  match forks with
  | [] => 0
  | (nblocks, first_block) :: rest =>
      (nblocks - first_block) + spec_blocks_to_invalidate rest
  end.

(** A fork whose size is cached: [0 <= firstDelBlock <= nForkBlock], a valid
    block number. *)
Definition fork_cached (f : Z * Z) : Prop :=
  0 <= snd f <= fst f /\ fst f < InvalidBlockNumber.

(** What [GetVictimBuffer] relies on for a candidate: the word
    [StrategyGetBuffer] returns is a [uint32] with REFCOUNT 0 (asserted at
    the call), it satisfies the invariants that a valid or dirty frame has a
    tag (asserted for a dirty victim), and as long as this backend holds
    its pin nobody takes the tag away (asserted in
    [InvalidateVictimBuffer]). *)
Definition tag_valid_entry (e : option Frame) : Prop :=
  match e with
  | Some f => flag_set (state f) BM_TAG_VALID = true
  | None => True
  end.

Definition candidate_ok (c : candidate) : Prop :=
  let st := state (c_frame c) in
  is_u32 st
  /\ Forall u32_entry (c_env c)
  /\ BUF_STATE_GET_REFCOUNT st = 0
  /\ (flag_set st BM_VALID = true -> flag_set st BM_TAG_VALID = true)
  /\ (flag_set st BM_DIRTY = true -> flag_set st BM_TAG_VALID = true)
  /\ (flag_set st BM_TAG_VALID = true -> Forall tag_valid_entry (c_env c)).

(** ** Concrete frames used to exercise the theorems *)

(** A pinned, valid, clean frame with two pins and usage count 3. *)
Definition frame_clean : Frame :=
  mkFrame (mkTag 1663 5 16384 0 7)
          (Z.lor (Z.lor BM_VALID BM_TAG_VALID) (Z.lor BM_PERMANENT (3 * BUF_USAGECOUNT_ONE + 2)))
          0 1000.

Definition backend_of (f : Frame) (e : list (option Frame)) (pins : Z) : Backend :=
  mkBackend 3 f e pins 42 false [].


(** A frame with two pins, one of them of a backend (number 7) that waits
    for a cleanup lock. *)
Definition frame_waited : Frame :=
  mkFrame (mkTag 1663 5 16384 0 7)
          (Z.lor (Z.lor BM_VALID BM_TAG_VALID) (Z.lor BM_PIN_COUNT_WAITER 2))
          7 1000.

Definition backend_waited : Backend := backend_of frame_waited [] 1.

(** A valid, dirty frame whose write is in progress and has just failed. *)
Definition frame_writing : Frame :=
  mkFrame (mkTag 1663 5 16384 0 7)
          (Z.lor (Z.lor (Z.lor BM_VALID BM_TAG_VALID) (Z.lor BM_DIRTY BM_IO_IN_PROGRESS))
                 (Z.lor BM_PERMANENT 1))
          0 1000.

Definition backend_writing : Backend := backend_of frame_writing [] 1.

(** A valid, dirty, permanent frame, pinned once, with page LSN 1000; and
    the same frame of an unlogged relation. *)
Definition frame_dirty : Frame :=
  mkFrame (mkTag 1663 5 16384 0 7)
          (Z.lor (Z.lor (Z.lor BM_VALID BM_TAG_VALID) (Z.lor BM_DIRTY BM_JUST_DIRTIED))
                 (Z.lor BM_PERMANENT 1))
          0 1000.

Definition frame_dirty_unlogged : Frame :=
  mkFrame (mkTag 1663 5 16385 0 2)
          (Z.lor (Z.lor BM_VALID BM_TAG_VALID) (Z.lor (Z.lor BM_DIRTY BM_JUST_DIRTIED) 1))
          0 77.

Definition backend_dirty : Backend := backend_of frame_dirty [] 1.

(** The backend after [FlushBuffer] of that frame. *)
Definition backend_flushed : Backend :=
  match FlushBuffer 3 backend_dirty with
  | Done _ w' => w'
  | _ => backend_dirty
  end.

(** A pool of three frames: clean, dirty and permanent, dirty and
    unlogged. *)
Definition pool3 : list Backend :=
  [backend_of frame_clean [] 0; backend_of frame_dirty [] 0;
   backend_of frame_dirty_unlogged [] 0].

(** Two victims as the clock sweep hands them out, header spinlock held and
    REFCOUNT 0: a dirty permanent frame and a clean one with usage count 2
    left by an earlier sweep. *)
Definition victim_dirty (content_lock_free : bool) : candidate :=
  mkCandidate 5
    (mkFrame (mkTag 1663 5 16384 0 7)
       (Z.lor (Z.lor (Z.lor BM_VALID BM_TAG_VALID) (Z.lor BM_DIRTY BM_PERMANENT))
              BM_LOCKED)
       0 1000)
    [] false content_lock_free false false.

Definition victim_clean : candidate :=
  mkCandidate 9
    (mkFrame (mkTag 1663 5 16384 0 8)
       (Z.lor (Z.lor BM_VALID BM_TAG_VALID)
              (Z.lor BM_LOCKED (2 * BUF_USAGECOUNT_ONE)))
       0 500)
    [] false true false false.

Definition backend_idle : Backend :=
  mkBackend 0 (mkFrame (mkTag 0 0 0 0 0) 0 0 0) [] 0 42 false [].

(** The backend after [GetVictimBuffer] gave up the dirty victim, whose
    content lock was taken, and evicted the clean one. *)
Definition backend_with_victim : Backend :=
  match GetVictimBuffer 3 None [victim_dirty false; victim_clean] backend_idle with
  | Done _ w' => w'
  | _ => backend_idle
  end.

(** The clean frame after another backend dropped its pin, and a backend
    that finds the frame changed to that between its read and its
    compare-and-swap. *)
Definition frame_clean_unpinned : Frame :=
  with_state (state frame_clean - 1) frame_clean.

Definition backend_contended : Backend :=
  backend_of frame_clean [None; Some frame_clean_unpinned] 1.

(** * Further parts of the buffer manager *)

(** ** Outcomes of [LockBufferForCleanup] *)

(** How a run of the loop can end: with the word showing REFCOUNT 1, or
    with the error of a second waiter at a word showing another pin and
    [BM_PIN_COUNT_WAITER]. *)
Definition cleanup_outcome (w : Backend) (o : outcome unit) : Prop :=
  match o with
  | Done _ w' =>
      BUF_STATE_GET_REFCOUNT (mem w') = 1
      /\ flag_set (mem w') BM_LOCKED = false
      /\ PrivateRefCount w' = PrivateRefCount w
      /\ (PinCountWaitBuf w = false -> PinCountWaitBuf w' = false)
      /\ events w' = events w
  | Raise msg w' =>
      msg = "multiple backends attempting to wait for pincount 1"%string
      /\ BUF_STATE_GET_REFCOUNT (mem w') <> 1
      /\ flag_set (mem w') BM_PIN_COUNT_WAITER = true
      /\ flag_set (mem w') BM_LOCKED = false
      /\ PrivateRefCount w' = PrivateRefCount w
      /\ events w' = events w
  | Spin => True
  end.


(** ** Cleanup locks without waiting, and the error clean-up *)

(** [ConditionalLockBufferForCleanup] (shared buffers).  The content lock is
    not part of the model: [ConditionalLockBuffer] is the answer of the
    conditional acquisition. *)
Definition ConditionalLockBufferForCleanup (fuel : nat)
    (ConditionalLockBuffer : bool) : M bool :=
  (* There should be exactly one local pin *)
  refcount <- gets PrivateRefCount ;;
  if negb (refcount =? 1) then ret false
  else
    (* Try to acquire lock *)
    if negb ConditionalLockBuffer then ret false
    else
      buf_state <- LockBufHdr fuel ;;
      let refcount := BUF_STATE_GET_REFCOUNT buf_state in
      if refcount =? 1 then
        (* Successfully acquired exclusive lock with pincount 1 *)
        UnlockBufHdr buf_state ;;; ret true
      else
        (* Failed, so release the lock *)
        UnlockBufHdr buf_state ;;; ret false.

(** [IsBufferCleanupOK] (shared buffers). *)
Definition IsBufferCleanupOK (fuel : nat) : M bool :=
  (* There should be exactly one local pin *)
  refcount <- gets PrivateRefCount ;;
  if negb (refcount =? 1) then ret false
  else
    buf_state <- LockBufHdr fuel ;;
    if BUF_STATE_GET_REFCOUNT buf_state =? 1 then
      (* pincount is OK. *)
      UnlockBufHdr buf_state ;;; ret true
    else
      UnlockBufHdr buf_state ;;; ret false.

(** [UnlockBuffers]: [PinCountWaitBuf] is either [NULL] or this frame. *)
Definition UnlockBuffers (fuel : nat) : M unit :=
  buf <- gets PinCountWaitBuf ;;
  if buf then
    buf_state <- LockBufHdr fuel ;;
    waiter <- gets (fun w => wait_backend_pgprocno (frame w)) ;;
    me <- gets MyProc_pgprocno ;;
    let buf_state :=
      if flag_set buf_state BM_PIN_COUNT_WAITER && (waiter =? me)
      then Z.land buf_state (not32 BM_PIN_COUNT_WAITER)
      else buf_state in
    UnlockBufHdr buf_state ;;;
    modify (set_PinCountWaitBuf false)
  else ret tt.

(** ** [ReadRecentBuffer] (shared buffers) *)

(** Modelled from the spec: [BufferTagsEqual] is declared in
    [storage/buf_internals.h], which is not among the sources embedded here;
    the spec says that two keys are equal iff all components match. *)
Definition BufferTagsEqual (a b : BufferTag) : bool :=
  (spcOid a =? spcOid b) && (dbOid a =? dbOid b)
  && (relNumber a =? relNumber b) && (forkNum a =? forkNum b)
  && (blockNum a =? blockNum b).

(** [tag'] is what [InitBufferTag] builds from the arguments; the result
    tells whether the buffer was pinned.  The resource owner, the
    reservation of a tracker entry and the usage statistics are not part of
    the frame-level model. *)
Definition ReadRecentBuffer (fuel : nat) (tag' : BufferTag) : M bool :=
  ref <- gets PrivateRefCount ;;
  let have_private_ref := 0 <? ref in
  (* Do we already have this buffer pinned with a private reference?  If
     not, we have to lock the header first and then check. *)
  buf_state <- (if have_private_ref then pg_atomic_read_u32
                else LockBufHdr fuel) ;;
  t <- gets (fun w => tag (frame w)) ;;
  if flag_set buf_state BM_VALID && BufferTagsEqual tag' t then
    (if have_private_ref
     then PinBuffer fuel None ;;; ret tt      (* bump pin count *)
     else PinBuffer_Locked) ;;;               (* pin for first time *)
    ret true
  else
    (* If we locked the header above, now unlock. *)
    (if negb have_private_ref then UnlockBufHdr buf_state else ret tt) ;;;
    ret false.

(** ** [SyncOneBuffer] *)

Definition BUF_WRITTEN : Z := 0x01.
Definition BUF_REUSABLE : Z := 0x02.

(** The part of [SyncOneBuffer] after the test of the counters; the
    header spinlock is held and [buf_state] is the word found.  The content
    lock taken around [FlushBuffer] and the reservation of a tracker entry
    at the start of [SyncOneBuffer] are not part of the frame-level
    model. *)
Definition SyncOneBuffer_write (fuel : nat) (buf_state result : Z) : M Z :=
  if negb (flag_set buf_state BM_VALID) || negb (flag_set buf_state BM_DIRTY)
  then
    (* It's clean, so nothing to do *)
    UnlockBufHdr buf_state ;;; ret result
  else
    (* Pin it, share-lock it, write it. *)
    PinBuffer_Locked ;;;
    FlushBuffer fuel ;;;
    tag <- gets (fun w => tag (frame w)) ;;
    UnpinBuffer fuel ;;;
    modify (emit (EvScheduleWriteback tag)) ;;;
    ret (Z.lor result BUF_WRITTEN).

Definition SyncOneBuffer (fuel : nat) (skip_recently_used : bool) : M Z :=
  let result := 0 in
  buf_state <- LockBufHdr fuel ;;
  if (BUF_STATE_GET_REFCOUNT buf_state =? 0)
     && (BUF_STATE_GET_USAGECOUNT buf_state =? 0)
  then SyncOneBuffer_write fuel buf_state (Z.lor result BUF_REUSABLE)
  else if skip_recently_used then
    (* Caller told us not to write recently-used buffers *)
    UnlockBufHdr buf_state ;;; ret result
  else SyncOneBuffer_write fuel buf_state result.

(** ** [InvalidateBuffer] *)

(** From the label [retry] on.  [StrategyFreeBuffer] (freelist.c) is not
    among the sources embedded here: the result tells whether the frame was
    handed to it.  The partition lock of the mapping table, taken before
    the header is locked again and released on every way out, is not part
    of the model. *)
Fixpoint InvalidateBuffer_retry (fuel : nat) (oldTag : BufferTag) : M bool :=
  match fuel with
  | O => fun _ => Spin
  | S n =>
      (* Re-lock the buffer header *)
      buf_state <- LockBufHdr n ;;
      t <- gets (fun w => tag (frame w)) ;;
      (* If it's changed while we were waiting for lock, do nothing *)
      if negb (BufferTagsEqual t oldTag) then
        UnlockBufHdr buf_state ;;; ret false
      else if negb (BUF_STATE_GET_REFCOUNT buf_state =? 0) then
        UnlockBufHdr buf_state ;;;
        (* safety check: should definitely not be our *own* pin *)
        ref <- gets PrivateRefCount ;;
        if 0 <? ref then elog_ERROR "buffer is pinned in InvalidateBuffer"
        else WaitIO n ;;; InvalidateBuffer_retry n oldTag
      else
        (* Clear out the buffer's tag and flags. *)
        let oldFlags := Z.land buf_state BUF_FLAG_MASK in
        ClearBufferTag ;;;
        let buf_state :=
          Z.land buf_state (not32 (Z.lor BUF_FLAG_MASK BUF_USAGECOUNT_MASK)) in
        UnlockBufHdr buf_state ;;;
        (* Remove the buffer from the lookup hashtable, if it was in there. *)
        (if flag_set oldFlags BM_TAG_VALID
         then modify (emit (EvBufTableDelete oldTag)) else ret tt) ;;;
        (* Insert the buffer at the head of the list of free buffers. *)
        ret true
  end.

(** The buffer header spinlock is held at entry. *)
Definition InvalidateBuffer (fuel : nat) : M bool :=
  (* Save the original buffer tag before dropping the spinlock *)
  oldTag <- gets (fun w => tag (frame w)) ;;
  buf_state <- read_locked ;;
  UnlockBufHdr buf_state ;;;
  InvalidateBuffer_retry fuel oldTag.

(** ** [MarkBufferDirtyHint] *)

(** What the WAL modules answer during one call: [xlog.c], [xloginsert.c]
    and [storage.c] are not among the sources embedded here.
    [XLogSaveBufferForHint] is the LSN of the full-page image it wrote,
    [None] for [InvalidXLogRecPtr]. *)
Record HintEnv := mkHintEnv {
  XLogHintBitIsNeeded : bool;
  RecoveryInProgress : bool;
  RelFileLocatorSkippingWAL : bool;
  XLogSaveBufferForHint : option Z
}.

Definition with_page_lsn (l : Z) (f : Frame) : Frame :=
  mkFrame (tag f) (state f) (wait_backend_pgprocno f) l.

Definition PageSetLSN (lsn : Z) : M unit :=
  modify (fun w => set_frame (with_page_lsn lsn (frame w)) w).

(** [buffer] is the [Buffer] number, as for [MarkBufferDirty]; the
    [delayChkptFlags] of the process are not part of the model. *)
Definition MarkBufferDirtyHint (fuel : nat) (buffer : Z) (e : HintEnv) : M unit :=
  if buffer =? 0 then elog_ERROR "bad buffer ID"
  else if buffer <? 0 then modify (emit (EvMarkLocalBufferDirty buffer))
  else
    s <- pg_atomic_read_u32 ;;
    if negb (Z.land s (Z.lor BM_DIRTY BM_JUST_DIRTIED)
             =? Z.lor BM_DIRTY BM_JUST_DIRTIED)
    then
      wal <- (if XLogHintBitIsNeeded e
              then s <- pg_atomic_read_u32 ;; ret (flag_set s BM_PERMANENT)
              else ret false) ;;
      if wal && (RecoveryInProgress e || RelFileLocatorSkippingWAL e)
      then
        (* If we must not write WAL, don't dirty the page. *)
        ret tt
      else
        let lsn := if wal then XLogSaveBufferForHint e else None in
        buf_state <- LockBufHdr fuel ;;
        let dirtied := negb (flag_set buf_state BM_DIRTY) in
        (* Set the page LSN if we wrote a backup block. *)
        (if dirtied
         then match lsn with Some l => PageSetLSN l | None => ret tt end
         else ret tt) ;;;
        let buf_state := Z.lor buf_state (Z.lor BM_DIRTY BM_JUST_DIRTIED) in
        UnlockBufHdr buf_state ;;;
        if dirtied then modify (emit EvPageDirtied) else ret tt
    else ret tt.

(** ** Outcomes of [InvalidateBuffer] *)

(** How [InvalidateBuffer] can end, for the world [w] in which it dropped
    the header spinlock: the frame was freed, found unpinned and still
    carrying [oldTag]; or it was left alone because its tag had changed; or
    the error of a pin of the backend's own. *)
Definition invalidate_outcome (oldTag : BufferTag) (w : Backend)
    (o : outcome bool) : Prop :=
  match o with
  | Done freed w' =>
      PrivateRefCount w' = PrivateRefCount w
      /\ if freed then
           BUF_STATE_GET_REFCOUNT (mem w') = 0
           /\ BUF_STATE_GET_USAGECOUNT (mem w') = 0
           /\ (forall n, 22 <= n < 32 ->
                 flag_set (mem w') (Z.shiftl 1 n) = false)
           /\ tag (frame w') = mkTag 0 0 0 0 0
           /\ exists k : nat,
                let before := env_steps k w in
                tag (frame before) = oldTag
                /\ BUF_STATE_GET_REFCOUNT (mem before) = 0
                /\ flag_set (mem before) BM_LOCKED = false
                /\ events w' =
                   events w
                   ++ (if flag_set (mem before) BM_TAG_VALID
                       then [EvBufTableDelete oldTag] else [])
         else
           (exists k : nat, w' = env_steps k w)
           /\ tag (frame w') <> oldTag
  | Raise msg w' =>
      msg = "buffer is pinned in InvalidateBuffer"%string
      /\ 0 < PrivateRefCount w
      /\ (exists k : nat, w' = env_steps k w)
      /\ BUF_STATE_GET_REFCOUNT (mem w') <> 0
      /\ tag (frame w') = oldTag
  | Spin => True
  end.

(** ** Further concrete runs *)

(** The backend after [AbortBufferIO] of the failed write. *)
Definition backend_aborted : Backend :=
  match AbortBufferIO 2 backend_writing with
  | Done _ w' => w'
  | _ => backend_writing
  end.

(** A backend waiting for the write of [frame_writing], which another
    backend completes after one more look at the frame. *)
Definition backend_awaiting_io : Backend :=
  backend_of frame_writing [None; Some frame_dirty] 1.

Definition backend_after_wait : Backend :=
  match WaitIO 4 backend_awaiting_io with
  | Done _ w' => w'
  | _ => backend_awaiting_io
  end.

(** This backend (42) registered as the waiter for pin count 1 of a frame
    another backend still pins, and was interrupted while waiting. *)
Definition frame_waiting_for_me : Frame :=
  mkFrame (mkTag 1663 5 16384 0 7)
          (Z.lor (Z.lor BM_VALID BM_TAG_VALID) (Z.lor BM_PIN_COUNT_WAITER 2))
          42 1000.

Definition backend_interrupted : Backend :=
  mkBackend 3 frame_waiting_for_me [] 1 42 true [].

Definition backend_cleaned_up : Backend :=
  match UnlockBuffers 1 backend_interrupted with
  | Done _ w' => w'
  | _ => backend_interrupted
  end.

(** The tag of the example frames, and the backend after
    [ReadRecentBuffer] found the clean frame still holding it. *)
Definition tag_7 : BufferTag := mkTag 1663 5 16384 0 7.

Definition backend_recent : Backend :=
  match ReadRecentBuffer 1 tag_7 (backend_of frame_clean [] 0) with
  | Done _ w' => w'
  | _ => backend_of frame_clean [] 0
  end.

(** A valid frame nobody pins, as the scan of [DropRelationBuffers] holds it:
    header spinlock taken. *)
Definition frame_to_drop : Frame :=
  mkFrame tag_7
          (Z.lor (Z.lor (Z.lor BM_VALID BM_TAG_VALID) BM_LOCKED)
                 (Z.lor BM_DIRTY (2 * BUF_USAGECOUNT_ONE)))
          0 1000.

Definition backend_to_drop : Backend := backend_of frame_to_drop [] 0.

(** The same backend once [InvalidateBuffer] has dropped the spinlock. *)
Definition backend_to_drop_entry : Backend :=
  set_state (Z.land (mem backend_to_drop) (not32 BM_LOCKED)) backend_to_drop.

(** The dirty frame of [frame_dirty] with nobody holding a pin, as the
    background writer finds it. *)
Definition frame_dirty_unpinned : Frame :=
  with_state (state frame_dirty - 1) frame_dirty.

Definition backend_bgwriter : Backend := backend_of frame_dirty_unpinned [] 0.

Definition backend_synced : Backend :=
  match SyncOneBuffer 3 true backend_bgwriter with
  | Done _ w' => w'
  | _ => backend_bgwriter
  end.

(** Checksums are on and the backend is in recovery; and checksums are on
    in normal running, where the full-page image gets LSN 2000. *)
Definition hint_in_recovery : HintEnv := mkHintEnv true true false None.
Definition hint_logged : HintEnv := mkHintEnv true false false (Some 2000).

Definition backend_hinted : Backend :=
  match MarkBufferDirtyHint 1 4 hint_logged (backend_of frame_clean [] 1) with
  | Done _ w' => w'
  | _ => backend_of frame_clean [] 1
  end.

(** * Backend-private reference counts *)

(** The tracker of the pins this backend holds: a small array searched
    sequentially and an overflow hash table.  The frame-level model above
    keeps the count of one frame in [PrivateRefCount]; here the tracker
    itself is embedded, for all buffers. *)

Record PrivateRefCountEntry := mkEntry {
  buffer : Z;
  refcount : Z
}.

Definition REFCOUNT_ARRAY_ENTRIES : Z := 8.

(** Modelled from the spec: [InvalidBuffer] is declared in [storage/buf.h],
    which is not among the sources embedded here; buffer numbers of shared
    frames start at 1 (index + 1). *)
Definition InvalidBuffer : Z := 0.

(** A [PrivateRefCountEntry *]: a slot of [PrivateRefCountArray] or the entry
    of [PrivateRefCountHash] with the given key. *)
Inductive EntryRef :=
| ArrayRef (i : nat)
| HashRef (key : Z).

Record PinCache := mkPinCache {
  PrivateRefCountArray : list PrivateRefCountEntry;
  PrivateRefCountHash : list (Z * Z);    (* buffer, refcount *)
  PrivateRefCountOverflowed : Z;
  PrivateRefCountClock : Z;              (* uint32 *)
  ReservedRefCountEntry : option nat     (* a slot of the array, or NULL *)
}.

(** Modelled from the spec: [hash_search] belongs to [dynahash.c], which is
    not among the sources embedded here; the overflow table is taken as a
    finite map from buffer numbers to counts, kept as an association list. *)
Definition hash_find (key : Z) (h : list (Z * Z)) : option Z :=
  match find (fun p => fst p =? key) h with
  | Some p => Some (snd p)
  | None => None
  end.

(** Modelled from the spec: [HASH_REMOVE] ([dynahash.c]). *)
Definition hash_remove (key : Z) (h : list (Z * Z)) : list (Z * Z) :=
  filter (fun p => negb (fst p =? key)) h.

(** Modelled from the spec: [HASH_ENTER] ([dynahash.c]) followed by the
    store of the count into the entry. *)
Definition hash_enter (key v : Z) (h : list (Z * Z)) : list (Z * Z) :=
  (key, v) :: hash_remove key h.

Fixpoint find_index {A : Type} (p : A -> bool) (l : list A) : option nat :=
  match l with
  | [] => None
  | x :: rest => if p x then Some O else option_map S (find_index p rest)
  end.

Fixpoint set_nth {A : Type} (i : nat) (x : A) (l : list A) : list A :=
  match l, i with
  | [], _ => []
  | _ :: rest, O => x :: rest
  | y :: rest, S j => y :: set_nth j x rest
  end.

Definition slot (i : nat) (st : PinCache) : PrivateRefCountEntry :=
  nth i (PrivateRefCountArray st) (mkEntry InvalidBuffer 0).

Definition set_slot (i : nat) (e : PrivateRefCountEntry) (st : PinCache) : PinCache :=
  mkPinCache (set_nth i e (PrivateRefCountArray st)) (PrivateRefCountHash st)
             (PrivateRefCountOverflowed st) (PrivateRefCountClock st)
             (ReservedRefCountEntry st).

Definition set_Reserved (r : option nat) (st : PinCache) : PinCache :=
  mkPinCache (PrivateRefCountArray st) (PrivateRefCountHash st)
             (PrivateRefCountOverflowed st) (PrivateRefCountClock st) r.

Definition ReservePrivateRefCountEntry (st : PinCache) : PinCache :=
  match ReservedRefCountEntry st with
  | Some _ =>
      (* Already reserved (or freed), nothing to do *)
      st
  | None =>
      (* First search for a free entry the array *)
      match find_index (fun res => buffer res =? InvalidBuffer)
                       (PrivateRefCountArray st) with
      | Some i => set_Reserved (Some i) st
      | None =>
          (* No luck.  Move one array entry into the hash table. *)
          let i := Z.to_nat (PrivateRefCountClock st mod REFCOUNT_ARRAY_ENTRIES) in
          let victim := slot i st in
          mkPinCache
            (* clear the now free array slot *)
            (set_nth i (mkEntry InvalidBuffer 0) (PrivateRefCountArray st))
            (* enter victim array entry into hashtable *)
            (hash_enter (buffer victim) (refcount victim) (PrivateRefCountHash st))
            (PrivateRefCountOverflowed st + 1)
            (u32 (PrivateRefCountClock st + 1))
            (Some i)
      end
  end.

(** [None] stands for the failure of
    [Assert(ReservedRefCountEntry != NULL)]. *)
Definition NewPrivateRefCountEntry (b : Z) (st : PinCache)
    : option (EntryRef * PinCache) :=
  match ReservedRefCountEntry st with
  | None => None
  | Some i =>
      (* use up the reserved entry and fill it *)
      Some (ArrayRef i, set_Reserved None (set_slot i (mkEntry b 0) st))
  end.

Definition GetPrivateRefCountEntry (b : Z) (do_move : bool) (st : PinCache)
    : option EntryRef * PinCache :=
  match find_index (fun res => buffer res =? b) (PrivateRefCountArray st) with
  | Some i => (Some (ArrayRef i), st)
  | None =>
      (* Only look up the buffer in the hashtable if we've previously
         overflowed into it. *)
      if PrivateRefCountOverflowed st =? 0 then (None, st)
      else
        match hash_find b (PrivateRefCountHash st) with
        | None => (None, st)
        | Some count =>
            if negb do_move then (Some (HashRef b), st)
            else
              (* move buffer from hashtable into the free array slot *)
              let st := ReservePrivateRefCountEntry st in
              match ReservedRefCountEntry st with
              | None => (None, st)       (* Assert(ReservedRefCountEntry != NULL) *)
              | Some free =>
                  (Some (ArrayRef free),
                   mkPinCache
                     (set_nth free (mkEntry b count) (PrivateRefCountArray st))
                     (hash_remove b (PrivateRefCountHash st))
                     (PrivateRefCountOverflowed st - 1)
                     (PrivateRefCountClock st)
                     None)
              end
        end
  end.

(** [ref->refcount], for a reference returned for this state. *)
Definition deref (r : EntryRef) (st : PinCache) : Z :=
  match r with
  | ArrayRef i => refcount (slot i st)
  | HashRef key =>
      match hash_find key (PrivateRefCountHash st) with
      | Some count => count
      | None => 0
      end
  end.

Definition GetPrivateRefCount (b : Z) (st : PinCache) : Z :=
  match fst (GetPrivateRefCountEntry b false st) with
  | None => 0
  | Some ref => deref ref st
  end.

Definition ForgetPrivateRefCountEntry (ref : EntryRef) (st : PinCache) : PinCache :=
  match ref with
  | ArrayRef i =>
      (* Mark the just used entry as reserved *)
      set_Reserved (Some i)
        (set_slot i (mkEntry InvalidBuffer (refcount (slot i st))) st)
  | HashRef key =>
      mkPinCache (PrivateRefCountArray st)
                 (hash_remove key (PrivateRefCountHash st))
                 (PrivateRefCountOverflowed st - 1)
                 (PrivateRefCountClock st)
                 (ReservedRefCountEntry st)
  end.

(** [ref->refcount = v]. *)
Definition store_refcount (ref : EntryRef) (v : Z) (st : PinCache) : PinCache :=
  match ref with
  | ArrayRef i => set_slot i (mkEntry (buffer (slot i st)) v) st
  | HashRef key =>
      mkPinCache (PrivateRefCountArray st)
                 (map (fun p => if fst p =? key then (key, v) else p)
                      (PrivateRefCountHash st))
                 (PrivateRefCountOverflowed st)
                 (PrivateRefCountClock st)
                 (ReservedRefCountEntry st)
  end.

(** What the tracker holds: [b] is tracked with count [c]. *)
Definition tracked (st : PinCache) (b c : Z) : Prop :=
  (exists i : nat, nth_error (PrivateRefCountArray st) i = Some (mkEntry b c))
  \/ In (b, c) (PrivateRefCountHash st).

(** The state the functions keep the tracker in. *)
Record cache_ok (st : PinCache) : Prop := mkCacheOk {
  ok_length : List.length (PrivateRefCountArray st) = 8%nat;
  ok_array : forall i j e e',
      nth_error (PrivateRefCountArray st) i = Some e ->
      nth_error (PrivateRefCountArray st) j = Some e' ->
      buffer e = buffer e' -> buffer e <> InvalidBuffer -> i = j;
  ok_hash : NoDup (map fst (PrivateRefCountHash st));
  ok_hash_valid : forall b c, In (b, c) (PrivateRefCountHash st) ->
      b <> InvalidBuffer;
  ok_disjoint : forall i e c,
      nth_error (PrivateRefCountArray st) i = Some e ->
      In (buffer e, c) (PrivateRefCountHash st) -> False;
  ok_overflowed :
      PrivateRefCountOverflowed st = Z.of_nat (List.length (PrivateRefCountHash st));
  ok_reserved : forall i, ReservedRefCountEntry st = Some i ->
      exists c, nth_error (PrivateRefCountArray st) i = Some (mkEntry InvalidBuffer c);
  ok_clock : 0 <= PrivateRefCountClock st
}.


(** Eight buffers pinned once each, then a ninth. *)
Definition cache_full : PinCache :=
  mkPinCache (map (fun b => mkEntry b 1) [11; 12; 13; 14; 15; 16; 17; 18])
             [] 0 0 None.

Definition cache_overflowed : PinCache :=
  mkPinCache (map (fun b => mkEntry b 1) [19; 12; 13; 14; 15; 16; 17; 18])
             [(11, 3)] 1 1 None.

(** The reference [r] designates the entry of buffer [b], whose count is
    [c]. *)
Definition points_to (st : PinCache) (r : EntryRef) (b c : Z) : Prop :=
  match r with
  | ArrayRef i => nth_error (PrivateRefCountArray st) i = Some (mkEntry b c)
  | HashRef key => key = b /\ In (b, c) (PrivateRefCountHash st)
  end.

(** Every tracked buffer is pinned: an entry whose count drops to 0 is
    forgotten at once. *)
Definition counts_positive (st : PinCache) : Prop :=
  forall b c, b <> InvalidBuffer -> tracked st b c -> 0 < c.

(** [IncrBufferRefCount] (shared buffers); [None] stands for the failure
    of [Assert(ref != NULL)].  The count is an [int32]: the increment is
    that of C as long as it stays below [2^31].  The resource owner is not
    part of the model. *)
Definition IncrBufferRefCount (b : Z) (st : PinCache) : option PinCache :=
  match GetPrivateRefCountEntry b true st with
  | (Some ref, st) => Some (store_refcount ref (deref ref st + 1) st)
  | (None, _) => None
  end.

(** What [PinBuffer] does to the tracker: the entry is looked up, and
    created if there is none (the case in which the shared state word is
    changed), then its count is raised. *)
Definition PinBuffer_private (b : Z) (st : PinCache) : option PinCache :=
  match GetPrivateRefCountEntry b true st with
  | (Some ref, st) => Some (store_refcount ref (deref ref st + 1) st)
  | (None, st) =>
      let st := ReservePrivateRefCountEntry st in
      match NewPrivateRefCountEntry b st with
      | Some (ref, st) => Some (store_refcount ref (deref ref st + 1) st)
      | None => None
      end
  end.

(** What [UnpinBuffer] does to the tracker: the count is lowered, and the
    entry forgotten when it reaches 0 (the case in which the shared state
    word is changed); [None] stands for the failure of
    [Assert(ref != NULL)]. *)
Definition UnpinBuffer_private (b : Z) (st : PinCache) : option PinCache :=
  match GetPrivateRefCountEntry b false st with
  | (Some ref, st) =>
      let st := store_refcount ref (deref ref st - 1) st in
      if deref ref st =? 0
      then Some (ForgetPrivateRefCountEntry ref st)
      else Some st
  | (None, _) => None
  end.

(** * Orders, writeback requests and pin limits *)

(** ** The comparators *)

(** [rlocator_comparator]; the locator is read off the tag, as
    [BufTagGetRelFileLocator] does. *)
Definition rlocator_comparator (n1 n2 : BufferTag) : Z :=
  if relNumber n1 <? relNumber n2 then -1
  else if relNumber n1 >? relNumber n2 then 1
  else if dbOid n1 <? dbOid n2 then -1
  else if dbOid n1 >? dbOid n2 then 1
  else if spcOid n1 <? spcOid n2 then -1
  else if spcOid n1 >? spcOid n2 then 1
  else 0.

Definition buffertag_comparator (ba bb : BufferTag) : Z :=
  let ret := rlocator_comparator ba bb in
  if negb (ret =? 0) then ret
  else
    if forkNum ba <? forkNum bb then -1
    else if forkNum ba >? forkNum bb then 1
    else if blockNum ba <? blockNum bb then -1
    else if blockNum ba >? blockNum bb then 1
    else 0.

Definition ckpt_buforder_comparator (a b : CkptSortItem) : Z :=
  (* compare tablespace *)
  if ck_tsId a <? ck_tsId b then -1
  else if ck_tsId a >? ck_tsId b then 1
  (* compare relation *)
  else if ck_relNumber a <? ck_relNumber b then -1
  else if ck_relNumber a >? ck_relNumber b then 1
  (* compare fork *)
  else if ck_forkNum a <? ck_forkNum b then -1
  else if ck_forkNum a >? ck_forkNum b then 1
  (* compare block number *)
  else if ck_blockNum a <? ck_blockNum b then -1
  else if ck_blockNum a >? ck_blockNum b then 1
  (* equal page IDs are unlikely, but not impossible *)
  else 0.

(** ** Pending writebacks *)

Module Writeback.

(** The pending requests: [pending_writebacks] holds the first [nr_pending]
    slots of the array, so [nr_pending] is its length; [max_pending] is the
    value the context points to. *)
Record WritebackContext := mkContext {
  max_pending : Z;
  pending_writebacks : list BufferTag
}.

Definition nr_pending (wb : WritebackContext) : Z :=
  Z.of_nat (List.length (pending_writebacks wb)).

Definition WritebackContextInit (max_pending : Z) : WritebackContext :=
  mkContext max_pending [].

(** Modelled from the spec: [RelFileLocatorEquals] is declared in
    [storage/relfilelocator.h], which is not among the sources embedded
    here; two locators are equal iff all components match. *)
Definition RelFileLocatorEquals (a b : BufferTag) : bool :=
  (relNumber a =? relNumber b) && (dbOid a =? dbOid b)
  && (spcOid a =? spcOid b).

(** Modelled from the spec: [sort_pending_writebacks] is generated by
    [lib/sort_template.h], which is not among the sources embedded here;
    the spec says the requests are sorted by tag.  The order is that of
    [buffertag_comparator]. *)
Fixpoint sort_insert (t : BufferTag) (l : list BufferTag) : list BufferTag :=
  match l with
  | [] => [t]
  | x :: rest =>
      if buffertag_comparator t x <=? 0 then t :: l
      else x :: sort_insert t rest
  end.

(** Modelled from the spec: the sort itself, see [sort_insert]. *)
Definition sort_pending_writebacks (l : list BufferTag) : list BufferTag :=
  fold_right sort_insert [] l.

(** The two nested loops of [IssuePendingWritebacks], run over what is left
    of the sorted array.  [tag] is the request the current range starts at,
    [cur] the last one merged into it, [nblocks] its length so far.  The
    result lists the calls [smgrwriteback(reln, fork, tag.blockNum,
    nblocks)] in order, as [(tag, nblocks)]. *)
Fixpoint coalesce (tag cur : BufferTag) (nblocks : Z) (rest : list BufferTag)
    : list (BufferTag * Z) :=
  match rest with
  | [] => [(tag, nblocks)]
  | next :: rest' =>
      (* different file, stop *)
      if negb (RelFileLocatorEquals tag next)
         || negb (forkNum cur =? forkNum next)
      then (tag, nblocks) :: coalesce next next 1 rest'
      (* ok, block queued twice, skip *)
      else if blockNum cur =? blockNum next
      then coalesce tag cur nblocks rest'
      (* only merge consecutive writes *)
      else if negb (u32 (blockNum cur + 1) =? blockNum next)
      then (tag, nblocks) :: coalesce next next 1 rest'
      else coalesce tag next (nblocks + 1) rest'
  end.

(** The result is the context left and the writebacks issued. *)
Definition IssuePendingWritebacks (wb : WritebackContext)
    : WritebackContext * list (BufferTag * Z) :=
  if nr_pending wb =? 0 then (wb, [])
  else
    match sort_pending_writebacks (pending_writebacks wb) with
    | [] => (mkContext (max_pending wb) [], [])
    | tag :: rest => (mkContext (max_pending wb) [], coalesce tag tag 1 rest)
    end.

(** [io_direct] stands for [io_direct_flags & IO_DIRECT_DATA]. *)
Definition ScheduleBufferTagForWriteback (io_direct : bool)
    (wb : WritebackContext) (tag : BufferTag)
    : WritebackContext * list (BufferTag * Z) :=
  if io_direct then (wb, [])
  else
    (* Add buffer to the pending writeback array, unless writeback control
       is disabled. *)
    let wb :=
      if max_pending wb >? 0
      then mkContext (max_pending wb) (pending_writebacks wb ++ [tag])
      else wb in
    (* Perform pending flushes if the writeback limit is exceeded. *)
    if nr_pending wb >=? max_pending wb
    then IssuePendingWritebacks wb
    else (wb, []).

(** The block [t] lies in the range a call [(s, n)] covers. *)
Definition covers (c : BufferTag * Z) (t : BufferTag) : Prop :=
  RelFileLocatorEquals (fst c) t = true
  /\ forkNum (fst c) = forkNum t
  /\ exists k, 0 <= k < snd c /\ blockNum t = u32 (blockNum (fst c) + k).

End Writeback.

(** The state of the inner loop: the range starts at [tag], is [n] blocks
    long and [cur] is its last block. *)
Definition run_ok (tag cur : BufferTag) (n : Z) : Prop :=
  1 <= n
  /\ Writeback.RelFileLocatorEquals tag cur = true
  /\ forkNum tag = forkNum cur
  /\ blockNum cur = u32 (blockNum tag + (n - 1)).

(** ** [LimitAdditionalPins] *)

(** Conversion to [int]. *)
Definition int32 (x : Z) : Z := (x + 2 ^ 31) mod 2 ^ 32 - 2 ^ 31.

(** [NBuffers], [MaxBackends] and [NUM_AUXILIARY_PROCS] are [int]s set
    elsewhere; [overflowed] is [PrivateRefCountOverflowed].  The result is
    the new value of [*additional_pins], a [uint32]. *)
Definition LimitAdditionalPins (NBuffers MaxBackends NUM_AUXILIARY_PROCS : Z)
    (overflowed : Z) (additional_pins : Z) : Z :=
  if additional_pins <=? 1 then additional_pins
  else
    let max_backends := u32 (MaxBackends + NUM_AUXILIARY_PROCS) in
    let max_proportional_pins := int32 (u32 NBuffers / max_backends) in
    let max_proportional_pins :=
      int32 (max_proportional_pins - (overflowed + REFCOUNT_ARRAY_ENTRIES)) in
    let max_proportional_pins :=
      if max_proportional_pins <=? 0 then 1 else max_proportional_pins in
    if additional_pins >? u32 max_proportional_pins
    then u32 max_proportional_pins
    else additional_pins.

(** ** Examples *)

(** Requests for blocks 8, 7, 10 and again 8 of one relation fork and for
    block 3 of another relation, with room for eight requests. *)
Definition wb_example : Writeback.WritebackContext :=
  Writeback.mkContext 8
    [mkTag 1663 5 16384 0 8; mkTag 1663 5 16384 0 7; mkTag 1663 5 16384 0 10;
     mkTag 1663 5 16385 0 3; mkTag 1663 5 16384 0 8].

(** ** Bit-level facts about the state word *)

Lemma testbit_pow2 (n i : Z) :
  0 <= n -> Z.testbit (Z.shiftl 1 n) i = (n =? i).
Proof.
  intros Hn. rewrite Z.shiftl_1_l.
  destruct (Z.eqb_spec n i) as [->|Hne].
  - now apply Z.pow2_bits_true.
  - destruct (Z.ltb_spec i 0) as [Hi|Hi].
    + now apply Z.testbit_neg_r.
    + apply Z.pow2_bits_false. congruence.
Qed.

Lemma land_pow2 (s n : Z) :
  0 <= n ->
  Z.land s (Z.shiftl 1 n) = if Z.testbit s n then Z.shiftl 1 n else 0.
Proof.
  intros Hn. apply Z.bits_inj'. intros i Hi.
  rewrite Z.land_spec, testbit_pow2 by assumption.
  destruct (Z.eqb_spec n i) as [->|Hne].
  - destruct (Z.testbit s i) eqn:E.
    + now rewrite testbit_pow2, Z.eqb_refl.
    + now rewrite Z.bits_0.
  - rewrite andb_false_r.
    destruct (Z.testbit s n).
    + rewrite testbit_pow2 by assumption. symmetry. now apply Z.eqb_neq.
    + now rewrite Z.bits_0.
Qed.

Lemma flag_set_bit (s n : Z) :
  0 <= n -> flag_set s (Z.shiftl 1 n) = Z.testbit s n.
Proof.
  intros Hn. unfold flag_set. rewrite land_pow2 by assumption.
  destruct (Z.testbit s n); [|reflexivity].
  rewrite Z.shiftl_1_l.
  assert (0 < 2 ^ n) by (apply Z.pow_pos_nonneg; lia).
  destruct (Z.eqb_spec (2 ^ n) 0); [lia|reflexivity].
Qed.

Lemma testbit_u32 (x i : Z) :
  Z.testbit (u32 x) i = (i <? 32) && Z.testbit x i.
Proof.
  unfold u32. destruct (Z.ltb_spec i 32) as [Hi|Hi]; cbn [andb].
  - destruct (Z.ltb_spec i 0).
    + now rewrite !Z.testbit_neg_r.
    + apply Z.mod_pow2_bits_low. lia.
  - apply Z.mod_pow2_bits_high. lia.
Qed.

Lemma testbit_not32 (x i : Z) :
  0 <= i < 32 -> Z.testbit (not32 x) i = negb (Z.testbit x i).
Proof.
  intros Hi. unfold not32. rewrite Z.lxor_spec.
  change 0xFFFFFFFF with (Z.ones 32).
  rewrite Z.ones_spec_low by lia. now rewrite xorb_true_r.
Qed.

(** The low [n] bits and the rest of the word, when adding [d] does not
    carry out of (or borrow into) the low [n] bits. *)
Lemma add_low_mod (s d n : Z) :
  0 <= n -> 0 <= s mod 2 ^ n + d < 2 ^ n ->
  (s + d) mod 2 ^ n = s mod 2 ^ n + d.
Proof.
  intros Hn Hd.
  assert (Hp : 0 < 2 ^ n) by (apply Z.pow_pos_nonneg; lia).
  rewrite <- (Z.mod_small (s mod 2 ^ n + d) (2 ^ n)) by assumption.
  rewrite <- Z.add_mod_idemp_l by lia. reflexivity.
Qed.

Lemma add_low_div (s d n : Z) :
  0 <= n -> 0 <= s mod 2 ^ n + d < 2 ^ n ->
  (s + d) / 2 ^ n = s / 2 ^ n.
Proof.
  intros Hn Hd.
  assert (Hp : 0 < 2 ^ n) by (apply Z.pow_pos_nonneg; lia).
  symmetry. apply (Z.div_unique_pos _ _ _ (s mod 2 ^ n + d)); [assumption|].
  pose proof (Z.div_mod s (2 ^ n)). lia.
Qed.

Lemma add_low_testbit (s d n i : Z) :
  0 <= n -> 0 <= s mod 2 ^ n + d < 2 ^ n -> n <= i ->
  Z.testbit (s + d) i = Z.testbit s i.
Proof.
  intros Hn Hd Hi.
  replace i with ((i - n) + n) by lia.
  rewrite <- !Z.div_pow2_bits by lia.
  now rewrite add_low_div.
Qed.

Lemma REFCOUNT_mod (s : Z) : BUF_STATE_GET_REFCOUNT s = s mod 2 ^ 18.
Proof.
  unfold BUF_STATE_GET_REFCOUNT.
  change BUF_REFCOUNT_MASK with (Z.ones 18).
  now rewrite Z.land_ones by lia.
Qed.

Lemma USAGECOUNT_mod (s : Z) :
  BUF_STATE_GET_USAGECOUNT s = (s / 2 ^ 18) mod 2 ^ 4.
Proof.
  unfold BUF_STATE_GET_USAGECOUNT, BUF_USAGECOUNT_SHIFT.
  change BUF_USAGECOUNT_MASK with (Z.shiftl (Z.ones 4) 18).
  rewrite <- (Z.land_ones (s / 2 ^ 18)) by lia.
  rewrite <- Z.shiftr_div_pow2 by lia.
  apply Z.bits_inj'. intros i Hi.
  rewrite Z.shiftr_spec, !Z.land_spec, Z.shiftr_spec by assumption.
  rewrite Z.shiftl_spec by lia.
  now replace (i + 18 - 18) with i by lia.
Qed.

Lemma u32_mod_low (x n : Z) :
  0 <= n <= 32 -> u32 x mod 2 ^ n = x mod 2 ^ n.
Proof.
  intros Hn. unfold u32.
  assert (Hp : 0 < 2 ^ n) by (apply Z.pow_pos_nonneg; lia).
  assert (Hsplit : 2 ^ 32 = 2 ^ (32 - n) * 2 ^ n).
  { rewrite <- Z.pow_add_r by lia. f_equal. lia. }
  assert (Hx : x = x mod 2 ^ 32 + (x / 2 ^ 32 * 2 ^ (32 - n)) * 2 ^ n).
  { pose proof (Z.div_mod x (2 ^ 32)). rewrite <- Z.mul_assoc, <- Hsplit. lia. }
  rewrite Hx at 2. rewrite Z.mod_add by lia. reflexivity.
Qed.

Lemma REFCOUNT_u32 (x : Z) :
  BUF_STATE_GET_REFCOUNT (u32 x) = BUF_STATE_GET_REFCOUNT x.
Proof. rewrite !REFCOUNT_mod. apply u32_mod_low. lia. Qed.

Lemma USAGECOUNT_bits (s : Z) :
  BUF_STATE_GET_USAGECOUNT s =
  Z.b2z (Z.testbit s 18) + 2 * Z.b2z (Z.testbit s 19)
  + 4 * Z.b2z (Z.testbit s 20) + 8 * Z.b2z (Z.testbit s 21).
Proof.
  rewrite USAGECOUNT_mod.
  set (q := s / 2 ^ 18).
  replace (Z.testbit s 18) with (Z.testbit q 0)
    by (unfold q; now rewrite Z.div_pow2_bits by lia).
  replace (Z.testbit s 19) with (Z.testbit q 1)
    by (unfold q; now rewrite Z.div_pow2_bits by lia).
  replace (Z.testbit s 20) with (Z.testbit q 2)
    by (unfold q; now rewrite Z.div_pow2_bits by lia).
  replace (Z.testbit s 21) with (Z.testbit q 3)
    by (unfold q; now rewrite Z.div_pow2_bits by lia).
  rewrite !Z.testbit_spec' by lia.
  change (2 ^ 0) with 1. change (2 ^ 1) with 2. change (2 ^ 2) with 4.
  change (2 ^ 3) with 8. change (2 ^ 4) with 16.
  rewrite Z.div_1_r.
  Z.div_mod_to_equations. lia.
Qed.

Lemma USAGECOUNT_u32 (x : Z) :
  BUF_STATE_GET_USAGECOUNT (u32 x) = BUF_STATE_GET_USAGECOUNT x.
Proof.
  rewrite !USAGECOUNT_bits, !testbit_u32. reflexivity.
Qed.

(** ** The schedule of the other backends *)

(** Projections out of updated records, leaving the words alone. *)
Ltac proj_simpl :=
  unfold mem, set_state;
  cbn [frame state tag wait_backend_pgprocno page_lsn events env
       PrivateRefCount buf_id MyProc_pgprocno PinCountWaitBuf emit
       set_frame set_env set_PrivateRefCount set_PinCountWaitBuf
       with_state with_tag with_waiter focus].

Lemma Done_inj {A} (a b : A) (w w' : Backend) :
  Done a w = Done b w' -> a = b /\ w = w'.
Proof. intros H. injection H as -> ->. auto. Qed.

Lemma env_steps_S (k : nat) (w : Backend) :
  env_steps (S k) w = env_step (env_steps k w).
Proof.
  revert w. induction k as [|k IH]; intros w; [reflexivity|].
  change (env_steps (S (S k)) w) with (env_steps (S k) (env_step w)).
  now rewrite IH.
Qed.

Lemma env_steps_add (a b : nat) (w : Backend) :
  env_steps (a + b) w = env_steps b (env_steps a w).
Proof.
  revert w. induction a as [|a IH]; intros w; [reflexivity|].
  cbn [Nat.add env_steps]. apply IH.
Qed.

Lemma env_step_quiet (w : Backend) : env w = [] -> env_step w = w.
Proof. unfold env_step. now intros ->. Qed.

Lemma env_steps_quiet (k : nat) (w : Backend) :
  env w = [] -> env_steps k w = w.
Proof.
  intros H. induction k as [|k IH]; [reflexivity|].
  cbn [env_steps]. now rewrite env_step_quiet.
Qed.

(** The others never touch what is private to this backend. *)
Lemma env_step_private (w : Backend) :
  buf_id (env_step w) = buf_id w
  /\ PrivateRefCount (env_step w) = PrivateRefCount w
  /\ MyProc_pgprocno (env_step w) = MyProc_pgprocno w
  /\ PinCountWaitBuf (env_step w) = PinCountWaitBuf w
  /\ events (env_step w) = events w.
Proof.
  unfold env_step. destruct (env w) as [|[f|] rest]; cbn; auto.
Qed.

Lemma env_steps_private (k : nat) (w : Backend) :
  buf_id (env_steps k w) = buf_id w
  /\ PrivateRefCount (env_steps k w) = PrivateRefCount w
  /\ MyProc_pgprocno (env_steps k w) = MyProc_pgprocno w
  /\ PinCountWaitBuf (env_steps k w) = PinCountWaitBuf w
  /\ events (env_steps k w) = events w.
Proof.
  revert w. induction k as [|k IH]; intros w; [cbn; auto|].
  cbn [env_steps].
  destruct (IH (env_step w)) as (a & b & c & d & e).
  destruct (env_step_private w) as (a' & b' & c' & d' & e').
  repeat split; congruence.
Qed.

Lemma set_state_mem (w : Backend) : set_state (mem w) w = w.
Proof. destruct w as [i [t s p l] e r m c ev]. reflexivity. Qed.

Lemma mem_set_state (v : Z) (w : Backend) : mem (set_state v w) = v.
Proof. reflexivity. Qed.

Lemma set_state_twice (a b : Z) (w : Backend) :
  set_state a (set_state b w) = set_state a w.
Proof. reflexivity. Qed.

Lemma lor_flag_id (s n : Z) :
  0 <= n -> flag_set s (Z.shiftl 1 n) = true -> Z.lor s (Z.shiftl 1 n) = s.
Proof.
  intros Hn H. rewrite flag_set_bit in H by assumption.
  apply Z.bits_inj'. intros i Hi.
  rewrite Z.lor_spec, testbit_pow2 by assumption.
  destruct (Z.eqb_spec n i) as [->|_].
  - now rewrite H.
  - now rewrite orb_false_r.
Qed.

(** ** Linearisation of the primitives

    Each primitive that returns did its one effective access to the state
    word after some number [k] of steps of the other backends. *)

Lemma LockBufHdr_spec (fuel : nat) (w w' : Backend) (s : Z) :
  LockBufHdr fuel w = Done s w' ->
  exists k : nat,
    flag_set (mem (env_steps k w)) BM_LOCKED = false
    /\ s = Z.lor (mem (env_steps k w)) BM_LOCKED
    /\ w' = set_state s (env_steps k w).
Proof.
  revert w. induction fuel as [|n IH]; intros w H; [discriminate|].
  cbn [LockBufHdr] in H.
  destruct (flag_set (mem (env_step w)) BM_LOCKED) eqn:E.
  - unfold BM_LOCKED in H, E. rewrite lor_flag_id in H by (lia || assumption).
    rewrite set_state_mem in H.
    destruct (IH _ H) as (k & H1 & H2 & H3).
    exists (S k). cbn [env_steps]. auto.
  - injection H as <- <-. exists 1%nat. cbn [env_steps]. auto.
Qed.

Lemma LockBufHdr_no_raise (fuel : nat) (w w' : Backend) (msg : string) :
  LockBufHdr fuel w <> Raise msg w'.
Proof.
  revert w. induction fuel as [|n IH]; intros w; [discriminate|].
  cbn [LockBufHdr].
  destruct (flag_set (mem (env_step w)) BM_LOCKED); [apply IH|discriminate].
Qed.

(** With the header free at the next access, the lock is taken at once. *)
Lemma LockBufHdr_free (n : nat) (w : Backend) :
  flag_set (mem (env_step w)) BM_LOCKED = false ->
  LockBufHdr (S n) w =
  Done (Z.lor (mem (env_step w)) BM_LOCKED)
       (set_state (Z.lor (mem (env_step w)) BM_LOCKED) (env_step w)).
Proof. intros H. cbn [LockBufHdr]. now rewrite H. Qed.

Lemma WaitBufHdrUnlocked_spec (fuel : nat) (w w' : Backend) (s : Z) :
  WaitBufHdrUnlocked fuel w = Done s w' ->
  exists k : nat,
    w' = env_steps k w /\ s = mem w' /\ flag_set s BM_LOCKED = false.
Proof.
  revert w. induction fuel as [|n IH]; intros w H; [discriminate|].
  cbn [WaitBufHdrUnlocked] in H.
  destruct (flag_set (mem (env_step w)) BM_LOCKED) eqn:E.
  - destruct (IH _ H) as (k & H1 & H2 & H3).
    exists (S k). cbn [env_steps]. auto.
  - injection H as <- <-. exists 1%nat. cbn [env_steps]. auto.
Qed.

Lemma WaitBufHdrUnlocked_no_raise (fuel : nat) (w w' : Backend) (msg : string) :
  WaitBufHdrUnlocked fuel w <> Raise msg w'.
Proof.
  revert w. induction fuel as [|n IH]; intros w; [discriminate|].
  cbn [WaitBufHdrUnlocked].
  destruct (flag_set (mem (env_step w)) BM_LOCKED); [apply IH|discriminate].
Qed.

Lemma cas_loop_spec (update : Z -> Z) (fuel : nat) (o : Z) (w w' : Backend)
    (old new : Z) :
  cas_loop update fuel o w = Done (old, new) w' ->
  exists k : nat,
    old = mem (env_steps k w)
    /\ flag_set old BM_LOCKED = false
    /\ new = update old
    /\ w' = set_state new (env_steps k w).
Proof.
  revert o w. induction fuel as [|n IH]; intros o w H; [discriminate|].
  cbn [cas_loop] in H. unfold bind in H.
  destruct (flag_set o BM_LOCKED) eqn:Eo.
  - destruct (WaitBufHdrUnlocked n w) as [s w1|msg w1|] eqn:Ew; try discriminate.
    destruct (WaitBufHdrUnlocked_spec _ _ _ _ Ew) as (k1 & -> & -> & Hs).
    unfold pg_atomic_compare_exchange_u32 in H.
    destruct (Z.eqb_spec (mem (env_step (env_steps k1 w))) (mem (env_steps k1 w)))
      as [Heq|Hne]; cbn [fst snd] in H.
    + unfold ret in H. injection H as <- <- <-.
      exists (S k1). rewrite env_steps_S. rewrite Heq. auto.
    + destruct (IH _ _ H) as (k & H1 & H2 & H3 & H4).
      exists (S k1 + k)%nat. rewrite env_steps_add, env_steps_S. auto.
  - unfold ret at 1 in H. unfold pg_atomic_compare_exchange_u32 in H.
    destruct (Z.eqb_spec (mem (env_step w)) o) as [Heq|Hne]; cbn [fst snd] in H.
    + unfold ret in H. injection H as <- <- <-.
      exists 1%nat. cbn [env_steps]. rewrite Heq. auto.
    + destruct (IH _ _ H) as (k & H1 & H2 & H3 & H4).
      exists (S k). cbn [env_steps]. auto.
Qed.

Lemma cas_loop_no_raise (update : Z -> Z) (fuel : nat) (o : Z)
    (w w' : Backend) (msg : string) :
  cas_loop update fuel o w <> Raise msg w'.
Proof.
  revert o w. induction fuel as [|n IH]; intros o w; [discriminate|].
  cbn [cas_loop]. unfold bind.
  destruct (flag_set o BM_LOCKED).
  - destruct (WaitBufHdrUnlocked n w) as [s w1|msg1 w1|] eqn:Ew; try discriminate.
    + unfold pg_atomic_compare_exchange_u32.
      destruct (mem (env_step w1) =? s); cbn [fst snd]; [discriminate|apply IH].
    + now apply WaitBufHdrUnlocked_no_raise in Ew.
  - unfold ret at 1. unfold pg_atomic_compare_exchange_u32.
    destruct (mem (env_step w) =? o); cbn [fst snd]; [discriminate|apply IH].
Qed.

(** When the others leave the (unlocked) word alone, the first
    compare-and-swap succeeds. *)
Lemma cas_loop_quiet (update : Z -> Z) (n : nat) (w : Backend) :
  env w = [] -> flag_set (mem w) BM_LOCKED = false ->
  (old_buf_state <- pg_atomic_read_u32 ;; cas_loop update (S n) old_buf_state) w
  = Done (mem w, update (mem w)) (set_state (update (mem w)) w).
Proof.
  intros He Hl. unfold bind, pg_atomic_read_u32.
  rewrite env_step_quiet by assumption.
  cbn [cas_loop]. unfold bind. rewrite Hl. unfold ret at 1.
  unfold pg_atomic_compare_exchange_u32.
  rewrite env_step_quiet by assumption.
  rewrite Z.eqb_refl. reflexivity.
Qed.

(** ** Progress of the lock-free update loop

    Each failed compare-and-swap consumes a store of the other backends, so
    the loop returns once their schedule is exhausted, provided they never
    leave the header locked at the moments this backend looks. *)

Lemma lock_free_world_step (w : Backend) :
  lock_free_world w -> lock_free_world (env_step w).
Proof.
  unfold lock_free_world, env_step. intros [Hm He].
  destruct (env w) as [|[f|] rest] eqn:E; cbn.
  - rewrite E. auto.
  - inversion He; subst. auto.
  - inversion He; subst. auto.
Qed.

Lemma env_step_length (w : Backend) :
  (List.length (env (env_step w)) <= List.length (env w))%nat
  /\ (env w <> [] ->
      S (List.length (env (env_step w))) = List.length (env w)).
Proof.
  unfold env_step. destruct (env w) as [|[f|] rest] eqn:E; cbn.
  - rewrite E. split; [cbn; lia|congruence].
  - split; [lia|reflexivity].
  - split; [lia|reflexivity].
Qed.

Lemma cas_loop_returns (update : Z -> Z) (fuel : nat) (o : Z) (w : Backend) :
  lock_free_world w ->
  flag_set o BM_LOCKED = false ->
  (List.length (env w) + (if (o =? mem w)%Z then 1 else 2) <= fuel)%nat ->
  exists old new w', cas_loop update fuel o w = Done (old, new) w'.
Proof.
  revert o w. induction fuel as [|n IH]; intros o w Hw Ho Hf.
  - destruct (o =? mem w); lia.
  - cbn [cas_loop]. unfold bind at 1. rewrite Ho. unfold ret at 1.
    unfold bind at 1. unfold pg_atomic_compare_exchange_u32.
    destruct (Z.eqb_spec (mem (env_step w)) o) as [E|E]; cbn [fst snd].
    + unfold ret. eauto.
    + pose proof (lock_free_world_step w Hw) as Hw1.
      apply IH; [assumption|apply Hw1|].
      rewrite Z.eqb_refl.
      destruct (env_step_length w) as [Hle Hlt].
      destruct (env w) as [|e rest] eqn:Een.
      * rewrite env_step_quiet in E |- * by assumption.
        rewrite Een. cbn [List.length].
        destruct (Z.eqb_spec o (mem w)); [congruence|].
        cbn [List.length] in Hf. lia.
      * assert (Hne : e :: rest <> []) by discriminate.
        specialize (Hlt Hne). destruct (o =? mem w); lia.
Qed.

(** The read that starts the loop, then the loop. *)
Lemma read_cas_loop_returns (update : Z -> Z) (w : Backend) (n : nat) :
  lock_free_world w ->
  (List.length (env w) < n)%nat ->
  exists old new w',
    (old_buf_state <- pg_atomic_read_u32 ;; cas_loop update n old_buf_state) w
    = Done (old, new) w'.
Proof.
  intros Hw Hn. unfold bind, pg_atomic_read_u32.
  pose proof (lock_free_world_step w Hw) as Hw1.
  apply cas_loop_returns; [assumption|apply Hw1|].
  rewrite Z.eqb_refl. destruct (env_step_length w) as [Hle _]. lia.
Qed.

Lemma lock_free_world_steps (k : nat) (w : Backend) :
  lock_free_world w -> lock_free_world (env_steps k w).
Proof.
  revert w. induction k as [|k IH]; intros w H; [assumption|].
  cbn [env_steps]. apply IH. now apply lock_free_world_step.
Qed.

Lemma pinned_world_step (w : Backend) : pinned_world w -> pinned_world (env_step w).
Proof.
  unfold pinned_world, env_step. intros [Hm He].
  destruct (env w) as [|[f|] rest] eqn:E; cbn.
  - rewrite E. auto.
  - inversion He; subst. auto.
  - inversion He; subst. auto.
Qed.

Lemma pinned_world_steps (k : nat) (w : Backend) :
  pinned_world w -> pinned_world (env_steps k w).
Proof.
  revert w. induction k as [|k IH]; intros w H; [assumption|].
  cbn [env_steps]. apply IH. now apply pinned_world_step.
Qed.

(** ** Reading fields of the word bit by bit *)

Lemma REFCOUNT_ext (a b : Z) :
  (forall i, 0 <= i < 18 -> Z.testbit a i = Z.testbit b i) ->
  BUF_STATE_GET_REFCOUNT a = BUF_STATE_GET_REFCOUNT b.
Proof.
  intros H. unfold BUF_STATE_GET_REFCOUNT.
  change BUF_REFCOUNT_MASK with (Z.ones 18).
  apply Z.bits_inj'. intros i Hi. rewrite !Z.land_spec.
  destruct (Z.ltb_spec i 18).
  - now rewrite H by lia.
  - rewrite Z.ones_spec_high by lia. now rewrite !andb_false_r.
Qed.

Lemma USAGECOUNT_ext (a b : Z) :
  (forall i, 18 <= i < 22 -> Z.testbit a i = Z.testbit b i) ->
  BUF_STATE_GET_USAGECOUNT a = BUF_STATE_GET_USAGECOUNT b.
Proof.
  intros H. rewrite !USAGECOUNT_bits. now rewrite !H by lia.
Qed.

Lemma testbit_ones_mask (k n i : Z) :
  0 <= k -> 0 <= n -> 0 <= i ->
  Z.testbit (Z.shiftl (Z.ones k) n) i = (n <=? i) && (i <? n + k).
Proof.
  intros Hk Hn Hi.
  destruct (Z.leb_spec n i) as [H|H]; cbn [andb].
  - rewrite Z.shiftl_spec by lia.
    destruct (Z.ltb_spec i (n + k)).
    + apply Z.ones_spec_low. lia.
    + apply Z.ones_spec_high. lia.
  - apply Z.shiftl_spec_low. lia.
Qed.

(** ** Arithmetic on the packed fields *)

Lemma flags_of_ext (a b : Z) :
  (forall i, 22 <= i < 32 -> Z.testbit a i = Z.testbit b i) ->
  flags_of a = flags_of b.
Proof.
  intros H. unfold flags_of.
  change BUF_FLAG_MASK with (Z.shiftl (Z.ones 10) 22).
  apply Z.bits_inj'. intros i Hi.
  rewrite !Z.land_spec, testbit_ones_mask by lia.
  destruct (Z.leb_spec 22 i); destruct (Z.ltb_spec i (22 + 10)); cbn [andb];
    rewrite ?andb_false_r; try reflexivity.
  now rewrite H by lia.
Qed.

Lemma flags_of_bit (a b n : Z) :
  22 <= n < 32 -> flags_of a = flags_of b -> Z.testbit a n = Z.testbit b n.
Proof.
  intros Hn H. unfold flags_of in H.
  change BUF_FLAG_MASK with (Z.shiftl (Z.ones 10) 22) in H.
  assert (Hb : Z.testbit (Z.land a (Z.shiftl (Z.ones 10) 22)) n
               = Z.testbit (Z.land b (Z.shiftl (Z.ones 10) 22)) n) by now rewrite H.
  rewrite !Z.land_spec, testbit_ones_mask in Hb by lia.
  replace (22 <=? n) with true in Hb by (symmetry; apply Z.leb_le; lia).
  replace (n <? 22 + 10) with true in Hb by (symmetry; apply Z.ltb_lt; lia).
  now rewrite !andb_true_r in Hb.
Qed.

Lemma flags_of_flag (a b n : Z) :
  22 <= n < 32 -> flags_of a = flags_of b ->
  flag_set a (Z.shiftl 1 n) = flag_set b (Z.shiftl 1 n).
Proof.
  intros Hn H. rewrite !flag_set_bit by lia. now apply flags_of_bit.
Qed.

(** [buf_state += BUF_REFCOUNT_ONE] below the top of the 18-bit field. *)
Lemma incr_refcount (old : Z) :
  BUF_STATE_GET_REFCOUNT old < BUF_REFCOUNT_MASK ->
  BUF_STATE_GET_REFCOUNT (u32 (old + BUF_REFCOUNT_ONE))
    = BUF_STATE_GET_REFCOUNT old + 1
  /\ BUF_STATE_GET_USAGECOUNT (u32 (old + BUF_REFCOUNT_ONE))
    = BUF_STATE_GET_USAGECOUNT old
  /\ flags_of (u32 (old + BUF_REFCOUNT_ONE)) = flags_of old.
Proof.
  intros H. rewrite REFCOUNT_mod in H.
  change BUF_REFCOUNT_MASK with (2 ^ 18 - 1) in H.
  change BUF_REFCOUNT_ONE with 1.
  pose proof (Z.mod_pos_bound old (2 ^ 18) eq_refl) as Hr.
  assert (Hd : 0 <= old mod 2 ^ 18 + 1 < 2 ^ 18) by lia.
  repeat split.
  - rewrite REFCOUNT_u32, !REFCOUNT_mod. apply add_low_mod; lia.
  - rewrite USAGECOUNT_u32, !USAGECOUNT_mod. now rewrite add_low_div by lia.
  - apply flags_of_ext. intros i Hi. rewrite testbit_u32.
    replace (i <? 32) with true by (symmetry; apply Z.ltb_lt; lia).
    cbn [andb]. apply (add_low_testbit old 1 18 i); lia.
Qed.

(** [buf_state -= BUF_REFCOUNT_ONE] on a pinned frame. *)
Lemma decr_refcount (old : Z) :
  0 < BUF_STATE_GET_REFCOUNT old ->
  BUF_STATE_GET_REFCOUNT (u32 (old - BUF_REFCOUNT_ONE))
    = BUF_STATE_GET_REFCOUNT old - 1
  /\ BUF_STATE_GET_USAGECOUNT (u32 (old - BUF_REFCOUNT_ONE))
    = BUF_STATE_GET_USAGECOUNT old
  /\ flags_of (u32 (old - BUF_REFCOUNT_ONE)) = flags_of old.
Proof.
  intros H. rewrite REFCOUNT_mod in H.
  change BUF_REFCOUNT_ONE with 1.
  pose proof (Z.mod_pos_bound old (2 ^ 18) eq_refl) as Hr.
  assert (Hd : 0 <= old mod 2 ^ 18 + -1 < 2 ^ 18) by lia.
  replace (old - 1) with (old + -1) by lia.
  repeat split.
  - rewrite REFCOUNT_u32, !REFCOUNT_mod. rewrite add_low_mod; lia.
  - rewrite USAGECOUNT_u32, !USAGECOUNT_mod. now rewrite add_low_div by lia.
  - apply flags_of_ext. intros i Hi. rewrite testbit_u32.
    replace (i <? 32) with true by (symmetry; apply Z.ltb_lt; lia).
    cbn [andb]. apply (add_low_testbit old (-1) 18 i); lia.
Qed.

(** [buf_state += BUF_USAGECOUNT_ONE] below the top of the 4-bit field. *)
Lemma incr_usagecount (old : Z) :
  BUF_STATE_GET_USAGECOUNT old < 15 ->
  BUF_STATE_GET_REFCOUNT (u32 (old + BUF_USAGECOUNT_ONE))
    = BUF_STATE_GET_REFCOUNT old
  /\ BUF_STATE_GET_USAGECOUNT (u32 (old + BUF_USAGECOUNT_ONE))
    = BUF_STATE_GET_USAGECOUNT old + 1
  /\ flags_of (u32 (old + BUF_USAGECOUNT_ONE)) = flags_of old.
Proof.
  intros H. rewrite USAGECOUNT_mod in H.
  change BUF_USAGECOUNT_ONE with (1 * 2 ^ 18).
  pose proof (Z.mod_pos_bound (old / 2 ^ 18) (2 ^ 4) eq_refl) as Hr.
  change (2 ^ 4) with 16 in *.
  assert (Hq : (old + 1 * 2 ^ 18) / 2 ^ 18 = old / 2 ^ 18 + 1)
    by (apply Z.div_add; lia).
  repeat split.
  - rewrite REFCOUNT_u32, !REFCOUNT_mod. apply Z.mod_add. lia.
  - rewrite USAGECOUNT_u32, !USAGECOUNT_mod, Hq.
    change (2 ^ 4) with 16. apply (add_low_mod (old / 2 ^ 18) 1 4); [lia|].
    change (2 ^ 4) with 16. lia.
  - apply flags_of_ext. intros i Hi. rewrite testbit_u32.
    replace (i <? 32) with true by (symmetry; apply Z.ltb_lt; lia).
    cbn [andb].
    replace i with ((i - 18) + 18) by lia.
    rewrite <- !Z.div_pow2_bits by lia. rewrite Hq.
    apply (add_low_testbit (old / 2 ^ 18) 1 4 (i - 18)); [lia| |lia].
    change (2 ^ 4) with 16. lia.
Qed.

(** ** Whole-word identities for [uint32] words *)

Lemma is_u32_u32 (x : Z) : is_u32 (u32 x).
Proof. unfold is_u32, u32. apply Z.mod_pos_bound. reflexivity. Qed.

Lemma is_u32_high (s i : Z) : is_u32 s -> 32 <= i -> Z.testbit s i = false.
Proof.
  intros [H0 H1] Hi.
  destruct (Z.eq_dec s 0) as [->|Hne]; [apply Z.bits_0|].
  apply Z.bits_above_log2; [assumption|].
  assert (Z.log2 s < 32) by (apply Z.log2_lt_pow2; lia). lia.
Qed.

Lemma is_u32_bits (s : Z) :
  0 <= s -> (forall i, 32 <= i -> Z.testbit s i = false) -> is_u32 s.
Proof.
  intros H0 H. split; [assumption|].
  destruct (Z.eq_dec s 0) as [->|Hne]; [reflexivity|].
  apply Z.log2_lt_pow2; [lia|].
  destruct (Z.ltb_spec (Z.log2 s) 32) as [|Hge]; [assumption|].
  specialize (H (Z.log2 s) Hge).
  rewrite Z.bit_log2 in H by lia. discriminate.
Qed.

Lemma testbit_not32_gen (x i : Z) :
  is_u32 x -> 0 <= i ->
  Z.testbit (not32 x) i = (i <? 32) && negb (Z.testbit x i).
Proof.
  intros Hx Hi. destruct (Z.ltb_spec i 32) as [H|H]; cbn [andb].
  - apply testbit_not32. lia.
  - unfold not32. rewrite Z.lxor_spec.
    change 0xFFFFFFFF with (Z.ones 32).
    rewrite Z.ones_spec_high by lia.
    now rewrite (is_u32_high x i Hx H).
Qed.

Lemma is_u32_land (a b : Z) : is_u32 a -> is_u32 (Z.land a b).
Proof.
  intros Ha. apply is_u32_bits.
  - apply Z.land_nonneg. left. apply Ha.
  - intros i Hi. rewrite Z.land_spec, (is_u32_high a i Ha Hi). reflexivity.
Qed.

Lemma is_u32_lor (a b : Z) : is_u32 a -> is_u32 b -> is_u32 (Z.lor a b).
Proof.
  intros Ha Hb. apply is_u32_bits.
  - apply Z.lor_nonneg. split; [apply Ha|apply Hb].
  - intros i Hi.
    rewrite Z.lor_spec, (is_u32_high a i Ha Hi), (is_u32_high b i Hb Hi).
    reflexivity.
Qed.

Lemma is_u32_flag (n : Z) : 0 <= n < 32 -> is_u32 (Z.shiftl 1 n).
Proof.
  intros Hn. rewrite Z.shiftl_1_l. split.
  - apply Z.pow_nonneg. lia.
  - apply Z.pow_lt_mono_r; lia.
Qed.

(** Dropping bit [n] of a [uint32] word: every other bit stays. *)
Lemma testbit_clear (s n i : Z) :
  is_u32 s -> 0 <= n < 32 -> 0 <= i ->
  Z.testbit (Z.land s (not32 (Z.shiftl 1 n))) i
  = Z.testbit s i && negb (n =? i).
Proof.
  intros Hs Hn Hi.
  rewrite Z.land_spec, testbit_not32_gen, testbit_pow2
    by (try apply is_u32_flag; lia).
  destruct (Z.ltb_spec i 32) as [H|H]; cbn [andb]; [reflexivity|].
  now rewrite (is_u32_high s i Hs H).
Qed.

(** What [UnlockBufHdr] stores, for the word [LockBufHdr] returned. *)
Lemma unlock_locked (s : Z) :
  is_u32 s -> flag_set s BM_LOCKED = false ->
  Z.land (Z.lor s BM_LOCKED) (not32 BM_LOCKED) = s.
Proof.
  intros Hs Hl. unfold BM_LOCKED in *. rewrite flag_set_bit in Hl by lia.
  apply Z.bits_inj'. intros i Hi.
  rewrite testbit_clear by (try apply is_u32_lor; try apply is_u32_flag; lia || assumption).
  rewrite Z.lor_spec, testbit_pow2 by lia.
  destruct (Z.eqb_spec 22 i) as [<-|_]; cbn [negb].
  - now rewrite Hl.
  - now rewrite orb_false_r, andb_true_r.
Qed.

(** ... after clearing another flag under the spinlock ... *)
Lemma unlock_locked_clear (s n : Z) :
  is_u32 s -> flag_set s BM_LOCKED = false -> 0 <= n < 32 -> n <> 22 ->
  Z.land (Z.land (Z.lor s BM_LOCKED) (not32 (Z.shiftl 1 n))) (not32 BM_LOCKED)
  = Z.land s (not32 (Z.shiftl 1 n)).
Proof.
  intros Hs Hl Hn Hne. unfold BM_LOCKED in *. rewrite flag_set_bit in Hl by lia.
  assert (H1 : is_u32 (Z.lor s (Z.shiftl 1 22)))
    by (apply is_u32_lor; [assumption|apply is_u32_flag; lia]).
  apply Z.bits_inj'. intros i Hi.
  rewrite !testbit_clear by (try apply is_u32_land; lia || assumption).
  rewrite Z.lor_spec, testbit_pow2 by lia.
  destruct (Z.eqb_spec 22 i) as [<-|_]; cbn [negb].
  - now rewrite Hl, !andb_false_r.
  - now rewrite orb_false_r, andb_true_r.
Qed.

(** ... and after setting flags other than [BM_LOCKED]. *)
Lemma unlock_locked_set (s bits : Z) :
  is_u32 s -> is_u32 bits ->
  flag_set s BM_LOCKED = false -> flag_set bits BM_LOCKED = false ->
  Z.land (Z.lor (Z.lor s BM_LOCKED) bits) (not32 BM_LOCKED) = Z.lor s bits.
Proof.
  intros Hs Hb Hl Hbl. unfold BM_LOCKED in *.
  rewrite flag_set_bit in Hl, Hbl by lia.
  assert (H1 : is_u32 (Z.lor s (Z.shiftl 1 22)))
    by (apply is_u32_lor; [assumption|apply is_u32_flag; lia]).
  apply Z.bits_inj'. intros i Hi.
  rewrite testbit_clear by (try apply is_u32_lor; lia || assumption).
  rewrite !Z.lor_spec, testbit_pow2 by lia.
  destruct (Z.eqb_spec 22 i) as [<-|_]; cbn [negb].
  - now rewrite Hl, Hbl.
  - now rewrite orb_false_r, andb_true_r.
Qed.

(** Fields of the word returned by [LockBufHdr]. *)
Lemma locked_REFCOUNT (s : Z) :
  BUF_STATE_GET_REFCOUNT (Z.lor s BM_LOCKED) = BUF_STATE_GET_REFCOUNT s.
Proof.
  apply REFCOUNT_ext. intros i Hi. unfold BM_LOCKED.
  rewrite Z.lor_spec, testbit_pow2 by lia.
  replace (22 =? i) with false by (symmetry; apply Z.eqb_neq; lia).
  apply orb_false_r.
Qed.

Lemma locked_USAGECOUNT (s : Z) :
  BUF_STATE_GET_USAGECOUNT (Z.lor s BM_LOCKED) = BUF_STATE_GET_USAGECOUNT s.
Proof.
  apply USAGECOUNT_ext. intros i Hi. unfold BM_LOCKED.
  rewrite Z.lor_spec, testbit_pow2 by lia.
  replace (22 =? i) with false by (symmetry; apply Z.eqb_neq; lia).
  apply orb_false_r.
Qed.

Lemma locked_flag (s n : Z) :
  0 <= n -> n <> 22 ->
  flag_set (Z.lor s BM_LOCKED) (Z.shiftl 1 n) = flag_set s (Z.shiftl 1 n).
Proof.
  intros Hn Hne. rewrite !flag_set_bit by lia. unfold BM_LOCKED.
  rewrite Z.lor_spec, testbit_pow2 by lia.
  replace (22 =? n) with false by (symmetry; apply Z.eqb_neq; lia).
  apply orb_false_r.
Qed.

(** The schedule keeps memory within [uint32]. *)
Lemma u32_world_step (w : Backend) : u32_world w -> u32_world (env_step w).
Proof.
  unfold u32_world, env_step. intros [Hm He].
  destruct (env w) as [|[f|] rest] eqn:E; cbn.
  - rewrite E. auto.
  - inversion He; subst. auto.
  - inversion He; subst. auto.
Qed.

Lemma u32_world_steps (k : nat) (w : Backend) :
  u32_world w -> u32_world (env_steps k w).
Proof.
  revert w. induction k as [|k IH]; intros w H; [assumption|].
  cbn [env_steps]. apply IH. now apply u32_world_step.
Qed.

Lemma u32_world_set_state (v : Z) (w : Backend) :
  is_u32 v -> u32_world w -> u32_world (set_state v w).
Proof. intros Hv [_ He]. split; assumption. Qed.

Lemma u32_world_quiet (f : Frame) (pins : Z) :
  is_u32 (state f) -> u32_world (backend_of f [] pins).
Proof. intros H. split; [exact H|constructor]. Qed.


(** ** [MarkBufferDirty] *)

Lemma MarkBufferDirty_update_bits (old i : Z) :
  0 <= i ->
  Z.testbit (MarkBufferDirty_update old) i =
  Z.testbit old i || (i =? 23) || (i =? 28).
Proof.
  intros Hi. unfold MarkBufferDirty_update, BM_DIRTY, BM_JUST_DIRTIED.
  rewrite !Z.lor_spec, !testbit_pow2 by lia.
  rewrite (Z.eqb_sym 23), (Z.eqb_sym 28). now rewrite orb_assoc.
Qed.

(** C10.  A call of [MarkBufferDirty] on a shared buffer that returns has
    replaced the state word, by one compare-and-swap on the word [old] that
    was in memory at that moment, with [old | BM_DIRTY | BM_JUST_DIRTIED]:
    both bits are set together, whatever [old] was (no test of
    [BM_IO_IN_PROGRESS]), and REFCOUNT, USAGE_COUNT and every other bit of
    the word are those of [old]; nothing else of the frame is touched.
    The call does return, given fuel for one more attempt than the other
    backends have stores, as long as they never leave the header locked. *)
Theorem MarkBufferDirty_sets_both_bits_atomically
    (fuel : nat) (buffer : Z) (w : Backend) :
  0 < buffer ->
  (forall w', MarkBufferDirty fuel buffer w = Done tt w' ->
     exists k : nat,
       let before := env_steps k w in
       let old := mem before in
       flag_set old BM_LOCKED = false
       /\ frame w' = with_state (Z.lor old (Z.lor BM_DIRTY BM_JUST_DIRTIED))
                                (frame before)
       /\ flag_set (mem w') BM_DIRTY = true
       /\ flag_set (mem w') BM_JUST_DIRTIED = true
       /\ BUF_STATE_GET_REFCOUNT (mem w') = BUF_STATE_GET_REFCOUNT old
       /\ BUF_STATE_GET_USAGECOUNT (mem w') = BUF_STATE_GET_USAGECOUNT old
       /\ (forall i, 0 <= i -> i <> 23 -> i <> 28 ->
             Z.testbit (mem w') i = Z.testbit old i))
  /\ (lock_free_world w -> (List.length (env w) < fuel)%nat ->
      exists w', MarkBufferDirty fuel buffer w = Done tt w').
Proof.
  intros Hb.
  assert (E0 : (buffer =? 0) = false) by (apply Z.eqb_neq; lia).
  assert (E1 : (buffer <? 0) = false) by (apply Z.ltb_ge; lia).
  split.
  - intros w' H. unfold MarkBufferDirty in H. rewrite E0, E1 in H.
    unfold bind at 1 in H. unfold pg_atomic_read_u32 in H.
    unfold bind in H.
    destruct (cas_loop MarkBufferDirty_update fuel (mem (env_step w)) (env_step w))
      as [[old new] w1|msg w1|] eqn:Ec; try discriminate.
    destruct (cas_loop_spec _ _ _ _ _ _ _ Ec) as (k & Hold & Hl & Hnew & Hw1).
    exists (S k). cbn [env_steps]. cbv zeta. rewrite <- Hold.
    assert (Hfr : frame w' = with_state new (frame (env_steps k (env_step w)))).
    { cbn [fst] in H. destruct (negb (flag_set old BM_DIRTY));
        unfold modify, ret in H; injection H as <-; subst w1; reflexivity. }
    assert (Hm : mem w' = MarkBufferDirty_update old).
    { unfold mem. rewrite Hfr. cbn. assumption. }
    split; [assumption|]. split; [now rewrite Hfr, Hnew|].
    rewrite Hm.
    repeat split.
    + unfold BM_DIRTY. rewrite flag_set_bit by lia.
      rewrite MarkBufferDirty_update_bits by lia.
      destruct (Z.testbit old 23); reflexivity.
    + unfold BM_JUST_DIRTIED. rewrite flag_set_bit by lia.
      rewrite MarkBufferDirty_update_bits by lia.
      destruct (Z.testbit old 28); reflexivity.
    + apply REFCOUNT_ext. intros i Hi.
      rewrite MarkBufferDirty_update_bits by lia.
      replace (i =? 23) with false by (symmetry; apply Z.eqb_neq; lia).
      replace (i =? 28) with false by (symmetry; apply Z.eqb_neq; lia).
      now rewrite !orb_false_r.
    + apply USAGECOUNT_ext. intros i Hi.
      rewrite MarkBufferDirty_update_bits by lia.
      replace (i =? 23) with false by (symmetry; apply Z.eqb_neq; lia).
      replace (i =? 28) with false by (symmetry; apply Z.eqb_neq; lia).
      now rewrite !orb_false_r.
    + intros i Hi H23 H28.
      rewrite MarkBufferDirty_update_bits by lia.
      replace (i =? 23) with false by (symmetry; apply Z.eqb_neq; lia).
      replace (i =? 28) with false by (symmetry; apply Z.eqb_neq; lia).
      now rewrite !orb_false_r.
  - intros Hw Hf. unfold MarkBufferDirty. rewrite E0, E1.
    destruct (read_cas_loop_returns MarkBufferDirty_update w fuel Hw Hf)
      as (old & new & w1 & Hq).
    unfold bind in Hq. unfold bind.
    destruct (pg_atomic_read_u32 w) as [o w0|msg w0|] eqn:Er; try discriminate.
    rewrite Hq. cbn [fst].
    destruct (negb (flag_set old BM_DIRTY)); unfold modify, ret; eauto.
Qed.

Lemma MarkBufferDirty_sets_both_bits_atomically_witness :
  exists w', MarkBufferDirty 3 4 backend_contended = Done tt w'.
Proof.
  apply (MarkBufferDirty_sets_both_bits_atomically 3 4 backend_contended).
  - lia.
  - split; [reflexivity|repeat constructor].
  - cbn. lia.
Defined.

(** The run under contention: the first compare-and-swap fails because
    another backend has unpinned the frame meanwhile; the second one marks
    the word that backend left. *)
Example MarkBufferDirty_contended_run :
  exists w', MarkBufferDirty 3 4 backend_contended = Done tt w'
             /\ mem w' = Z.lor (state frame_clean_unpinned)
                               (Z.lor BM_DIRTY BM_JUST_DIRTIED)
             /\ events w' = [EvPageDirtied].
Proof. eexists. split; [vm_compute; reflexivity|]. split; reflexivity. Qed.

(** ** [PinBuffer] *)

Lemma PinBuffer_update_fields (strategy : BufferAccessStrategy) (old : Z) :
  BUF_STATE_GET_REFCOUNT old < BUF_REFCOUNT_MASK ->
  BUF_STATE_GET_USAGECOUNT old <= BM_MAX_USAGE_COUNT ->
  BUF_STATE_GET_REFCOUNT (PinBuffer_update strategy old)
    = BUF_STATE_GET_REFCOUNT old + 1
  /\ BUF_STATE_GET_USAGECOUNT (PinBuffer_update strategy old)
    = match strategy with
      | None => if BUF_STATE_GET_USAGECOUNT old =? BM_MAX_USAGE_COUNT
                then BUF_STATE_GET_USAGECOUNT old
                else BUF_STATE_GET_USAGECOUNT old + 1
      | Some _ => if BUF_STATE_GET_USAGECOUNT old =? 0
                  then 1
                  else BUF_STATE_GET_USAGECOUNT old
      end
  /\ flags_of (PinBuffer_update strategy old) = flags_of old.
Proof.
  intros Hr Hu. unfold BM_MAX_USAGE_COUNT in *.
  destruct (incr_refcount old Hr) as (R1 & U1 & F1).
  set (s1 := u32 (old + BUF_REFCOUNT_ONE)) in *.
  unfold PinBuffer_update. fold s1. rewrite U1.
  destruct strategy as [ring|].
  - destruct (Z.eqb_spec (BUF_STATE_GET_USAGECOUNT old) 0) as [E|E].
    + destruct (incr_usagecount s1) as (R2 & U2 & F2); [lia|].
      rewrite R2, U2, F2, R1, U1, F1. repeat split; lia.
    + auto.
  - unfold BM_MAX_USAGE_COUNT.
    destruct (Z.ltb_spec (BUF_STATE_GET_USAGECOUNT old) 5) as [L|L];
      destruct (Z.eqb_spec (BUF_STATE_GET_USAGECOUNT old) 5) as [E|E];
      try lia.
    destruct (incr_usagecount s1) as (R2 & U2 & F2); [lia|].
    rewrite R2, U2, F2, R1, U1, F1. repeat split; lia.
Qed.

(** C3.  A call of [PinBuffer] by a backend that holds no pin on the frame
    ([PrivateRefCount] 0) and that returns has installed its pin by one
    compare-and-swap on the word [old] that was in memory, free of
    [BM_LOCKED], at that moment.  When REFCOUNT is below the top of its
    18-bit field (there is one shared pin per backend and the field holds
    the maximal number of backends) and USAGE_COUNT is in its range 0..5,
    the new word has REFCOUNT + 1; with the default ([None]) strategy
    USAGE_COUNT + 1 unless it was already 5; with a strategy USAGE_COUNT 1
    when it was 0 and unchanged otherwise; the flags of [old]; and the
    result is whether [BM_VALID] is set in that word.  The local pin count
    becomes 1.  The call returns, given fuel for one more attempt than the
    other backends have stores, as long as they never leave the header
    locked. *)
Theorem PinBuffer_first_pin
    (fuel : nat) (strategy : BufferAccessStrategy) (w : Backend) :
  PrivateRefCount w = 0 ->
  (forall result w', PinBuffer fuel strategy w = Done result w' ->
     exists k : nat,
       let before := env_steps k w in
       let old := mem before in
       flag_set old BM_LOCKED = false
       /\ frame w' = with_state (PinBuffer_update strategy old) (frame before)
       /\ PrivateRefCount w' = 1
       /\ (BUF_STATE_GET_REFCOUNT old < BUF_REFCOUNT_MASK ->
           BUF_STATE_GET_USAGECOUNT old <= BM_MAX_USAGE_COUNT ->
           BUF_STATE_GET_REFCOUNT (mem w') = BUF_STATE_GET_REFCOUNT old + 1
           /\ BUF_STATE_GET_USAGECOUNT (mem w')
              = match strategy with
                | None => if BUF_STATE_GET_USAGECOUNT old =? 5
                          then 5
                          else BUF_STATE_GET_USAGECOUNT old + 1
                | Some _ => if BUF_STATE_GET_USAGECOUNT old =? 0
                            then 1
                            else BUF_STATE_GET_USAGECOUNT old
                end
           /\ (strategy <> None ->
               BUF_STATE_GET_USAGECOUNT (mem w')
               <= Z.max 1 (BUF_STATE_GET_USAGECOUNT old))
           /\ flags_of (mem w') = flags_of old
           /\ result = flag_set old BM_VALID
           /\ result = flag_set (mem w') BM_VALID))
  /\ (lock_free_world w -> (List.length (env w) < fuel)%nat ->
      exists result w', PinBuffer fuel strategy w = Done result w').
Proof.
  intros Hp. split.
  - intros result w' H. unfold PinBuffer in H.
    unfold bind at 1 in H. unfold gets at 1 in H. rewrite Hp in H.
    change (0 =? 0) with true in H. cbv iota in H.
    unfold bind at 1 in H. unfold bind at 1 in H.
    unfold pg_atomic_read_u32 in H. unfold bind at 1 in H.
    destruct (cas_loop (PinBuffer_update strategy) fuel (mem (env_step w))
                (env_step w)) as [[old new] w1|msg w1|] eqn:Ec; try discriminate.
    destruct (cas_loop_spec _ _ _ _ _ _ _ Ec) as (k & Hold & Hl & Hnew & Hw1).
    unfold ret, bind, modify in H. cbn [snd] in H. injection H as Hres Hw'.
    assert (Hfr : frame w' = with_state new (frame (env_steps k (env_step w))))
      by (rewrite <- Hw', Hw1; reflexivity).
    assert (Hm : mem w' = new) by (unfold mem; rewrite Hfr; reflexivity).
    exists (S k). cbn [env_steps]. cbv zeta. rewrite <- Hold.
    split; [assumption|]. split; [now rewrite Hfr, Hnew|].
    split; [now rewrite <- Hw'|].
    intros Hr Hu. rewrite Hm, <- Hres, Hnew.
    destruct (PinBuffer_update_fields strategy old Hr Hu) as (R & U & F).
    assert (Hv : flag_set (PinBuffer_update strategy old) BM_VALID
                 = flag_set old BM_VALID)
      by (apply flags_of_flag; [lia|assumption]).
    unfold BM_MAX_USAGE_COUNT in *.
    split; [exact R|]. split.
    { rewrite U. destruct strategy; [reflexivity|].
      destruct (Z.eqb_spec (BUF_STATE_GET_USAGECOUNT old) 5) as [->|]; reflexivity. }
    split.
    { intros Hs. rewrite U. destruct strategy as [ring|]; [|congruence].
      destruct (Z.eqb_spec (BUF_STATE_GET_USAGECOUNT old) 0); lia. }
    split; [exact F|]. split; [exact Hv|reflexivity].
  - intros Hw Hf. unfold PinBuffer.
    unfold bind at 1. unfold gets at 1. rewrite Hp.
    change (0 =? 0) with true. cbv iota.
    destruct (read_cas_loop_returns (PinBuffer_update strategy) w fuel Hw Hf)
      as (old & new & w1 & Hq).
    unfold bind in Hq. unfold bind.
    destruct (pg_atomic_read_u32 w) as [o w0|msg w0|] eqn:Er; try discriminate.
    rewrite Hq. unfold ret, modify. eauto.
Qed.

Lemma PinBuffer_first_pin_witness :
  exists result w',
    PinBuffer 3 None (backend_of frame_clean [None; Some frame_clean_unpinned] 0)
    = Done result w'.
Proof.
  apply (PinBuffer_first_pin 3 None
           (backend_of frame_clean [None; Some frame_clean_unpinned] 0)).
  - reflexivity.
  - split; [reflexivity|repeat constructor].
  - cbn. lia.
Defined.

(** Pins of the clean frame (REFCOUNT 2, USAGE_COUNT 3): the default
    strategy raises both counters, a ring raises REFCOUNT only; at
    [BM_MAX_USAGE_COUNT] the usage count stays. *)
Example PinBuffer_default_run :
  exists w', PinBuffer 2 None (backend_of frame_clean [] 0) = Done true w'
             /\ BUF_STATE_GET_REFCOUNT (mem w') = 3
             /\ BUF_STATE_GET_USAGECOUNT (mem w') = 4.
Proof. eexists. split; [vm_compute; reflexivity|]. split; reflexivity. Qed.

Example PinBuffer_ring_run :
  exists w', PinBuffer 2 (Some 0%nat) (backend_of frame_clean [] 0) = Done true w'
             /\ BUF_STATE_GET_REFCOUNT (mem w') = 3
             /\ BUF_STATE_GET_USAGECOUNT (mem w') = 3.
Proof. eexists. split; [vm_compute; reflexivity|]. split; reflexivity. Qed.

Example PinBuffer_update_at_max :
  BUF_STATE_GET_USAGECOUNT
    (PinBuffer_update None (Z.lor BM_VALID (5 * BUF_USAGECOUNT_ONE))) = 5
  /\ BUF_STATE_GET_USAGECOUNT (PinBuffer_update (Some 0%nat) BM_VALID) = 1.
Proof. split; reflexivity. Qed.

(** ** [UnpinBuffer] *)

Lemma env_steps_set_PrivateRefCount (k : nat) (n : Z) (w : Backend) :
  env_steps k (set_PrivateRefCount n w) = set_PrivateRefCount n (env_steps k w).
Proof.
  revert w. induction k as [|k IH]; intros w; [reflexivity|].
  cbn [env_steps]. rewrite <- IH. f_equal.
  unfold env_step. cbn [env set_PrivateRefCount].
  destruct (env w) as [|[f|] rest]; reflexivity.
Qed.

Lemma UnpinBuffer_wakeup_spec (fuel : nat) (s1 : Z) (w w' : Backend) :
  u32_world w ->
  UnpinBuffer_wakeup fuel s1 w = Done tt w' ->
  if flag_set s1 BM_PIN_COUNT_WAITER then
    exists j : nat,
      let relock := env_steps j w in
      let found := mem relock in
      flag_set found BM_LOCKED = false
      /\ (if flag_set found BM_PIN_COUNT_WAITER
             && (BUF_STATE_GET_REFCOUNT found =? 1)
          then w' = emit (EvProcSendSignal (wait_backend_pgprocno (frame relock)))
                         (set_state (Z.land found (not32 BM_PIN_COUNT_WAITER)) relock)
          else w' = relock)
  else w' = w.
Proof.
  intros Hw H. unfold UnpinBuffer_wakeup in H.
  destruct (flag_set s1 BM_PIN_COUNT_WAITER).
  2:{ unfold ret in H. now injection H as <-. }
  unfold bind at 1 in H.
  destruct (LockBufHdr fuel w) as [s w1|msg w1|] eqn:El; try discriminate.
  destruct (LockBufHdr_spec _ _ _ _ El) as (j & Hfree & Hs & Hw1).
  exists j. cbv zeta. split; [assumption|].
  pose proof (u32_world_steps j w Hw) as [Hu _].
  set (relock := env_steps j w) in *. set (found := mem relock) in *.
  assert (Ew : flag_set s BM_PIN_COUNT_WAITER = flag_set found BM_PIN_COUNT_WAITER)
    by (rewrite Hs; apply locked_flag; lia).
  assert (Er : BUF_STATE_GET_REFCOUNT s = BUF_STATE_GET_REFCOUNT found)
    by (rewrite Hs; apply locked_REFCOUNT).
  rewrite Ew, Er in H.
  destruct (flag_set found BM_PIN_COUNT_WAITER
            && (BUF_STATE_GET_REFCOUNT found =? 1)).
  - unfold bind, gets, UnlockBufHdr, modify in H.
    apply Done_inj in H. destruct H as [_ <-].
    rewrite Hw1, Hs. rewrite set_state_twice.
    unfold BM_PIN_COUNT_WAITER.
    rewrite unlock_locked_clear by (lia || assumption).
    reflexivity.
  - unfold UnlockBufHdr, modify in H.
    apply Done_inj in H. destruct H as [_ <-].
    rewrite Hw1, Hs. rewrite set_state_twice.
    rewrite unlock_locked by assumption.
    apply set_state_mem.
Qed.

(** C4.  A call of [UnpinBuffer] that drops the backend's last local pin
    ([PrivateRefCount] 1) and returns has replaced the word [old] that was
    in memory by [old - 1]: REFCOUNT is one less (the frame was pinned, so
    REFCOUNT was positive), USAGE_COUNT and the flags are those of [old].
    If the decremented word has no [BM_PIN_COUNT_WAITER], nothing else
    happens.  Otherwise the header is locked and the word [found] there is
    examined: when [BM_PIN_COUNT_WAITER] is set and REFCOUNT is 1, the
    waiter bit is cleared and the backend recorded in
    [wait_backend_pgprocno] is signalled; in every other case the word is
    left as found and no signal is sent.  When the others leave the frame
    alone, [found] is the decremented word itself, and the call returns.
    It also returns under contention, given fuel for one more attempt than
    the other backends have stores, as long as they never leave the header
    locked and every word shows a pin. *)
Theorem UnpinBuffer_last_pin (fuel : nat) (w : Backend) :
  PrivateRefCount w = 1 ->
  u32_world w ->
  (forall w', UnpinBuffer fuel w = Done tt w' ->
     exists k : nat,
       let before := env_steps k w in
       let old := mem before in
       let dec := u32 (old - BUF_REFCOUNT_ONE) in
       flag_set old BM_LOCKED = false
       /\ PrivateRefCount w' = 0
       /\ (0 < BUF_STATE_GET_REFCOUNT old ->
           BUF_STATE_GET_REFCOUNT dec = BUF_STATE_GET_REFCOUNT old - 1
           /\ BUF_STATE_GET_USAGECOUNT dec = BUF_STATE_GET_USAGECOUNT old
           /\ flags_of dec = flags_of old)
       /\ (if flag_set dec BM_PIN_COUNT_WAITER then
             exists j : nat,
               let relock := env_steps j (set_state dec before) in
               let found := mem relock in
               flag_set found BM_LOCKED = false
               /\ (if flag_set found BM_PIN_COUNT_WAITER
                      && (BUF_STATE_GET_REFCOUNT found =? 1)
                   then
                     frame w' = with_state
                                  (Z.land found (not32 BM_PIN_COUNT_WAITER))
                                  (frame relock)
                     /\ events w' = events w ++
                          [EvProcSendSignal (wait_backend_pgprocno (frame relock))]
                   else frame w' = frame relock /\ events w' = events w)
           else
             frame w' = with_state dec (frame before)
             /\ events w' = events w))
  /\ (env w = [] -> flag_set (mem w) BM_LOCKED = false ->
      0 < BUF_STATE_GET_REFCOUNT (mem w) ->
      let dec := u32 (mem w - BUF_REFCOUNT_ONE) in
      exists w',
        UnpinBuffer (S fuel) w = Done tt w'
        /\ BUF_STATE_GET_REFCOUNT dec = BUF_STATE_GET_REFCOUNT (mem w) - 1
        /\ (if flag_set dec BM_PIN_COUNT_WAITER
               && (BUF_STATE_GET_REFCOUNT dec =? 1)
            then
              mem w' = Z.land dec (not32 BM_PIN_COUNT_WAITER)
              /\ events w' = events w ++
                   [EvProcSendSignal (wait_backend_pgprocno (frame w))]
            else mem w' = dec /\ events w' = events w))
  /\ (lock_free_world w -> pinned_world w ->
      (List.length (env w) < fuel)%nat ->
      exists w', UnpinBuffer fuel w = Done tt w').
Proof.
  intros Hp Hw. split; [|split].
  - intros w' H. unfold UnpinBuffer in H.
    unfold bind at 1 in H. unfold gets at 1 in H. rewrite Hp in H.
    change (1 - 1) with 0 in H. unfold bind at 1 in H. unfold modify at 1 in H.
    change (0 =? 0) with true in H. cbv iota in H.
    set (w0 := set_PrivateRefCount 0 w) in *.
    unfold bind at 1 in H. unfold pg_atomic_read_u32 in H.
    unfold bind at 1 in H.
    destruct (cas_loop UnpinBuffer_update fuel (mem (env_step w0)) (env_step w0))
      as [[old new] w1|msg w1|] eqn:Ec; try discriminate.
    destruct (cas_loop_spec _ _ _ _ _ _ _ Ec) as (k & Hold & Hl & Hnew & Hw1).
    cbn [snd] in H.
    change (env_steps k (env_step w0)) with (env_steps (S k) w0) in *.
    unfold w0 in Hold, Hw1. rewrite env_steps_set_PrivateRefCount in Hold, Hw1.
    change (mem (set_PrivateRefCount 0 (env_steps (S k) w)))
      with (mem (env_steps (S k) w)) in Hold.
    exists (S k). cbv zeta. rewrite <- Hold.
    unfold UnpinBuffer_update in Hnew. rewrite <- Hnew.
    assert (Hw1u : u32_world w1).
    { rewrite Hw1. apply u32_world_set_state; [rewrite Hnew; apply is_u32_u32|].
      destruct (u32_world_steps (S k) w Hw) as [Hm He]. split; assumption. }
    pose proof (UnpinBuffer_wakeup_spec fuel new w1 w' Hw1u H) as Hwk.
    destruct (env_steps_private (S k) w) as (_ & _ & _ & _ & Hev).
    split; [assumption|].
    assert (Hpriv : PrivateRefCount w' = 0 /\
                    (flag_set new BM_PIN_COUNT_WAITER = false -> w' = w1)).
    { destruct (flag_set new BM_PIN_COUNT_WAITER).
      - destruct Hwk as (j & _ & Hb). split; [|discriminate].
        destruct (env_steps_private j w1) as (_ & Hq & _).
        destruct (_ && _); subst w'; cbn; rewrite Hq, Hw1; reflexivity.
      - subst w'. split; [rewrite Hw1; reflexivity|reflexivity]. }
    destruct Hpriv as [Hp0 Hsame].
    split; [assumption|].
    split; [intros Hr; rewrite Hnew; now apply decr_refcount|].
    destruct (flag_set new BM_PIN_COUNT_WAITER).
    + destruct Hwk as (j & Hfree & Hb).
      assert (Hrel : env_steps j w1
                     = set_PrivateRefCount 0
                         (env_steps j (set_state new (env_steps (S k) w)))).
      { rewrite Hw1.
        change (set_state new (set_PrivateRefCount 0 (env_steps (S k) w)))
          with (set_PrivateRefCount 0 (set_state new (env_steps (S k) w))).
        apply env_steps_set_PrivateRefCount. }
      exists j. cbv zeta.
      set (relock := env_steps j (set_state new (env_steps (S k) w))) in *.
      assert (Hfrm : frame (env_steps j w1) = frame relock) by now rewrite Hrel.
      assert (Hmem : mem (env_steps j w1) = mem relock) by now rewrite Hrel.
      assert (Hevs : events (env_steps j w1) = events w).
      { rewrite Hrel. cbn. unfold relock.
        destruct (env_steps_private j (set_state new (env_steps (S k) w)))
          as (_ & _ & _ & _ & E). rewrite E. cbn. exact Hev. }
      rewrite Hmem in Hfree, Hb. split; [assumption|].
      destruct (flag_set (mem relock) BM_PIN_COUNT_WAITER
                && (BUF_STATE_GET_REFCOUNT (mem relock) =? 1)).
      * subst w'. cbn [frame emit set_state set_frame events].
        rewrite Hfrm, Hevs. split; reflexivity.
      * subst w'. rewrite Hfrm, Hevs. split; reflexivity.
    + rewrite (Hsame eq_refl), Hw1. cbn. split; [reflexivity|exact Hev].
  - intros He Hl Hr dec.
    destruct (decr_refcount (mem w) Hr) as (R & U & F). fold dec in R, U, F.
    assert (Hdl : flag_set dec BM_LOCKED = false)
      by (rewrite <- Hl; apply flags_of_flag; [lia|assumption]).
    unfold UnpinBuffer.
    unfold bind at 1. unfold gets at 1. rewrite Hp.
    change (1 - 1) with 0. unfold bind at 1. unfold modify at 1.
    change (0 =? 0) with true. cbv iota.
    set (w0 := set_PrivateRefCount 0 w).
    pose proof (cas_loop_quiet UnpinBuffer_update fuel w0 He Hl) as Hq.
    unfold bind in Hq. unfold bind at 1. unfold bind at 1.
    destruct (pg_atomic_read_u32 w0) as [o wr|msg wr|] eqn:Er; try discriminate.
    rewrite Hq. cbn [snd].
    change (UnpinBuffer_update (mem w0)) with dec.
    set (w1 := set_state dec w0).
    unfold UnpinBuffer_wakeup.
    destruct (flag_set dec BM_PIN_COUNT_WAITER) eqn:Ewt; cbn [andb].
    + assert (Hfree : flag_set (mem (env_step w1)) BM_LOCKED = false)
        by (rewrite env_step_quiet by exact He; exact Hdl).
      unfold bind at 1. rewrite (LockBufHdr_free fuel w1 Hfree).
      rewrite env_step_quiet by exact He.
      change (mem w1) with dec.
      assert (Ew : flag_set (Z.lor dec BM_LOCKED) BM_PIN_COUNT_WAITER = true)
        by (rewrite <- Ewt; apply locked_flag; lia).
      rewrite Ew, locked_REFCOUNT. cbn [andb].
      destruct (BUF_STATE_GET_REFCOUNT dec =? 1).
      * unfold bind, gets, UnlockBufHdr, modify.
        eexists. split; [reflexivity|]. split; [assumption|].
        unfold BM_PIN_COUNT_WAITER.
        rewrite unlock_locked_clear by (lia || assumption || apply is_u32_u32).
        split; reflexivity.
      * unfold UnlockBufHdr, modify.
        eexists. split; [reflexivity|]. split; [assumption|].
        rewrite unlock_locked by (assumption || apply is_u32_u32).
        split; reflexivity.
    + unfold ret. eexists. split; [reflexivity|]. split; [assumption|].
      split; reflexivity.
  - intros Hlf Hpin Hf. unfold UnpinBuffer.
    unfold bind at 1. unfold gets at 1. rewrite Hp.
    change (1 - 1) with 0. unfold bind at 1. unfold modify at 1.
    change (0 =? 0) with true. cbv iota.
    set (w0 := set_PrivateRefCount 0 w).
    assert (Hlf0 : lock_free_world w0) by exact Hlf.
    assert (Hpin0 : pinned_world w0) by exact Hpin.
    destruct (read_cas_loop_returns UnpinBuffer_update w0 fuel Hlf0 Hf)
      as (old & new & w1 & Hq).
    unfold bind in Hq. unfold bind at 1. unfold bind at 1.
    destruct (pg_atomic_read_u32 w0) as [o wr|msg wr|] eqn:Er; try discriminate.
    unfold pg_atomic_read_u32 in Er. apply Done_inj in Er. destruct Er as [<- <-].
    rewrite Hq. cbn [snd].
    destruct (cas_loop_spec _ _ _ _ _ _ _ Hq) as (k & Hold & Hl & Hnew & Hw1).
    change (env_steps k (env_step w0)) with (env_steps (S k) w0) in *.
    destruct (pinned_world_steps (S k) w0 Hpin0) as [Hr _].
    destruct (lock_free_world_steps (S k) w0 Hlf0) as [_ Hle].
    rewrite <- Hold in Hr.
    destruct (decr_refcount old Hr) as (_ & _ & F).
    assert (Hnl : flag_set new BM_LOCKED = false).
    { rewrite Hnew. unfold UnpinBuffer_update. rewrite <- Hl.
      apply flags_of_flag; [lia|assumption]. }
    unfold UnpinBuffer_wakeup.
    destruct (flag_set new BM_PIN_COUNT_WAITER); [|unfold ret; eauto].
    assert (Hfree : flag_set (mem (env_step w1)) BM_LOCKED = false).
    { apply (lock_free_world_step w1). rewrite Hw1. split; assumption. }
    destruct fuel as [|n]; [lia|].
    unfold bind at 1. rewrite (LockBufHdr_free n w1 Hfree).
    destruct (_ && _);
      unfold bind, gets, UnlockBufHdr, modify; eauto.
Qed.

Lemma UnpinBuffer_last_pin_witness :
  exists w',
    UnpinBuffer 2 backend_waited = Done tt w'
    /\ BUF_STATE_GET_REFCOUNT (u32 (mem backend_waited - BUF_REFCOUNT_ONE))
       = BUF_STATE_GET_REFCOUNT (mem backend_waited) - 1
    /\ (if flag_set (u32 (mem backend_waited - BUF_REFCOUNT_ONE))
                    BM_PIN_COUNT_WAITER
           && (BUF_STATE_GET_REFCOUNT
                 (u32 (mem backend_waited - BUF_REFCOUNT_ONE)) =? 1)
        then
          mem w' = Z.land (u32 (mem backend_waited - BUF_REFCOUNT_ONE))
                          (not32 BM_PIN_COUNT_WAITER)
          /\ events w' = events backend_waited ++
               [EvProcSendSignal (wait_backend_pgprocno (frame backend_waited))]
        else mem w' = u32 (mem backend_waited - BUF_REFCOUNT_ONE)
             /\ events w' = events backend_waited).
Proof.
  assert (Hu : u32_world backend_waited).
  { apply u32_world_quiet. split; [vm_compute; discriminate|vm_compute; reflexivity]. }
  apply (proj1 (proj2 (UnpinBuffer_last_pin 1 backend_waited eq_refl Hu))).
  - reflexivity.
  - vm_compute. reflexivity.
  - vm_compute. reflexivity.
Defined.

(** ** The I/O gate *)

(** Taking and dropping the header spinlock leaves a [uint32] word as it
    was found. *)
Lemma lock_unlock (fuel : nat) (w w1 : Backend) (s : Z) :
  u32_world w ->
  LockBufHdr fuel w = Done s w1 ->
  exists k : nat,
    let before := env_steps k w in
    flag_set (mem before) BM_LOCKED = false
    /\ s = Z.lor (mem before) BM_LOCKED
    /\ w1 = set_state s before
    /\ set_state (Z.land s (not32 BM_LOCKED)) w1 = before.
Proof.
  intros Hw H. destruct (LockBufHdr_spec _ _ _ _ H) as (k & Hf & Hs & Hw1).
  exists k. cbv zeta. repeat split; try assumption.
  destruct (u32_world_steps k w Hw) as [Hu _].
  rewrite Hw1, set_state_twice, Hs, unlock_locked by assumption.
  apply set_state_mem.
Qed.

Lemma WaitIO_spec (fuel : nat) (w w' : Backend) :
  u32_world w ->
  WaitIO fuel w = Done tt w' ->
  exists k : nat, w' = env_steps k w.
Proof.
  revert w. induction fuel as [|n IH]; intros w Hw H; [discriminate|].
  cbn [WaitIO] in H. unfold bind at 1 in H.
  destruct (LockBufHdr n w) as [s w1|msg w1|] eqn:El; try discriminate.
  destruct (lock_unlock _ _ _ _ Hw El) as (k & Hf & Hs & Hw1 & Hun).
  unfold bind at 1 in H. unfold UnlockBufHdr, modify in H. rewrite Hun in H.
  destruct (negb (flag_set s BM_IO_IN_PROGRESS)).
  - unfold ret in H. apply Done_inj in H. destruct H as [_ <-]. now exists k.
  - destruct (IH _ (u32_world_steps k w Hw) H) as (k2 & ->).
    exists (k + k2)%nat. now rewrite env_steps_add.
Qed.

Lemma StartBufferIO_wait_spec (fuel : nat) (w w' : Backend) (s : Z) :
  u32_world w ->
  StartBufferIO_wait fuel w = Done s w' ->
  exists k : nat,
    let before := env_steps k w in
    flag_set (mem before) BM_LOCKED = false
    /\ flag_set (mem before) BM_IO_IN_PROGRESS = false
    /\ s = Z.lor (mem before) BM_LOCKED
    /\ w' = set_state s before.
Proof.
  revert w. induction fuel as [|n IH]; intros w Hw H; [discriminate|].
  cbn [StartBufferIO_wait] in H. unfold bind at 1 in H.
  destruct (LockBufHdr n w) as [s1 w1|msg w1|] eqn:El; try discriminate.
  destruct (lock_unlock _ _ _ _ Hw El) as (k & Hf & Hs & Hw1 & Hun).
  assert (Eio : flag_set s1 BM_IO_IN_PROGRESS
                = flag_set (mem (env_steps k w)) BM_IO_IN_PROGRESS)
    by (rewrite Hs; apply locked_flag; lia).
  destruct (flag_set s1 BM_IO_IN_PROGRESS) eqn:E; cbn [negb] in H.
  - unfold bind at 1 in H. unfold UnlockBufHdr, modify in H. rewrite Hun in H.
    unfold bind at 1 in H.
    destruct (WaitIO n (env_steps k w)) as [[] w2|msg w2|] eqn:Ew; try discriminate.
    destruct (WaitIO_spec _ _ _ (u32_world_steps k w Hw) Ew) as (k2 & ->).
    rewrite <- env_steps_add in H.
    destruct (IH _ (u32_world_steps _ w Hw) H) as (k3 & H1 & H2 & H3 & H4).
    rewrite <- env_steps_add in H1, H2, H3, H4.
    exists (k + k2 + k3)%nat. auto.
  - unfold ret in H. apply Done_inj in H. destruct H as [<- <-].
    exists k. cbv zeta. auto.
Qed.

(** What a returning [StartBufferIO] did. *)
Lemma StartBufferIO_spec (fuel : nat) (forInput : bool) (w w' : Backend) (r : bool) :
  u32_world w ->
  StartBufferIO fuel forInput w = Done r w' ->
  exists k : nat,
    let before := env_steps k w in
    let found := mem before in
    flag_set found BM_LOCKED = false
    /\ flag_set found BM_IO_IN_PROGRESS = false
    /\ r = negb (if forInput then flag_set found BM_VALID
                 else negb (flag_set found BM_DIRTY))
    /\ w' = if r then set_state (Z.lor found BM_IO_IN_PROGRESS) before
            else before.
Proof.
  intros Hw H. unfold StartBufferIO in H. unfold bind at 1 in H.
  destruct (StartBufferIO_wait fuel w) as [s w1|msg w1|] eqn:Es; try discriminate.
  destruct (StartBufferIO_wait_spec _ _ _ _ Hw Es) as (k & Hf & Hio & Hs & Hw1).
  exists k. cbv zeta.
  destruct (u32_world_steps k w Hw) as [Hu _].
  set (before := env_steps k w) in *. set (found := mem before) in *.
  assert (Ev : flag_set s BM_VALID = flag_set found BM_VALID)
    by (rewrite Hs; apply locked_flag; lia).
  assert (Ed : flag_set s BM_DIRTY = flag_set found BM_DIRTY)
    by (rewrite Hs; apply locked_flag; lia).
  rewrite Ev, Ed in H.
  split; [assumption|]. split; [assumption|].
  destruct (if forInput then flag_set found BM_VALID
            else negb (flag_set found BM_DIRTY)).
  - unfold bind, UnlockBufHdr, modify, ret in H.
    apply Done_inj in H. destruct H as [<- <-].
    rewrite Hw1, set_state_twice, Hs, unlock_locked by assumption.
    unfold found. rewrite set_state_mem. auto.
  - unfold bind, UnlockBufHdr, modify, ret in H.
    apply Done_inj in H. destruct H as [<- <-].
    rewrite Hw1, set_state_twice, Hs.
    rewrite unlock_locked_set
      by (assumption || (apply is_u32_flag; lia) || reflexivity).
    auto.
Qed.

Lemma StartBufferIO_no_raise (fuel : nat) (forInput : bool) (w w' : Backend)
    (msg : string) :
  StartBufferIO fuel forInput w <> Raise msg w'.
Proof.
  assert (HW : forall n w0 m w1, WaitIO n w0 <> Raise m w1).
  { induction n as [|n IH]; intros w0 m w1; [discriminate|].
    cbn [WaitIO]. unfold bind at 1.
    destruct (LockBufHdr n w0) as [s w2|m2 w2|] eqn:El; try discriminate.
    - unfold bind, UnlockBufHdr, modify.
      destruct (negb _); [discriminate|apply IH].
    - now apply LockBufHdr_no_raise in El. }
  assert (HS : forall n w0 m w1, StartBufferIO_wait n w0 <> Raise m w1).
  { induction n as [|n IH]; intros w0 m w1; [discriminate|].
    cbn [StartBufferIO_wait]. unfold bind at 1.
    destruct (LockBufHdr n w0) as [s w2|m2 w2|] eqn:El; try discriminate.
    - destruct (negb _); [discriminate|].
      unfold bind at 1. unfold UnlockBufHdr, modify. unfold bind at 1.
      destruct (WaitIO n _) as [[] w3|m3 w3|] eqn:Ew; try discriminate.
      + apply IH.
      + now apply HW in Ew.
    - now apply LockBufHdr_no_raise in El. }
  unfold StartBufferIO. unfold bind at 1.
  destruct (StartBufferIO_wait fuel w) as [s w1|m1 w1|] eqn:Es; try discriminate.
  - destruct (if forInput then _ else _); discriminate.
  - now apply HS in Es.
Qed.

(** C2.  A call of [StartBufferIO] that returns found, under the header
    spinlock, a word [found] without [BM_IO_IN_PROGRESS].  It returns false
    and leaves the word as found exactly when ([forInput] and [BM_VALID] is
    set) or (not [forInput] and [BM_DIRTY] is clear); otherwise it stores
    the word with [BM_IO_IN_PROGRESS] set and returns true.  When the header
    is free and idle at the next access, the call returns at once. *)
Theorem StartBufferIO_decides (fuel : nat) (forInput : bool) (w : Backend) :
  u32_world w ->
  (forall r w', StartBufferIO fuel forInput w = Done r w' ->
     exists k : nat,
       let before := env_steps k w in
       let found := mem before in
       let already_done :=
         (forInput && flag_set found BM_VALID)
         || (negb forInput && negb (flag_set found BM_DIRTY)) in
       flag_set found BM_LOCKED = false
       /\ flag_set found BM_IO_IN_PROGRESS = false
       /\ r = negb already_done
       /\ frame w' = (if already_done then frame before
                      else with_state (Z.lor found BM_IO_IN_PROGRESS)
                                      (frame before))
       /\ flag_set (mem w') BM_IO_IN_PROGRESS = negb already_done)
  /\ (flag_set (mem (env_step w)) BM_LOCKED = false ->
      flag_set (mem (env_step w)) BM_IO_IN_PROGRESS = false ->
      exists r w', StartBufferIO (S (S fuel)) forInput w = Done r w').
Proof.
  intros Hw. split.
  - intros r w' H.
    destruct (StartBufferIO_spec _ _ _ _ _ Hw H) as (k & Hf & Hio & Hr & Hw').
    exists k. cbv zeta.
    set (before := env_steps k w) in *. set (found := mem before) in *.
    assert (Hcase : (forInput && flag_set found BM_VALID)
                    || (negb forInput && negb (flag_set found BM_DIRTY))
                    = if forInput then flag_set found BM_VALID
                      else negb (flag_set found BM_DIRTY)).
    { destruct forInput; cbn; [apply orb_false_r|reflexivity]. }
    rewrite Hcase. split; [assumption|]. split; [assumption|].
    split; [assumption|].
    destruct (if forInput then flag_set found BM_VALID
              else negb (flag_set found BM_DIRTY));
      cbn [negb] in Hr; subst r w'.
    + split; [reflexivity|]. exact Hio.
    + split; [reflexivity|].
      rewrite mem_set_state. unfold BM_IO_IN_PROGRESS.
      rewrite flag_set_bit, Z.lor_spec, testbit_pow2 by lia.
      apply orb_true_r.
  - intros Hf Hio. unfold StartBufferIO. unfold bind at 1.
    cbn [StartBufferIO_wait]. unfold bind at 1.
    rewrite (LockBufHdr_free fuel w Hf).
    assert (Eio : flag_set (Z.lor (mem (env_step w)) BM_LOCKED) BM_IO_IN_PROGRESS
                  = false) by (rewrite <- Hio; apply locked_flag; lia).
    rewrite Eio. cbn [negb]. unfold ret at 1.
    destruct (if forInput then _ else _);
      unfold bind, UnlockBufHdr, modify, ret; eauto.
Qed.

Lemma StartBufferIO_decides_witness :
  exists r w', StartBufferIO 3 false (backend_of frame_clean [] 1) = Done r w'.
Proof.
  assert (Hu : u32_world (backend_of frame_clean [] 1)).
  { apply u32_world_quiet. split; [vm_compute; discriminate|vm_compute; reflexivity]. }
  apply (proj2 (StartBufferIO_decides 1 false (backend_of frame_clean [] 1) Hu));
    vm_compute; reflexivity.
Defined.

(** A backend that wants to write the frame while another backend's write
    is in progress waits for it, finds the frame clean afterwards, and
    returns false without touching the word. *)
Example StartBufferIO_waits_for_writer :
  StartBufferIO 4 false (backend_of frame_writing [None; Some frame_clean] 1)
  = Done false (backend_of frame_clean [] 1).
Proof. vm_compute. reflexivity. Qed.

Example StartBufferIO_read_of_invalid_frame :
  exists w',
    StartBufferIO 3 true
      (backend_of (with_state (Z.lor BM_TAG_VALID 1) frame_clean) [] 1)
    = Done true w'
    /\ mem w' = Z.lor (Z.lor BM_TAG_VALID 1) BM_IO_IN_PROGRESS.
Proof. eexists. split; vm_compute; reflexivity. Qed.

(** ** [TerminateBufferIO] *)

Lemma is_u32_TerminateBufferIO_word (cd : bool) (sb s : Z) :
  is_u32 s -> is_u32 sb -> is_u32 (TerminateBufferIO_word cd sb s).
Proof.
  intros Hs Hsb. unfold TerminateBufferIO_word.
  apply is_u32_lor; [|assumption].
  destruct (cd && _); repeat apply is_u32_land; assumption.
Qed.

Lemma TerminateBufferIO_word_bits (cd : bool) (sb s i : Z) :
  is_u32 s -> 0 <= i ->
  Z.testbit (TerminateBufferIO_word cd sb s) i
  = Z.testbit sb i
    || (Z.testbit s i
        && negb ((26 =? i) || (27 =? i))
        && negb (cd && negb (Z.testbit s 28) && ((23 =? i) || (30 =? i)))).
Proof.
  intros Hs Hi. unfold TerminateBufferIO_word.
  assert (U1 : is_u32 (Z.lor BM_IO_IN_PROGRESS BM_IO_ERROR))
    by (apply is_u32_lor; apply is_u32_flag; lia).
  assert (U2 : is_u32 (Z.lor BM_DIRTY BM_CHECKPOINT_NEEDED))
    by (apply is_u32_lor; apply is_u32_flag; lia).
  set (s1 := Z.land s (not32 (Z.lor BM_IO_IN_PROGRESS BM_IO_ERROR))).
  assert (B1 : forall j, 0 <= j ->
             Z.testbit s1 j = Z.testbit s j && negb ((26 =? j) || (27 =? j))).
  { intros j Hj. unfold s1, BM_IO_IN_PROGRESS, BM_IO_ERROR.
    rewrite Z.land_spec, testbit_not32_gen, Z.lor_spec, !testbit_pow2
      by (lia || assumption).
    destruct (Z.ltb_spec j 32) as [H|H]; cbn [andb]; [reflexivity|].
    now rewrite (is_u32_high s j Hs H). }
  assert (Ejd : flag_set s1 BM_JUST_DIRTIED = Z.testbit s 28).
  { unfold BM_JUST_DIRTIED. rewrite flag_set_bit, B1 by lia.
    apply andb_true_r. }
  rewrite Ejd, Z.lor_spec, orb_comm. f_equal.
  destruct (cd && negb (Z.testbit s 28)); cbn [andb negb].
  - unfold BM_DIRTY, BM_CHECKPOINT_NEEDED.
    rewrite Z.land_spec, testbit_not32_gen, Z.lor_spec, !testbit_pow2
      by (lia || assumption).
    rewrite B1 by lia.
    destruct (Z.ltb_spec i 32) as [H|H]; cbn [andb]; [reflexivity|].
    rewrite (is_u32_high s i Hs H). reflexivity.
  - rewrite B1 by lia. now rewrite andb_true_r.
Qed.

(** Under the spinlock the function works on [found | BM_LOCKED];
    [UnlockBufHdr] then stores the word it would have computed from
    [found]. *)
Lemma unlock_TerminateBufferIO_word (cd : bool) (sb found : Z) :
  is_u32 found -> is_u32 sb ->
  flag_set found BM_LOCKED = false -> flag_set sb BM_LOCKED = false ->
  Z.land (TerminateBufferIO_word cd sb (Z.lor found BM_LOCKED)) (not32 BM_LOCKED)
  = TerminateBufferIO_word cd sb found.
Proof.
  intros Hf Hsb Hl Hsl.
  assert (HL : is_u32 (Z.lor found BM_LOCKED))
    by (apply is_u32_lor; [assumption|apply is_u32_flag; lia]).
  unfold BM_LOCKED in Hl, Hsl. rewrite flag_set_bit in Hl, Hsl by lia.
  apply Z.bits_inj'. intros i Hi. unfold BM_LOCKED at 2.
  rewrite testbit_clear
    by (lia || (apply is_u32_TerminateBufferIO_word; assumption)).
  rewrite !TerminateBufferIO_word_bits by assumption.
  unfold BM_LOCKED. rewrite !Z.lor_spec, !testbit_pow2 by lia.
  change (22 =? 28) with false. rewrite orb_false_r.
  destruct (Z.eqb_spec 22 i) as [<-|_]; cbn [negb].
  - rewrite Hl, Hsl, andb_false_r. reflexivity.
  - now rewrite orb_false_r, andb_true_r.
Qed.

(** C1, as the code has it.  A call of [TerminateBufferIO] (with set bits
    that are a [uint32] without [BM_LOCKED]) that returns found a word
    [found] under the header spinlock and stored
    [TerminateBufferIO_word clear_dirty set_flag_bits found]: [found] with
    [BM_IO_IN_PROGRESS] and [BM_IO_ERROR] cleared, with [BM_DIRTY] (and
    [BM_CHECKPOINT_NEEDED]) cleared when [clear_dirty] is true and
    [BM_JUST_DIRTIED] was not set in [found], and then [set_flag_bits] ORed
    in.  So each of these bits is set in the result when [set_flag_bits] has
    it, and otherwise: [BM_IO_IN_PROGRESS] and [BM_IO_ERROR] are clear, and
    [BM_DIRTY] is that of [found] unless [clear_dirty] is true and
    [BM_JUST_DIRTIED] was clear, in which case it is clear.  The I/O
    condition variable is broadcast.  This holds in particular for a call
    made while [BM_IO_IN_PROGRESS] is set. *)
Theorem TerminateBufferIO_effect
    (fuel : nat) (clear_dirty : bool) (set_flag_bits : Z) (w : Backend) :
  u32_world w ->
  is_u32 set_flag_bits ->
  flag_set set_flag_bits BM_LOCKED = false ->
  (forall w', TerminateBufferIO fuel clear_dirty set_flag_bits w = Done tt w' ->
     exists k : nat,
       let before := env_steps k w in
       let found := mem before in
       flag_set found BM_LOCKED = false
       /\ frame w' = with_state
                       (TerminateBufferIO_word clear_dirty set_flag_bits found)
                       (frame before)
       /\ flag_set (mem w') BM_IO_IN_PROGRESS
          = flag_set set_flag_bits BM_IO_IN_PROGRESS
       /\ flag_set (mem w') BM_IO_ERROR = flag_set set_flag_bits BM_IO_ERROR
       /\ flag_set (mem w') BM_DIRTY
          = flag_set set_flag_bits BM_DIRTY
            || (flag_set found BM_DIRTY
                && negb (clear_dirty && negb (flag_set found BM_JUST_DIRTIED)))
       /\ Z.land (mem w') set_flag_bits = set_flag_bits
       /\ events w' = events w ++ [EvIOCVBroadcast])
  /\ (flag_set (mem (env_step w)) BM_LOCKED = false ->
      exists w', TerminateBufferIO (S fuel) clear_dirty set_flag_bits w
                 = Done tt w').
Proof.
  intros Hw Hsb Hsl. split.
  - intros w' H. unfold TerminateBufferIO in H. unfold bind at 1 in H.
    destruct (LockBufHdr fuel w) as [s w1|msg w1|] eqn:El; try discriminate.
    destruct (LockBufHdr_spec _ _ _ _ El) as (k & Hf & Hs & Hw1).
    unfold bind, UnlockBufHdr, modify in H.
    apply Done_inj in H. destruct H as [_ <-].
    exists k. cbv zeta.
    destruct (u32_world_steps k w Hw) as [Hu _].
    destruct (env_steps_private k w) as (_ & _ & _ & _ & Hev).
    set (before := env_steps k w) in *. set (found := mem before) in *.
    rewrite Hw1, set_state_twice, Hs.
    rewrite unlock_TerminateBufferIO_word by assumption.
    split; [assumption|]. split; [reflexivity|].
    assert (Hm : mem (emit EvIOCVBroadcast
                   (set_state (TerminateBufferIO_word clear_dirty set_flag_bits found)
                      before))
                 = TerminateBufferIO_word clear_dirty set_flag_bits found)
      by reflexivity.
    rewrite Hm.
    unfold BM_IO_IN_PROGRESS, BM_IO_ERROR, BM_DIRTY, BM_JUST_DIRTIED.
    rewrite !flag_set_bit by lia.
    rewrite !TerminateBufferIO_word_bits by (assumption || lia).
    split; [cbn; now rewrite andb_false_r, orb_false_r|].
    split; [cbn; now rewrite andb_false_r, orb_false_r|].
    split.
    { change (26 =? 23) with false. change (27 =? 23) with false.
      change (23 =? 23) with true. cbn [orb negb].
      now rewrite !andb_true_r. }
    split.
    { apply Z.bits_inj'. intros i Hi.
      rewrite Z.land_spec, TerminateBufferIO_word_bits by assumption.
      destruct (Z.testbit set_flag_bits i); [reflexivity|apply andb_false_r]. }
    cbn [events emit set_state set_frame]. now rewrite Hev.
  - intros Hf. unfold TerminateBufferIO. unfold bind at 1.
    rewrite (LockBufHdr_free fuel w Hf).
    unfold bind, UnlockBufHdr, modify. eauto.
Qed.

Lemma TerminateBufferIO_effect_witness :
  exists w', TerminateBufferIO 2 true 0 backend_writing = Done tt w'.
Proof.
  assert (Hu : u32_world backend_writing).
  { apply u32_world_quiet. split; [vm_compute; discriminate|vm_compute; reflexivity]. }
  apply (proj2 (TerminateBufferIO_effect 1 true 0 backend_writing Hu
                  ltac:(split; [vm_compute; discriminate|vm_compute; reflexivity])
                  eq_refl)).
  vm_compute. reflexivity.
Defined.

(** C1, as stated, fails: [AbortBufferIO] ends an I/O by
    [TerminateBufferIO(buf, false, BM_IO_ERROR)], and the word it leaves has
    [BM_IO_ERROR] set, although the call was made with
    [BM_IO_IN_PROGRESS] set. *)
Lemma TerminateBufferIO_leaves_IO_ERROR_set :
  flag_set (mem backend_writing) BM_IO_IN_PROGRESS = true
  /\ exists w',
       TerminateBufferIO 2 false BM_IO_ERROR backend_writing = Done tt w'
       /\ AbortBufferIO 2 backend_writing = Done tt w'
       /\ flag_set (mem w') BM_IO_IN_PROGRESS = false
       /\ flag_set (mem w') BM_IO_ERROR = true.
Proof.
  split; [reflexivity|].
  eexists. split; [vm_compute; reflexivity|].
  split; [vm_compute; reflexivity|]. split; reflexivity.
Qed.

(** ** [FlushBuffer] *)

Lemma TerminateBufferIO_events (fuel : nat) (cd : bool) (sb : Z) (w w' : Backend) :
  TerminateBufferIO fuel cd sb w = Done tt w' ->
  events w' = events w ++ [EvIOCVBroadcast]
  /\ PrivateRefCount w' = PrivateRefCount w
  /\ buf_id w' = buf_id w.
Proof.
  intros H. unfold TerminateBufferIO in H. unfold bind at 1 in H.
  destruct (LockBufHdr fuel w) as [s w1|msg w1|] eqn:El; try discriminate.
  destruct (LockBufHdr_spec _ _ _ _ El) as (k & _ & _ & Hw1).
  unfold bind, UnlockBufHdr, modify in H.
  apply Done_inj in H. destruct H as [_ <-]. subst w1.
  destruct (env_steps_private k w) as (Hb & Hp & _ & _ & Hev).
  proj_simpl. now rewrite Hev, Hp, Hb.
Qed.

Lemma TerminateBufferIO_no_raise (fuel : nat) (cd : bool) (sb : Z)
    (w w' : Backend) (msg : string) :
  TerminateBufferIO fuel cd sb w <> Raise msg w'.
Proof.
  unfold TerminateBufferIO. unfold bind at 1.
  destruct (LockBufHdr fuel w) as [s w1|m1 w1|] eqn:El; try discriminate.
  now apply LockBufHdr_no_raise in El.
Qed.

(** A flag other than the one cleared, read in the word the spinlock holder
    works on. *)
Lemma locked_clear_flag (found n m : Z) :
  is_u32 found -> 0 <= n < 32 -> 0 <= m -> m <> n -> m <> 22 ->
  flag_set (Z.land (Z.lor found BM_LOCKED) (not32 (Z.shiftl 1 n)))
           (Z.shiftl 1 m)
  = flag_set found (Z.shiftl 1 m).
Proof.
  intros Hf Hn Hm Hmn Hm22.
  assert (HL : is_u32 (Z.lor found BM_LOCKED))
    by (apply is_u32_lor; [assumption|apply is_u32_flag; lia]).
  rewrite !flag_set_bit by lia.
  rewrite testbit_clear by (lia || assumption).
  unfold BM_LOCKED. rewrite Z.lor_spec, testbit_pow2 by lia.
  replace (22 =? m) with false by (symmetry; apply Z.eqb_neq; lia).
  replace (n =? m) with false by (symmetry; apply Z.eqb_neq; lia).
  now rewrite orb_false_r, andb_true_r.
Qed.

(** What a returning [FlushBuffer] did to the outside world: nothing when
    [StartBufferIO] found the work done; otherwise, with [at_lock] the frame
    as found under the header spinlock taken after [StartBufferIO], the WAL
    flush up to the page LSN read there if [BM_PERMANENT] was set there,
    then the write, then the broadcast. *)
Lemma FlushBuffer_spec (fuel : nat) (w w' : Backend) :
  u32_world w ->
  FlushBuffer fuel w = Done tt w' ->
  (StartBufferIO fuel false w = Done false w' /\ events w' = events w)
  \/ exists (w1 : Backend) (j : nat),
       let at_lock := env_steps j w1 in
       StartBufferIO fuel false w = Done true w1
       /\ flag_set (mem at_lock) BM_LOCKED = false
       /\ events w' =
          events w
          ++ (if flag_set (mem at_lock) BM_PERMANENT
              then [EvXLogFlush (page_lsn (frame at_lock))]
              else [])
          ++ [EvSmgrWrite (tag (frame at_lock)); EvIOCVBroadcast].
Proof.
  intros Hw H. unfold FlushBuffer in H. unfold bind at 1 in H.
  destruct (StartBufferIO fuel false w) as [started w1|msg w1|] eqn:Es;
    try discriminate.
  destruct (StartBufferIO_spec _ _ _ _ _ Hw Es) as (k & Hf & Hio & Hr & Hw1).
  destruct (env_steps_private k w) as (_ & _ & _ & _ & Hev).
  destruct started; cbn [negb] in H.
  2:{ left. unfold ret in H. apply Done_inj in H. destruct H as [_ <-].
      split; [reflexivity|]. now rewrite Hw1. }
  right.
  assert (Hev1 : events w1 = events w) by (rewrite Hw1; exact Hev).
  assert (Hw1u : u32_world w1).
  { rewrite Hw1. destruct (u32_world_steps k w Hw) as [Hm He].
    apply u32_world_set_state; [|split; assumption].
    apply is_u32_lor; [assumption|apply is_u32_flag; lia]. }
  unfold bind at 1 in H.
  destruct (LockBufHdr fuel w1) as [s w2|msg w2|] eqn:El; try discriminate.
  destruct (LockBufHdr_spec _ _ _ _ El) as (j & Hfj & Hs & Hw2).
  exists w1, j. cbv zeta.
  destruct (u32_world_steps j w1 Hw1u) as [Hu _].
  destruct (env_steps_private j w1) as (_ & _ & _ & _ & Hevj).
  set (at_lock := env_steps j w1) in *.
  split; [reflexivity|]. split; [assumption|].
  unfold bind at 1 in H. unfold gets at 1 in H.
  unfold bind at 1 in H. unfold UnlockBufHdr at 1, modify at 1 in H.
  assert (Ep : flag_set (Z.land s (not32 BM_JUST_DIRTIED)) BM_PERMANENT
               = flag_set (mem at_lock) BM_PERMANENT)
    by (rewrite Hs; apply locked_clear_flag; lia || assumption).
  rewrite Ep in H.
  assert (Hpl : page_lsn (frame w2) = page_lsn (frame at_lock))
    by (rewrite Hw2; reflexivity).
  rewrite Hpl in H.
  unfold bind at 1 in H.
  destruct (flag_set (mem at_lock) BM_PERMANENT).
  - unfold XLogFlush, modify at 1 in H.
    unfold bind at 1 in H. unfold gets at 1 in H.
    unfold bind at 1 in H. unfold smgrwrite, modify at 1 in H.
    apply TerminateBufferIO_events in H. destruct H as (H & _).
    rewrite H, Hw2. proj_simpl. fold at_lock.
    rewrite Hevj, Hev1, <- !app_assoc. reflexivity.
  - unfold ret at 1 in H.
    unfold bind at 1 in H. unfold gets at 1 in H.
    unfold bind at 1 in H. unfold smgrwrite, modify at 1 in H.
    apply TerminateBufferIO_events in H. destruct H as (H & _).
    rewrite H, Hw2. proj_simpl. fold at_lock.
    rewrite Hevj, Hev1, <- !app_assoc. reflexivity.
Qed.

(** C5.  Whatever the other backends do, a call of [FlushBuffer] that
    returns either wrote nothing (somebody else had done the write), or
    found a word under the header spinlock and then: if [BM_PERMANENT] was
    set in it, flushed the WAL up to the page LSN read under that spinlock
    and only then issued the write; if [BM_PERMANENT] was clear, issued the
    write with no WAL flush at all.  Nothing else reaches the WAL or the
    storage manager. *)
Theorem FlushBuffer_WAL_before_data (fuel : nat) (w w' : Backend) :
  u32_world w ->
  FlushBuffer fuel w = Done tt w' ->
  exists new_events : list event,
    events w' = events w ++ new_events
    /\ (new_events = []
        \/ exists (w1 : Backend) (j : nat),
             let at_lock := env_steps j w1 in
             let recptr := page_lsn (frame at_lock) in
             let t := tag (frame at_lock) in
             StartBufferIO fuel false w = Done true w1
             /\ flag_set (mem at_lock) BM_LOCKED = false
             /\ (flag_set (mem at_lock) BM_PERMANENT = true ->
                 new_events = [EvXLogFlush recptr; EvSmgrWrite t; EvIOCVBroadcast])
             /\ (flag_set (mem at_lock) BM_PERMANENT = false ->
                 new_events = [EvSmgrWrite t; EvIOCVBroadcast]
                 /\ forall l, ~ In (EvXLogFlush l) new_events)).
Proof.
  intros Hw H.
  destruct (FlushBuffer_spec _ _ _ Hw H) as [[_ He]|(w1 & j & Hs & Hf & He)].
  - exists []. rewrite app_nil_r. auto.
  - cbv zeta in He.
    eexists. split; [exact He|]. right. exists w1, j. cbv zeta.
    split; [assumption|]. split; [assumption|].
    destruct (flag_set (mem (env_steps j w1)) BM_PERMANENT).
    + split; [reflexivity|discriminate].
    + split; [discriminate|]. intros _. split; [reflexivity|].
      intros l [E|[E|[]]]; discriminate.
Qed.

Lemma FlushBuffer_WAL_before_data_witness :
  exists new_events : list event,
    events backend_flushed = events backend_dirty ++ new_events
    /\ (new_events = []
        \/ exists (w1 : Backend) (j : nat),
             StartBufferIO 3 false backend_dirty = Done true w1
             /\ flag_set (mem (env_steps j w1)) BM_LOCKED = false
             /\ (flag_set (mem (env_steps j w1)) BM_PERMANENT = true ->
                 new_events = [EvXLogFlush (page_lsn (frame (env_steps j w1)));
                               EvSmgrWrite (tag (frame (env_steps j w1)));
                               EvIOCVBroadcast])
             /\ (flag_set (mem (env_steps j w1)) BM_PERMANENT = false ->
                 new_events = [EvSmgrWrite (tag (frame (env_steps j w1)));
                               EvIOCVBroadcast]
                 /\ forall l, ~ In (EvXLogFlush l) new_events)).
Proof.
  apply (FlushBuffer_WAL_before_data 3 backend_dirty backend_flushed).
  - apply u32_world_quiet. split; [vm_compute; discriminate|vm_compute; reflexivity].
  - vm_compute. reflexivity.
Defined.

(** The two runs, evaluated: the permanent frame is written after the WAL
    flush up to its LSN and ends clean; the unlogged one is written with no
    WAL flush. *)
Example FlushBuffer_permanent_run :
  events backend_flushed
  = [EvXLogFlush 1000; EvSmgrWrite (mkTag 1663 5 16384 0 7); EvIOCVBroadcast]
  /\ flag_set (mem backend_flushed) BM_DIRTY = false.
Proof. split; vm_compute; reflexivity. Qed.

Example FlushBuffer_unlogged_run :
  exists w', FlushBuffer 3 (backend_of frame_dirty_unlogged [] 1) = Done tt w'
             /\ events w' = [EvSmgrWrite (mkTag 1663 5 16385 0 2); EvIOCVBroadcast].
Proof. eexists. split; vm_compute; reflexivity. Qed.

(** ** [LockBufferForCleanup] *)

(** C7.  Whenever a round of [LockBufferForCleanup] obtains the header
    spinlock and finds REFCOUNT greater than 1 with [BM_PIN_COUNT_WAITER]
    already set, the call ends with the error "multiple backends attempting
    to wait for pincount 1": the header is unlocked with the word as found,
    and the backend registers nothing ([wait_backend_pgprocno], the waiter
    bit and [PinCountWaitBuf] are left alone), so it is not queued.  This
    holds for the loop at any round, and so for the call itself, which
    enters the loop once the backend is seen to hold exactly one pin. *)
Theorem LockBufferForCleanup_rejects_second_waiter
    (fuel : nat) (w w1 : Backend) (s : Z) :
  u32_world w ->
  LockBufHdr fuel w = Done s w1 ->
  1 < BUF_STATE_GET_REFCOUNT s ->
  flag_set s BM_PIN_COUNT_WAITER = true ->
  exists k : nat,
    flag_set (mem (env_steps k w)) BM_LOCKED = false
    /\ s = Z.lor (mem (env_steps k w)) BM_LOCKED
    /\ LockBufferForCleanup_loop (S fuel) w
       = Raise "multiple backends attempting to wait for pincount 1"
               (env_steps k w)
    /\ (PrivateRefCount w = 1 ->
        LockBufferForCleanup (S fuel) w
        = Raise "multiple backends attempting to wait for pincount 1"
                (env_steps k w)).
Proof.
  intros Hw El Hr Hwt.
  destruct (lock_unlock _ _ _ _ Hw El) as (k & Hf & Hs & Hw1 & Hun).
  exists k. split; [assumption|]. split; [assumption|].
  assert (Hloop : LockBufferForCleanup_loop (S fuel) w
                  = Raise "multiple backends attempting to wait for pincount 1"
                          (env_steps k w)).
  { cbn [LockBufferForCleanup_loop]. unfold bind at 1. rewrite El.
    replace (BUF_STATE_GET_REFCOUNT s =? 1) with false
      by (symmetry; apply Z.eqb_neq; lia).
    rewrite Hwt. unfold bind, UnlockBufHdr, modify, elog_ERROR.
    now rewrite Hun. }
  split; [exact Hloop|].
  intros Hp. unfold LockBufferForCleanup, CheckBufferIsPinnedOnce.
  unfold bind at 1. unfold bind at 1. unfold gets. rewrite Hp.
  change (negb (1 =? 1)) with false. cbv iota. unfold ret.
  exact Hloop.
Qed.

Lemma LockBufferForCleanup_rejects_second_waiter_witness :
  exists k : nat,
    flag_set (mem (env_steps k backend_waited)) BM_LOCKED = false
    /\ Z.lor (mem backend_waited) BM_LOCKED
       = Z.lor (mem (env_steps k backend_waited)) BM_LOCKED
    /\ LockBufferForCleanup_loop 2 backend_waited
       = Raise "multiple backends attempting to wait for pincount 1"
               (env_steps k backend_waited)
    /\ (PrivateRefCount backend_waited = 1 ->
        LockBufferForCleanup 2 backend_waited
        = Raise "multiple backends attempting to wait for pincount 1"
                (env_steps k backend_waited)).
Proof.
  apply (LockBufferForCleanup_rejects_second_waiter 1 backend_waited
           (set_state (Z.lor (mem backend_waited) BM_LOCKED) backend_waited)).
  - apply u32_world_quiet. split; [vm_compute; discriminate|vm_compute; reflexivity].
  - vm_compute. reflexivity.
  - vm_compute. reflexivity.
  - vm_compute. reflexivity.
Defined.

(** With a single pin the first round returns with the cleanup lock and
    leaves the frame as it was. *)
Example LockBufferForCleanup_sole_pin :
  exists w', LockBufferForCleanup 2 (backend_of frame_dirty [] 1) = Done tt w'
             /\ frame w' = frame_dirty.
Proof. eexists. split; vm_compute; reflexivity. Qed.

(** ** The mark phase of [BufferSync] *)

Lemma flags_test_or (flags a b c : Z) :
  0 <= a -> 0 <= b -> 0 <= c ->
  flag_set flags (Z.lor (Z.lor (Z.shiftl 1 a) (Z.shiftl 1 b)) (Z.shiftl 1 c))
  = flag_set flags (Z.shiftl 1 a) || flag_set flags (Z.shiftl 1 b)
    || flag_set flags (Z.shiftl 1 c).
Proof.
  intros Ha Hb Hc. unfold flag_set.
  rewrite !Z.land_lor_distr_r, !land_pow2 by assumption.
  assert (forall n, 0 <= n -> (Z.shiftl 1 n =? 0) = false).
  { intros n Hn. rewrite Z.shiftl_1_l. apply Z.eqb_neq.
    assert (0 < 2 ^ n) by (apply Z.pow_pos_nonneg; lia). lia. }
  assert (forall x y, 0 <= x -> 0 <= y -> (Z.lor x y =? 0) = (x =? 0) && (y =? 0)).
  { intros x y Hx Hy. destruct (Z.eqb_spec (Z.lor x y) 0) as [E|E].
    - apply Z.lor_eq_0_iff in E. destruct E as [-> ->]. reflexivity.
    - destruct (Z.eqb_spec x 0) as [->|]; [|reflexivity].
      destruct (Z.eqb_spec y 0) as [->|]; [|reflexivity].
      now rewrite Z.lor_0_l in E. }
  assert (forall n (t : bool), 0 <= n -> 0 <= (if t then Z.shiftl 1 n else 0)).
  { intros n t Hn. destruct t; [|lia]. rewrite Z.shiftl_1_l.
    apply Z.pow_nonneg. lia. }
  rewrite !H0 by (try apply Z.lor_nonneg; auto).
  destruct (Z.testbit flags a), (Z.testbit flags b), (Z.testbit flags c);
    rewrite ?H by assumption; reflexivity.
Qed.

(** The test [(buf_state & mask) == mask] is the spec's condition. *)
Lemma BufferSync_mask_test (flags s : Z) :
  (Z.land s (BufferSync_mask flags) =? BufferSync_mask flags)
  = spec_checkpoint_needed flags s.
Proof.
  unfold BufferSync_mask, spec_checkpoint_needed.
  unfold CHECKPOINT_IS_SHUTDOWN, CHECKPOINT_END_OF_RECOVERY, CHECKPOINT_FLUSH_ALL.
  change 0x0001 with (Z.shiftl 1 0). change 0x0002 with (Z.shiftl 1 1).
  change 0x0010 with (Z.shiftl 1 4).
  rewrite flags_test_or by lia.
  unfold BM_DIRTY, BM_PERMANENT. rewrite !(flag_set_bit s) by lia.
  destruct (flag_set flags (Z.shiftl 1 0) || flag_set flags (Z.shiftl 1 1)
            || flag_set flags (Z.shiftl 1 4)); cbn [negb orb].
  - rewrite land_pow2 by lia.
    destruct (Z.testbit s 23); reflexivity.
  - rewrite Z.land_lor_distr_r, !land_pow2 by lia.
    destruct (Z.testbit s 23), (Z.testbit s 31); reflexivity.
Qed.

Lemma spec_checkpoint_needed_locked (flags s : Z) :
  spec_checkpoint_needed flags (Z.lor s BM_LOCKED)
  = spec_checkpoint_needed flags s.
Proof.
  unfold spec_checkpoint_needed.
  unfold BM_DIRTY, BM_PERMANENT. now rewrite !locked_flag by lia.
Qed.

Lemma BufferSync_mark_buffer_spec (fuel : nat) (flags buf_id : Z)
    (w w' : Backend) (item : option CkptSortItem) :
  u32_world w ->
  BufferSync_mark_buffer fuel (BufferSync_mask flags) buf_id w = Done item w' ->
  exists k : nat,
    let before := env_steps k w in
    let found := mem before in
    flag_set found BM_LOCKED = false
    /\ w' = (if spec_checkpoint_needed flags found
             then set_state (Z.lor found BM_CHECKPOINT_NEEDED) before
             else before)
    /\ item = (if spec_checkpoint_needed flags found
               then Some (CkptSortItem_of buf_id (frame before))
               else None).
Proof.
  intros Hw H. unfold BufferSync_mark_buffer in H. unfold bind at 1 in H.
  destruct (LockBufHdr fuel w) as [s w1|msg w1|] eqn:El; try discriminate.
  destruct (lock_unlock _ _ _ _ Hw El) as (k & Hf & Hs & Hw1 & Hun).
  exists k. cbv zeta. split; [assumption|].
  destruct (u32_world_steps k w Hw) as [Hu _].
  rewrite BufferSync_mask_test, Hs, spec_checkpoint_needed_locked in H.
  destruct (spec_checkpoint_needed flags (mem (env_steps k w))).
  - unfold bind, gets, UnlockBufHdr, modify, ret in H.
    apply Done_inj in H. destruct H as [<- <-].
    rewrite Hw1, set_state_twice.
    rewrite unlock_locked_set
      by (assumption || (apply is_u32_flag; lia) || reflexivity).
    split; reflexivity.
  - unfold bind, UnlockBufHdr, modify, ret in H. rewrite <- Hs, Hun in H.
    apply Done_inj in H. destruct H as [<- <-]. split; reflexivity.
Qed.

(** The frames as the scan found them, and what it made of them. *)
Lemma BufferSync_mark_spec (fuel : nat) (flags : Z) (pool : list Backend) :
  Forall u32_world pool ->
  forall (first : Z) (pool' : list Backend) (items : list CkptSortItem),
  BufferSync_mark fuel (BufferSync_mask flags) first pool = Some (pool', items) ->
  exists found : list Backend,
    Forall2 (fun w b => exists k : nat,
               b = env_steps k w /\ flag_set (mem b) BM_LOCKED = false)
            pool found
    /\ pool' = map (fun b => if spec_checkpoint_needed flags (mem b)
                             then set_state (Z.lor (mem b) BM_CHECKPOINT_NEEDED) b
                             else b) found
    /\ (forall it, In it items <->
          exists (i : nat) (b : Backend),
            nth_error found i = Some b
            /\ spec_checkpoint_needed flags (mem b) = true
            /\ it = CkptSortItem_of (first + Z.of_nat i) (frame b)).
Proof.
  induction 1 as [|w pool Hw Hpool IH]; intros first pool' items H.
  - cbn in H. injection H as <- <-. exists []. split; [constructor|].
    split; [reflexivity|]. intros it. split; [intros []|].
    intros (i & b & Hn & _). destruct i; discriminate.
  - cbn [BufferSync_mark] in H.
    destruct (BufferSync_mark_buffer fuel (BufferSync_mask flags) first w)
      as [item w1|msg w1|] eqn:Eb; try discriminate.
    destruct (BufferSync_mark fuel (BufferSync_mask flags) (first + 1) pool)
      as [[rest' its]|] eqn:Er; try discriminate.
    injection H as <- <-.
    destruct (BufferSync_mark_buffer_spec _ _ _ _ _ _ Hw Eb) as (k & Hf & Hw1 & Hit).
    destruct (IH _ _ _ Er) as (found & HF & Hmap & Hin).
    exists (env_steps k w :: found).
    split; [constructor; [exists k; auto|assumption]|].
    split; [cbn [map]; now rewrite Hw1, Hmap|].
    intros it. rewrite Hit.
    destruct (spec_checkpoint_needed flags (mem (env_steps k w))) eqn:En.
    + split.
      * intros [<-|Hi].
        -- exists 0%nat, (env_steps k w). rewrite Z.add_0_r. auto.
        -- apply Hin in Hi. destruct Hi as (i & b & Hn & Hc & ->).
           exists (S i), b. split; [assumption|]. split; [assumption|].
           f_equal. lia.
      * intros ([|i] & b & Hn & Hc & ->).
        -- left. cbn in Hn. injection Hn as <-. now rewrite Z.add_0_r.
        -- right. apply Hin. exists i, b. split; [assumption|].
           split; [assumption|]. f_equal. lia.
    + split.
      * intros Hi. apply Hin in Hi. destruct Hi as (i & b & Hn & Hc & ->).
        exists (S i), b. split; [assumption|]. split; [assumption|].
        f_equal. lia.
      * intros ([|i] & b & Hn & Hc & ->).
        -- cbn in Hn. injection Hn as <-. congruence.
        -- apply Hin. exists i, b. split; [assumption|].
           split; [assumption|]. f_equal. lia.
Qed.

(** C8.  When the mark phase of [BufferSync] has gone through the pool,
    let [found] be the frames as they were when their header spinlock was
    taken.  The frames left behind are those, with [BM_CHECKPOINT_NEEDED]
    set in exactly the ones whose word has [BM_DIRTY] and, unless the
    checkpoint flags include shutdown, end-of-recovery or flush-all, also
    [BM_PERMANENT]; every other frame is left as found.  The recorded
    entries are exactly the [(tablespace, relation, fork, block, index)] of
    those same frames.  The scan completes when no header spinlock is held
    by others when it comes to each frame. *)
Theorem BufferSync_marks_exactly_dirty_frames
    (fuel : nat) (flags : Z) (pool : list Backend) :
  Forall u32_world pool ->
  (forall (pool' : list Backend) (items : list CkptSortItem),
     BufferSync_mark fuel (BufferSync_mask flags) 0 pool = Some (pool', items) ->
     exists found : list Backend,
       Forall2 (fun w b => exists k : nat,
                  b = env_steps k w /\ flag_set (mem b) BM_LOCKED = false)
               pool found
       /\ pool' = map (fun b => if spec_checkpoint_needed flags (mem b)
                                then set_state (Z.lor (mem b) BM_CHECKPOINT_NEEDED) b
                                else b) found
       /\ (forall it, In it items <->
             exists (i : nat) (b : Backend),
               nth_error found i = Some b
               /\ spec_checkpoint_needed flags (mem b) = true
               /\ it = CkptSortItem_of (Z.of_nat i) (frame b)))
  /\ (Forall (fun w => flag_set (mem (env_step w)) BM_LOCKED = false) pool ->
      exists pool' items,
        BufferSync_mark (S fuel) (BufferSync_mask flags) 0 pool
        = Some (pool', items)).
Proof.
  intros Hw. split.
  - intros pool' items H.
    destruct (BufferSync_mark_spec fuel flags pool Hw 0 pool' items H)
      as (found & HF & Hmap & Hin).
    exists found. split; [assumption|]. split; [assumption|].
    intros it. rewrite Hin. reflexivity.
  - intros Hfree. generalize 0 as first. clear Hw.
    induction Hfree as [|w pool Hf _ IH]; intros first.
    + cbn. eauto.
    + cbn [BufferSync_mark]. unfold BufferSync_mark_buffer. unfold bind at 1.
      rewrite (LockBufHdr_free fuel w Hf).
      destruct (IH (first + 1)) as (rest' & its & ->).
      destruct (Z.land _ _ =? _);
        unfold bind, gets, UnlockBufHdr, modify, ret; eauto.
Qed.

Lemma BufferSync_marks_exactly_dirty_frames_witness :
  exists pool' items,
    BufferSync_mark 2 (BufferSync_mask CHECKPOINT_FORCE) 0 pool3
    = Some (pool', items).
Proof.
  apply (proj2 (BufferSync_marks_exactly_dirty_frames 1 CHECKPOINT_FORCE pool3
           ltac:(repeat constructor; vm_compute; congruence))).
  repeat constructor.
Defined.

(** An ordinary checkpoint records the dirty permanent frame only; a
    shutdown checkpoint records the unlogged one too. *)
Example BufferSync_mark_ordinary :
  option_map snd (BufferSync_mark 2 (BufferSync_mask CHECKPOINT_FORCE) 0 pool3)
  = Some [mkCkptSortItem 1663 16384 0 7 1].
Proof. vm_compute. reflexivity. Qed.

Example BufferSync_mark_shutdown :
  option_map snd
    (BufferSync_mark 2 (BufferSync_mask CHECKPOINT_IS_SHUTDOWN) 0 pool3)
  = Some [mkCkptSortItem 1663 16384 0 7 1; mkCkptSortItem 1663 16385 0 2 2].
Proof. vm_compute. reflexivity. Qed.

(** ** The choice of strategy in [DropRelationBuffers] *)

Lemma count_blocks_cached (forks : list (Z * Z)) (acc : Z) :
  Forall fork_cached forks ->
  0 <= acc ->
  acc + spec_blocks_to_invalidate forks < 2 ^ 64 ->
  count_blocks_to_invalidate forks acc = acc + spec_blocks_to_invalidate forks.
Proof.
  intros H. revert acc.
  induction H as [|[n f] forks [Hf Hn] Hall IH]; intros acc Ha Hb.
  - cbn. lia.
  - cbn [count_blocks_to_invalidate spec_blocks_to_invalidate fst snd] in *.
    unfold InvalidBlockNumber in *.
    replace (n =? 0xFFFFFFFF) with false by (symmetry; apply Z.eqb_neq; lia).
    assert (Hrest : 0 <= spec_blocks_to_invalidate forks).
    { clear -Hall. induction Hall as [|[n' f'] l [Hf' _] _ IH']; cbn in *; lia. }
    assert (E1 : u32 (n - f) = n - f) by (apply Z.mod_small; lia).
    rewrite E1.
    assert (E2 : u64 (acc + (n - f)) = acc + (n - f))
      by (apply Z.mod_small; lia).
    rewrite E2, IH by lia. lia.
Qed.

Lemma count_blocks_uncached (forks : list (Z * Z)) (acc : Z) :
  Exists (fun f => fst f = InvalidBlockNumber) forks ->
  count_blocks_to_invalidate forks acc = InvalidBlockNumber.
Proof.
  intros H. revert acc. induction H as [[n f] forks E|[n f] forks _ IH];
    intros acc; cbn [count_blocks_to_invalidate fst] in *.
  - subst n. now rewrite Z.eqb_refl.
  - destruct (n =? InvalidBlockNumber); [reflexivity|apply IH].
Qed.

(** C9, as the code has it.  For a relation that is not temporary, with at
    most 2^31 forks to drop and a pool of [NBuffers] frames (an [int]),
    every fork being either of cached size (a valid block count, at least
    its first block to delete) or of unknown size
    ([smgrnblocks_cached] answers [InvalidBlockNumber]):
    [DropRelationBuffers] takes the lookups in the mapping table exactly
    when the size of every fork is cached and the total number of blocks to
    invalidate is strictly less than [NBuffers / 32]; in every other case
    (a total equal to [NBuffers / 32] included) it scans the whole pool. *)
Theorem DropRelationBuffers_path_threshold
    (NBuffers : Z) (mine : bool) (forks : list (Z * Z)) :
  0 <= NBuffers < 2 ^ 31 ->
  Z.of_nat (List.length forks) <= 2 ^ 31 ->
  Forall (fun f => fork_cached f \/ fst f = InvalidBlockNumber) forks ->
  (DropRelationBuffers_path NBuffers false mine forks = FindAndDrop
   <-> Forall fork_cached forks
       /\ spec_blocks_to_invalidate forks < NBuffers / 32)
  /\ (DropRelationBuffers_path NBuffers false mine forks = FullScan
      <-> ~ (Forall fork_cached forks
             /\ spec_blocks_to_invalidate forks < NBuffers / 32)).
Proof.
  intros HN Hlen Hforks.
  assert (Hthr : BUF_DROP_FULL_SCAN_THRESHOLD NBuffers = NBuffers / 32).
  { unfold BUF_DROP_FULL_SCAN_THRESHOLD, u64.
    rewrite Z.quot_div_nonneg by lia.
    apply Z.mod_small. split; [apply Z.div_pos; lia|].
    apply Z.le_lt_trans with NBuffers; [|lia].
    apply Z.div_le_upper_bound; lia. }
  assert (Hthr31 : NBuffers / 32 < 2 ^ 31).
  { apply Z.le_lt_trans with NBuffers; [|lia].
    apply Z.div_le_upper_bound; lia. }
  assert (Hdec : Forall fork_cached forks
                 \/ Exists (fun f => fst f = InvalidBlockNumber) forks).
  { clear -Hforks. induction Hforks as [|f l [Hc|Hi] _ IH].
    - left. constructor.
    - destruct IH as [IH|IH]; [left; now constructor|right; now constructor].
    - right. now constructor. }
  assert (Hexcl : Forall fork_cached forks ->
                  Exists (fun f => fst f = InvalidBlockNumber) forks -> False).
  { intros Hc He. apply Exists_exists in He. destruct He as (f & Hin & E).
    rewrite Forall_forall in Hc. destruct (Hc f Hin) as [_ Hlt]. lia. }
  assert (Hpath : DropRelationBuffers_path NBuffers false mine forks
                  = if BlockNumberIsValid (count_blocks_to_invalidate forks 0)
                       && (count_blocks_to_invalidate forks 0 <? NBuffers / 32)
                    then FindAndDrop else FullScan).
  { unfold DropRelationBuffers_path. now rewrite Hthr. }
  rewrite Hpath. clear Hpath.
  destruct Hdec as [Hc|He].
  - assert (Hsum : 0 <= spec_blocks_to_invalidate forks
                   <= Z.of_nat (List.length forks) * 2 ^ 32).
    { clear -Hc. induction Hc as [|[n f] l [Hf Hn] _ IH].
      - cbn. lia.
      - cbn [spec_blocks_to_invalidate List.length fst snd] in *.
        unfold InvalidBlockNumber in Hn. lia. }
    rewrite count_blocks_cached by (assumption || lia || nia).
    rewrite Z.add_0_l.
    destruct (Z.ltb_spec (spec_blocks_to_invalidate forks) (NBuffers / 32))
      as [Hlt|Hge].
    + assert (Hv : BlockNumberIsValid (spec_blocks_to_invalidate forks) = true).
      { unfold BlockNumberIsValid, u32, InvalidBlockNumber.
        rewrite Z.mod_small by lia.
        apply negb_true_iff, Z.eqb_neq. lia. }
      rewrite Hv. cbn [andb]. intuition (discriminate || lia || auto).
    + rewrite andb_false_r. intuition (discriminate || lia || auto).
  - rewrite count_blocks_uncached by assumption.
    change (BlockNumberIsValid InvalidBlockNumber) with false. cbn [andb].
    intuition (discriminate || eauto).
Qed.

Lemma DropRelationBuffers_path_threshold_witness :
  (DropRelationBuffers_path 16384 false false [(600, 100); (3, 0)] = FindAndDrop
   <-> Forall fork_cached [(600, 100); (3, 0)]
       /\ spec_blocks_to_invalidate [(600, 100); (3, 0)] < 16384 / 32)
  /\ (DropRelationBuffers_path 16384 false false [(600, 100); (3, 0)] = FullScan
      <-> ~ (Forall fork_cached [(600, 100); (3, 0)]
             /\ spec_blocks_to_invalidate [(600, 100); (3, 0)] < 16384 / 32)).
Proof.
  apply (DropRelationBuffers_path_threshold 16384 false [(600, 100); (3, 0)]).
  - lia.
  - vm_compute. discriminate.
  - repeat (constructor;
            [left; unfold fork_cached, InvalidBlockNumber; cbn; lia|]).
    constructor.
Defined.

(** C9, as stated, fails: with 16384 frames the threshold is 512, and a
    drop of exactly 512 blocks, which is "at most N/32", scans the whole
    pool; one block less takes the lookups. *)
Lemma DropRelationBuffers_full_scan_at_threshold :
  spec_blocks_to_invalidate [(512, 0)] <= 16384 / 32
  /\ Forall fork_cached [(512, 0)]
  /\ DropRelationBuffers_path 16384 false false [(512, 0)] = FullScan
  /\ DropRelationBuffers_path 16384 false false [(511, 0)] = FindAndDrop.
Proof.
  split; [vm_compute; discriminate|].
  split; [repeat constructor; unfold InvalidBlockNumber; cbn; lia|].
  split; reflexivity.
Qed.

(** ** [GetVictimBuffer] *)

Lemma testbit_clear32 (y n i : Z) :
  0 <= n -> 0 <= i < 32 ->
  Z.testbit (Z.land y (not32 (Z.shiftl 1 n))) i = Z.testbit y i && negb (n =? i).
Proof.
  intros Hn Hi. now rewrite Z.land_spec, testbit_not32, testbit_pow2 by lia.
Qed.

(** The word [InvalidateVictimBuffer] stores. *)
Lemma invalidated_word (x : Z) :
  let r := Z.land (Z.land x (not32 (Z.lor BUF_FLAG_MASK BUF_USAGECOUNT_MASK)))
                  (not32 BM_LOCKED) in
  BUF_STATE_GET_REFCOUNT r = BUF_STATE_GET_REFCOUNT x
  /\ BUF_STATE_GET_USAGECOUNT r = 0
  /\ forall n, 22 <= n < 32 -> flag_set r (Z.shiftl 1 n) = false.
Proof.
  cbv zeta.
  change (Z.lor BUF_FLAG_MASK BUF_USAGECOUNT_MASK) with (Z.shiftl (Z.ones 14) 18).
  assert (B : forall i, 0 <= i < 32 ->
            Z.testbit (Z.land (Z.land x (not32 (Z.shiftl (Z.ones 14) 18)))
                              (not32 BM_LOCKED)) i
            = Z.testbit x i && (i <? 18)).
  { intros i Hi. unfold BM_LOCKED. rewrite testbit_clear32 by lia.
    rewrite Z.land_spec, testbit_not32, testbit_ones_mask by lia.
    destruct (Z.leb_spec 18 i); destruct (Z.ltb_spec i (18 + 14));
      destruct (Z.ltb_spec i 18); destruct (Z.eqb_spec 22 i);
      try lia; cbn; now rewrite ?andb_true_r, ?andb_false_r. }
  repeat split.
  - apply REFCOUNT_ext. intros i Hi. rewrite B by lia.
    replace (i <? 18) with true by (symmetry; apply Z.ltb_lt; lia).
    apply andb_true_r.
  - rewrite USAGECOUNT_bits, !B by lia. cbn. now rewrite !andb_false_r.
  - intros n Hn. rewrite flag_set_bit, B by lia.
    replace (n <? 18) with false by (symmetry; apply Z.ltb_ge; lia).
    apply andb_false_r.
Qed.

(** The word [PinBuffer_Locked] stores for a victim. *)
Lemma pinned_victim_word (st : Z) :
  BUF_STATE_GET_REFCOUNT st = 0 ->
  let r := Z.land (u32 (st + BUF_REFCOUNT_ONE)) (not32 BM_LOCKED) in
  BUF_STATE_GET_REFCOUNT r = 1
  /\ forall n, 22 < n < 32 -> flag_set r (Z.shiftl 1 n) = flag_set st (Z.shiftl 1 n).
Proof.
  intros H0. cbv zeta.
  destruct (incr_refcount st) as (R & _ & F);
    [rewrite H0; reflexivity|].
  split.
  - rewrite <- (Z.add_0_l 1), <- H0, <- R.
    apply REFCOUNT_ext. intros i Hi. unfold BM_LOCKED.
    rewrite testbit_clear32 by lia.
    replace (22 =? i) with false by (symmetry; apply Z.eqb_neq; lia).
    apply andb_true_r.
  - intros n Hn. rewrite !flag_set_bit by lia. unfold BM_LOCKED.
    rewrite testbit_clear32 by lia.
    replace (22 =? n) with false by (symmetry; apply Z.eqb_neq; lia).
    rewrite andb_true_r. apply flags_of_bit; [lia|assumption].
Qed.

Lemma env_steps_mem_inv (P : Z -> Prop) (k : nat) (w : Backend) :
  P (mem w) ->
  Forall (fun e => match e with Some f => P (state f) | None => True end) (env w) ->
  P (mem (env_steps k w)).
Proof.
  revert w. induction k as [|k IH]; intros w Hm He; [assumption|].
  cbn [env_steps]. apply IH; unfold env_step;
    destruct (env w) as [|[f|] rest] eqn:E; cbn; try assumption;
    try (rewrite E; assumption); inversion He; subst; assumption.
Qed.

Lemma FlushBuffer_private (fuel : nat) (w w' : Backend) :
  u32_world w ->
  FlushBuffer fuel w = Done tt w' ->
  PrivateRefCount w' = PrivateRefCount w /\ buf_id w' = buf_id w.
Proof.
  intros Hw H. unfold FlushBuffer in H. unfold bind at 1 in H.
  destruct (StartBufferIO fuel false w) as [started w1|msg w1|] eqn:Es;
    try discriminate.
  destruct (StartBufferIO_spec _ _ _ _ _ Hw Es) as (k & _ & _ & _ & Hw1).
  destruct (env_steps_private k w) as (Hb & Hp & _).
  assert (H1 : PrivateRefCount w1 = PrivateRefCount w /\ buf_id w1 = buf_id w)
    by (rewrite Hw1; destruct started; proj_simpl; auto).
  destruct started; cbn [negb] in H.
  2:{ unfold ret in H. apply Done_inj in H. destruct H as [_ <-]. exact H1. }
  unfold bind at 1 in H.
  destruct (LockBufHdr fuel w1) as [s w2|msg w2|] eqn:El; try discriminate.
  destruct (LockBufHdr_spec _ _ _ _ El) as (j & _ & _ & Hw2).
  destruct (env_steps_private j w1) as (Hbj & Hpj & _).
  unfold bind at 1 in H. unfold gets at 1 in H.
  unfold bind at 1 in H. unfold UnlockBufHdr at 1, modify at 1 in H.
  unfold bind at 1 in H.
  destruct (flag_set _ BM_PERMANENT).
  - unfold XLogFlush, modify at 1 in H.
    unfold bind at 1 in H. unfold gets at 1 in H.
    unfold bind at 1 in H. unfold smgrwrite, modify at 1 in H.
    apply TerminateBufferIO_events in H. destruct H as (_ & Hp' & Hb').
    rewrite Hp', Hb', Hw2. proj_simpl. rewrite Hpj, Hbj. exact H1.
  - unfold ret at 1 in H.
    unfold bind at 1 in H. unfold gets at 1 in H.
    unfold bind at 1 in H. unfold smgrwrite, modify at 1 in H.
    apply TerminateBufferIO_events in H. destruct H as (_ & Hp' & Hb').
    rewrite Hp', Hb', Hw2. proj_simpl. rewrite Hpj, Hbj. exact H1.
Qed.

Lemma InvalidateVictimBuffer_spec (fuel : nat) (w w' : Backend) :
  InvalidateVictimBuffer fuel w = Done true w' ->
  BUF_STATE_GET_REFCOUNT (mem w') = 1
  /\ (forall n, 22 <= n < 32 -> flag_set (mem w') (Z.shiftl 1 n) = false)
  /\ PrivateRefCount w' = PrivateRefCount w
  /\ buf_id w' = buf_id w.
Proof.
  intros H. unfold InvalidateVictimBuffer in H.
  unfold bind at 1 in H. unfold gets at 1 in H. unfold bind at 1 in H.
  destruct (LockBufHdr fuel w) as [s w1|msg w1|] eqn:El; try discriminate.
  destruct (LockBufHdr_spec _ _ _ _ El) as (k & _ & _ & Hw1).
  destruct (env_steps_private k w) as (Hb & Hp & _).
  destruct (Z.eqb_spec (BUF_STATE_GET_REFCOUNT s) 1) as [Hr|Hr]; cbn [negb orb] in H.
  2:{ unfold bind, UnlockBufHdr, modify, ret in H. discriminate. }
  destruct (flag_set s BM_DIRTY).
  { unfold bind, UnlockBufHdr, modify, ret in H. discriminate. }
  unfold bind, ClearBufferTag, UnlockBufHdr, modify, ret in H.
  apply Done_inj in H. destruct H as [_ <-].
  destruct (invalidated_word s) as (R & _ & F). cbv zeta in R, F.
  rewrite Hw1. proj_simpl.
  rewrite R, Hb, Hp. auto.
Qed.

(** One round of [GetVictimBuffer], with the pin already taken. *)
Lemma GetVictimBuffer_round (fuel : nat) (strategy : BufferAccessStrategy)
    (c : candidate) (rest : list candidate) (w : Backend) :
  GetVictimBuffer fuel strategy (c :: rest) w =
  let st := state (c_frame c) in
  let pinned :=
    set_PrivateRefCount 1
      (set_state (Z.land (u32 (st + BUF_REFCOUNT_ONE)) (not32 BM_LOCKED))
                 (focus c w)) in
  match GetVictimBuffer_flush fuel strategy c st pinned with
  | Done r w2 =>
      if negb (fst r) then GetVictimBuffer fuel strategy rest w2
      else if flag_set (snd r) BM_TAG_VALID then
        match InvalidateVictimBuffer fuel w2 with
        | Done ok w3 =>
            if ok then Done (buf_id w3 + 1) w3
            else match UnpinBuffer fuel w3 with
                 | Done _ w4 => GetVictimBuffer fuel strategy rest w4
                 | Raise msg w4 => Raise msg w4
                 | Spin => Spin
                 end
        | Raise msg w3 => Raise msg w3
        | Spin => Spin
        end
      else Done (buf_id w2 + 1) w2
  | Raise msg w2 => Raise msg w2
  | Spin => Spin
  end.
Proof.
  cbn [GetVictimBuffer]. cbv zeta.
  unfold bind at 1. unfold modify at 1.
  unfold bind at 1. unfold read_locked at 1, gets at 1.
  unfold bind at 1. unfold PinBuffer_Locked at 1.
  unfold bind at 1. unfold read_locked at 1, gets at 1.
  unfold bind at 1. unfold UnlockBufHdr at 1, modify at 1.
  unfold modify at 1.
  unfold bind at 1. unfold CheckBufferIsPinnedOnce at 1.
  unfold bind at 1. unfold gets at 1.
  change (mem (focus c w)) with (state (c_frame c)).
  change (0 + 1) with 1.
  set (pinned := set_PrivateRefCount 1 _).
  change (PrivateRefCount pinned) with 1.
  change (negb (1 =? 1)) with false. cbv iota. unfold ret at 1.
  unfold bind at 1.
  destruct (GetVictimBuffer_flush fuel strategy c (state (c_frame c)) pinned)
    as [r w2|msg w2|]; try reflexivity.
  destruct (negb (fst r)); [reflexivity|].
  destruct (flag_set (snd r) BM_TAG_VALID); [|reflexivity].
  unfold bind at 1.
  destruct (InvalidateVictimBuffer fuel w2) as [ok w3|msg w3|]; try reflexivity.
  destruct ok; [reflexivity|].
  unfold bind at 1.
  destruct (UnpinBuffer fuel w3) as [[] w4|msg w4|]; reflexivity.
Qed.

(** When the round keeps the victim: the private fields are untouched, and
    the word tested afterwards is either the one [StrategyGetBuffer]
    returned or, for a dirty victim under a strategy, one re-read under the
    header spinlock. *)
Lemma GetVictimBuffer_flush_keep (fuel : nat) (strategy : BufferAccessStrategy)
    (c : candidate) (st bs : Z) (wp w2 : Backend) :
  u32_world wp ->
  GetVictimBuffer_flush fuel strategy c st wp = Done (true, bs) w2 ->
  PrivateRefCount w2 = PrivateRefCount wp
  /\ buf_id w2 = buf_id wp
  /\ ((flag_set st BM_DIRTY = false /\ bs = st /\ w2 = wp)
      \/ (flag_set st BM_DIRTY = true
          /\ (bs = st
              \/ exists j : nat, bs = Z.lor (mem (env_steps j wp)) BM_LOCKED))).
Proof.
  intros Hw H. unfold GetVictimBuffer_flush in H.
  destruct (flag_set st BM_DIRTY) eqn:Ed.
  2:{ unfold ret in H. apply Done_inj in H. destruct H as [E <-].
      injection E as <-. split; [reflexivity|]. split; [reflexivity|].
      left. auto. }
  destruct (c_content_lock c); cbn [negb] in H.
  2:{ unfold bind in H. destruct (UnpinBuffer fuel wp) as [[] w3|m w3|];
        try discriminate. }
  unfold bind at 1 in H.
  destruct strategy as [ring|].
  - unfold bind at 1 in H.
    destruct (LockBufHdr fuel wp) as [s w1|msg w1|] eqn:El; try discriminate.
    destruct (lock_unlock _ _ _ _ Hw El) as (j & _ & Hs & _ & Hun).
    unfold bind at 1 in H. unfold UnlockBufHdr at 1, modify at 1 in H.
    rewrite Hun in H.
    destruct (c_needs_flush c && c_reject c).
    { unfold bind in H.
      destruct (UnpinBuffer fuel (env_steps j wp)) as [[] w3|m w3|];
        try discriminate. }
    unfold ret at 1 in H. cbn [fst] in H.
    unfold bind at 1 in H.
    destruct (FlushBuffer fuel (env_steps j wp)) as [[] w3|m w3|] eqn:Ef;
      try discriminate.
    destruct (FlushBuffer_private _ _ _ (u32_world_steps j wp Hw) Ef) as (Hp & Hb).
    destruct (env_steps_private j wp) as (Hbj & Hpj & _).
    unfold bind, ScheduleBufferTagForWriteback, gets, modify, ret in H.
    apply Done_inj in H. destruct H as [E <-]. injection E as <-.
    proj_simpl. rewrite Hp, Hb, Hpj, Hbj.
    split; [reflexivity|]. split; [reflexivity|]. right. split; [reflexivity|].
    right. exists j. exact Hs.
  - unfold ret at 1 in H. cbn [fst] in H.
    unfold bind at 1 in H.
    destruct (FlushBuffer fuel wp) as [[] w3|m w3|] eqn:Ef; try discriminate.
    destruct (FlushBuffer_private _ _ _ Hw Ef) as (Hp & Hb).
    unfold bind, ScheduleBufferTagForWriteback, gets, modify, ret in H.
    apply Done_inj in H. destruct H as [E <-]. injection E as <-.
    proj_simpl. rewrite Hp, Hb.
    split; [reflexivity|]. split; [reflexivity|]. right. auto.
Qed.

(** C6.  Let the victims handed out by [StrategyGetBuffer] be as
    [GetVictimBuffer] assumes them ([candidate_ok]).  Whenever
    [GetVictimBuffer] returns a buffer, after however many abandoned
    candidates, the frame the backend is left with is one of the
    candidates, the returned number is its index plus one, the backend
    holds exactly one local pin on it, and its state word has REFCOUNT 1
    and [BM_TAG_VALID], [BM_VALID] and [BM_DIRTY] all clear. *)
Theorem GetVictimBuffer_returns_clean_frame_pinned_once
    (fuel : nat) (strategy : BufferAccessStrategy)
    (candidates : list candidate) (w w' : Backend) (buf : Z) :
  Forall candidate_ok candidates ->
  GetVictimBuffer fuel strategy candidates w = Done buf w' ->
  BUF_STATE_GET_REFCOUNT (mem w') = 1
  /\ flag_set (mem w') BM_TAG_VALID = false
  /\ flag_set (mem w') BM_VALID = false
  /\ flag_set (mem w') BM_DIRTY = false
  /\ PrivateRefCount w' = 1
  /\ buf = buf_id w' + 1
  /\ exists c, In c candidates /\ buf_id w' = c_buf_id c.
Proof.
  intros Hok. revert w.
  induction Hok as [|c rest Hc _ IH]; intros w H; [discriminate|].
  assert (Hrest : forall w0, GetVictimBuffer fuel strategy rest w0 = Done buf w' ->
            BUF_STATE_GET_REFCOUNT (mem w') = 1
            /\ flag_set (mem w') BM_TAG_VALID = false
            /\ flag_set (mem w') BM_VALID = false
            /\ flag_set (mem w') BM_DIRTY = false
            /\ PrivateRefCount w' = 1
            /\ buf = buf_id w' + 1
            /\ exists c0, In c0 (c :: rest) /\ buf_id w' = c_buf_id c0).
  { intros w0 H0. destruct (IH w0 H0) as (a & b & d & e & f & g & c0 & Hin & h).
    repeat (split; [assumption|]). exists c0. split; [now right|assumption]. }
  rewrite GetVictimBuffer_round in H. cbv zeta in H.
  destruct Hc as (Hu & Henv & Hr0 & Hv & Hd & Htag).
  set (st := state (c_frame c)) in *.
  set (pinned := set_PrivateRefCount 1 _) in H.
  destruct (pinned_victim_word st Hr0) as (Rp & Fp). cbv zeta in Rp, Fp.
  assert (Hmp : mem pinned = Z.land (u32 (st + BUF_REFCOUNT_ONE)) (not32 BM_LOCKED))
    by reflexivity.
  assert (Hwp : u32_world pinned).
  { split; [rewrite Hmp; apply is_u32_land, is_u32_u32|exact Henv]. }
  destruct (GetVictimBuffer_flush fuel strategy c st pinned)
    as [[keep bs] w2|msg w2|] eqn:Ef; try discriminate.
  cbn [fst snd] in H.
  destruct keep; cbn [negb] in H; [|now apply Hrest in H].
  destruct (GetVictimBuffer_flush_keep _ _ _ _ _ _ _ Hwp Ef) as (Hp2 & Hb2 & Hcase).
  destruct (flag_set bs BM_TAG_VALID) eqn:Etag.
  - destruct (InvalidateVictimBuffer fuel w2) as [ok w3|msg w3|] eqn:Ei;
      try discriminate.
    destruct ok.
    + apply Done_inj in H. destruct H as [<- <-].
      destruct (InvalidateVictimBuffer_spec _ _ _ Ei) as (R & F & Hp3 & Hb3).
      split; [exact R|].
      split; [apply F; lia|]. split; [apply F; lia|]. split; [apply F; lia|].
      split; [now rewrite Hp3, Hp2|]. split; [reflexivity|].
      exists c. split; [now left|]. now rewrite Hb3, Hb2.
    + destruct (UnpinBuffer fuel w3) as [[] w4|msg w4|]; try discriminate.
      now apply Hrest in H.
  - apply Done_inj in H. destruct H as [<- <-].
    destruct Hcase as [(Hnd & -> & ->)|(Hdirty & [->|(j & Hbs)])].
    + assert (Hnv : flag_set st BM_VALID = false).
      { destruct (flag_set st BM_VALID) eqn:E; [|reflexivity].
        rewrite (Hv eq_refl) in Etag. discriminate. }
      rewrite Hmp. split; [exact Rp|].
      unfold BM_TAG_VALID, BM_VALID, BM_DIRTY in *.
      rewrite !Fp by lia.
      repeat (split; [assumption || reflexivity|]).
      exists c. split; [now left|reflexivity].
    + rewrite (Hd Hdirty) in Etag. discriminate.
    + exfalso.
      assert (Htv : flag_set (mem (env_steps j pinned)) BM_TAG_VALID = true).
      { apply (env_steps_mem_inv (fun s => flag_set s BM_TAG_VALID = true)).
        - rewrite Hmp. unfold BM_TAG_VALID in *. rewrite Fp by lia.
          exact (Hd Hdirty).
        - exact (Htag (Hd Hdirty)). }
      rewrite Hbs in Etag. unfold BM_TAG_VALID in Etag, Htv.
      rewrite locked_flag in Etag by lia. congruence.
Qed.

Lemma GetVictimBuffer_returns_clean_frame_pinned_once_witness :
  BUF_STATE_GET_REFCOUNT (mem backend_with_victim) = 1
  /\ flag_set (mem backend_with_victim) BM_TAG_VALID = false
  /\ flag_set (mem backend_with_victim) BM_VALID = false
  /\ flag_set (mem backend_with_victim) BM_DIRTY = false
  /\ PrivateRefCount backend_with_victim = 1
  /\ 10 = buf_id backend_with_victim + 1
  /\ exists c, In c [victim_dirty false; victim_clean]
               /\ buf_id backend_with_victim = c_buf_id c.
Proof.
  apply (GetVictimBuffer_returns_clean_frame_pinned_once 3 None
           [victim_dirty false; victim_clean] backend_idle).
  - repeat constructor; vm_compute; congruence.
  - vm_compute. reflexivity.
Defined.

(** A dirty victim whose content lock is free is written out (WAL first),
    scheduled for writeback and removed from the mapping table. *)
Example GetVictimBuffer_dirty_victim_run :
  exists w', GetVictimBuffer 3 None [victim_dirty true] backend_idle = Done 6 w'
             /\ mem w' = 1
             /\ events w' = [EvXLogFlush 1000;
                             EvSmgrWrite (mkTag 1663 5 16384 0 7);
                             EvIOCVBroadcast;
                             EvScheduleWriteback (mkTag 1663 5 16384 0 7);
                             EvBufTableDelete (mkTag 1663 5 16384 0 7)].
Proof. eexists. split; [vm_compute; reflexivity|]. split; reflexivity. Qed.

(** * Further properties of the functions embedded above *)

(** ** The I/O gate, continued *)

Lemma TerminateBufferIO_spec (fuel : nat) (cd : bool) (sb : Z) (w w' : Backend) :
  u32_world w -> is_u32 sb -> flag_set sb BM_LOCKED = false ->
  TerminateBufferIO fuel cd sb w = Done tt w' ->
  exists k : nat,
    flag_set (mem (env_steps k w)) BM_LOCKED = false
    /\ w' = emit EvIOCVBroadcast
              (set_state (TerminateBufferIO_word cd sb (mem (env_steps k w)))
                         (env_steps k w)).
Proof.
  intros Hw Hsb Hsl H. unfold TerminateBufferIO in H. unfold bind at 1 in H.
  destruct (LockBufHdr fuel w) as [s w1|msg w1|] eqn:El; try discriminate.
  destruct (LockBufHdr_spec _ _ _ _ El) as (k & Hf & Hs & Hw1).
  unfold bind, UnlockBufHdr, modify in H.
  apply Done_inj in H. destruct H as [_ <-].
  exists k. split; [assumption|].
  destruct (u32_world_steps k w Hw) as [Hu _].
  rewrite Hw1, set_state_twice, Hs.
  now rewrite unlock_TerminateBufferIO_word by assumption.
Qed.

(** [AbortBufferIO]: whatever the other backends do, when it returns it has
    stored the word it found under the header spinlock with
    [BM_IO_IN_PROGRESS] cleared and [BM_IO_ERROR] set, every other bit
    (the dirty bits, the counters) as found, and has broadcast the I/O
    condition variable. *)
Theorem AbortBufferIO_marks_error (fuel : nat) (w w' : Backend) :
  u32_world w ->
  AbortBufferIO fuel w = Done tt w' ->
  exists k : nat,
    let before := env_steps k w in
    let found := mem before in
    flag_set found BM_LOCKED = false
    /\ frame w' = with_state (mem w') (frame before)
    /\ flag_set (mem w') BM_IO_IN_PROGRESS = false
    /\ flag_set (mem w') BM_IO_ERROR = true
    /\ (forall i, 0 <= i -> i <> 26 -> i <> 27 ->
          Z.testbit (mem w') i = Z.testbit found i)
    /\ BUF_STATE_GET_REFCOUNT (mem w') = BUF_STATE_GET_REFCOUNT found
    /\ events w' = events w ++ [EvIOCVBroadcast].
Proof.
  intros Hw H. unfold AbortBufferIO in H. unfold bind at 1 in H.
  destruct (LockBufHdr fuel w) as [s w1|msg w1|] eqn:El; try discriminate.
  destruct (lock_unlock _ _ _ _ Hw El) as (k1 & _ & _ & _ & Hun).
  unfold bind at 1 in H. unfold UnlockBufHdr at 1, modify at 1 in H.
  rewrite Hun in H.
  assert (Hio : is_u32 BM_IO_ERROR) by (apply is_u32_flag; lia).
  destruct (TerminateBufferIO_spec _ _ _ _ _ (u32_world_steps k1 w Hw) Hio eq_refl H)
    as (k2 & Hf & Hw').
  rewrite <- env_steps_add in Hf, Hw'.
  exists (k1 + k2)%nat. cbv zeta.
  destruct (u32_world_steps (k1 + k2) w Hw) as [Hu _].
  destruct (env_steps_private (k1 + k2) w) as (_ & _ & _ & _ & Hev).
  set (before := env_steps (k1 + k2) w) in *. set (found := mem before) in *.
  assert (Hm : mem w' = TerminateBufferIO_word false BM_IO_ERROR found)
    by (rewrite Hw'; reflexivity).
  assert (Hbits : forall i, 0 <= i ->
            Z.testbit (mem w') i
            = (27 =? i) || (Z.testbit found i && negb ((26 =? i) || (27 =? i)))).
  { intros i Hi. rewrite Hm, TerminateBufferIO_word_bits by assumption.
    unfold BM_IO_ERROR. rewrite testbit_pow2 by lia. cbn [andb negb].
    now rewrite andb_true_r. }
  split; [assumption|]. split; [rewrite Hw'; reflexivity|].
  unfold BM_IO_IN_PROGRESS, BM_IO_ERROR. rewrite !flag_set_bit by lia.
  split; [rewrite Hbits by lia; cbn; apply andb_false_r|].
  split; [rewrite Hbits by lia; reflexivity|].
  split.
  { intros i Hi H26 H27. rewrite Hbits by lia.
    replace (26 =? i) with false by (symmetry; apply Z.eqb_neq; lia).
    replace (27 =? i) with false by (symmetry; apply Z.eqb_neq; lia).
    cbn. apply andb_true_r. }
  split.
  { apply REFCOUNT_ext. intros i Hi. rewrite Hbits by lia.
    replace (26 =? i) with false by (symmetry; apply Z.eqb_neq; lia).
    replace (27 =? i) with false by (symmetry; apply Z.eqb_neq; lia).
    cbn. apply andb_true_r. }
  rewrite Hw'. proj_simpl. now rewrite Hev.
Qed.

Lemma AbortBufferIO_marks_error_witness :
  exists k : nat,
    flag_set (mem (env_steps k backend_writing)) BM_LOCKED = false
    /\ frame backend_aborted
       = with_state (mem backend_aborted) (frame (env_steps k backend_writing))
    /\ flag_set (mem backend_aborted) BM_IO_IN_PROGRESS = false
    /\ flag_set (mem backend_aborted) BM_IO_ERROR = true
    /\ (forall i, 0 <= i -> i <> 26 -> i <> 27 ->
          Z.testbit (mem backend_aborted) i
          = Z.testbit (mem (env_steps k backend_writing)) i)
    /\ BUF_STATE_GET_REFCOUNT (mem backend_aborted)
       = BUF_STATE_GET_REFCOUNT (mem (env_steps k backend_writing))
    /\ events backend_aborted = events backend_writing ++ [EvIOCVBroadcast].
Proof.
  apply (AbortBufferIO_marks_error 2 backend_writing backend_aborted).
  - apply u32_world_quiet. split; [vm_compute; discriminate|vm_compute; reflexivity].
  - vm_compute. reflexivity.
Defined.

(** *** Runs in which the other backends leave the frame alone *)

Lemma LockBufHdr_quiet (n : nat) (w : Backend) :
  env w = [] -> flag_set (mem w) BM_LOCKED = false ->
  LockBufHdr (S n) w
  = Done (Z.lor (mem w) BM_LOCKED) (set_state (Z.lor (mem w) BM_LOCKED) w).
Proof.
  intros He Hl.
  rewrite LockBufHdr_free; rewrite env_step_quiet by assumption;
    [reflexivity|assumption].
Qed.

Lemma StartBufferIO_quiet (n : nat) (forInput : bool) (w : Backend) :
  env w = [] -> is_u32 (mem w) ->
  flag_set (mem w) BM_LOCKED = false ->
  flag_set (mem w) BM_IO_IN_PROGRESS = false ->
  StartBufferIO (S (S n)) forInput w
  = if (if forInput then flag_set (mem w) BM_VALID
        else negb (flag_set (mem w) BM_DIRTY))
    then Done false w
    else Done true (set_state (Z.lor (mem w) BM_IO_IN_PROGRESS) w).
Proof.
  intros He Hu Hl Hio. unfold StartBufferIO. unfold bind at 1.
  cbn [StartBufferIO_wait]. unfold bind at 1.
  rewrite LockBufHdr_quiet by assumption.
  assert (Eio : flag_set (Z.lor (mem w) BM_LOCKED) BM_IO_IN_PROGRESS = false)
    by (rewrite <- Hio; apply locked_flag; lia).
  rewrite Eio. cbn [negb]. unfold ret at 1.
  assert (Ev : flag_set (Z.lor (mem w) BM_LOCKED) BM_VALID = flag_set (mem w) BM_VALID)
    by (apply locked_flag; lia).
  assert (Ed : flag_set (Z.lor (mem w) BM_LOCKED) BM_DIRTY = flag_set (mem w) BM_DIRTY)
    by (apply locked_flag; lia).
  rewrite Ev, Ed.
  destruct (if forInput then _ else _);
    unfold bind, UnlockBufHdr, modify, ret; rewrite set_state_twice.
  - now rewrite unlock_locked, set_state_mem by assumption.
  - now rewrite unlock_locked_set
      by (assumption || (apply is_u32_flag; lia) || reflexivity).
Qed.

Lemma TerminateBufferIO_quiet (n : nat) (cd : bool) (sb : Z) (w : Backend) :
  env w = [] -> is_u32 (mem w) -> flag_set (mem w) BM_LOCKED = false ->
  is_u32 sb -> flag_set sb BM_LOCKED = false ->
  TerminateBufferIO (S n) cd sb w
  = Done tt (emit EvIOCVBroadcast
               (set_state (TerminateBufferIO_word cd sb (mem w)) w)).
Proof.
  intros He Hu Hl Hsb Hsl. unfold TerminateBufferIO. unfold bind at 1.
  rewrite LockBufHdr_quiet by assumption.
  unfold bind, UnlockBufHdr, modify. rewrite set_state_twice.
  now rewrite unlock_TerminateBufferIO_word by assumption.
Qed.

(** The word a completed write leaves, from the word [m] it started on. *)
Lemma flushed_word_bits (m i : Z) :
  is_u32 m -> 0 <= i ->
  Z.testbit
    (TerminateBufferIO_word true 0
       (Z.land (Z.lor m BM_IO_IN_PROGRESS) (not32 BM_JUST_DIRTIED))) i
  = Z.testbit m i
    && negb ((23 =? i) || (26 =? i) || (27 =? i) || (28 =? i) || (30 =? i)).
Proof.
  intros Hm Hi.
  assert (H1 : is_u32 (Z.lor m BM_IO_IN_PROGRESS))
    by (apply is_u32_lor; [assumption|apply is_u32_flag; lia]).
  assert (H2 : is_u32 (Z.land (Z.lor m BM_IO_IN_PROGRESS) (not32 BM_JUST_DIRTIED)))
    by now apply is_u32_land.
  rewrite TerminateBufferIO_word_bits by assumption.
  rewrite Z.bits_0. cbn [orb].
  unfold BM_JUST_DIRTIED, BM_IO_IN_PROGRESS.
  rewrite !testbit_clear by (lia || assumption).
  rewrite !Z.lor_spec, !testbit_pow2 by lia.
  change (28 =? 28) with true. cbn [negb andb].
  rewrite andb_false_r. cbn [negb andb].
  destruct (Z.eqb_spec 23 i); destruct (Z.eqb_spec 26 i);
    destruct (Z.eqb_spec 27 i); destruct (Z.eqb_spec 28 i);
    destruct (Z.eqb_spec 30 i); try lia;
    cbn; rewrite ?orb_false_r, ?andb_true_r, ?andb_false_r; reflexivity.
Qed.

(** ** [FlushBuffer], the state it leaves *)

Lemma u32_world_emit (e : event) (w : Backend) :
  u32_world w -> u32_world (emit e w).
Proof. intros H. exact H. Qed.

(** The state word a returning [FlushBuffer] leaves: either the one
    [StartBufferIO] found (clean, no I/O in progress), or the one
    [TerminateBufferIO] computed from a word found under its spinlock. *)
Lemma FlushBuffer_word (fuel : nat) (w w' : Backend) :
  u32_world w ->
  FlushBuffer fuel w = Done tt w' ->
  u32_world w'
  /\ ((flag_set (mem w') BM_LOCKED = false
       /\ flag_set (mem w') BM_IO_IN_PROGRESS = false
       /\ flag_set (mem w') BM_DIRTY = false)
      \/ exists found : Z,
           is_u32 found /\ flag_set found BM_LOCKED = false
           /\ mem w' = TerminateBufferIO_word true 0 found).
Proof.
  intros Hw H. unfold FlushBuffer in H. unfold bind at 1 in H.
  destruct (StartBufferIO fuel false w) as [started w1|msg w1|] eqn:Es;
    try discriminate.
  destruct (StartBufferIO_spec _ _ _ _ _ Hw Es) as (k & Hf & Hio & Hr & Hw1).
  destruct started; cbn [negb] in H.
  2:{ unfold ret in H. apply Done_inj in H. destruct H as [_ <-].
      rewrite Hw1. split; [now apply u32_world_steps|]. left.
      split; [assumption|]. split; [assumption|].
      destruct (flag_set (mem (env_steps k w)) BM_DIRTY);
        [discriminate|reflexivity]. }
  assert (Hw1u : u32_world w1).
  { rewrite Hw1. destruct (u32_world_steps k w Hw) as [Hm He].
    apply u32_world_set_state; [|split; assumption].
    apply is_u32_lor; [assumption|apply is_u32_flag; lia]. }
  unfold bind at 1 in H.
  destruct (LockBufHdr fuel w1) as [s w2|msg w2|] eqn:El; try discriminate.
  destruct (LockBufHdr_spec _ _ _ _ El) as (j & Hfj & Hs & Hw2).
  pose proof (u32_world_steps j w1 Hw1u) as Hwj.
  destruct Hwj as [Hu Hue].
  assert (Hsu : is_u32 s)
    by (rewrite Hs; apply is_u32_lor; [assumption|apply is_u32_flag; lia]).
  assert (Hw3 : u32_world
                  (set_state (Z.land (Z.land s (not32 BM_JUST_DIRTIED))
                                     (not32 BM_LOCKED)) w2)).
  { apply u32_world_set_state.
    - repeat apply is_u32_land; assumption.
    - rewrite Hw2. apply u32_world_set_state; [assumption|split; assumption]. }
  unfold bind at 1 in H. unfold gets at 1 in H.
  unfold bind at 1 in H. unfold UnlockBufHdr at 1, modify at 1 in H.
  unfold bind at 1 in H.
  assert (Hz : is_u32 0) by (split; [lia|reflexivity]).
  destruct (flag_set (Z.land s (not32 BM_JUST_DIRTIED)) BM_PERMANENT).
  - unfold XLogFlush, modify at 1 in H.
    unfold bind at 1 in H. unfold gets at 1 in H.
    unfold bind at 1 in H. unfold smgrwrite, modify at 1 in H.
    apply TerminateBufferIO_spec in H;
      [|repeat apply u32_world_emit; exact Hw3|exact Hz|reflexivity].
    destruct H as (k3 & Hl3 & ->).
    match goal with
    | |- context [env_steps k3 ?x] =>
        assert (Hb : u32_world (env_steps k3 x))
          by (apply u32_world_steps; repeat apply u32_world_emit; exact Hw3)
    end.
    split.
    { apply u32_world_emit, u32_world_set_state; [|exact Hb].
      apply is_u32_TerminateBufferIO_word; [apply Hb|exact Hz]. }
    right. eexists. split; [apply Hb|split; [exact Hl3|reflexivity]].
  - unfold ret at 1 in H.
    unfold bind at 1 in H. unfold gets at 1 in H.
    unfold bind at 1 in H. unfold smgrwrite, modify at 1 in H.
    apply TerminateBufferIO_spec in H;
      [|repeat apply u32_world_emit; exact Hw3|exact Hz|reflexivity].
    destruct H as (k3 & Hl3 & ->).
    match goal with
    | |- context [env_steps k3 ?x] =>
        assert (Hb : u32_world (env_steps k3 x))
          by (apply u32_world_steps; repeat apply u32_world_emit; exact Hw3)
    end.
    split.
    { apply u32_world_emit, u32_world_set_state; [|exact Hb].
      apply is_u32_TerminateBufferIO_word; [apply Hb|exact Hz]. }
    right. eexists. split; [apply Hb|split; [exact Hl3|reflexivity]].
Qed.

(** [FlushBuffer]: whatever the other backends do, when it returns the
    header spinlock is free, no I/O is in progress on the frame, and the
    frame is marked dirty only if it is also marked as dirtied again during
    the write: [BM_DIRTY] set in the word it leaves implies
    [BM_JUST_DIRTIED] set there. *)
Theorem FlushBuffer_leaves_no_unflagged_dirt (fuel : nat) (w w' : Backend) :
  u32_world w ->
  FlushBuffer fuel w = Done tt w' ->
  flag_set (mem w') BM_LOCKED = false
  /\ flag_set (mem w') BM_IO_IN_PROGRESS = false
  /\ (flag_set (mem w') BM_DIRTY = true ->
      flag_set (mem w') BM_JUST_DIRTIED = true).
Proof.
  intros Hw H.
  destruct (FlushBuffer_word _ _ _ Hw H)
    as (_ & [(Hl & Hio & Hd)|(found & Hu & Hl & ->)]).
  - split; [assumption|]. split; [assumption|]. intros Hd'. congruence.
  - unfold BM_LOCKED, BM_IO_IN_PROGRESS, BM_DIRTY, BM_JUST_DIRTIED in *.
    rewrite !flag_set_bit in * by lia.
    rewrite !TerminateBufferIO_word_bits by (assumption || lia).
    rewrite !Z.bits_0, Hl.
    split; [reflexivity|].
    split; [destruct (Z.testbit found 26); reflexivity|].
    destruct (Z.testbit found 28), (Z.testbit found 23);
      intros E; try reflexivity; discriminate E.
Qed.

Lemma FlushBuffer_leaves_no_unflagged_dirt_witness :
  flag_set (mem backend_flushed) BM_LOCKED = false
  /\ flag_set (mem backend_flushed) BM_IO_IN_PROGRESS = false
  /\ (flag_set (mem backend_flushed) BM_DIRTY = true ->
      flag_set (mem backend_flushed) BM_JUST_DIRTIED = true).
Proof.
  apply (FlushBuffer_leaves_no_unflagged_dirt 3 backend_dirty backend_flushed).
  - apply u32_world_quiet. vm_compute. split; [discriminate|reflexivity].
  - vm_compute. reflexivity.
Defined.

(** The run of [FlushBuffer] on a dirty frame that nobody else touches. *)
Lemma FlushBuffer_quiet_run (n : nat) (w : Backend) :
  env w = [] -> is_u32 (mem w) ->
  flag_set (mem w) BM_LOCKED = false ->
  flag_set (mem w) BM_IO_IN_PROGRESS = false ->
  flag_set (mem w) BM_DIRTY = true ->
  exists w' : Backend,
    FlushBuffer (S (S n)) w = Done tt w'
    /\ (forall i, 0 <= i ->
          Z.testbit (mem w') i
          = Z.testbit (mem w) i
            && negb ((23 =? i) || (26 =? i) || (27 =? i) || (28 =? i) || (30 =? i)))
    /\ frame w' = with_state (mem w') (frame w)
    /\ PrivateRefCount w' = PrivateRefCount w
    /\ env w' = []
    /\ events w' =
       events w
       ++ (if flag_set (mem w) BM_PERMANENT
           then [EvXLogFlush (page_lsn (frame w))] else [])
       ++ [EvSmgrWrite (tag (frame w)); EvIOCVBroadcast].
Proof.
  intros He Hu Hl Hio Hd.
  assert (H1 : is_u32 (Z.lor (mem w) BM_IO_IN_PROGRESS))
    by (apply is_u32_lor; [assumption|apply is_u32_flag; lia]).
  assert (Hl1 : flag_set (Z.lor (mem w) BM_IO_IN_PROGRESS) BM_LOCKED = false).
  { unfold BM_LOCKED, BM_IO_IN_PROGRESS in *. rewrite flag_set_bit in * by lia.
    rewrite Z.lor_spec, testbit_pow2, Hl by lia. reflexivity. }
  assert (H2 : is_u32 (Z.land (Z.lor (mem w) BM_IO_IN_PROGRESS)
                              (not32 BM_JUST_DIRTIED)))
    by now apply is_u32_land.
  assert (Hl2 : flag_set (Z.land (Z.lor (mem w) BM_IO_IN_PROGRESS)
                                 (not32 BM_JUST_DIRTIED)) BM_LOCKED = false).
  { unfold BM_LOCKED, BM_JUST_DIRTIED in *. rewrite flag_set_bit in * by lia.
    rewrite testbit_clear, Hl1 by (lia || assumption). reflexivity. }
  assert (Hp : flag_set (Z.land (Z.lor (Z.lor (mem w) BM_IO_IN_PROGRESS) BM_LOCKED)
                                (not32 BM_JUST_DIRTIED)) BM_PERMANENT
               = flag_set (mem w) BM_PERMANENT).
  { unfold BM_JUST_DIRTIED, BM_PERMANENT.
    rewrite locked_clear_flag by (lia || assumption).
    unfold BM_IO_IN_PROGRESS. rewrite !flag_set_bit by lia.
    rewrite Z.lor_spec, testbit_pow2 by lia. apply orb_false_r. }
  unfold FlushBuffer. unfold bind at 1.
  rewrite StartBufferIO_quiet by assumption. rewrite Hd. cbn [negb].
  unfold bind at 1.
  rewrite LockBufHdr_quiet by (assumption || exact Hl1).
  rewrite mem_set_state.
  unfold bind at 1. unfold gets at 1.
  unfold bind at 1. unfold UnlockBufHdr at 1, modify at 1.
  rewrite !set_state_twice.
  assert (Eun : Z.land (Z.land (Z.lor (Z.lor (mem w) BM_IO_IN_PROGRESS) BM_LOCKED)
                               (not32 BM_JUST_DIRTIED)) (not32 BM_LOCKED)
                = Z.land (Z.lor (mem w) BM_IO_IN_PROGRESS) (not32 BM_JUST_DIRTIED))
    by (apply unlock_locked_clear; assumption || lia).
  rewrite Eun.
  rewrite Hp.
  unfold bind at 1.
  destruct (flag_set (mem w) BM_PERMANENT).
  - unfold XLogFlush, modify at 1.
    unfold bind at 1. unfold gets at 1.
    unfold bind at 1. unfold smgrwrite, modify at 1.
    rewrite TerminateBufferIO_quiet
      by (assumption || reflexivity || (split; [lia|reflexivity])).
    eexists. split; [reflexivity|].
    split; [intros i Hi; apply flushed_word_bits; assumption|].
    split; [reflexivity|]. split; [reflexivity|]. split; [exact He|].
    proj_simpl. now rewrite <- !app_assoc.
  - unfold ret at 1.
    unfold bind at 1. unfold gets at 1.
    unfold bind at 1. unfold smgrwrite, modify at 1.
    rewrite TerminateBufferIO_quiet
      by (assumption || reflexivity || (split; [lia|reflexivity])).
    eexists. split; [reflexivity|].
    split; [intros i Hi; apply flushed_word_bits; assumption|].
    split; [reflexivity|]. split; [reflexivity|]. split; [exact He|].
    proj_simpl. now rewrite <- !app_assoc.
Qed.


(** [FlushBuffer] when no other backend touches the frame: called on a
    dirty frame with no I/O in progress it returns, having flushed the WAL
    up to the page LSN if the frame is [BM_PERMANENT], written the page and
    broadcast; the word it leaves is the one it found with [BM_DIRTY],
    [BM_JUST_DIRTIED], [BM_CHECKPOINT_NEEDED] and [BM_IO_ERROR] cleared and
    every other bit, so the pin and usage counts, unchanged. *)
Theorem FlushBuffer_quiet_cleans (n : nat) (w : Backend) :
  env w = [] -> is_u32 (mem w) ->
  flag_set (mem w) BM_LOCKED = false ->
  flag_set (mem w) BM_IO_IN_PROGRESS = false ->
  flag_set (mem w) BM_DIRTY = true ->
  exists w' : Backend,
    FlushBuffer (S (S n)) w = Done tt w'
    /\ (forall i, 0 <= i ->
          Z.testbit (mem w') i
          = Z.testbit (mem w) i
            && negb ((23 =? i) || (26 =? i) || (27 =? i) || (28 =? i) || (30 =? i)))
    /\ frame w' = with_state (mem w') (frame w)
    /\ PrivateRefCount w' = PrivateRefCount w
    /\ events w' =
       events w
       ++ (if flag_set (mem w) BM_PERMANENT
           then [EvXLogFlush (page_lsn (frame w))] else [])
       ++ [EvSmgrWrite (tag (frame w)); EvIOCVBroadcast].
Proof.
  intros He Hu Hl Hio Hd.
  destruct (FlushBuffer_quiet_run n w He Hu Hl Hio Hd)
    as (w' & H & Hb & Hf & Hp & _ & Hev).
  exists w'. auto.
Qed.

Lemma FlushBuffer_quiet_cleans_witness :
  exists w' : Backend,
    FlushBuffer 3 backend_dirty = Done tt w'
    /\ (forall i, 0 <= i ->
          Z.testbit (mem w') i
          = Z.testbit (mem backend_dirty) i
            && negb ((23 =? i) || (26 =? i) || (27 =? i) || (28 =? i) || (30 =? i)))
    /\ frame w' = with_state (mem w') (frame backend_dirty)
    /\ PrivateRefCount w' = PrivateRefCount backend_dirty
    /\ events w' =
       events backend_dirty
       ++ (if flag_set (mem backend_dirty) BM_PERMANENT
           then [EvXLogFlush (page_lsn (frame backend_dirty))] else [])
       ++ [EvSmgrWrite (tag (frame backend_dirty)); EvIOCVBroadcast].
Proof.
  apply (FlushBuffer_quiet_cleans 1 backend_dirty).
  - reflexivity.
  - vm_compute. split; [discriminate|reflexivity].
  - reflexivity.
  - reflexivity.
  - reflexivity.
Defined.

(** ** [WaitIO] *)

(** [WaitIO]: whatever the other backends do, when it returns it has
    changed nothing itself (the frame is as the others left it, the private
    state and the events are as before), and the last word it saw under the
    header spinlock, which is the word in the frame on return, has
    [BM_IO_IN_PROGRESS] clear. *)
Theorem WaitIO_returns_after_io (fuel : nat) (w w' : Backend) :
  u32_world w ->
  WaitIO fuel w = Done tt w' ->
  exists k : nat,
    w' = env_steps k w
    /\ flag_set (mem w') BM_IO_IN_PROGRESS = false
    /\ flag_set (mem w') BM_LOCKED = false
    /\ PrivateRefCount w' = PrivateRefCount w
    /\ events w' = events w.
Proof.
  revert w. induction fuel as [|n IH]; intros w Hw H; [discriminate|].
  cbn [WaitIO] in H. unfold bind at 1 in H.
  destruct (LockBufHdr n w) as [s w1|msg w1|] eqn:El; try discriminate.
  destruct (lock_unlock _ _ _ _ Hw El) as (k & Hf & Hs & Hw1 & Hun).
  unfold bind at 1 in H. unfold UnlockBufHdr, modify in H. rewrite Hun in H.
  assert (Eio : flag_set s BM_IO_IN_PROGRESS
                = flag_set (mem (env_steps k w)) BM_IO_IN_PROGRESS)
    by (rewrite Hs; apply locked_flag; lia).
  destruct (flag_set s BM_IO_IN_PROGRESS); cbn [negb] in H.
  - destruct (IH _ (u32_world_steps k w Hw) H) as (k2 & -> & H1 & H2 & H3 & H4).
    destruct (env_steps_private k w) as (_ & Hp & _ & _ & Hev).
    exists (k + k2)%nat. rewrite env_steps_add.
    repeat split; try assumption; congruence.
  - unfold ret in H. apply Done_inj in H. destruct H as [_ <-].
    destruct (env_steps_private k w) as (_ & Hp & _ & _ & Hev).
    exists k. repeat split; try assumption. now symmetry.
Qed.

Lemma WaitIO_returns_after_io_witness :
  exists k : nat,
    backend_after_wait = env_steps k backend_awaiting_io
    /\ flag_set (mem backend_after_wait) BM_IO_IN_PROGRESS = false
    /\ flag_set (mem backend_after_wait) BM_LOCKED = false
    /\ PrivateRefCount backend_after_wait = PrivateRefCount backend_awaiting_io
    /\ events backend_after_wait = events backend_awaiting_io.
Proof.
  apply (WaitIO_returns_after_io 4 backend_awaiting_io backend_after_wait).
  - split; [vm_compute; split; [discriminate|reflexivity]|].
    apply Forall_cons; [exact I|].
    apply Forall_cons; [|apply Forall_nil].
    vm_compute. split; [discriminate|reflexivity].
  - vm_compute. reflexivity.
Defined.

(** [WaitIO] while the I/O lasts: if [BM_IO_IN_PROGRESS] is set and no other
    backend touches the frame, the call neither returns nor raises, however
    long it runs. *)
Theorem WaitIO_blocks_while_io_in_progress (fuel : nat) (w : Backend) :
  env w = [] -> is_u32 (mem w) ->
  flag_set (mem w) BM_LOCKED = false ->
  flag_set (mem w) BM_IO_IN_PROGRESS = true ->
  WaitIO fuel w = Spin.
Proof.
  intros He Hu Hl Hio. induction fuel as [|n IH]; [reflexivity|].
  cbn [WaitIO]. unfold bind at 1.
  destruct n as [|m]; [reflexivity|].
  rewrite LockBufHdr_quiet by assumption.
  unfold bind at 1. unfold UnlockBufHdr, modify.
  rewrite set_state_twice, unlock_locked, set_state_mem by assumption.
  assert (Eio : flag_set (Z.lor (mem w) BM_LOCKED) BM_IO_IN_PROGRESS = true)
    by (rewrite <- Hio; apply locked_flag; lia).
  rewrite Eio. cbn [negb]. exact IH.
Qed.

Lemma WaitIO_blocks_while_io_in_progress_witness :
  WaitIO 5 backend_writing = Spin.
Proof.
  apply (WaitIO_blocks_while_io_in_progress 5 backend_writing).
  - reflexivity.
  - vm_compute. split; [discriminate|reflexivity].
  - reflexivity.
  - reflexivity.
Defined.

(** ** Pins, composed *)

Lemma cas_loop_quiet_bind {B : Type} (update : Z -> Z) (n : nat)
    (k : Z * Z -> M B) (w : Backend) :
  env w = [] -> flag_set (mem w) BM_LOCKED = false ->
  (old_buf_state <- pg_atomic_read_u32 ;;
   r <- cas_loop update (S n) old_buf_state ;;
   k r) w
  = k (mem w, update (mem w)) (set_state (update (mem w)) w).
Proof.
  intros He Hl. pose proof (cas_loop_quiet update n w He Hl) as H.
  unfold bind at 1 in H. unfold bind at 1.
  unfold pg_atomic_read_u32 in *.
  unfold bind at 1. now rewrite H.
Qed.

Lemma PinBuffer_quiet (n : nat) (strategy : BufferAccessStrategy) (w : Backend) :
  env w = [] -> flag_set (mem w) BM_LOCKED = false -> PrivateRefCount w = 0 ->
  PinBuffer (S n) strategy w
  = Done (flag_set (PinBuffer_update strategy (mem w)) BM_VALID)
         (set_PrivateRefCount 1
            (set_state (PinBuffer_update strategy (mem w)) w)).
Proof.
  intros He Hl Hp. unfold PinBuffer.
  unfold bind at 1. unfold gets at 1. rewrite Hp.
  change (0 =? 0) with true. cbv iota.
  unfold bind at 1.
  rewrite cas_loop_quiet_bind by assumption.
  reflexivity.
Qed.

Lemma UnpinBuffer_wakeup_quiet (m : nat) (w : Backend) :
  env w = [] -> is_u32 (mem w) -> flag_set (mem w) BM_LOCKED = false ->
  UnpinBuffer_wakeup (S m) (mem w) w
  = Done tt
      (if flag_set (mem w) BM_PIN_COUNT_WAITER
          && (BUF_STATE_GET_REFCOUNT (mem w) =? 1)
       then emit (EvProcSendSignal (wait_backend_pgprocno (frame w)))
                 (set_state (Z.land (mem w) (not32 BM_PIN_COUNT_WAITER)) w)
       else w).
Proof.
  intros He Hu Hl. unfold UnpinBuffer_wakeup.
  destruct (flag_set (mem w) BM_PIN_COUNT_WAITER) eqn:Ew; [|reflexivity].
  unfold bind at 1. rewrite LockBufHdr_quiet by assumption.
  assert (E1 : flag_set (Z.lor (mem w) BM_LOCKED) BM_PIN_COUNT_WAITER = true)
    by (rewrite <- Ew; apply locked_flag; lia).
  rewrite E1, locked_REFCOUNT. cbn [andb].
  destruct (BUF_STATE_GET_REFCOUNT (mem w) =? 1).
  - unfold bind at 1. unfold gets at 1.
    unfold bind, UnlockBufHdr, modify. rewrite set_state_twice.
    unfold BM_PIN_COUNT_WAITER.
    rewrite unlock_locked_clear by (assumption || lia).
    reflexivity.
  - unfold UnlockBufHdr, modify.
    now rewrite set_state_twice, unlock_locked, set_state_mem by assumption.
Qed.

Lemma UnpinBuffer_quiet (m : nat) (w : Backend) :
  env w = [] -> flag_set (mem w) BM_LOCKED = false -> PrivateRefCount w = 1 ->
  flag_set (UnpinBuffer_update (mem w)) BM_LOCKED = false ->
  UnpinBuffer (S m) w
  = let dec := UnpinBuffer_update (mem w) in
    let w1 := set_state dec (set_PrivateRefCount 0 w) in
    Done tt
      (if flag_set dec BM_PIN_COUNT_WAITER && (BUF_STATE_GET_REFCOUNT dec =? 1)
       then emit (EvProcSendSignal (wait_backend_pgprocno (frame w)))
                 (set_state (Z.land dec (not32 BM_PIN_COUNT_WAITER)) w1)
       else w1).
Proof.
  intros He Hl Hp Hl'. unfold UnpinBuffer.
  unfold bind at 1. unfold gets at 1. rewrite Hp.
  unfold bind at 1. unfold modify at 1.
  change (1 - 1 =? 0) with true. cbv iota.
  rewrite cas_loop_quiet_bind by assumption.
  cbn [snd]. change (1 - 1) with 0.
  change (mem (set_PrivateRefCount 0 w)) with (mem w).
  cbv zeta.
  set (w1 := set_state (UnpinBuffer_update (mem w)) (set_PrivateRefCount 0 w)).
  change (UnpinBuffer_update (mem w)) with (mem w1) at 1.
  rewrite UnpinBuffer_wakeup_quiet;
    [reflexivity|assumption|apply is_u32_u32|assumption].
Qed.

Lemma PinBuffer_repin (fuel : nat) (strategy : BufferAccessStrategy)
    (w : Backend) :
  0 < PrivateRefCount w ->
  PinBuffer fuel strategy w
  = Done true (set_PrivateRefCount (PrivateRefCount w + 1) w).
Proof.
  intros Hp. unfold PinBuffer. unfold bind at 1. unfold gets at 1.
  replace (PrivateRefCount w =? 0) with false
    by (symmetry; apply Z.eqb_neq; lia).
  reflexivity.
Qed.

(** The word [PinBuffer_Locked] stores, from the word [found] that was in
    the frame when the header spinlock was taken. *)
Lemma pin_locked_word (found : Z) :
  flag_set found BM_LOCKED = false ->
  BUF_STATE_GET_REFCOUNT found < BUF_REFCOUNT_MASK ->
  let r := Z.land (u32 (Z.lor found BM_LOCKED + BUF_REFCOUNT_ONE))
                  (not32 BM_LOCKED) in
  BUF_STATE_GET_REFCOUNT r = BUF_STATE_GET_REFCOUNT found + 1
  /\ BUF_STATE_GET_USAGECOUNT r = BUF_STATE_GET_USAGECOUNT found
  /\ flags_of r = flags_of found.
Proof.
  intros Hl Hr. cbv zeta.
  destruct (incr_refcount (Z.lor found BM_LOCKED)) as (R & U & F);
    [now rewrite locked_REFCOUNT|].
  rewrite locked_REFCOUNT in R. rewrite locked_USAGECOUNT in U.
  unfold BM_LOCKED in *. rewrite flag_set_bit in Hl by lia.
  split; [|split].
  - rewrite <- R. apply REFCOUNT_ext. intros i Hi.
    rewrite testbit_clear32 by lia.
    replace (22 =? i) with false by (symmetry; apply Z.eqb_neq; lia).
    apply andb_true_r.
  - rewrite <- U. apply USAGECOUNT_ext. intros i Hi.
    rewrite testbit_clear32 by lia.
    replace (22 =? i) with false by (symmetry; apply Z.eqb_neq; lia).
    apply andb_true_r.
  - apply flags_of_ext. intros i Hi. rewrite testbit_clear32 by lia.
    rewrite (flags_of_bit _ _ i Hi F).
    rewrite Z.lor_spec, testbit_pow2 by lia.
    destruct (Z.eqb_spec 22 i) as [<-|]; cbn [negb].
    + now rewrite Hl.
    + now rewrite orb_false_r, andb_true_r.
Qed.

(** A pin taken by a backend that already holds one is private to it:
    whatever the others do, and whatever the strategy, [PinBuffer] returns
    [true] having only raised the backend's own count; the state word in
    shared memory is not even read.  The matching [UnpinBuffer] only lowers
    the count again, so the pair leaves the backend exactly as it was. *)
Theorem repin_is_private (fuel1 fuel2 : nat) (strategy : BufferAccessStrategy)
    (w : Backend) :
  0 < PrivateRefCount w ->
  PinBuffer fuel1 strategy w
  = Done true (set_PrivateRefCount (PrivateRefCount w + 1) w)
  /\ (PinBuffer fuel1 strategy ;;; UnpinBuffer fuel2) w = Done tt w.
Proof.
  intros Hp.
  assert (E : PinBuffer fuel1 strategy w
              = Done true (set_PrivateRefCount (PrivateRefCount w + 1) w))
    by now apply PinBuffer_repin.
  split; [exact E|].
  unfold bind at 1. rewrite E. unfold UnpinBuffer.
  unfold bind at 1. unfold gets at 1.
  unfold bind at 1. unfold modify at 1.
  cbn [PrivateRefCount set_PrivateRefCount].
  replace (PrivateRefCount w + 1 - 1 =? 0) with false
    by (symmetry; apply Z.eqb_neq; lia).
  unfold ret. f_equal.
  replace (PrivateRefCount w + 1 - 1) with (PrivateRefCount w) by lia.
  destruct w; reflexivity.
Qed.

Lemma repin_is_private_witness :
  PinBuffer 0 None backend_contended
  = Done true (set_PrivateRefCount (PrivateRefCount backend_contended + 1)
                                   backend_contended)
  /\ (PinBuffer 0 None ;;; UnpinBuffer 0) backend_contended
     = Done tt backend_contended.
Proof.
  apply (repin_is_private 0 0 None backend_contended). reflexivity.
Defined.

(** The first pin of a frame followed by its release, when no other backend
    touches the frame: the pair returns, the backend holds no pin and
    REFCOUNT is what it was; USAGE_COUNT keeps the bump of the pin.  The
    flags and the events are unchanged, except when [BM_PIN_COUNT_WAITER]
    was set with REFCOUNT 1: then the release clears the waiter bit (and no
    other flag) and signals the registered waiter. *)
Theorem pin_unpin_restores_refcount (n m : nat)
    (strategy : BufferAccessStrategy) (w : Backend) :
  env w = [] -> is_u32 (mem w) ->
  flag_set (mem w) BM_LOCKED = false ->
  PrivateRefCount w = 0 ->
  BUF_STATE_GET_REFCOUNT (mem w) < BUF_REFCOUNT_MASK ->
  BUF_STATE_GET_USAGECOUNT (mem w) <= BM_MAX_USAGE_COUNT ->
  exists w' : Backend,
    (PinBuffer (S n) strategy ;;; UnpinBuffer (S m)) w = Done tt w'
    /\ PrivateRefCount w' = 0
    /\ BUF_STATE_GET_REFCOUNT (mem w') = BUF_STATE_GET_REFCOUNT (mem w)
    /\ BUF_STATE_GET_USAGECOUNT (mem w')
       = BUF_STATE_GET_USAGECOUNT (PinBuffer_update strategy (mem w))
    /\ (forall i, 22 <= i ->
          Z.testbit (mem w') i
          = Z.testbit (mem w) i
            && negb ((29 =? i) && (BUF_STATE_GET_REFCOUNT (mem w) =? 1)))
    /\ events w' =
       events w
       ++ (if flag_set (mem w) BM_PIN_COUNT_WAITER
              && (BUF_STATE_GET_REFCOUNT (mem w) =? 1)
           then [EvProcSendSignal (wait_backend_pgprocno (frame w))]
           else []).
Proof.
  intros He Hu Hl Hp Hr Huc.
  destruct (PinBuffer_update_fields strategy (mem w) Hr Huc) as (R & _ & F).
  set (upd := PinBuffer_update strategy (mem w)) in *.
  assert (Hr' : 0 < BUF_STATE_GET_REFCOUNT upd).
  { rewrite R. rewrite REFCOUNT_mod.
    pose proof (Z.mod_pos_bound (mem w) (2 ^ 18) eq_refl). lia. }
  destruct (decr_refcount upd Hr') as (R' & U' & F').
  fold (UnpinBuffer_update upd) in R', U', F'.
  set (dec := UnpinBuffer_update upd) in *.
  assert (Fd : flags_of dec = flags_of (mem w)) by congruence.
  assert (Hlu : flag_set upd BM_LOCKED = false)
    by (rewrite <- Hl; apply flags_of_flag; [lia|assumption]).
  assert (Hld : flag_set dec BM_LOCKED = false)
    by (rewrite <- Hl; apply flags_of_flag; [lia|assumption]).
  assert (Hwd : flag_set dec BM_PIN_COUNT_WAITER
                = flag_set (mem w) BM_PIN_COUNT_WAITER)
    by (apply flags_of_flag; [lia|assumption]).
  assert (Hrd : BUF_STATE_GET_REFCOUNT dec = BUF_STATE_GET_REFCOUNT (mem w))
    by lia.
  assert (Hdu : is_u32 dec) by apply is_u32_u32.
  assert (Hhigh : forall i, 32 <= i -> Z.testbit dec i = Z.testbit (mem w) i).
  { intros i Hi. now rewrite !is_u32_high by assumption. }
  assert (Hbits : forall i, 22 <= i -> Z.testbit dec i = Z.testbit (mem w) i).
  { intros i Hi. destruct (Z.ltb_spec i 32).
    - apply flags_of_bit; [lia|assumption].
    - now apply Hhigh. }
  unfold bind at 1. rewrite PinBuffer_quiet by assumption. fold upd.
  rewrite UnpinBuffer_quiet; [|assumption|exact Hlu|reflexivity|exact Hld].
  cbv zeta.
  change (mem (set_PrivateRefCount 1 (set_state upd w))) with upd.
  fold dec. rewrite Hwd, Hrd.
  destruct (flag_set (mem w) BM_PIN_COUNT_WAITER) eqn:Ew; cbn [andb].
  - destruct (BUF_STATE_GET_REFCOUNT (mem w) =? 1) eqn:E1.
    + eexists. split; [reflexivity|]. split; [reflexivity|].
      set (w' := emit _ _).
      assert (Em : mem w' = Z.land dec (not32 BM_PIN_COUNT_WAITER))
        by reflexivity.
      rewrite !Em. unfold BM_PIN_COUNT_WAITER.
      split.
      { rewrite <- Hrd. apply REFCOUNT_ext. intros i Hi.
        rewrite testbit_clear by (assumption || lia).
        replace (29 =? i) with false by (symmetry; apply Z.eqb_neq; lia).
        apply andb_true_r. }
      split.
      { rewrite <- U'. apply USAGECOUNT_ext. intros i Hi.
        rewrite testbit_clear by (assumption || lia).
        replace (29 =? i) with false by (symmetry; apply Z.eqb_neq; lia).
        apply andb_true_r. }
      split; [|reflexivity].
      intros i Hi. rewrite testbit_clear by (assumption || lia).
      rewrite Hbits by assumption. now rewrite andb_true_r.
    + eexists. split; [reflexivity|]. split; [reflexivity|].
      rewrite !mem_set_state.
      split; [assumption|]. split; [assumption|].
      split; [|cbn; now rewrite app_nil_r].
      intros i Hi. rewrite Hbits by assumption.
      now rewrite andb_false_r, andb_true_r.
  - eexists. split; [reflexivity|]. split; [reflexivity|].
    rewrite !mem_set_state.
    split; [assumption|]. split; [assumption|].
    split; [|cbn; now rewrite app_nil_r].
    intros i Hi. rewrite Hbits by assumption.
    unfold BM_PIN_COUNT_WAITER in Ew. rewrite flag_set_bit in Ew by lia.
    destruct (Z.eqb_spec 29 i) as [<-|]; cbn [andb negb].
    + rewrite Ew. reflexivity.
    + now rewrite andb_true_r.
Qed.

Lemma pin_unpin_restores_refcount_witness :
  exists w' : Backend,
    (PinBuffer 1 None ;;; UnpinBuffer 1) (backend_of frame_waited [] 0)
    = Done tt w'
    /\ PrivateRefCount w' = 0
    /\ BUF_STATE_GET_REFCOUNT (mem w')
       = BUF_STATE_GET_REFCOUNT (mem (backend_of frame_waited [] 0))
    /\ BUF_STATE_GET_USAGECOUNT (mem w')
       = BUF_STATE_GET_USAGECOUNT
           (PinBuffer_update None (mem (backend_of frame_waited [] 0)))
    /\ (forall i, 22 <= i ->
          Z.testbit (mem w') i
          = Z.testbit (mem (backend_of frame_waited [] 0)) i
            && negb ((29 =? i)
                     && (BUF_STATE_GET_REFCOUNT
                           (mem (backend_of frame_waited [] 0)) =? 1)))
    /\ events w' =
       events (backend_of frame_waited [] 0)
       ++ (if flag_set (mem (backend_of frame_waited [] 0)) BM_PIN_COUNT_WAITER
              && (BUF_STATE_GET_REFCOUNT
                    (mem (backend_of frame_waited [] 0)) =? 1)
           then [EvProcSendSignal
                   (wait_backend_pgprocno (frame (backend_of frame_waited [] 0)))]
           else []).
Proof.
  apply (pin_unpin_restores_refcount 0 0 None (backend_of frame_waited [] 0)).
  - reflexivity.
  - vm_compute. split; [discriminate|reflexivity].
  - reflexivity.
  - reflexivity.
  - vm_compute. reflexivity.
  - vm_compute. discriminate.
Defined.

(** ** [LockBufferForCleanup], its outcomes *)

Lemma u32_world_set_PinCountWaitBuf (b : bool) (w : Backend) :
  u32_world w -> u32_world (set_PinCountWaitBuf b w).
Proof. intros H. exact H. Qed.

Lemma LockBufferForCleanup_loop_outcome (fuel : nat) (w : Backend) :
  u32_world w ->
  cleanup_outcome w (LockBufferForCleanup_loop fuel w).
Proof.
  revert w. induction fuel as [|n IH]; intros w Hw; [exact I|].
  cbn [LockBufferForCleanup_loop]. unfold bind at 1.
  destruct (LockBufHdr n w) as [s w1|msg w1|] eqn:El;
    [|now apply LockBufHdr_no_raise in El|exact I].
  destruct (lock_unlock _ _ _ _ Hw El) as (k & Hf & Hs & Hw1 & Hun).
  destruct (u32_world_steps k w Hw) as [Hu Hue].
  destruct (env_steps_private k w) as (_ & Hp & _ & Hpc & Hev).
  assert (Er : BUF_STATE_GET_REFCOUNT s
               = BUF_STATE_GET_REFCOUNT (mem (env_steps k w)))
    by (rewrite Hs; apply locked_REFCOUNT).
  assert (Ew : flag_set s BM_PIN_COUNT_WAITER
               = flag_set (mem (env_steps k w)) BM_PIN_COUNT_WAITER)
    by (rewrite Hs; apply locked_flag; lia).
  assert (Hsu : is_u32 s)
    by (rewrite Hs; apply is_u32_lor; [assumption|apply is_u32_flag; lia]).
  destruct (Z.eqb_spec (BUF_STATE_GET_REFCOUNT s) 1) as [E1|E1].
  { unfold UnlockBufHdr, modify. rewrite Hun. cbn [cleanup_outcome].
    repeat split; congruence. }
  destruct (flag_set s BM_PIN_COUNT_WAITER) eqn:Ews.
  { unfold bind, UnlockBufHdr, modify, elog_ERROR. rewrite Hun.
    cbn [cleanup_outcome].
    repeat split; congruence. }
  unfold bind at 1. unfold modify at 1.
  unfold bind at 1. unfold modify at 1.
  unfold bind at 1. unfold UnlockBufHdr at 1, modify at 1.
  unfold bind at 1.
  match goal with
  | |- context [LockBufHdr n ?x] => set (w3 := x)
  end.
  assert (Hw3 : u32_world w3).
  { apply u32_world_set_state.
    - apply is_u32_land.
      apply is_u32_lor; [assumption|apply is_u32_flag; lia].
    - rewrite Hw1. split; [exact Hsu|exact Hue]. }
  assert (Hp3 : PrivateRefCount w3 = PrivateRefCount w)
    by (unfold w3; rewrite <- Hp, Hw1; reflexivity).
  assert (Hev3 : events w3 = events w)
    by (unfold w3; rewrite <- Hev, Hw1; reflexivity).
  destruct (LockBufHdr n w3) as [s2 w4|msg w4|] eqn:El2;
    [|now apply LockBufHdr_no_raise in El2|exact I].
  destruct (LockBufHdr_spec _ _ _ _ El2) as (j & Hfj & Hs2 & Hw4).
  destruct (u32_world_steps j w3 Hw3) as [Huj Huej].
  destruct (env_steps_private j w3) as (_ & Hpj & _ & _ & Hevj).
  assert (Hs2u : is_u32 s2)
    by (rewrite Hs2; apply is_u32_lor; [assumption|apply is_u32_flag; lia]).
  unfold bind at 1. unfold gets at 1.
  unfold bind at 1. unfold gets at 1.
  unfold bind at 1. unfold UnlockBufHdr at 1, modify at 1.
  unfold bind at 1. unfold modify at 1.
  match goal with
  | |- context [LockBufferForCleanup_loop n ?x] => set (w5 := x)
  end.
  assert (Hw5 : u32_world w5).
  { apply u32_world_set_PinCountWaitBuf, u32_world_set_state.
    - apply is_u32_land.
      destruct (_ && _); [apply is_u32_land|]; assumption.
    - rewrite Hw4. split; [exact Hs2u|exact Huej]. }
  assert (Hp5 : PrivateRefCount w5 = PrivateRefCount w)
    by (unfold w5; rewrite <- Hp3, <- Hpj, Hw4; reflexivity).
  assert (Hev5 : events w5 = events w)
    by (unfold w5; rewrite <- Hev3, <- Hevj, Hw4; reflexivity).
  specialize (IH w5 Hw5).
  destruct (LockBufferForCleanup_loop n w5) as [[] w'|msg w'|];
    cbn [cleanup_outcome] in *; [| |exact I].
  - destruct IH as (A & B & C & D & E).
    repeat split; try assumption; try congruence.
    intros _. now apply D.
  - destruct IH as (A & B & C & D & E & F).
    repeat split; try assumption; congruence.
Qed.

(** [LockBufferForCleanup] grants the cleanup lock only on a sole pin:
    whatever the other backends do, when the call returns the caller holds
    exactly one pin of its own and the word in the frame, left under the
    header spinlock, shows REFCOUNT 1, so nobody else had the buffer
    pinned; the backend is not left registered as waiting and it emitted
    nothing. *)
Theorem LockBufferForCleanup_returns_on_sole_pin (fuel : nat) (w w' : Backend) :
  u32_world w ->
  LockBufferForCleanup fuel w = Done tt w' ->
  PrivateRefCount w = 1
  /\ PrivateRefCount w' = 1
  /\ BUF_STATE_GET_REFCOUNT (mem w') = 1
  /\ flag_set (mem w') BM_LOCKED = false
  /\ (PinCountWaitBuf w = false -> PinCountWaitBuf w' = false)
  /\ events w' = events w.
Proof.
  intros Hw H. unfold LockBufferForCleanup, CheckBufferIsPinnedOnce in H.
  unfold bind at 1 in H. unfold bind at 1 in H. unfold gets at 1 in H.
  destruct (Z.eqb_spec (PrivateRefCount w) 1) as [Hp|Hp]; cbn [negb] in H;
    [|discriminate].
  unfold ret in H.
  pose proof (LockBufferForCleanup_loop_outcome fuel w Hw) as Ho.
  rewrite H in Ho. cbn [cleanup_outcome] in Ho.
  destruct Ho as (A & B & C & D & E).
  repeat split; try assumption; congruence.
Qed.

Lemma LockBufferForCleanup_returns_on_sole_pin_witness :
  PrivateRefCount (backend_of frame_dirty [] 1) = 1
  /\ PrivateRefCount (backend_of frame_dirty [] 1) = 1
  /\ BUF_STATE_GET_REFCOUNT (mem (backend_of frame_dirty [] 1)) = 1
  /\ flag_set (mem (backend_of frame_dirty [] 1)) BM_LOCKED = false
  /\ (PinCountWaitBuf (backend_of frame_dirty [] 1) = false ->
      PinCountWaitBuf (backend_of frame_dirty [] 1) = false)
  /\ events (backend_of frame_dirty [] 1) = events (backend_of frame_dirty [] 1).
Proof.
  apply (LockBufferForCleanup_returns_on_sole_pin 2
           (backend_of frame_dirty [] 1) (backend_of frame_dirty [] 1)).
  - apply u32_world_quiet. vm_compute. split; [discriminate|reflexivity].
  - vm_compute. reflexivity.
Defined.

(** The errors of [LockBufferForCleanup] are two: the caller does not hold
    exactly one pin of its own, and then nothing was touched; or a round
    found, under the header spinlock, another pin and [BM_PIN_COUNT_WAITER]
    set, and the word is left so.  No other error is ever raised. *)
Theorem LockBufferForCleanup_errors (fuel : nat) (w w' : Backend) (msg : string) :
  u32_world w ->
  LockBufferForCleanup fuel w = Raise msg w' ->
  (msg = "incorrect local pin count"%string
   /\ PrivateRefCount w <> 1 /\ w' = w)
  \/ (msg = "multiple backends attempting to wait for pincount 1"%string
      /\ PrivateRefCount w = 1
      /\ BUF_STATE_GET_REFCOUNT (mem w') <> 1
      /\ flag_set (mem w') BM_PIN_COUNT_WAITER = true
      /\ flag_set (mem w') BM_LOCKED = false
      /\ events w' = events w).
Proof.
  intros Hw H. unfold LockBufferForCleanup, CheckBufferIsPinnedOnce in H.
  unfold bind at 1 in H. unfold bind at 1 in H. unfold gets at 1 in H.
  destruct (Z.eqb_spec (PrivateRefCount w) 1) as [Hp|Hp]; cbn [negb] in H.
  - right. unfold ret in H.
    pose proof (LockBufferForCleanup_loop_outcome fuel w Hw) as Ho.
    rewrite H in Ho. cbn [cleanup_outcome] in Ho.
    destruct Ho as (A & B & C & D & E & F).
    repeat split; assumption.
  - left. unfold elog_ERROR in H. injection H as <- <-.
    repeat split; assumption.
Qed.

Lemma LockBufferForCleanup_errors_witness :
  ("incorrect local pin count"%string = "incorrect local pin count"%string
   /\ PrivateRefCount (backend_of frame_waited [] 2) <> 1
   /\ backend_of frame_waited [] 2 = backend_of frame_waited [] 2)
  \/ ("incorrect local pin count"%string
      = "multiple backends attempting to wait for pincount 1"%string
      /\ PrivateRefCount (backend_of frame_waited [] 2) = 1
      /\ BUF_STATE_GET_REFCOUNT (mem (backend_of frame_waited [] 2)) <> 1
      /\ flag_set (mem (backend_of frame_waited [] 2)) BM_PIN_COUNT_WAITER = true
      /\ flag_set (mem (backend_of frame_waited [] 2)) BM_LOCKED = false
      /\ events (backend_of frame_waited [] 2)
         = events (backend_of frame_waited [] 2)).
Proof.
  apply (LockBufferForCleanup_errors 2 (backend_of frame_waited [] 2)
           (backend_of frame_waited [] 2) "incorrect local pin count").
  - apply u32_world_quiet. vm_compute. split; [discriminate|reflexivity].
  - vm_compute. reflexivity.
Defined.

(** ** Cleanup locks without waiting *)

(** [ConditionalLockBufferForCleanup] never waits and never complains:
    whatever the other backends do it raises no error, it leaves the frame
    as the others left it (no waiter is registered), and it answers [true]
    exactly when the caller holds one pin of its own, the content lock could
    be taken, and the word found under the header spinlock, which is the word
    in the frame on return, shows REFCOUNT 1. *)
Theorem ConditionalLockBufferForCleanup_answer (fuel : nat) (cl : bool)
    (w : Backend) :
  u32_world w ->
  match ConditionalLockBufferForCleanup fuel cl w with
  | Done r w' =>
      exists k : nat,
        w' = env_steps k w
        /\ r = (PrivateRefCount w =? 1) && cl
               && (BUF_STATE_GET_REFCOUNT (mem w') =? 1)
  | Raise _ _ => False
  | Spin => (PrivateRefCount w =? 1) && cl = true
            /\ LockBufHdr fuel w = Spin
  end.
Proof.
  intros Hw. unfold ConditionalLockBufferForCleanup.
  unfold bind at 1. unfold gets at 1.
  destruct (PrivateRefCount w =? 1); cbn [negb andb];
    [|unfold ret; now exists 0%nat].
  destruct cl; cbn [negb andb]; [|unfold ret; now exists 0%nat].
  unfold bind at 1.
  destruct (LockBufHdr fuel w) as [s w1|msg w1|] eqn:El;
    [|now apply LockBufHdr_no_raise in El|now split].
  destruct (lock_unlock _ _ _ _ Hw El) as (k & Hf & Hs & Hw1 & Hun).
  assert (Er : BUF_STATE_GET_REFCOUNT s
               = BUF_STATE_GET_REFCOUNT (mem (env_steps k w)))
    by (rewrite Hs; apply locked_REFCOUNT).
  destruct (BUF_STATE_GET_REFCOUNT s =? 1) eqn:E1;
    unfold bind, UnlockBufHdr, modify, ret; rewrite Hun;
    exists k; (split; [reflexivity|]); now rewrite <- Er, E1.
Qed.

Lemma ConditionalLockBufferForCleanup_answer_witness :
  match ConditionalLockBufferForCleanup 1 true backend_waited with
  | Done r w' =>
      exists k : nat,
        w' = env_steps k backend_waited
        /\ r = (PrivateRefCount backend_waited =? 1) && true
               && (BUF_STATE_GET_REFCOUNT (mem w') =? 1)
  | Raise _ _ => False
  | Spin => (PrivateRefCount backend_waited =? 1) && true = true
            /\ LockBufHdr 1 backend_waited = Spin
  end.
Proof.
  apply (ConditionalLockBufferForCleanup_answer 1 true backend_waited).
  apply u32_world_quiet. vm_compute. split; [discriminate|reflexivity].
Defined.

(** [IsBufferCleanupOK]: whatever the other backends do it raises no error
    and changes nothing, and it answers [true] exactly when the caller holds
    one pin of its own and the word found under the header spinlock shows
    REFCOUNT 1. *)
Theorem IsBufferCleanupOK_answer (fuel : nat) (w : Backend) :
  u32_world w ->
  match IsBufferCleanupOK fuel w with
  | Done r w' =>
      exists k : nat,
        w' = env_steps k w
        /\ r = (PrivateRefCount w =? 1)
               && (BUF_STATE_GET_REFCOUNT (mem w') =? 1)
  | Raise _ _ => False
  | Spin => PrivateRefCount w = 1 /\ LockBufHdr fuel w = Spin
  end.
Proof.
  intros Hw. unfold IsBufferCleanupOK.
  unfold bind at 1. unfold gets at 1.
  destruct (Z.eqb_spec (PrivateRefCount w) 1) as [Hp|Hp]; cbn [negb andb];
    [|unfold ret; now exists 0%nat].
  unfold bind at 1.
  destruct (LockBufHdr fuel w) as [s w1|msg w1|] eqn:El;
    [|now apply LockBufHdr_no_raise in El|now split].
  destruct (lock_unlock _ _ _ _ Hw El) as (k & Hf & Hs & Hw1 & Hun).
  assert (Er : BUF_STATE_GET_REFCOUNT s
               = BUF_STATE_GET_REFCOUNT (mem (env_steps k w)))
    by (rewrite Hs; apply locked_REFCOUNT).
  destruct (BUF_STATE_GET_REFCOUNT s =? 1) eqn:E1;
    unfold bind, UnlockBufHdr, modify, ret; rewrite Hun;
    exists k; (split; [reflexivity|]); now rewrite <- Er, E1.
Qed.

Lemma IsBufferCleanupOK_answer_witness :
  match IsBufferCleanupOK 1 backend_dirty with
  | Done r w' =>
      exists k : nat,
        w' = env_steps k backend_dirty
        /\ r = (PrivateRefCount backend_dirty =? 1)
               && (BUF_STATE_GET_REFCOUNT (mem w') =? 1)
  | Raise _ _ => False
  | Spin => PrivateRefCount backend_dirty = 1 /\ LockBufHdr 1 backend_dirty = Spin
  end.
Proof.
  apply (IsBufferCleanupOK_answer 1 backend_dirty).
  apply u32_world_quiet. vm_compute. split; [discriminate|reflexivity].
Defined.

(** [UnlockBuffers]: when it returns the backend is no longer registered as
    waiting.  If it was, the word found under the header spinlock is stored
    back with [BM_PIN_COUNT_WAITER] cleared when the frame names this
    backend as its waiter, and exactly as found when it names another
    backend, whose request is so never cancelled; no other bit changes and
    nothing is emitted.  If it was not, nothing happens at all. *)
Theorem UnlockBuffers_cancels_own_request (fuel : nat) (w w' : Backend) :
  u32_world w ->
  UnlockBuffers fuel w = Done tt w' ->
  PinCountWaitBuf w' = false
  /\ events w' = events w
  /\ PrivateRefCount w' = PrivateRefCount w
  /\ if PinCountWaitBuf w then
       exists k : nat,
         let before := env_steps k w in
         flag_set (mem before) BM_LOCKED = false
         /\ frame w' = with_state (mem w') (frame before)
         /\ (forall i, 0 <= i ->
               Z.testbit (mem w') i
               = Z.testbit (mem before) i
                 && negb ((29 =? i)
                          && (wait_backend_pgprocno (frame before)
                              =? MyProc_pgprocno w)))
     else w' = w.
Proof.
  intros Hw H. unfold UnlockBuffers in H.
  unfold bind at 1 in H. unfold gets at 1 in H.
  destruct (PinCountWaitBuf w) eqn:Ep.
  2:{ unfold ret in H. apply Done_inj in H. destruct H as [_ <-]. auto. }
  unfold bind at 1 in H.
  destruct (LockBufHdr fuel w) as [s w1|msg w1|] eqn:El; try discriminate.
  destruct (LockBufHdr_spec _ _ _ _ El) as (k & Hf & Hs & Hw1).
  destruct (u32_world_steps k w Hw) as [Hu _].
  destruct (env_steps_private k w) as (_ & Hp & Hme & _ & Hev).
  unfold bind at 1 in H. unfold gets at 1 in H.
  unfold bind at 1 in H. unfold gets at 1 in H.
  unfold bind, UnlockBufHdr, modify in H.
  apply Done_inj in H. destruct H as [_ <-].
  split; [reflexivity|].
  split; [rewrite Hw1; exact Hev|].
  split; [rewrite Hw1; exact Hp|].
  exists k. cbv zeta. split; [assumption|].
  split; [rewrite Hw1; reflexivity|].
  intros i Hi. rewrite Hw1. proj_simpl. rewrite Hme.
  fold (mem (env_steps k w)).
  assert (Ew : flag_set s BM_PIN_COUNT_WAITER
               = Z.testbit (mem (env_steps k w)) 29).
  { rewrite Hs. unfold BM_PIN_COUNT_WAITER.
    rewrite locked_flag by lia. apply flag_set_bit. lia. }
  rewrite Ew.
  destruct (Z.testbit (mem (env_steps k w)) 29) eqn:E29; cbn [andb].
  - destruct (wait_backend_pgprocno (frame (env_steps k w)) =? MyProc_pgprocno w).
    + rewrite Hs. unfold BM_PIN_COUNT_WAITER.
      rewrite unlock_locked_clear by (assumption || lia).
      rewrite testbit_clear by (assumption || lia).
      now rewrite andb_true_r.
    + rewrite Hs, unlock_locked by assumption.
      now rewrite andb_false_r, andb_true_r.
  - rewrite Hs, unlock_locked by assumption.
    destruct (Z.eqb_spec 29 i) as [<-|]; cbn [andb negb].
    + rewrite E29. now destruct (_ =? _).
    + now rewrite andb_true_r.
Qed.

Lemma UnlockBuffers_cancels_own_request_witness :
  PinCountWaitBuf backend_cleaned_up = false
  /\ events backend_cleaned_up = events backend_interrupted
  /\ PrivateRefCount backend_cleaned_up = PrivateRefCount backend_interrupted
  /\ if PinCountWaitBuf backend_interrupted then
       exists k : nat,
         let before := env_steps k backend_interrupted in
         flag_set (mem before) BM_LOCKED = false
         /\ frame backend_cleaned_up
            = with_state (mem backend_cleaned_up) (frame before)
         /\ (forall i, 0 <= i ->
               Z.testbit (mem backend_cleaned_up) i
               = Z.testbit (mem before) i
                 && negb ((29 =? i)
                          && (wait_backend_pgprocno (frame before)
                              =? MyProc_pgprocno backend_interrupted)))
     else backend_cleaned_up = backend_interrupted.
Proof.
  apply (UnlockBuffers_cancels_own_request 1 backend_interrupted
           backend_cleaned_up).
  - split; [vm_compute; split; [discriminate|reflexivity]|constructor].
  - vm_compute. reflexivity.
Defined.

(** ** [ReadRecentBuffer] *)

Lemma BufferTagsEqual_eq (a b : BufferTag) :
  BufferTagsEqual a b = true <-> a = b.
Proof.
  unfold BufferTagsEqual. destruct a as [a1 a2 a3 a4 a5], b as [b1 b2 b3 b4 b5].
  cbn [spcOid dbOid relNumber forkNum blockNum].
  rewrite !andb_true_iff, !Z.eqb_eq. split.
  - intros ((((-> & ->) & ->) & ->) & ->). reflexivity.
  - intros H. injection H as -> -> -> -> ->. auto.
Qed.

(** [ReadRecentBuffer]: whatever the other backends do, it answers [true]
    exactly when the word it found (under the header spinlock, unless the
    backend already holds a pin) has [BM_VALID] and the frame still carries
    the expected tag.  On [true] the backend holds one more pin; the shared
    word is untouched if it held one already, and otherwise gains one
    reference with the flags and USAGE_COUNT unchanged: the usage count is
    never bumped.  On [false] the frame is as the others left it and no pin
    is taken.  Nothing is emitted. *)
Theorem ReadRecentBuffer_pins_matching_valid (fuel : nat) (tag' : BufferTag)
    (w w' : Backend) (r : bool) :
  u32_world w -> 0 <= PrivateRefCount w ->
  ReadRecentBuffer fuel tag' w = Done r w' ->
  exists k : nat,
    let before := env_steps k w in
    let found := mem before in
    r = flag_set found BM_VALID && BufferTagsEqual tag' (tag (frame before))
    /\ events w' = events w
    /\ if r then
         PrivateRefCount w' = PrivateRefCount w + 1
         /\ frame w' = with_state (mem w') (frame before)
         /\ (if 0 <? PrivateRefCount w then mem w' = found
             else
               flag_set found BM_LOCKED = false
               /\ (BUF_STATE_GET_REFCOUNT found < BUF_REFCOUNT_MASK ->
                   BUF_STATE_GET_REFCOUNT (mem w')
                   = BUF_STATE_GET_REFCOUNT found + 1
                   /\ BUF_STATE_GET_USAGECOUNT (mem w')
                      = BUF_STATE_GET_USAGECOUNT found
                   /\ flags_of (mem w') = flags_of found))
       else w' = before.
Proof.
  intros Hw Hp0 H. unfold ReadRecentBuffer in H.
  unfold bind at 1 in H. unfold gets at 1 in H.
  destruct (Z.ltb_spec 0 (PrivateRefCount w)) as [Hp|Hp].
  - (* already pinned by this backend *)
    unfold bind at 1 in H. unfold pg_atomic_read_u32 at 1 in H. cbv zeta in H.
    unfold bind at 1 in H. unfold gets at 1 in H.
    exists 1%nat. cbn [env_steps]. cbv zeta.
    destruct (env_step_private w) as (_ & Hp1 & _ & _ & Hev).
    destruct (flag_set (mem (env_step w)) BM_VALID
              && BufferTagsEqual tag' (tag (frame (env_step w)))).
    + unfold bind at 1 in H. unfold bind at 1 in H.
      rewrite PinBuffer_repin in H by lia.
      unfold ret, bind in H. apply Done_inj in H. destruct H as [<- <-].
      split; [reflexivity|]. split; [exact Hev|].
      split; [proj_simpl; now rewrite Hp1|].
      split; [now destruct (env_step w) as [i [t s p l] e c m b ev]|].
      reflexivity.
    + cbn [negb] in H. unfold bind, ret in H.
      apply Done_inj in H. destruct H as [<- <-].
      split; [reflexivity|]. split; [exact Hev|]. reflexivity.
  - (* first pin: under the header spinlock *)
    assert (Hp' : PrivateRefCount w = 0) by lia.
    unfold bind at 1 in H.
    destruct (LockBufHdr fuel w) as [s w1|msg w1|] eqn:El; try discriminate.
    destruct (lock_unlock _ _ _ _ Hw El) as (k & Hf & Hs & Hw1 & Hun).
    destruct (env_steps_private k w) as (_ & Hpk & _ & _ & Hev).
    unfold bind at 1 in H. unfold gets at 1 in H.
    exists k. cbv zeta.
    assert (Ev : flag_set s BM_VALID = flag_set (mem (env_steps k w)) BM_VALID)
      by (rewrite Hs; apply locked_flag; lia).
    assert (Et : tag (frame w1) = tag (frame (env_steps k w)))
      by (rewrite Hw1; reflexivity).
    rewrite Ev, Et in H.
    destruct (flag_set (mem (env_steps k w)) BM_VALID
              && BufferTagsEqual tag' (tag (frame (env_steps k w)))).
    + unfold bind at 1 in H. unfold PinBuffer_Locked in H.
      unfold bind at 1 in H. unfold read_locked, gets in H.
      unfold bind, UnlockBufHdr, modify, ret in H.
      apply Done_inj in H. destruct H as [<- <-].
      split; [reflexivity|]. split; [rewrite Hw1; exact Hev|].
      split; [rewrite Hp'; reflexivity|].
      split; [rewrite Hw1; reflexivity|].
      split; [assumption|]. intros Hr.
      rewrite Hw1. proj_simpl. rewrite Hs.
      exact (pin_locked_word _ Hf Hr).
    + cbn [negb] in H. unfold bind, UnlockBufHdr, modify, ret in H.
      rewrite Hun in H. apply Done_inj in H. destruct H as [<- <-].
      split; [reflexivity|]. split; [exact Hev|]. reflexivity.
Qed.

Lemma ReadRecentBuffer_pins_matching_valid_witness :
  exists k : nat,
    let before := env_steps k (backend_of frame_clean [] 0) in
    let found := mem before in
    true = flag_set found BM_VALID && BufferTagsEqual tag_7 (tag (frame before))
    /\ events backend_recent = events (backend_of frame_clean [] 0)
    /\ if true then
         PrivateRefCount backend_recent
         = PrivateRefCount (backend_of frame_clean [] 0) + 1
         /\ frame backend_recent
            = with_state (mem backend_recent) (frame before)
         /\ (if 0 <? PrivateRefCount (backend_of frame_clean [] 0)
             then mem backend_recent = found
             else
               flag_set found BM_LOCKED = false
               /\ (BUF_STATE_GET_REFCOUNT found < BUF_REFCOUNT_MASK ->
                   BUF_STATE_GET_REFCOUNT (mem backend_recent)
                   = BUF_STATE_GET_REFCOUNT found + 1
                   /\ BUF_STATE_GET_USAGECOUNT (mem backend_recent)
                      = BUF_STATE_GET_USAGECOUNT found
                   /\ flags_of (mem backend_recent) = flags_of found))
       else backend_recent = before.
Proof.
  apply (ReadRecentBuffer_pins_matching_valid 1 tag_7
           (backend_of frame_clean [] 0) backend_recent true).
  - apply u32_world_quiet. vm_compute. split; [discriminate|reflexivity].
  - vm_compute. discriminate.
  - vm_compute. reflexivity.
Defined.

(** ** [InvalidateBuffer] *)

Lemma WaitIO_no_raise (fuel : nat) (w w' : Backend) (msg : string) :
  WaitIO fuel w <> Raise msg w'.
Proof.
  revert w. induction fuel as [|n IH]; intros w; [discriminate|].
  cbn [WaitIO]. unfold bind at 1.
  destruct (LockBufHdr n w) as [s w2|m2 w2|] eqn:El; try discriminate.
  - unfold bind, UnlockBufHdr, modify.
    destruct (negb _); [discriminate|apply IH].
  - now apply LockBufHdr_no_raise in El.
Qed.

Lemma flag_mask_flag (s n : Z) :
  22 <= n < 32 ->
  flag_set (Z.land s BUF_FLAG_MASK) (Z.shiftl 1 n) = flag_set s (Z.shiftl 1 n).
Proof.
  intros Hn. rewrite !flag_set_bit by lia.
  change BUF_FLAG_MASK with (Z.shiftl (Z.ones 10) 22).
  rewrite Z.land_spec, testbit_ones_mask by lia.
  replace (22 <=? n) with true by (symmetry; apply Z.leb_le; lia).
  replace (n <? 22 + 10) with true by (symmetry; apply Z.ltb_lt; lia).
  apply andb_true_r.
Qed.

Lemma invalidate_outcome_steps (oldTag : BufferTag) (j : nat) (w : Backend)
    (o : outcome bool) :
  invalidate_outcome oldTag (env_steps j w) o -> invalidate_outcome oldTag w o.
Proof.
  destruct (env_steps_private j w) as (_ & Hp & _ & _ & Hev).
  destruct o as [freed w'|msg w'|]; cbn [invalidate_outcome]; [| |trivial].
  - rewrite Hp. intros (A & B). split; [assumption|].
    destruct freed.
    + destruct B as (R & U & F & T & k & B1 & B2 & B3 & B4).
      repeat (split; [assumption|]).
      exists (j + k)%nat. rewrite env_steps_add. cbv zeta in *.
      rewrite Hev in B4. auto.
    + destruct B as ((k & ->) & T). split; [|assumption].
      exists (j + k)%nat. now rewrite env_steps_add.
  - rewrite Hp. intros (A & B & (k & ->) & C & D).
    repeat (split; [assumption|]). split; [|split; assumption].
    exists (j + k)%nat. now rewrite env_steps_add.
Qed.

Lemma InvalidateBuffer_retry_outcome (fuel : nat) (oldTag : BufferTag)
    (w : Backend) :
  u32_world w ->
  invalidate_outcome oldTag w (InvalidateBuffer_retry fuel oldTag w).
Proof.
  revert w. induction fuel as [|n IH]; intros w Hw; [exact I|].
  cbn [InvalidateBuffer_retry]. unfold bind at 1.
  destruct (LockBufHdr n w) as [s w1|msg w1|] eqn:El;
    [|now apply LockBufHdr_no_raise in El|exact I].
  destruct (lock_unlock _ _ _ _ Hw El) as (k & Hf & Hs & Hw1 & Hun).
  destruct (u32_world_steps k w Hw) as [Hu Hue].
  destruct (env_steps_private k w) as (_ & Hp & _ & _ & Hev).
  assert (Er : BUF_STATE_GET_REFCOUNT s
               = BUF_STATE_GET_REFCOUNT (mem (env_steps k w)))
    by (rewrite Hs; apply locked_REFCOUNT).
  assert (Et : tag (frame w1) = tag (frame (env_steps k w)))
    by (rewrite Hw1; reflexivity).
  unfold bind at 1. unfold gets at 1. rewrite Et.
  destruct (BufferTagsEqual (tag (frame (env_steps k w))) oldTag) eqn:Etag;
    cbn [negb].
  2:{ unfold bind, UnlockBufHdr, modify, ret. rewrite Hun.
      cbn [invalidate_outcome]. split; [exact Hp|].
      split; [now exists k|].
      intros E. apply BufferTagsEqual_eq in E. congruence. }
  apply BufferTagsEqual_eq in Etag.
  destruct (Z.eqb_spec (BUF_STATE_GET_REFCOUNT s) 0) as [E0|E0]; cbn [negb].
  - (* unpinned: clear the frame *)
    unfold bind at 1. unfold ClearBufferTag at 1, modify at 1.
    unfold bind at 1. unfold UnlockBufHdr at 1, modify at 1.
    assert (Em : flag_set (Z.land s BUF_FLAG_MASK) BM_TAG_VALID
                 = flag_set s BM_TAG_VALID)
      by (apply flag_mask_flag; lia).
    rewrite Em.
    assert (Etv : flag_set s BM_TAG_VALID
                  = flag_set (mem (env_steps k w)) BM_TAG_VALID)
      by (rewrite Hs; apply locked_flag; lia).
    rewrite Etv.
    destruct (invalidated_word s) as (R & U & F). cbv zeta in R, U, F.
    destruct (flag_set (mem (env_steps k w)) BM_TAG_VALID) eqn:Etv';
      unfold bind, modify, ret; cbn [invalidate_outcome];
      match goal with
      | |- PrivateRefCount ?x = _ /\ _ => set (w' := x)
      end;
      assert (Em' : mem w'
                    = Z.land (Z.land s (not32 (Z.lor BUF_FLAG_MASK
                                                     BUF_USAGECOUNT_MASK)))
                             (not32 BM_LOCKED)) by reflexivity;
      rewrite !Em';
      (split; [unfold w'; rewrite Hw1; exact Hp|]);
      (split; [rewrite R; exact E0|]);
      (split; [exact U|]); (split; [exact F|]);
      (split; [reflexivity|]);
      exists k; cbv zeta; rewrite Etv';
      (split; [exact Etag|]); (split; [congruence|]);
      (split; [exact Hf|]);
      unfold w'; rewrite Hw1; proj_simpl; rewrite Hev; [reflexivity|].
    now rewrite app_nil_r.
  - (* pinned: complain about our own pin, or wait and retry *)
    unfold bind at 1. unfold UnlockBufHdr at 1, modify at 1. rewrite Hun.
    unfold bind at 1. unfold gets at 1. rewrite Hp.
    destruct (Z.ltb_spec 0 (PrivateRefCount w)) as [Hpos|Hpos].
    + unfold elog_ERROR. cbn [invalidate_outcome].
      split; [reflexivity|]. split; [assumption|].
      split; [now exists k|]. split; [congruence|assumption].
    + unfold bind at 1.
      destruct (WaitIO n (env_steps k w)) as [[] w2|msg w2|] eqn:Ew;
        [|now apply WaitIO_no_raise in Ew|exact I].
      destruct (WaitIO_spec _ _ _ (u32_world_steps k w Hw) Ew) as (k2 & ->).
      rewrite <- env_steps_add.
      apply (invalidate_outcome_steps oldTag (k + k2)).
      apply IH. now apply u32_world_steps.
Qed.

(** [InvalidateBuffer], entered with the header spinlock held: whatever the
    other backends do, it frees the frame only after finding it, under the
    spinlock, unpinned and still carrying the tag it had at entry; the frame
    is then left with no tag, no flag, both counters zero, and is removed
    from the mapping table exactly when [BM_TAG_VALID] was found set.  If
    the tag has changed the frame is left as found.  The only error, raised
    with the frame untouched, is that of finding it pinned while the
    backend holds a pin of its own. *)
Theorem InvalidateBuffer_frees_only_unpinned (fuel : nat) (w : Backend) :
  u32_world w ->
  let entry := set_state (Z.land (mem w) (not32 BM_LOCKED)) w in
  let oldTag := tag (frame w) in
  match InvalidateBuffer fuel w with
  | Done freed w' =>
      PrivateRefCount w' = PrivateRefCount w
      /\ if freed then
           BUF_STATE_GET_REFCOUNT (mem w') = 0
           /\ BUF_STATE_GET_USAGECOUNT (mem w') = 0
           /\ (forall n, 22 <= n < 32 ->
                 flag_set (mem w') (Z.shiftl 1 n) = false)
           /\ tag (frame w') = mkTag 0 0 0 0 0
           /\ exists k : nat,
                let before := env_steps k entry in
                tag (frame before) = oldTag
                /\ BUF_STATE_GET_REFCOUNT (mem before) = 0
                /\ flag_set (mem before) BM_LOCKED = false
                /\ events w' =
                   events w
                   ++ (if flag_set (mem before) BM_TAG_VALID
                       then [EvBufTableDelete oldTag] else [])
         else
           (exists k : nat, w' = env_steps k entry)
           /\ tag (frame w') <> oldTag
  | Raise msg w' =>
      msg = "buffer is pinned in InvalidateBuffer"%string
      /\ 0 < PrivateRefCount w
      /\ (exists k : nat, w' = env_steps k entry)
      /\ BUF_STATE_GET_REFCOUNT (mem w') <> 0
      /\ tag (frame w') = oldTag
  | Spin => True
  end.
Proof.
  intros Hw. cbv zeta. unfold InvalidateBuffer.
  unfold bind at 1. unfold gets at 1.
  unfold bind at 1. unfold read_locked, gets.
  unfold bind at 1. unfold UnlockBufHdr, modify.
  set (entry := set_state (Z.land (mem w) (not32 BM_LOCKED)) w).
  assert (He : u32_world entry).
  { destruct Hw as [Hu Hue]. apply u32_world_set_state.
    - now apply is_u32_land.
    - split; assumption. }
  exact (InvalidateBuffer_retry_outcome fuel (tag (frame w)) entry He).
Qed.

Lemma InvalidateBuffer_frees_only_unpinned_witness :
  match InvalidateBuffer 2 backend_to_drop with
  | Done freed w' =>
      PrivateRefCount w' = PrivateRefCount backend_to_drop
      /\ if freed then
           BUF_STATE_GET_REFCOUNT (mem w') = 0
           /\ BUF_STATE_GET_USAGECOUNT (mem w') = 0
           /\ (forall n, 22 <= n < 32 ->
                 flag_set (mem w') (Z.shiftl 1 n) = false)
           /\ tag (frame w') = mkTag 0 0 0 0 0
           /\ exists k : nat,
                tag (frame (env_steps k backend_to_drop_entry)) = tag_7
                /\ BUF_STATE_GET_REFCOUNT
                     (mem (env_steps k backend_to_drop_entry)) = 0
                /\ flag_set (mem (env_steps k backend_to_drop_entry))
                            BM_LOCKED = false
                /\ events w' =
                   events backend_to_drop
                   ++ (if flag_set (mem (env_steps k backend_to_drop_entry))
                                   BM_TAG_VALID
                       then [EvBufTableDelete tag_7] else [])
         else
           (exists k : nat, w' = env_steps k backend_to_drop_entry)
           /\ tag (frame w') <> tag_7
  | Raise msg w' =>
      msg = "buffer is pinned in InvalidateBuffer"%string
      /\ 0 < PrivateRefCount backend_to_drop
      /\ (exists k : nat, w' = env_steps k backend_to_drop_entry)
      /\ BUF_STATE_GET_REFCOUNT (mem w') <> 0
      /\ tag (frame w') = tag_7
  | Spin => True
  end.
Proof.
  apply (InvalidateBuffer_frees_only_unpinned 2 backend_to_drop).
  apply u32_world_quiet. vm_compute. split; [discriminate|reflexivity].
Defined.

(** ** [SyncOneBuffer] *)

(** Dropping the last pin of the backend: what is private and what can be
    emitted. *)
Lemma UnpinBuffer_last_private (fuel : nat) (w w' : Backend) :
  u32_world w -> PrivateRefCount w = 1 ->
  UnpinBuffer fuel w = Done tt w' ->
  PrivateRefCount w' = 0
  /\ u32_world w'
  /\ (events w' = events w
      \/ exists p : Z, events w' = events w ++ [EvProcSendSignal p]).
Proof.
  intros Hw Hp H. unfold UnpinBuffer in H.
  unfold bind at 1 in H. unfold gets at 1 in H. rewrite Hp in H.
  change (1 - 1) with 0 in H. unfold bind at 1 in H. unfold modify at 1 in H.
  change (0 =? 0) with true in H. cbv iota in H.
  set (w0 := set_PrivateRefCount 0 w) in *.
  assert (Hw0 : u32_world w0) by exact Hw.
  unfold bind at 1 in H. unfold pg_atomic_read_u32 in H.
  unfold bind at 1 in H.
  destruct (cas_loop UnpinBuffer_update fuel (mem (env_step w0)) (env_step w0))
    as [[old new] w1|msg w1|] eqn:Ec; try discriminate.
  destruct (cas_loop_spec _ _ _ _ _ _ _ Ec) as (k & Hold & Hl & Hnew & Hw1).
  cbn [snd] in H.
  change (env_steps k (env_step w0)) with (env_steps (S k) w0) in *.
  destruct (env_steps_private (S k) w0) as (_ & Hp0 & _ & _ & Hev0).
  assert (Hw1u : u32_world w1).
  { rewrite Hw1. apply u32_world_set_state; [rewrite Hnew; apply is_u32_u32|].
    now apply u32_world_steps. }
  assert (Hp1 : PrivateRefCount w1 = 0) by (rewrite Hw1; exact Hp0).
  assert (Hev1 : events w1 = events w) by (rewrite Hw1; exact Hev0).
  pose proof (UnpinBuffer_wakeup_spec fuel new w1 w' Hw1u H) as Hwk.
  destruct (flag_set new BM_PIN_COUNT_WAITER).
  - destruct Hwk as (j & _ & Hb).
    destruct (env_steps_private j w1) as (_ & Hq & _ & _ & Hevj).
    pose proof (u32_world_steps j w1 Hw1u) as Hwj.
    destruct (_ && _); subst w'.
    + split; [cbn; congruence|]. split.
      * apply u32_world_emit, u32_world_set_state; [|exact Hwj].
        apply is_u32_land. apply Hwj.
      * right. eexists. cbn [events emit set_state set_frame].
        now rewrite Hevj, Hev1.
    + split; [congruence|]. split; [exact Hwj|]. left. congruence.
  - subst w'. auto.
Qed.

(** [SyncOneBuffer_write] from the world [w1] in which the header spinlock
    was just taken at [before]. *)
Lemma SyncOneBuffer_write_spec (fuel : nat) (result : Z)
    (before w' : Backend) (r : Z) :
  u32_world before -> flag_set (mem before) BM_LOCKED = false ->
  PrivateRefCount before = 0 ->
  SyncOneBuffer_write fuel (Z.lor (mem before) BM_LOCKED) result
    (set_state (Z.lor (mem before) BM_LOCKED) before) = Done r w' ->
  let written := flag_set (mem before) BM_VALID
                 && flag_set (mem before) BM_DIRTY in
  r = (if written then Z.lor result BUF_WRITTEN else result)
  /\ PrivateRefCount w' = 0
  /\ if written then
       exists (evs : list event) (t : BufferTag),
         events w' = events before ++ evs ++ [EvScheduleWriteback t]
     else w' = before.
Proof.
  intros Hw Hl Hp H. cbv zeta. unfold SyncOneBuffer_write in H.
  destruct Hw as [Hu Hue].
  assert (Ev : flag_set (Z.lor (mem before) BM_LOCKED) BM_VALID
               = flag_set (mem before) BM_VALID)
    by (apply locked_flag; lia).
  assert (Ed : flag_set (Z.lor (mem before) BM_LOCKED) BM_DIRTY
               = flag_set (mem before) BM_DIRTY)
    by (apply locked_flag; lia).
  rewrite Ev, Ed in H.
  destruct (flag_set (mem before) BM_VALID); cbn [negb orb andb] in *.
  2:{ unfold bind, UnlockBufHdr, modify, ret in H.
      rewrite set_state_twice, unlock_locked, set_state_mem in H by assumption.
      apply Done_inj in H. destruct H as [<- <-]. auto. }
  destruct (flag_set (mem before) BM_DIRTY); cbn [negb orb andb] in *.
  2:{ unfold bind, UnlockBufHdr, modify, ret in H.
      rewrite set_state_twice, unlock_locked, set_state_mem in H by assumption.
      apply Done_inj in H. destruct H as [<- <-]. auto. }
  unfold bind at 1 in H. unfold PinBuffer_Locked at 1 in H.
  unfold bind at 1 in H. unfold read_locked, gets at 1 in H.
  unfold bind at 1 in H. unfold UnlockBufHdr at 1, modify at 1 in H.
  unfold modify at 1 in H.
  rewrite mem_set_state, set_state_twice in H.
  unfold bind at 1 in H.
  match type of H with
  | context [FlushBuffer fuel ?x] => set (w2 := x) in H
  end.
  assert (Hw2 : u32_world w2).
  { unfold w2. apply u32_world_set_state; [|split; assumption].
    apply is_u32_land. apply is_u32_u32. }
  destruct (FlushBuffer fuel w2) as [[] w3|msg w3|] eqn:Ef; try discriminate.
  destruct (FlushBuffer_private _ _ _ Hw2 Ef) as (Hp3 & _).
  destruct (FlushBuffer_word _ _ _ Hw2 Ef) as (Hw3 & _).
  assert (Hev3 : exists evs, events w3 = events before ++ evs).
  { destruct (FlushBuffer_spec _ _ _ Hw2 Ef) as [[_ E]|(w1 & j & _ & _ & E)];
      rewrite E; [exists []; now rewrite app_nil_r|eexists; reflexivity]. }
  destruct Hev3 as (evs & Hev3).
  unfold bind at 1 in H. unfold gets at 1 in H.
  unfold bind at 1 in H.
  destruct (UnpinBuffer fuel w3) as [[] w4|msg w4|] eqn:Eu; try discriminate.
  destruct (UnpinBuffer_last_private _ _ _ Hw3 Hp3 Eu) as (Hp4 & _ & Hev4).
  unfold bind, modify, ret in H. apply Done_inj in H. destruct H as [<- <-].
  split; [reflexivity|]. split; [exact Hp4|].
  cbn [events emit].
  destruct Hev4 as [E|(p & E)]; rewrite E, Hev3.
  - exists evs. eexists. now rewrite <- app_assoc.
  - exists (evs ++ [EvProcSendSignal p]). eexists.
    now rewrite <- !app_assoc.
Qed.

(** [SyncOneBuffer] by a process holding no pin on the frame: whatever the
    other backends do, with [found] the word seen under the header
    spinlock, the result has [BUF_REUSABLE] exactly when REFCOUNT and
    USAGE_COUNT were both 0 in [found], and [BUF_WRITTEN] exactly when
    [found] was valid and dirty and the frame was reusable or
    [skip_recently_used] is off.  So with [skip_recently_used] a pinned or
    recently used frame is never written.  Without [BUF_WRITTEN] the frame
    is left as found and nothing is emitted; with it, the last thing done
    is to schedule the writeback of the tag.  The process holds no pin
    afterwards. *)
Theorem SyncOneBuffer_result (fuel : nat) (skip_recently_used : bool)
    (w w' : Backend) (r : Z) :
  u32_world w -> PrivateRefCount w = 0 ->
  SyncOneBuffer fuel skip_recently_used w = Done r w' ->
  exists k : nat,
    let before := env_steps k w in
    let found := mem before in
    let reusable := (BUF_STATE_GET_REFCOUNT found =? 0)
                    && (BUF_STATE_GET_USAGECOUNT found =? 0) in
    let written := (reusable || negb skip_recently_used)
                   && flag_set found BM_VALID && flag_set found BM_DIRTY in
    flag_set found BM_LOCKED = false
    /\ r = Z.lor (if reusable then BUF_REUSABLE else 0)
                 (if written then BUF_WRITTEN else 0)
    /\ PrivateRefCount w' = 0
    /\ if written then
         exists (evs : list event) (t : BufferTag),
           events w' = events w ++ evs ++ [EvScheduleWriteback t]
       else w' = before.
Proof.
  intros Hw Hp H. unfold SyncOneBuffer in H. cbv zeta in H.
  unfold bind at 1 in H.
  destruct (LockBufHdr fuel w) as [s w1|msg w1|] eqn:El; try discriminate.
  destruct (lock_unlock _ _ _ _ Hw El) as (k & Hf & Hs & Hw1 & Hun).
  pose proof (u32_world_steps k w Hw) as Hwk.
  destruct (env_steps_private k w) as (_ & Hpk & _ & _ & Hev).
  exists k. cbv zeta. split; [assumption|].
  rewrite Hs, locked_REFCOUNT, locked_USAGECOUNT in H.
  rewrite Hw1, Hs in H.
  destruct ((BUF_STATE_GET_REFCOUNT (mem (env_steps k w)) =? 0)
            && (BUF_STATE_GET_USAGECOUNT (mem (env_steps k w)) =? 0));
    cbn [orb andb negb].
  - apply SyncOneBuffer_write_spec in H; [|assumption|assumption|congruence].
    cbv zeta in H. destruct H as (Hr & Hp' & Hrest).
    destruct (flag_set (mem (env_steps k w)) BM_VALID
              && flag_set (mem (env_steps k w)) BM_DIRTY).
    + rewrite Hev in Hrest. auto.
    + subst r. auto.
  - destruct skip_recently_used; cbn [orb andb negb].
    + unfold bind, UnlockBufHdr, modify, ret in H.
      rewrite set_state_twice, unlock_locked, set_state_mem in H
        by (assumption || apply Hwk).
      apply Done_inj in H. destruct H as [<- <-].
      split; [reflexivity|]. split; [congruence|reflexivity].
    + apply SyncOneBuffer_write_spec in H; [|assumption|assumption|congruence].
      cbv zeta in H. destruct H as (Hr & Hp' & Hrest).
      destruct (flag_set (mem (env_steps k w)) BM_VALID
                && flag_set (mem (env_steps k w)) BM_DIRTY).
      * rewrite Hev in Hrest. auto.
      * subst r. auto.
Qed.

Lemma SyncOneBuffer_result_witness :
  exists k : nat,
    flag_set (mem (env_steps k backend_bgwriter)) BM_LOCKED = false
    /\ Z.lor BUF_REUSABLE BUF_WRITTEN
       = Z.lor (if (BUF_STATE_GET_REFCOUNT (mem (env_steps k backend_bgwriter)) =? 0)
                   && (BUF_STATE_GET_USAGECOUNT (mem (env_steps k backend_bgwriter)) =? 0)
                then BUF_REUSABLE else 0)
               (if ((BUF_STATE_GET_REFCOUNT (mem (env_steps k backend_bgwriter)) =? 0)
                    && (BUF_STATE_GET_USAGECOUNT (mem (env_steps k backend_bgwriter)) =? 0)
                    || negb true)
                   && flag_set (mem (env_steps k backend_bgwriter)) BM_VALID
                   && flag_set (mem (env_steps k backend_bgwriter)) BM_DIRTY
                then BUF_WRITTEN else 0)
    /\ PrivateRefCount backend_synced = 0
    /\ if ((BUF_STATE_GET_REFCOUNT (mem (env_steps k backend_bgwriter)) =? 0)
           && (BUF_STATE_GET_USAGECOUNT (mem (env_steps k backend_bgwriter)) =? 0)
           || negb true)
          && flag_set (mem (env_steps k backend_bgwriter)) BM_VALID
          && flag_set (mem (env_steps k backend_bgwriter)) BM_DIRTY
       then
         exists (evs : list event) (t : BufferTag),
           events backend_synced
           = events backend_bgwriter ++ evs ++ [EvScheduleWriteback t]
       else backend_synced = env_steps k backend_bgwriter.
Proof.
  apply (SyncOneBuffer_result 3 true backend_bgwriter backend_synced
           (Z.lor BUF_REUSABLE BUF_WRITTEN)).
  - apply u32_world_quiet. vm_compute. split; [discriminate|reflexivity].
  - reflexivity.
  - vm_compute. reflexivity.
Defined.

(** *** A write by the background writer, undisturbed *)

Lemma SyncOneBuffer_write_quiet (n : nat) (result : Z) (w : Backend) :
  env w = [] -> is_u32 (mem w) ->
  flag_set (mem w) BM_LOCKED = false ->
  flag_set (mem w) BM_IO_IN_PROGRESS = false ->
  flag_set (mem w) BM_VALID = true ->
  flag_set (mem w) BM_DIRTY = true ->
  PrivateRefCount w = 0 ->
  BUF_STATE_GET_REFCOUNT (mem w) = 0 ->
  exists w' : Backend,
    SyncOneBuffer_write (S (S n)) (Z.lor (mem w) BM_LOCKED) result
      (set_state (Z.lor (mem w) BM_LOCKED) w)
    = Done (Z.lor result BUF_WRITTEN) w'
    /\ PrivateRefCount w' = 0
    /\ BUF_STATE_GET_REFCOUNT (mem w') = 0
    /\ BUF_STATE_GET_USAGECOUNT (mem w') = BUF_STATE_GET_USAGECOUNT (mem w)
    /\ (forall i, 22 <= i ->
          Z.testbit (mem w') i
          = Z.testbit (mem w) i
            && negb ((23 =? i) || (26 =? i) || (27 =? i) || (28 =? i) || (30 =? i)))
    /\ events w' =
       events w
       ++ (if flag_set (mem w) BM_PERMANENT
           then [EvXLogFlush (page_lsn (frame w))] else [])
       ++ [EvSmgrWrite (tag (frame w)); EvIOCVBroadcast;
           EvScheduleWriteback (tag (frame w))].
Proof.
  intros He Hu Hl Hio Hv Hd Hp Hr.
  unfold SyncOneBuffer_write.
  assert (Ev : flag_set (Z.lor (mem w) BM_LOCKED) BM_VALID = true)
    by (rewrite <- Hv; apply locked_flag; lia).
  assert (Ed : flag_set (Z.lor (mem w) BM_LOCKED) BM_DIRTY = true)
    by (rewrite <- Hd; apply locked_flag; lia).
  rewrite Ev, Ed. cbn [negb orb].
  unfold bind at 1. unfold PinBuffer_Locked at 1.
  unfold bind at 1. unfold read_locked, gets at 1.
  unfold bind at 1. unfold UnlockBufHdr at 1, modify at 1.
  unfold modify at 1.
  rewrite mem_set_state, set_state_twice.
  (* the pinned frame *)
  destruct (pin_locked_word (mem w) Hl) as (R1 & U1 & F1);
    [rewrite Hr; reflexivity|].
  cbv zeta in R1, U1, F1.
  set (m1 := Z.land (u32 (Z.lor (mem w) BM_LOCKED + BUF_REFCOUNT_ONE))
                    (not32 BM_LOCKED)) in *.
  set (w2 := set_PrivateRefCount (0 + 1) (set_state m1 w)).
  assert (Hu1 : is_u32 m1) by (apply is_u32_land, is_u32_u32).
  assert (Hl1 : flag_set (mem w2) BM_LOCKED = false)
    by (rewrite <- Hl; apply flags_of_flag; [lia|exact F1]).
  assert (Hio1 : flag_set (mem w2) BM_IO_IN_PROGRESS = false)
    by (rewrite <- Hio; apply flags_of_flag; [lia|exact F1]).
  assert (Hd1 : flag_set (mem w2) BM_DIRTY = true)
    by (rewrite <- Hd; apply flags_of_flag; [lia|exact F1]).
  assert (Hperm : flag_set (mem w2) BM_PERMANENT = flag_set (mem w) BM_PERMANENT)
    by (apply flags_of_flag; [lia|exact F1]).
  destruct (FlushBuffer_quiet_run n w2 He Hu1 Hl1 Hio1 Hd1)
    as (w3 & E3 & B3 & Fr3 & P3 & He3 & Ev3).
  unfold bind at 1. rewrite E3.
  unfold bind at 1. unfold gets at 1.
  assert (Et : tag (frame w3) = tag (frame w)) by (rewrite Fr3; reflexivity).
  rewrite Et.
  (* the frame after the write *)
  change (mem w2) with m1 in B3.
  assert (Hlow : forall i, 0 <= i < 22 -> Z.testbit (mem w3) i = Z.testbit m1 i).
  { intros i Hi. rewrite B3 by lia.
    replace (23 =? i) with false by (symmetry; apply Z.eqb_neq; lia).
    replace (26 =? i) with false by (symmetry; apply Z.eqb_neq; lia).
    replace (27 =? i) with false by (symmetry; apply Z.eqb_neq; lia).
    replace (28 =? i) with false by (symmetry; apply Z.eqb_neq; lia).
    replace (30 =? i) with false by (symmetry; apply Z.eqb_neq; lia).
    apply andb_true_r. }
  assert (R3 : BUF_STATE_GET_REFCOUNT (mem w3) = 1).
  { rewrite <- (Z.add_0_l 1), <- Hr, <- R1. apply REFCOUNT_ext.
    intros i Hi. apply Hlow. lia. }
  assert (U3 : BUF_STATE_GET_USAGECOUNT (mem w3)
               = BUF_STATE_GET_USAGECOUNT (mem w)).
  { rewrite <- U1. apply USAGECOUNT_ext. intros i Hi. apply Hlow. lia. }
  assert (Hl3 : flag_set (mem w3) BM_LOCKED = false).
  { unfold BM_LOCKED in *. rewrite flag_set_bit in * by lia.
    rewrite B3 by lia. change (mem w2) with m1 in Hl1. now rewrite Hl1. }
  destruct (decr_refcount (mem w3)) as (R4 & U4 & F4); [lia|].
  fold (UnpinBuffer_update (mem w3)) in R4, U4, F4.
  assert (Hl4 : flag_set (UnpinBuffer_update (mem w3)) BM_LOCKED = false)
    by (rewrite <- Hl3; apply flags_of_flag; [lia|exact F4]).
  unfold bind at 1.
  rewrite UnpinBuffer_quiet; [|exact He3|exact Hl3|exact P3|exact Hl4].
  cbv zeta.
  replace (BUF_STATE_GET_REFCOUNT (UnpinBuffer_update (mem w3)) =? 1)
    with false by (symmetry; apply Z.eqb_neq; lia).
  rewrite andb_false_r.
  unfold bind, modify, ret.
  eexists. split; [reflexivity|].
  set (dec := UnpinBuffer_update (mem w3)) in *.
  split; [reflexivity|].
  assert (Em : mem (emit (EvScheduleWriteback (tag (frame w)))
                      (set_state dec (set_PrivateRefCount 0 w3))) = dec)
    by reflexivity.
  rewrite Em.
  split; [lia|]. split; [congruence|]. split.
  - intros i Hi. destruct (Z.ltb_spec i 32) as [H32|H32].
    + rewrite (flags_of_bit dec (mem w3) i) by (lia || exact F4).
      rewrite B3 by lia.
      now rewrite (flags_of_bit m1 (mem w) i) by (lia || exact F1).
    + unfold dec, UnpinBuffer_update.
      rewrite (is_u32_high _ i (is_u32_u32 _) H32).
      now rewrite (is_u32_high _ i Hu H32).
  - cbn [events emit set_state set_frame set_PrivateRefCount].
    rewrite Ev3, Hperm. cbn [events set_PrivateRefCount set_state set_frame].
    change (page_lsn (frame w2)) with (page_lsn (frame w)).
    change (tag (frame w2)) with (tag (frame w)).
    rewrite <- !app_assoc. reflexivity.
Qed.

(** [SyncOneBuffer] when no other backend touches the frame: on a valid,
    dirty frame that nobody pins (and, with [skip_recently_used], that was
    not used recently) the call pins it, writes it and unpins it again.  It
    reports [BUF_WRITTEN], and [BUF_REUSABLE] when USAGE_COUNT is 0; the
    frame is left unpinned with its usage count, clean ([BM_DIRTY],
    [BM_JUST_DIRTIED], [BM_CHECKPOINT_NEEDED], [BM_IO_ERROR] clear) and
    otherwise with the flags it had; the WAL is flushed first if the frame
    is permanent, then the page is written, the waiters are woken and the
    writeback of the tag is scheduled. *)
Theorem SyncOneBuffer_quiet_writes (n : nat) (skip_recently_used : bool)
    (w : Backend) :
  env w = [] -> is_u32 (mem w) ->
  flag_set (mem w) BM_LOCKED = false ->
  flag_set (mem w) BM_IO_IN_PROGRESS = false ->
  flag_set (mem w) BM_VALID = true ->
  flag_set (mem w) BM_DIRTY = true ->
  PrivateRefCount w = 0 ->
  BUF_STATE_GET_REFCOUNT (mem w) = 0 ->
  (skip_recently_used = true -> BUF_STATE_GET_USAGECOUNT (mem w) = 0) ->
  exists w' : Backend,
    SyncOneBuffer (S (S n)) skip_recently_used w
    = Done (Z.lor (if BUF_STATE_GET_USAGECOUNT (mem w) =? 0
                   then BUF_REUSABLE else 0) BUF_WRITTEN) w'
    /\ PrivateRefCount w' = 0
    /\ BUF_STATE_GET_REFCOUNT (mem w') = 0
    /\ BUF_STATE_GET_USAGECOUNT (mem w') = BUF_STATE_GET_USAGECOUNT (mem w)
    /\ (forall i, 22 <= i ->
          Z.testbit (mem w') i
          = Z.testbit (mem w) i
            && negb ((23 =? i) || (26 =? i) || (27 =? i) || (28 =? i) || (30 =? i)))
    /\ events w' =
       events w
       ++ (if flag_set (mem w) BM_PERMANENT
           then [EvXLogFlush (page_lsn (frame w))] else [])
       ++ [EvSmgrWrite (tag (frame w)); EvIOCVBroadcast;
           EvScheduleWriteback (tag (frame w))].
Proof.
  intros He Hu Hl Hio Hv Hd Hp Hr Hskip.
  unfold SyncOneBuffer. cbv zeta. unfold bind at 1.
  rewrite LockBufHdr_quiet by assumption.
  rewrite locked_REFCOUNT, locked_USAGECOUNT, Hr.
  change (0 =? 0) with true. cbn [andb].
  destruct (Z.eqb_spec (BUF_STATE_GET_USAGECOUNT (mem w)) 0) as [E0|E0].
  - exact (SyncOneBuffer_write_quiet n (Z.lor 0 BUF_REUSABLE) w
             He Hu Hl Hio Hv Hd Hp Hr).
  - destruct skip_recently_used; [now destruct E0; apply Hskip|].
    exact (SyncOneBuffer_write_quiet n 0 w He Hu Hl Hio Hv Hd Hp Hr).
Qed.

Lemma SyncOneBuffer_quiet_writes_witness :
  exists w' : Backend,
    SyncOneBuffer 3 true backend_bgwriter
    = Done (Z.lor (if BUF_STATE_GET_USAGECOUNT (mem backend_bgwriter) =? 0
                   then BUF_REUSABLE else 0) BUF_WRITTEN) w'
    /\ PrivateRefCount w' = 0
    /\ BUF_STATE_GET_REFCOUNT (mem w') = 0
    /\ BUF_STATE_GET_USAGECOUNT (mem w')
       = BUF_STATE_GET_USAGECOUNT (mem backend_bgwriter)
    /\ (forall i, 22 <= i ->
          Z.testbit (mem w') i
          = Z.testbit (mem backend_bgwriter) i
            && negb ((23 =? i) || (26 =? i) || (27 =? i) || (28 =? i) || (30 =? i)))
    /\ events w' =
       events backend_bgwriter
       ++ (if flag_set (mem backend_bgwriter) BM_PERMANENT
           then [EvXLogFlush (page_lsn (frame backend_bgwriter))] else [])
       ++ [EvSmgrWrite (tag (frame backend_bgwriter)); EvIOCVBroadcast;
           EvScheduleWriteback (tag (frame backend_bgwriter))].
Proof.
  apply (SyncOneBuffer_quiet_writes 1 true backend_bgwriter).
  - reflexivity.
  - vm_compute. split; [discriminate|reflexivity].
  - reflexivity.
  - reflexivity.
  - reflexivity.
  - reflexivity.
  - reflexivity.
  - reflexivity.
  - reflexivity.
Defined.

(** ** [MarkBufferDirtyHint] *)

(** [MarkBufferDirtyHint] on a shared buffer: whatever the other backends
    do, a call that returns either left the frame as the others left it
    (both dirty bits were already seen set, or WAL must not be written), or
    stored the word found under the header spinlock with [BM_DIRTY] and
    [BM_JUST_DIRTIED] added and nothing else changed.  The page LSN is set
    only when the frame was found not dirty and a full-page image was
    written, to the LSN of that image; the dirtying is accounted exactly
    when the frame was found not dirty. *)
Theorem MarkBufferDirtyHint_effect (fuel : nat) (buffer : Z) (e : HintEnv)
    (w w' : Backend) :
  u32_world w -> 0 < buffer ->
  MarkBufferDirtyHint fuel buffer e w = Done tt w' ->
  (exists k : nat, w' = env_steps k w)
  \/ exists k : nat,
       let before := env_steps k w in
       let found := mem before in
       flag_set found BM_LOCKED = false
       /\ mem w' = Z.lor found (Z.lor BM_DIRTY BM_JUST_DIRTIED)
       /\ tag (frame w') = tag (frame before)
       /\ wait_backend_pgprocno (frame w') = wait_backend_pgprocno (frame before)
       /\ (page_lsn (frame w') = page_lsn (frame before)
           \/ (flag_set found BM_DIRTY = false
               /\ XLogHintBitIsNeeded e = true
               /\ RecoveryInProgress e || RelFileLocatorSkippingWAL e = false
               /\ XLogSaveBufferForHint e = Some (page_lsn (frame w'))))
       /\ PrivateRefCount w' = PrivateRefCount w
       /\ events w' =
          events w ++ (if flag_set found BM_DIRTY then [] else [EvPageDirtied]).
Proof.
  intros Hw Hb H. unfold MarkBufferDirtyHint in H.
  replace (buffer =? 0) with false in H by (symmetry; apply Z.eqb_neq; lia).
  replace (buffer <? 0) with false in H by (symmetry; apply Z.ltb_ge; lia).
  unfold bind at 1 in H. unfold pg_atomic_read_u32 at 1 in H. cbv zeta in H.
  destruct (Z.land (mem (env_step w)) (Z.lor BM_DIRTY BM_JUST_DIRTIED)
            =? Z.lor BM_DIRTY BM_JUST_DIRTIED); cbn [negb] in H.
  { unfold ret in H. apply Done_inj in H. destruct H as [_ <-].
    left. now exists 1%nat. }
  unfold bind at 1 in H.
  set (w1 := env_step w) in *.
  assert (Hw1 : u32_world w1) by (apply (u32_world_steps 1 w Hw)).
  (* the world and the answer after the test for WAL *)
  assert (Hwal : exists (j : nat) (wal : bool),
            (wal = true -> XLogHintBitIsNeeded e = true)
            /\ (if wal && (RecoveryInProgress e || RelFileLocatorSkippingWAL e)
                then ret tt
                else
                  buf_state <- LockBufHdr fuel ;;
                  (if negb (flag_set buf_state BM_DIRTY)
                   then match (if wal then XLogSaveBufferForHint e else None) with
                        | Some l => PageSetLSN l
                        | None => ret tt
                        end
                   else ret tt) ;;;
                  UnlockBufHdr (Z.lor buf_state (Z.lor BM_DIRTY BM_JUST_DIRTIED)) ;;;
                  if negb (flag_set buf_state BM_DIRTY)
                  then modify (emit EvPageDirtied) else ret tt)
                 (env_steps j w) = Done tt w').
  { destruct (XLogHintBitIsNeeded e).
    - unfold bind at 1 in H. unfold pg_atomic_read_u32 at 1 in H.
      cbv zeta in H. unfold ret at 1 in H.
      exists 2%nat, (flag_set (mem (env_step w1)) BM_PERMANENT).
      split; [reflexivity|exact H].
    - unfold ret at 1 in H. exists 1%nat, false.
      split; [discriminate|exact H]. }
  clear H. destruct Hwal as (j & wal & Hx & H).
  pose proof (u32_world_steps j w Hw) as Hwj.
  destruct (env_steps_private j w) as (_ & Hpj & _ & _ & Hevj).
  destruct (wal && (RecoveryInProgress e || RelFileLocatorSkippingWAL e)) eqn:Eskip.
  { unfold ret in H. apply Done_inj in H. destruct H as [_ <-].
    left. now exists j. }
  right.
  unfold bind at 1 in H.
  destruct (LockBufHdr fuel (env_steps j w)) as [s w2|msg w2|] eqn:El;
    try discriminate.
  destruct (LockBufHdr_spec _ _ _ _ El) as (k & Hf & Hs & Hw2).
  rewrite <- env_steps_add in Hf, Hs, Hw2.
  pose proof (u32_world_steps (j + k) w Hw) as [Hu _].
  destruct (env_steps_private (j + k) w) as (_ & Hp & _ & _ & Hev).
  exists (j + k)%nat. cbv zeta.
  set (before := env_steps (j + k) w) in *.
  assert (Ed : flag_set s BM_DIRTY = flag_set (mem before) BM_DIRTY)
    by (rewrite Hs; apply locked_flag; lia).
  assert (Eun : Z.land (Z.lor s (Z.lor BM_DIRTY BM_JUST_DIRTIED)) (not32 BM_LOCKED)
                = Z.lor (mem before) (Z.lor BM_DIRTY BM_JUST_DIRTIED)).
  { rewrite Hs. apply unlock_locked_set; try assumption; try reflexivity.
    apply is_u32_lor; apply is_u32_flag; lia. }
  rewrite Ed in H.
  split; [assumption|].
  destruct (flag_set (mem before) BM_DIRTY); cbn [negb] in H.
  - unfold bind, ret, UnlockBufHdr, modify in H.
    apply Done_inj in H. destruct H as [_ <-].
    rewrite Eun, Hw2. proj_simpl.
    repeat (split; [reflexivity || (left; reflexivity) || assumption|]).
    now rewrite Hev, app_nil_r.
  - destruct wal; cbn [andb] in *.
    + destruct (XLogSaveBufferForHint e) as [l|] eqn:Elsn.
      * unfold bind, ret, UnlockBufHdr, PageSetLSN, modify in H.
        apply Done_inj in H. destruct H as [_ <-].
        rewrite Eun, Hw2. proj_simpl.
        split; [reflexivity|]. split; [reflexivity|]. split; [reflexivity|].
        split; [right; auto|]. split; [assumption|].
        now rewrite Hev.
      * unfold bind, ret, UnlockBufHdr, modify in H.
        apply Done_inj in H. destruct H as [_ <-].
        rewrite Eun, Hw2. proj_simpl.
        split; [reflexivity|]. split; [reflexivity|]. split; [reflexivity|].
        split; [left; reflexivity|]. split; [assumption|].
        now rewrite Hev.
    + unfold bind, ret, UnlockBufHdr, modify in H.
      apply Done_inj in H. destruct H as [_ <-].
      rewrite Eun, Hw2. proj_simpl.
      split; [reflexivity|]. split; [reflexivity|]. split; [reflexivity|].
      split; [left; reflexivity|]. split; [assumption|].
      now rewrite Hev.
Qed.

Lemma MarkBufferDirtyHint_effect_witness :
  (exists k : nat, backend_hinted = env_steps k (backend_of frame_clean [] 1))
  \/ exists k : nat,
       flag_set (mem (env_steps k (backend_of frame_clean [] 1))) BM_LOCKED = false
       /\ mem backend_hinted
          = Z.lor (mem (env_steps k (backend_of frame_clean [] 1)))
                  (Z.lor BM_DIRTY BM_JUST_DIRTIED)
       /\ tag (frame backend_hinted)
          = tag (frame (env_steps k (backend_of frame_clean [] 1)))
       /\ wait_backend_pgprocno (frame backend_hinted)
          = wait_backend_pgprocno (frame (env_steps k (backend_of frame_clean [] 1)))
       /\ (page_lsn (frame backend_hinted)
           = page_lsn (frame (env_steps k (backend_of frame_clean [] 1)))
           \/ (flag_set (mem (env_steps k (backend_of frame_clean [] 1))) BM_DIRTY
               = false
               /\ XLogHintBitIsNeeded hint_logged = true
               /\ RecoveryInProgress hint_logged
                  || RelFileLocatorSkippingWAL hint_logged = false
               /\ XLogSaveBufferForHint hint_logged
                  = Some (page_lsn (frame backend_hinted))))
       /\ PrivateRefCount backend_hinted
          = PrivateRefCount (backend_of frame_clean [] 1)
       /\ events backend_hinted =
          events (backend_of frame_clean [] 1)
          ++ (if flag_set (mem (env_steps k (backend_of frame_clean [] 1))) BM_DIRTY
              then [] else [EvPageDirtied]).
Proof.
  apply (MarkBufferDirtyHint_effect 1 4 hint_logged
           (backend_of frame_clean [] 1) backend_hinted).
  - apply u32_world_quiet. vm_compute. split; [discriminate|reflexivity].
  - reflexivity.
  - vm_compute. reflexivity.
Defined.

(** [MarkBufferDirtyHint] when WAL must not be written: if hint bits need
    WAL and the backend is in recovery or the relation skips WAL, then for a
    frame seen [BM_PERMANENT] the call returns without taking the header
    spinlock and without storing anything, whatever the other backends do
    and however the frame looked at the first read: the page is not
    dirtied. *)
Theorem MarkBufferDirtyHint_does_not_dirty_without_WAL (fuel : nat)
    (buffer : Z) (e : HintEnv) (w : Backend) :
  0 < buffer ->
  XLogHintBitIsNeeded e = true ->
  RecoveryInProgress e || RelFileLocatorSkippingWAL e = true ->
  flag_set (mem (env_steps 2 w)) BM_PERMANENT = true ->
  MarkBufferDirtyHint fuel buffer e w
  = Done tt
      (if Z.land (mem (env_steps 1 w)) (Z.lor BM_DIRTY BM_JUST_DIRTIED)
          =? Z.lor BM_DIRTY BM_JUST_DIRTIED
       then env_steps 1 w else env_steps 2 w).
Proof.
  intros Hb Hx Hr Hperm. unfold MarkBufferDirtyHint.
  replace (buffer =? 0) with false by (symmetry; apply Z.eqb_neq; lia).
  replace (buffer <? 0) with false by (symmetry; apply Z.ltb_ge; lia).
  cbn [env_steps] in *.
  unfold bind at 1. unfold pg_atomic_read_u32 at 1. cbv zeta.
  destruct (Z.land (mem (env_step w)) (Z.lor BM_DIRTY BM_JUST_DIRTIED)
            =? Z.lor BM_DIRTY BM_JUST_DIRTIED); cbn [negb]; [reflexivity|].
  rewrite Hx. unfold bind at 1. unfold bind at 1.
  unfold pg_atomic_read_u32 at 1. cbv zeta. unfold ret at 1.
  rewrite Hperm, Hr. reflexivity.
Qed.

Lemma MarkBufferDirtyHint_does_not_dirty_without_WAL_witness :
  MarkBufferDirtyHint 0 4 hint_in_recovery (backend_of frame_clean [] 1)
  = Done tt
      (if Z.land (mem (env_steps 1 (backend_of frame_clean [] 1)))
                 (Z.lor BM_DIRTY BM_JUST_DIRTIED)
          =? Z.lor BM_DIRTY BM_JUST_DIRTIED
       then env_steps 1 (backend_of frame_clean [] 1)
       else env_steps 2 (backend_of frame_clean [] 1)).
Proof.
  apply (MarkBufferDirtyHint_does_not_dirty_without_WAL 0 4 hint_in_recovery
           (backend_of frame_clean [] 1)); reflexivity.
Defined.

(** * The tracker of backend-private reference counts *)

(** ** Lists used as arrays and as finite maps *)

Lemma find_index_Some {A : Type} (p : A -> bool) (l : list A) (i : nat) :
  find_index p l = Some i ->
  exists x, nth_error l i = Some x /\ p x = true.
Proof.
  revert i. induction l as [|y l IH]; intros i H; [discriminate|].
  cbn [find_index] in H. destruct (p y) eqn:Ey.
  - injection H as <-. exists y. auto.
  - destruct (find_index p l) as [j|]; [|discriminate].
    injection H as <-. exact (IH j eq_refl).
Qed.

Lemma find_index_None {A : Type} (p : A -> bool) (l : list A) :
  find_index p l = None ->
  forall i x, nth_error l i = Some x -> p x = false.
Proof.
  induction l as [|y l IH]; intros H i x Hx; [now destruct i|].
  cbn [find_index] in H. destruct (p y) eqn:Ey; [discriminate|].
  destruct (find_index p l) as [j|]; [discriminate|].
  destruct i as [|i]; cbn in Hx.
  - now injection Hx as <-.
  - exact (IH eq_refl i x Hx).
Qed.

Lemma length_set_nth {A : Type} (i : nat) (x : A) (l : list A) :
  List.length (set_nth i x l) = List.length l.
Proof.
  revert i. induction l as [|y l IH]; intros [|i]; cbn; auto.
Qed.

Lemma nth_error_set_nth_eq {A : Type} (i : nat) (x : A) (l : list A) :
  (i < List.length l)%nat -> nth_error (set_nth i x l) i = Some x.
Proof.
  revert i. induction l as [|y l IH]; intros [|i] H; cbn in *;
    try lia; [reflexivity|]. apply IH. lia.
Qed.

Lemma nth_error_set_nth_neq {A : Type} (i j : nat) (x : A) (l : list A) :
  i <> j -> nth_error (set_nth i x l) j = nth_error l j.
Proof.
  revert i j. induction l as [|y l IH]; intros [|i] [|j] H; cbn;
    try reflexivity; try congruence. apply IH. congruence.
Qed.

Lemma nth_error_set_nth {A : Type} (i j : nat) (x y : A) (l : list A) :
  nth_error (set_nth i x l) j = Some y ->
  (i = j /\ y = x) \/ (i <> j /\ nth_error l j = Some y).
Proof.
  intros H. destruct (Nat.eq_dec i j) as [->|Hne].
  - left. split; [reflexivity|].
    assert (Hl : (j < List.length l)%nat).
    { rewrite <- (length_set_nth j x l). apply nth_error_Some. congruence. }
    rewrite nth_error_set_nth_eq in H by assumption. congruence.
  - right. rewrite nth_error_set_nth_neq in H by assumption. auto.
Qed.

Lemma nth_error_slot (i : nat) (st : PinCache) (e : PrivateRefCountEntry) :
  nth_error (PrivateRefCountArray st) i = Some e -> slot i st = e.
Proof. intros H. unfold slot. now apply nth_error_nth. Qed.

Lemma slot_nth_error (i : nat) (st : PinCache) :
  (i < List.length (PrivateRefCountArray st))%nat ->
  nth_error (PrivateRefCountArray st) i = Some (slot i st).
Proof. intros H. unfold slot. now apply nth_error_nth'. Qed.

Lemma entry_eta (e : PrivateRefCountEntry) : e = mkEntry (buffer e) (refcount e).
Proof. now destruct e. Qed.

Lemma hash_find_Some (key c : Z) (h : list (Z * Z)) :
  hash_find key h = Some c -> In (key, c) h.
Proof.
  unfold hash_find. destruct (find _ h) as [[k v]|] eqn:E; [|discriminate].
  intros H. injection H as <-. apply find_some in E. destruct E as [Hin Hk].
  cbn in Hk. apply Z.eqb_eq in Hk. now subst k.
Qed.

Lemma hash_find_None (key : Z) (h : list (Z * Z)) :
  hash_find key h = None -> forall c, ~ In (key, c) h.
Proof.
  unfold hash_find. destruct (find _ h) as [[k v]|] eqn:E; [discriminate|].
  intros _ c Hin. pose proof (find_none _ _ E _ Hin) as Hk.
  cbn in Hk. now rewrite Z.eqb_refl in Hk.
Qed.

Lemma hash_find_In (key c : Z) (h : list (Z * Z)) :
  NoDup (map fst h) -> In (key, c) h -> hash_find key h = Some c.
Proof.
  intros Hnd Hin. destruct (hash_find key h) as [c'|] eqn:E.
  - apply hash_find_Some in E. f_equal.
    clear -Hnd Hin E. induction h as [|[k v] h IH]; [contradiction|].
    cbn in Hnd. inversion Hnd as [|? ? Hk Hnd']; subst.
    destruct Hin as [Hin|Hin], E as [E|E].
    + congruence.
    + injection Hin as -> ->. exfalso. apply Hk.
      change key with (fst (key, c')). now apply in_map.
    + injection E as -> ->. exfalso. apply Hk.
      change key with (fst (key, c)). now apply in_map.
    + now apply IH.
  - exfalso. exact (hash_find_None _ _ E c Hin).
Qed.

Lemma In_hash_remove (key b c : Z) (h : list (Z * Z)) :
  In (b, c) (hash_remove key h) <-> In (b, c) h /\ b <> key.
Proof.
  unfold hash_remove. rewrite filter_In. cbn [fst].
  rewrite negb_true_iff, Z.eqb_neq. tauto.
Qed.

Lemma hash_remove_absent (key : Z) (h : list (Z * Z)) :
  (forall c, ~ In (key, c) h) -> hash_remove key h = h.
Proof.
  intros H. unfold hash_remove. induction h as [|[k v] h IH]; [reflexivity|].
  cbn [filter fst]. destruct (Z.eqb_spec k key) as [->|Hne]; cbn [negb].
  - exfalso. apply (H v). now left.
  - f_equal. apply IH. intros c Hc. apply (H c). now right.
Qed.

Lemma NoDup_hash_remove (key : Z) (h : list (Z * Z)) :
  NoDup (map fst h) -> NoDup (map fst (hash_remove key h)).
Proof.
  unfold hash_remove. induction h as [|[k v] h IH]; intros H; [constructor|].
  cbn in H. inversion H as [|? ? Hk Hnd]; subst.
  cbn [filter fst]. destruct (negb (k =? key)); [|now apply IH].
  cbn [map fst]. constructor; [|now apply IH].
  intros Hin. apply Hk. apply in_map_iff in Hin.
  destruct Hin as ([k' v'] & Hf & Hin). cbn in Hf. subst k'.
  apply filter_In in Hin. destruct Hin as [Hin _].
  change k with (fst (k, v')). now apply in_map.
Qed.

Lemma length_hash_remove (key c : Z) (h : list (Z * Z)) :
  NoDup (map fst h) -> In (key, c) h ->
  S (List.length (hash_remove key h)) = List.length h.
Proof.
  unfold hash_remove. induction h as [|[k v] h IH]; intros Hnd Hin;
    [contradiction|].
  cbn in Hnd. inversion Hnd as [|? ? Hk Hnd']; subst.
  cbn [filter fst]. destruct Hin as [Hin|Hin].
  - injection Hin as -> ->. rewrite Z.eqb_refl. cbn [negb List.length].
    f_equal. fold (hash_remove key h). rewrite hash_remove_absent; [reflexivity|].
    intros c' Hc. apply Hk. change key with (fst (key, c')). now apply in_map.
  - destruct (Z.eqb_spec k key) as [->|Hne]; cbn [negb List.length].
    + exfalso. apply Hk. change key with (fst (key, c)). now apply in_map.
    + f_equal. now apply IH.
Qed.

(** ** What a lookup finds *)

Lemma tracked_fun (st : PinCache) (b c c' : Z) :
  cache_ok st -> b <> InvalidBuffer ->
  tracked st b c -> tracked st b c' -> c = c'.
Proof.
  intros Hok Hb [(i & Hi)|Hh] [(j & Hj)|Hh'].
  - assert (i = j) by (eapply (ok_array st Hok); eauto). subst j. congruence.
  - exfalso. exact (ok_disjoint st Hok i _ c' Hi Hh').
  - exfalso. exact (ok_disjoint st Hok j _ c Hj Hh).
  - pose proof (hash_find_In _ _ _ (ok_hash st Hok) Hh).
    pose proof (hash_find_In _ _ _ (ok_hash st Hok) Hh'). congruence.
Qed.

Lemma GetPrivateRefCountEntry_spec (st : PinCache) (b : Z) :
  cache_ok st -> b <> InvalidBuffer ->
  match GetPrivateRefCountEntry b false st with
  | (Some r, st') =>
      st' = st /\ tracked st b (deref r st)
      /\ match r with
         | ArrayRef i =>
             nth_error (PrivateRefCountArray st) i
             = Some (mkEntry b (deref r st))
         | HashRef key =>
             key = b /\ In (b, deref r st) (PrivateRefCountHash st)
         end
  | (None, st') => st' = st /\ forall c, ~ tracked st b c
  end.
Proof.
  intros Hok Hb. unfold GetPrivateRefCountEntry.
  destruct (find_index _ (PrivateRefCountArray st)) as [i|] eqn:Ef.
  - apply find_index_Some in Ef. destruct Ef as (x & Hx & Hp).
    apply Z.eqb_eq in Hp. split; [reflexivity|].
    assert (E : nth_error (PrivateRefCountArray st) i
                = Some (mkEntry b (deref (ArrayRef i) st))).
    { cbn [deref]. rewrite (nth_error_slot _ _ _ Hx), Hx, <- Hp.
      f_equal. apply entry_eta. }
    split; [left; now exists i|exact E].
  - pose proof (find_index_None _ _ Ef) as Hnone.
    assert (Harr : forall c, ~ (exists i, nth_error (PrivateRefCountArray st) i
                                         = Some (mkEntry b c))).
    { intros c (i & Hi). specialize (Hnone i _ Hi). cbn in Hnone.
      now rewrite Z.eqb_refl in Hnone. }
    destruct (Z.eqb_spec (PrivateRefCountOverflowed st) 0) as [E0|E0].
    + split; [reflexivity|]. intros c [Ha|Hh]; [now apply (Harr c)|].
      rewrite (ok_overflowed st Hok) in E0.
      destruct (PrivateRefCountHash st); [contradiction|cbn in E0; lia].
    + destruct (hash_find b (PrivateRefCountHash st)) as [count|] eqn:Eh.
      * cbn [negb]. split; [reflexivity|]. cbn [deref]. rewrite Eh.
        apply hash_find_Some in Eh. split; [now right|auto].
      * split; [reflexivity|]. intros c [Ha|Hh]; [now apply (Harr c)|].
        exact (hash_find_None _ _ Eh c Hh).
Qed.

Lemma GetPrivateRefCount_tracked (st : PinCache) (b c : Z) :
  cache_ok st -> b <> InvalidBuffer -> tracked st b c ->
  GetPrivateRefCount b st = c.
Proof.
  intros Hok Hb Ht. unfold GetPrivateRefCount.
  pose proof (GetPrivateRefCountEntry_spec st b Hok Hb) as H.
  destruct (GetPrivateRefCountEntry b false st) as [[r|] st'].
  - destruct H as (_ & H & _). cbn [fst]. now apply (tracked_fun st b).
  - destruct H as (_ & H). now destruct (H c).
Qed.

Lemma GetPrivateRefCount_untracked (st : PinCache) (b : Z) :
  cache_ok st -> b <> InvalidBuffer -> (forall c, ~ tracked st b c) ->
  GetPrivateRefCount b st = 0
  /\ GetPrivateRefCountEntry b false st = (None, st).
Proof.
  intros Hok Hb Ht. unfold GetPrivateRefCount.
  pose proof (GetPrivateRefCountEntry_spec st b Hok Hb) as H.
  destruct (GetPrivateRefCountEntry b false st) as [[r|] st'].
  - destruct H as (_ & H & _). now destruct (Ht _ H).
  - destruct H as (-> & _). auto.
Qed.

(** Two states that track the same buffers with the same counts answer
    [GetPrivateRefCount] alike. *)
Lemma GetPrivateRefCount_ext (st st' : PinCache) (b : Z) :
  cache_ok st -> cache_ok st' -> b <> InvalidBuffer ->
  (forall c, tracked st' b c <-> tracked st b c) ->
  GetPrivateRefCount b st' = GetPrivateRefCount b st.
Proof.
  intros Hok Hok' Hb Ht.
  pose proof (GetPrivateRefCountEntry_spec st b Hok Hb) as H.
  destruct (GetPrivateRefCountEntry b false st) as [[r|] st0] eqn:E.
  - destruct H as (_ & H & _).
    rewrite (GetPrivateRefCount_tracked st b _ Hok Hb H).
    apply GetPrivateRefCount_tracked; [assumption|assumption|now apply Ht].
  - destruct H as (_ & H).
    destruct (GetPrivateRefCount_untracked st b Hok Hb H) as (-> & _).
    apply GetPrivateRefCount_untracked; [assumption|assumption|].
    intros c Hc. apply (H c). now apply Ht.
Qed.


Lemma cache_full_ok : cache_ok cache_full.
Proof.
  constructor; cbn.
  - reflexivity.
  - intros i j e e' Hi Hj Hb _.
    do 8 (destruct i as [|i];
          [do 8 (destruct j as [|j];
                 [injection Hi as <-; injection Hj as <-;
                  first [reflexivity|discriminate Hb]|]);
           now destruct j|]).
    now destruct i.
  - constructor.
  - contradiction.
  - contradiction.
  - reflexivity.
  - discriminate.
  - lia.
Qed.

Lemma cache_overflowed_ok : cache_ok cache_overflowed.
Proof.
  constructor; cbn.
  - reflexivity.
  - intros i j e e' Hi Hj Hb _.
    do 8 (destruct i as [|i];
          [do 8 (destruct j as [|j];
                 [injection Hi as <-; injection Hj as <-;
                  first [reflexivity|discriminate Hb]|]);
           now destruct j|]).
    now destruct i.
  - repeat constructor. intros [].
  - intros b c [E|[]]. injection E as <- _. discriminate.
  - intros i e c Hi [E|[]]. injection E as E _.
    do 8 (destruct i as [|i]; [injection Hi as <-; discriminate E|]).
    now destruct i.
  - reflexivity.
  - discriminate.
  - lia.
Qed.

(** ** Stores through a reference *)

Lemma In_hash_store (key v b c : Z) (h : list (Z * Z)) :
  In (b, c) (map (fun p => if fst p =? key then (key, v) else p) h)
  <-> (b = key /\ c = v /\ exists c0, In (key, c0) h)
      \/ (b <> key /\ In (b, c) h).
Proof.
  rewrite in_map_iff. split.
  - intros ([k c0] & E & Hin). cbn [fst] in E.
    destruct (Z.eqb_spec k key) as [->|Hne].
    + injection E as <- <-. left. eauto.
    + injection E as <- <-. right. auto.
  - intros [(-> & -> & c0 & Hin)|(Hne & Hin)].
    + exists (key, c0). cbn [fst]. now rewrite Z.eqb_refl.
    + exists (b, c). cbn [fst].
      replace (b =? key) with false by (symmetry; now apply Z.eqb_neq). auto.
Qed.

Lemma map_fst_hash_store (key v : Z) (h : list (Z * Z)) :
  map fst (map (fun p => if fst p =? key then (key, v) else p) h) = map fst h.
Proof.
  rewrite map_map. apply map_ext. intros [k c]. cbn [fst].
  destruct (Z.eqb_spec k key) as [->|]; reflexivity.
Qed.

Lemma points_to_tracked (st : PinCache) (r : EntryRef) (b c : Z) :
  points_to st r b c -> tracked st b c.
Proof.
  destruct r as [i|key]; cbn.
  - intros H. left. now exists i.
  - intros [_ H]. now right.
Qed.

Lemma points_to_deref (st : PinCache) (r : EntryRef) (b c : Z) :
  cache_ok st -> points_to st r b c -> deref r st = c.
Proof.
  intros Hok. destruct r as [i|key]; cbn.
  - intros H. now rewrite (nth_error_slot _ _ _ H).
  - intros [-> H]. now rewrite (hash_find_In _ _ _ (ok_hash st Hok) H).
Qed.

Lemma store_refcount_spec (st : PinCache) (r : EntryRef) (b c v : Z) :
  cache_ok st -> b <> InvalidBuffer -> points_to st r b c ->
  let st' := store_refcount r v st in
  cache_ok st'
  /\ points_to st' r b v
  /\ (forall b' c', b' <> InvalidBuffer -> b' <> b ->
        (tracked st' b' c' <-> tracked st b' c'))
  /\ ReservedRefCountEntry st' = ReservedRefCountEntry st.
Proof.
  intros Hok Hb Hp. cbv zeta. destruct r as [i|key]; cbn in Hp.
  - (* a slot of the array *)
    cbn [store_refcount]. rewrite (nth_error_slot _ _ _ Hp). cbn [buffer].
    assert (Hi : (i < List.length (PrivateRefCountArray st))%nat)
      by (apply nth_error_Some; congruence).
    assert (Hsame : forall j e,
              nth_error (set_nth i (mkEntry b v) (PrivateRefCountArray st)) j
              = Some e ->
              exists e0, nth_error (PrivateRefCountArray st) j = Some e0
                         /\ buffer e0 = buffer e).
    { intros j e Hj. apply nth_error_set_nth in Hj.
      destruct Hj as [[<- ->]|[_ Hj]]; eauto. }
    split; [|split; [|split]].
    + constructor; cbn.
      * rewrite length_set_nth. apply (ok_length st Hok).
      * intros j k e e' Hj Hk Hbe Hne.
        destruct (Hsame j e Hj) as (e0 & Hj0 & E0).
        destruct (Hsame k e' Hk) as (e1 & Hk0 & E1).
        eapply (ok_array st Hok); eauto; congruence.
      * apply (ok_hash st Hok).
      * apply (ok_hash_valid st Hok).
      * intros j e c' Hj Hin.
        destruct (Hsame j e Hj) as (e0 & Hj0 & E0).
        apply (ok_disjoint st Hok j e0 c' Hj0). now rewrite E0.
      * apply (ok_overflowed st Hok).
      * intros j Hj. destruct (ok_reserved st Hok j Hj) as (c0 & Hc0).
        exists c0. rewrite nth_error_set_nth_neq; [assumption|].
        intros <-. congruence.
      * apply (ok_clock st Hok).
    + cbn. now apply nth_error_set_nth_eq.
    + intros b' c' Hb' Hne. unfold tracked. cbn. split.
      * intros [(j & Hj)|Hin]; [|now right].
        apply nth_error_set_nth in Hj. destruct Hj as [[_ E]|[_ Hj]].
        -- injection E as E _. congruence.
        -- left. now exists j.
      * intros [(j & Hj)|Hin]; [|now right].
        left. exists j. rewrite nth_error_set_nth_neq; [assumption|].
        intros <-. congruence.
    + reflexivity.
  - (* an entry of the hash table *)
    destruct Hp as [-> Hp]. cbn [store_refcount].
    split; [|split; [|split]].
    + constructor; cbn.
      * apply (ok_length st Hok).
      * apply (ok_array st Hok).
      * rewrite map_fst_hash_store. apply (ok_hash st Hok).
      * intros b' c' Hin. apply In_hash_store in Hin.
        destruct Hin as [(-> & _)|(_ & Hin)]; [assumption|].
        exact (ok_hash_valid st Hok b' c' Hin).
      * intros j e c' Hj Hin. apply In_hash_store in Hin.
        destruct Hin as [(E & _ & c0 & Hin)|(_ & Hin)].
        -- apply (ok_disjoint st Hok j e c0 Hj). now rewrite E.
        -- exact (ok_disjoint st Hok j e c' Hj Hin).
      * rewrite length_map. apply (ok_overflowed st Hok).
      * apply (ok_reserved st Hok).
      * apply (ok_clock st Hok).
    + cbn. split; [reflexivity|]. apply In_hash_store. left. eauto.
    + intros b' c' Hb' Hne. unfold tracked. cbn.
      rewrite In_hash_store. intuition.
    + reflexivity.
Qed.

Lemma ForgetPrivateRefCountEntry_spec (st : PinCache) (r : EntryRef) (b c : Z) :
  cache_ok st -> b <> InvalidBuffer -> points_to st r b c ->
  let st' := ForgetPrivateRefCountEntry r st in
  cache_ok st'
  /\ (forall c', ~ tracked st' b c')
  /\ (forall b' c', b' <> InvalidBuffer -> b' <> b ->
        (tracked st' b' c' <-> tracked st b' c')).
Proof.
  intros Hok Hb Hp. cbv zeta. destruct r as [i|key]; cbn in Hp.
  - cbn [ForgetPrivateRefCountEntry].
    rewrite (nth_error_slot _ _ _ Hp). cbn [refcount].
    assert (Hi : (i < List.length (PrivateRefCountArray st))%nat)
      by (apply nth_error_Some; congruence).
    split; [|split].
    + constructor; cbn.
      * rewrite length_set_nth. apply (ok_length st Hok).
      * intros j k e e' Hj Hk Hbe Hne.
        apply nth_error_set_nth in Hj. apply nth_error_set_nth in Hk.
        destruct Hj as [[_ ->]|[_ Hj]]; [now destruct Hne|].
        destruct Hk as [[_ ->]|[_ Hk]]; [cbn in Hbe; congruence|].
        exact (ok_array st Hok j k e e' Hj Hk Hbe Hne).
      * apply (ok_hash st Hok).
      * apply (ok_hash_valid st Hok).
      * intros j e c' Hj Hin. apply nth_error_set_nth in Hj.
        destruct Hj as [[_ ->]|[_ Hj]].
        -- exact (ok_hash_valid st Hok _ c' Hin eq_refl).
        -- exact (ok_disjoint st Hok j e c' Hj Hin).
      * apply (ok_overflowed st Hok).
      * intros j Hj. injection Hj as <-. exists c.
        now apply nth_error_set_nth_eq.
      * apply (ok_clock st Hok).
    + intros c' [(j & Hj)|Hin]; cbn in *.
      * apply nth_error_set_nth in Hj. destruct Hj as [[_ E]|[Hne Hj]].
        -- injection E as E _. congruence.
        -- apply Hne. exact (ok_array st Hok i j _ _ Hp Hj eq_refl Hb).
      * exact (ok_disjoint st Hok i _ c' Hp Hin).
    + intros b' c' Hb' Hne. unfold tracked. cbn. split.
      * intros [(j & Hj)|Hin]; [|now right].
        apply nth_error_set_nth in Hj. destruct Hj as [[_ E]|[_ Hj]].
        -- injection E as E _. congruence.
        -- left. now exists j.
      * intros [(j & Hj)|Hin]; [|now right].
        left. exists j. rewrite nth_error_set_nth_neq; [assumption|].
        intros <-. congruence.
  - destruct Hp as [-> Hp]. cbn [ForgetPrivateRefCountEntry].
    split; [|split].
    + constructor; cbn.
      * apply (ok_length st Hok).
      * apply (ok_array st Hok).
      * apply NoDup_hash_remove, (ok_hash st Hok).
      * intros b' c' Hin. apply In_hash_remove in Hin.
        exact (ok_hash_valid st Hok b' c' (proj1 Hin)).
      * intros j e c' Hj Hin. apply In_hash_remove in Hin.
        exact (ok_disjoint st Hok j e c' Hj (proj1 Hin)).
      * rewrite (ok_overflowed st Hok).
        pose proof (length_hash_remove b c _ (ok_hash st Hok) Hp). lia.
      * apply (ok_reserved st Hok).
      * apply (ok_clock st Hok).
    + intros c' [(j & Hj)|Hin]; cbn in *.
      * exact (ok_disjoint st Hok j _ c Hj Hp).
      * apply In_hash_remove in Hin. now destruct Hin.
    + intros b' c' Hb' Hne. unfold tracked. cbn.
      rewrite In_hash_remove. intuition.
Qed.

Lemma GetPrivateRefCountEntry_points_to (st : PinCache) (b : Z) (r : EntryRef)
    (st' : PinCache) :
  cache_ok st -> b <> InvalidBuffer ->
  GetPrivateRefCountEntry b false st = (Some r, st') ->
  st' = st /\ points_to st r b (deref r st).
Proof.
  intros Hok Hb H.
  pose proof (GetPrivateRefCountEntry_spec st b Hok Hb) as Hs.
  rewrite H in Hs. destruct Hs as (-> & _ & Hs). split; [reflexivity|].
  destruct r; exact Hs.
Qed.

(** ** The operations on the tracker *)

Lemma clock_slot (st : PinCache) :
  cache_ok st ->
  (Z.to_nat (PrivateRefCountClock st mod REFCOUNT_ARRAY_ENTRIES)
   < List.length (PrivateRefCountArray st))%nat.
Proof.
  intros Hok. rewrite (ok_length st Hok).
  pose proof (Z.mod_pos_bound (PrivateRefCountClock st) REFCOUNT_ARRAY_ENTRIES
                eq_refl) as H.
  unfold REFCOUNT_ARRAY_ENTRIES in *. lia.
Qed.

Lemma ReservePrivateRefCountEntry_spec (st : PinCache) :
  cache_ok st ->
  cache_ok (ReservePrivateRefCountEntry st)
  /\ (exists i, ReservedRefCountEntry (ReservePrivateRefCountEntry st) = Some i)
  /\ forall b c, b <> InvalidBuffer ->
       (tracked (ReservePrivateRefCountEntry st) b c <-> tracked st b c).
Proof.
  intros Hok. unfold ReservePrivateRefCountEntry.
  destruct (ReservedRefCountEntry st) as [r|] eqn:Er.
  { split; [assumption|]. split; [now exists r|reflexivity]. }
  destruct (find_index _ (PrivateRefCountArray st)) as [i|] eqn:Ef.
  { apply find_index_Some in Ef. destruct Ef as (x & Hx & Hp).
    apply Z.eqb_eq in Hp.
    split; [|split; [now exists i|reflexivity]].
    destruct Hok. constructor; cbn; try assumption.
    intros j Hj. injection Hj as <-. exists (refcount x).
    rewrite Hx, <- Hp. f_equal. apply entry_eta. }
  pose proof (find_index_None _ _ Ef) as Hfull.
  set (i := Z.to_nat (PrivateRefCountClock st mod REFCOUNT_ARRAY_ENTRIES)).
  pose proof (clock_slot st Hok) as Hi. fold i in Hi.
  pose proof (slot_nth_error i st Hi) as Hv.
  set (victim := slot i st) in *. cbv zeta.
  assert (Hvb : buffer victim <> InvalidBuffer).
  { specialize (Hfull i victim Hv). cbn in Hfull. now apply Z.eqb_neq. }
  assert (Habs : forall c, ~ In (buffer victim, c) (PrivateRefCountHash st))
    by (intros c Hc; exact (ok_disjoint st Hok i victim c Hv Hc)).
  unfold hash_enter. rewrite (hash_remove_absent _ _ Habs).
  split; [|split; [now exists i|]].
  - constructor; cbn.
    + rewrite length_set_nth. apply (ok_length st Hok).
    + intros j k e e' Hj Hk Hbe Hne.
      apply nth_error_set_nth in Hj. apply nth_error_set_nth in Hk.
      destruct Hj as [[_ ->]|[_ Hj]]; [now destruct Hne|].
      destruct Hk as [[_ ->]|[_ Hk]]; [cbn in Hbe; congruence|].
      exact (ok_array st Hok j k e e' Hj Hk Hbe Hne).
    + constructor; [|apply (ok_hash st Hok)].
      intros Hin. apply in_map_iff in Hin.
      destruct Hin as ([k v] & Hk & Hin). cbn in Hk. subst k.
      exact (Habs v Hin).
    + intros b c [E|Hin]; [congruence|exact (ok_hash_valid st Hok b c Hin)].
    + intros j e c Hj [E|Hin].
      * apply nth_error_set_nth in Hj. destruct Hj as [[_ ->]|[Hne Hj]].
        -- cbn in E. congruence.
        -- injection E as E _. apply Hne.
           symmetry. eapply (ok_array st Hok); eauto. congruence.
      * apply nth_error_set_nth in Hj. destruct Hj as [[_ ->]|[Hne Hj]].
        -- exact (ok_hash_valid st Hok _ c Hin eq_refl).
        -- exact (ok_disjoint st Hok j e c Hj Hin).
    + rewrite (ok_overflowed st Hok). lia.
    + intros j Hj. injection Hj as <-. exists 0.
      now apply nth_error_set_nth_eq.
    + unfold u32. apply Z.mod_pos_bound. reflexivity.
  - intros b c Hb. unfold tracked. cbn. split.
    + intros [(j & Hj)|[E|Hin]].
      * apply nth_error_set_nth in Hj. destruct Hj as [[_ E]|[_ Hj]].
        -- injection E as E _. congruence.
        -- left. now exists j.
      * left. exists i. rewrite Hv. injection E as <- <-. f_equal.
        apply entry_eta.
      * now right.
    + intros [(j & Hj)|Hin].
      * destruct (Nat.eq_dec i j) as [<-|Hne].
        -- right. left. rewrite Hv in Hj. injection Hj as ->. reflexivity.
        -- left. exists j. now rewrite nth_error_set_nth_neq.
      * right. now right.
Qed.



Lemma NewPrivateRefCountEntry_spec (st : PinCache) (b : Z) (i : nat) :
  cache_ok st -> b <> InvalidBuffer ->
  ReservedRefCountEntry st = Some i ->
  (forall c, ~ tracked st b c) ->
  let st' := set_Reserved None (set_slot i (mkEntry b 0) st) in
  NewPrivateRefCountEntry b st = Some (ArrayRef i, st')
  /\ cache_ok st'
  /\ points_to st' (ArrayRef i) b 0
  /\ forall b' c, b' <> InvalidBuffer -> b' <> b ->
       (tracked st' b' c <-> tracked st b' c).
Proof.
  intros Hok Hb Hr Hun. cbv zeta.
  destruct (ok_reserved st Hok i Hr) as (c0 & Hc0).
  assert (Hi : (i < List.length (PrivateRefCountArray st))%nat)
    by (apply nth_error_Some; congruence).
  split; [unfold NewPrivateRefCountEntry; now rewrite Hr|].
  split; [|split].
  - constructor; cbn.
    + rewrite length_set_nth. apply (ok_length st Hok).
    + intros j k e e' Hj Hk Hbe Hne.
      apply nth_error_set_nth in Hj. apply nth_error_set_nth in Hk.
      destruct Hj as [[<- ->]|[Hnj Hj]], Hk as [[<- ->]|[Hnk Hk]].
      * reflexivity.
      * exfalso. apply (Hun (refcount e')). left. exists k.
        rewrite Hk. cbn in Hbe. rewrite Hbe. f_equal. apply entry_eta.
      * exfalso. apply (Hun (refcount e)). left. exists j.
        rewrite Hj. cbn in Hbe. rewrite <- Hbe. f_equal. apply entry_eta.
      * exact (ok_array st Hok j k e e' Hj Hk Hbe Hne).
    + apply (ok_hash st Hok).
    + apply (ok_hash_valid st Hok).
    + intros j e c Hj Hin. apply nth_error_set_nth in Hj.
      destruct Hj as [[_ ->]|[_ Hj]].
      * apply (Hun c). now right.
      * exact (ok_disjoint st Hok j e c Hj Hin).
    + apply (ok_overflowed st Hok).
    + discriminate.
    + apply (ok_clock st Hok).
  - cbn. now apply nth_error_set_nth_eq.
  - intros b' c Hb' Hne. unfold tracked. cbn. split.
    + intros [(j & Hj)|Hin]; [|now right].
      apply nth_error_set_nth in Hj. destruct Hj as [[_ E]|[_ Hj]].
      * injection E as E _. congruence.
      * left. now exists j.
    + intros [(j & Hj)|Hin]; [|now right].
      left. exists j. destruct (Nat.eq_dec i j) as [<-|Hnj].
      * rewrite Hc0 in Hj. injection Hj as E _. congruence.
      * now rewrite nth_error_set_nth_neq.
Qed.

(** A buffer entered into the tracker: for a buffer that is not tracked,
    [ReservePrivateRefCountEntry] followed by [NewPrivateRefCountEntry]
    succeeds and yields an array entry that a later lookup finds, with count
    0; the counts of all other buffers are as before. *)
Theorem NewPrivateRefCountEntry_enters_buffer (st : PinCache) (b : Z) :
  cache_ok st -> b <> InvalidBuffer ->
  GetPrivateRefCountEntry b false st = (None, st) ->
  exists (i : nat) (st' : PinCache),
    NewPrivateRefCountEntry b (ReservePrivateRefCountEntry st)
    = Some (ArrayRef i, st')
    /\ cache_ok st'
    /\ GetPrivateRefCountEntry b false st' = (Some (ArrayRef i), st')
    /\ GetPrivateRefCount b st' = 0
    /\ ReservedRefCountEntry st' = None
    /\ forall b', b' <> InvalidBuffer -> b' <> b ->
         GetPrivateRefCount b' st' = GetPrivateRefCount b' st.
Proof.
  intros Hok Hb Hget.
  assert (Hun : forall c, ~ tracked st b c).
  { pose proof (GetPrivateRefCountEntry_spec st b Hok Hb) as H.
    rewrite Hget in H. apply H. }
  destruct (ReservePrivateRefCountEntry_spec st Hok) as (Hok1 & (i & Hi) & Ht1).
  set (st1 := ReservePrivateRefCountEntry st) in *.
  assert (Hun1 : forall c, ~ tracked st1 b c)
    by (intros c Hc; apply (Hun c); now apply Ht1).
  destruct (NewPrivateRefCountEntry_spec st1 b i Hok1 Hb Hi Hun1)
    as (Hnew & Hok' & Hb0 & Hoth).
  cbv zeta in *.
  set (st' := set_Reserved None (set_slot i (mkEntry b 0) st1)) in *.
  exists i, st'. split; [exact Hnew|]. split; [exact Hok'|].
  split; [|split; [|split]].
  - assert (Hi' : nth_error (PrivateRefCountArray st') i = Some (mkEntry b 0)).
    { cbn. apply nth_error_set_nth_eq, nth_error_Some.
      destruct (ok_reserved st1 Hok1 i Hi) as (c0 & ->). discriminate. }
    pose proof (GetPrivateRefCountEntry_spec st' b Hok' Hb) as H.
    destruct (GetPrivateRefCountEntry b false st') as [[r|] st0].
    + destruct H as (-> & _ & H). f_equal. f_equal.
      destruct r as [j|key].
      * f_equal. exact (ok_array st' Hok' j i _ _ H Hi' eq_refl Hb).
      * exfalso. destruct H as (_ & H).
        exact (ok_disjoint st' Hok' i (mkEntry b 0) _ Hi' H).
    + destruct H as (_ & H).
      destruct (H 0 (points_to_tracked _ _ _ _ Hb0)).
  - apply GetPrivateRefCount_tracked; try assumption.
    exact (points_to_tracked _ _ _ _ Hb0).
  - reflexivity.
  - intros b' Hb' Hne.
    rewrite <- (GetPrivateRefCount_ext st st1 b' Hok Hok1 Hb')
      by (intros c; now apply Ht1).
    apply GetPrivateRefCount_ext; try assumption.
    intros c. now apply Hoth.
Qed.

Lemma NewPrivateRefCountEntry_enters_buffer_witness :
  exists (i : nat) (st' : PinCache),
    NewPrivateRefCountEntry 19 (ReservePrivateRefCountEntry cache_full)
    = Some (ArrayRef i, st')
    /\ cache_ok st'
    /\ GetPrivateRefCountEntry 19 false st' = (Some (ArrayRef i), st')
    /\ GetPrivateRefCount 19 st' = 0
    /\ ReservedRefCountEntry st' = None
    /\ forall b', b' <> InvalidBuffer -> b' <> 19 ->
         GetPrivateRefCount b' st' = GetPrivateRefCount b' cache_full.
Proof.
  apply (NewPrivateRefCountEntry_enters_buffer cache_full 19).
  - exact cache_full_ok.
  - discriminate.
  - reflexivity.
Defined.

(** ** Lookups that move, and the counting *)

(** An entry of the array after a reservation was there before. *)
Lemma ReservePrivateRefCountEntry_array (st : PinCache) (j : nat)
    (e : PrivateRefCountEntry) :
  nth_error (PrivateRefCountArray (ReservePrivateRefCountEntry st)) j = Some e ->
  buffer e <> InvalidBuffer ->
  nth_error (PrivateRefCountArray st) j = Some e.
Proof.
  unfold ReservePrivateRefCountEntry.
  destruct (ReservedRefCountEntry st) as [r0|]; [auto|].
  destruct (find_index _ (PrivateRefCountArray st)); cbn; [auto|].
  intros Hj Hne. apply nth_error_set_nth in Hj.
  destruct Hj as [[_ ->]|[_ Hj]]; [now destruct Hne|assumption].
Qed.

(** The lookup that moves an entry found in the hash table into the
    array. *)
Lemma GetPrivateRefCountEntry_move_spec (st : PinCache) (b : Z) :
  cache_ok st -> b <> InvalidBuffer ->
  match GetPrivateRefCountEntry b true st with
  | (Some r, st') =>
      cache_ok st'
      /\ (exists i c, r = ArrayRef i /\ points_to st' r b c /\ tracked st b c)
      /\ forall b' c', b' <> InvalidBuffer ->
           (tracked st' b' c' <-> tracked st b' c')
  | (None, st') => st' = st /\ forall c, ~ tracked st b c
  end.
Proof.
  intros Hok Hb. unfold GetPrivateRefCountEntry.
  destruct (find_index _ (PrivateRefCountArray st)) as [i|] eqn:Ef.
  - apply find_index_Some in Ef. destruct Ef as (x & Hx & Hp).
    apply Z.eqb_eq in Hp. split; [assumption|]. split; [|reflexivity].
    exists i, (refcount x).
    assert (E : nth_error (PrivateRefCountArray st) i
                = Some (mkEntry b (refcount x)))
      by (rewrite Hx, <- Hp; f_equal; apply entry_eta).
    split; [reflexivity|]. split; [exact E|]. left. now exists i.
  - pose proof (find_index_None _ _ Ef) as Hnone.
    assert (Harr : forall c, ~ (exists i, nth_error (PrivateRefCountArray st) i
                                         = Some (mkEntry b c))).
    { intros c (i & Hi). specialize (Hnone i _ Hi). cbn in Hnone.
      now rewrite Z.eqb_refl in Hnone. }
    destruct (Z.eqb_spec (PrivateRefCountOverflowed st) 0) as [E0|E0].
    { split; [reflexivity|]. intros c [Ha|Hh]; [now apply (Harr c)|].
      rewrite (ok_overflowed st Hok) in E0.
      destruct (PrivateRefCountHash st); [contradiction|cbn in E0; lia]. }
    destruct (hash_find b (PrivateRefCountHash st)) as [count|] eqn:Eh.
    2:{ split; [reflexivity|]. intros c [Ha|Hh]; [now apply (Harr c)|].
        exact (hash_find_None _ _ Eh c Hh). }
    cbn [negb]. apply hash_find_Some in Eh.
    destruct (ReservePrivateRefCountEntry_spec st Hok)
      as (Hok1 & (free & Hfree) & Ht1).
    set (st1 := ReservePrivateRefCountEntry st) in *.
    rewrite Hfree.
    destruct (ok_reserved st1 Hok1 free Hfree) as (c0 & Hc0).
    assert (Hfl : (free < List.length (PrivateRefCountArray st1))%nat)
      by (apply nth_error_Some; congruence).
    assert (Hb1 : tracked st1 b count) by (apply Ht1; [assumption|now right]).
    assert (Hin1 : In (b, count) (PrivateRefCountHash st1)).
    { destruct Hb1 as [(j & Hj)|Hin]; [|assumption].
      exfalso. apply (Harr count). exists j.
      now apply ReservePrivateRefCountEntry_array. }
    split; [|split].
    + constructor; cbn.
      * rewrite length_set_nth. apply (ok_length st1 Hok1).
      * intros j k e e' Hj Hk Hbe Hne.
        apply nth_error_set_nth in Hj. apply nth_error_set_nth in Hk.
        destruct Hj as [[<- ->]|[Hnj Hj]], Hk as [[<- ->]|[Hnk Hk]].
        -- reflexivity.
        -- exfalso. apply (ok_disjoint st1 Hok1 k e' count Hk).
           cbn in Hbe. now rewrite <- Hbe.
        -- exfalso. apply (ok_disjoint st1 Hok1 j e count Hj).
           cbn in Hbe. now rewrite Hbe.
        -- exact (ok_array st1 Hok1 j k e e' Hj Hk Hbe Hne).
      * apply NoDup_hash_remove, (ok_hash st1 Hok1).
      * intros b' c' Hin. apply In_hash_remove in Hin.
        exact (ok_hash_valid st1 Hok1 b' c' (proj1 Hin)).
      * intros j e c' Hj Hin. apply In_hash_remove in Hin.
        destruct Hin as [Hin Hne]. apply nth_error_set_nth in Hj.
        destruct Hj as [[_ ->]|[_ Hj]]; [now apply Hne|].
        exact (ok_disjoint st1 Hok1 j e c' Hj Hin).
      * rewrite (ok_overflowed st1 Hok1).
        pose proof (length_hash_remove b count _ (ok_hash st1 Hok1) Hin1). lia.
      * discriminate.
      * apply (ok_clock st1 Hok1).
    + exists free, count. split; [reflexivity|].
      split; [cbn; now apply nth_error_set_nth_eq|now right].
    + intros b' c' Hb'. rewrite <- (Ht1 b' c' Hb').
      unfold tracked. cbn. rewrite In_hash_remove. split.
      * intros [(j & Hj)|[Hin Hne]]; [|now right].
        apply nth_error_set_nth in Hj. destruct Hj as [[_ E]|[_ Hj]].
        -- injection E as -> ->. now right.
        -- left. now exists j.
      * intros [(j & Hj)|Hin].
        -- left. exists j. rewrite nth_error_set_nth_neq; [assumption|].
           intros <-. rewrite Hc0 in Hj. injection Hj as E _. congruence.
        -- destruct (Z.eq_dec b' b) as [->|Hne]; [|now right].
           left. exists free.
           pose proof (hash_find_In _ _ _ (ok_hash st1 Hok1) Hin) as E1.
           pose proof (hash_find_In _ _ _ (ok_hash st1 Hok1) Hin1) as E2.
           rewrite E1 in E2. injection E2 as ->.
           now apply nth_error_set_nth_eq.
Qed.

(** [GetPrivateRefCountEntry] with [do_move]: it answers [NULL] exactly for
    a buffer that is not tracked, and then changes nothing; otherwise the
    entry it returns is a slot of the array holding the buffer with its
    count, also when it had to be fetched from the overflow table, the
    tracker is left in order, and [GetPrivateRefCount] answers as before
    for every buffer. *)
Theorem GetPrivateRefCountEntry_move_keeps_counts (st : PinCache) (b : Z) :
  cache_ok st -> b <> InvalidBuffer ->
  match GetPrivateRefCountEntry b true st with
  | (Some r, st') =>
      cache_ok st'
      /\ (exists i, r = ArrayRef i
                    /\ slot i st' = mkEntry b (GetPrivateRefCount b st))
      /\ fst (GetPrivateRefCountEntry b false st) <> None
      /\ forall b', b' <> InvalidBuffer ->
           GetPrivateRefCount b' st' = GetPrivateRefCount b' st
  | (None, st') =>
      st' = st /\ GetPrivateRefCountEntry b false st = (None, st)
  end.
Proof.
  intros Hok Hb.
  pose proof (GetPrivateRefCountEntry_move_spec st b Hok Hb) as H.
  destruct (GetPrivateRefCountEntry b true st) as [[r|] st'].
  - destruct H as (Hok' & (i & c & -> & Hp & Ht) & Hall).
    split; [assumption|]. split; [|split].
    + exists i. split; [reflexivity|].
      rewrite (GetPrivateRefCount_tracked st b c Hok Hb Ht).
      now apply nth_error_slot.
    + pose proof (GetPrivateRefCountEntry_spec st b Hok Hb) as Hs.
      destruct (GetPrivateRefCountEntry b false st) as [[r0|] st0];
        [discriminate|].
      destruct Hs as (_ & Hs). now destruct (Hs c).
    + intros b' Hb'. apply GetPrivateRefCount_ext; try assumption.
      intros c'. now apply Hall.
  - destruct H as (-> & Hun). split; [reflexivity|].
    now apply GetPrivateRefCount_untracked.
Qed.

Lemma GetPrivateRefCountEntry_move_keeps_counts_witness :
  match GetPrivateRefCountEntry 11 true cache_overflowed with
  | (Some r, st') =>
      cache_ok st'
      /\ (exists i, r = ArrayRef i
                    /\ slot i st' = mkEntry 11 (GetPrivateRefCount 11 cache_overflowed))
      /\ fst (GetPrivateRefCountEntry 11 false cache_overflowed) <> None
      /\ forall b', b' <> InvalidBuffer ->
           GetPrivateRefCount b' st' = GetPrivateRefCount b' cache_overflowed
  | (None, st') =>
      st' = cache_overflowed
      /\ GetPrivateRefCountEntry 11 false cache_overflowed
         = (None, cache_overflowed)
  end.
Proof.
  apply (GetPrivateRefCountEntry_move_keeps_counts cache_overflowed 11).
  - exact cache_overflowed_ok.
  - discriminate.
Defined.

(** [ForgetPrivateRefCountEntry] on the entry a lookup returned: the
    buffer is no longer tracked (a lookup answers [NULL], its count reads
    0), the tracker is left in order, every other buffer keeps its count,
    and a slot of the array that was freed is the reserved one. *)
Theorem ForgetPrivateRefCountEntry_forgets (st : PinCache) (b : Z)
    (r : EntryRef) :
  cache_ok st -> b <> InvalidBuffer ->
  GetPrivateRefCountEntry b false st = (Some r, st) ->
  let st' := ForgetPrivateRefCountEntry r st in
  cache_ok st'
  /\ GetPrivateRefCountEntry b false st' = (None, st')
  /\ GetPrivateRefCount b st' = 0
  /\ (forall b', b' <> InvalidBuffer -> b' <> b ->
        GetPrivateRefCount b' st' = GetPrivateRefCount b' st)
  /\ match r with
     | ArrayRef i => ReservedRefCountEntry st' = Some i
     | HashRef _ =>
         PrivateRefCountOverflowed st' = PrivateRefCountOverflowed st - 1
     end.
Proof.
  intros Hok Hb Hget. cbv zeta.
  destruct (GetPrivateRefCountEntry_points_to st b r st Hok Hb Hget) as (_ & Hp).
  destruct (ForgetPrivateRefCountEntry_spec st r b _ Hok Hb Hp)
    as (Hok' & Hun & Hoth).
  cbv zeta in *.
  destruct (GetPrivateRefCount_untracked _ b Hok' Hb Hun) as (H0 & Hnull).
  split; [assumption|]. split; [assumption|]. split; [assumption|].
  split.
  - intros b' Hb' Hne. apply GetPrivateRefCount_ext; try assumption.
    intros c. now apply Hoth.
  - destruct r; reflexivity.
Qed.

Lemma ForgetPrivateRefCountEntry_forgets_witness :
  cache_ok (ForgetPrivateRefCountEntry (HashRef 11) cache_overflowed)
  /\ GetPrivateRefCountEntry 11 false
       (ForgetPrivateRefCountEntry (HashRef 11) cache_overflowed)
     = (None, ForgetPrivateRefCountEntry (HashRef 11) cache_overflowed)
  /\ GetPrivateRefCount 11
       (ForgetPrivateRefCountEntry (HashRef 11) cache_overflowed) = 0
  /\ (forall b', b' <> InvalidBuffer -> b' <> 11 ->
        GetPrivateRefCount b'
          (ForgetPrivateRefCountEntry (HashRef 11) cache_overflowed)
        = GetPrivateRefCount b' cache_overflowed)
  /\ PrivateRefCountOverflowed
       (ForgetPrivateRefCountEntry (HashRef 11) cache_overflowed)
     = PrivateRefCountOverflowed cache_overflowed - 1.
Proof.
  apply (ForgetPrivateRefCountEntry_forgets cache_overflowed 11 (HashRef 11)).
  - exact cache_overflowed_ok.
  - discriminate.
  - reflexivity.
Defined.

(** *** The tracker as a counter per buffer *)

Lemma PinBuffer_private_spec (st : PinCache) (b : Z) :
  cache_ok st -> counts_positive st -> b <> InvalidBuffer ->
  exists st' : PinCache,
    PinBuffer_private b st = Some st'
    /\ cache_ok st' /\ counts_positive st'
    /\ GetPrivateRefCount b st' = GetPrivateRefCount b st + 1
    /\ forall b', b' <> InvalidBuffer -> b' <> b ->
         GetPrivateRefCount b' st' = GetPrivateRefCount b' st.
Proof.
  intros Hok Hpos Hb. unfold PinBuffer_private.
  pose proof (GetPrivateRefCountEntry_move_spec st b Hok Hb) as H.
  destruct (GetPrivateRefCountEntry b true st) as [[r|] st1].
  - destruct H as (Hok1 & (i & c & -> & Hp & Ht) & Hall).
    rewrite (points_to_deref _ _ _ _ Hok1 Hp).
    destruct (store_refcount_spec st1 (ArrayRef i) b c (c + 1) Hok1 Hb Hp)
      as (Hok2 & Hp2 & Hoth & _).
    cbv zeta in *. eexists. split; [reflexivity|].
    split; [assumption|]. split; [|split].
    + intros b' c' Hb' Ht'. destruct (Z.eq_dec b' b) as [->|Hne].
      * rewrite (tracked_fun _ b c' (c + 1) Hok2 Hb Ht'
                   (points_to_tracked _ _ _ _ Hp2)).
        specialize (Hpos b c Hb Ht). lia.
      * apply (Hpos b' c' Hb'). apply Hall; [assumption|].
        now apply Hoth.
    + rewrite (GetPrivateRefCount_tracked st b c Hok Hb Ht).
      apply GetPrivateRefCount_tracked; try assumption.
      exact (points_to_tracked _ _ _ _ Hp2).
    + intros b' Hb' Hne. apply GetPrivateRefCount_ext; try assumption.
      intros c'. rewrite <- (Hall b' c' Hb'). now apply Hoth.
  - destruct H as (-> & Hun).
    destruct (ReservePrivateRefCountEntry_spec st Hok) as (Hok1 & (i & Hi) & Ht1).
    set (st1 := ReservePrivateRefCountEntry st) in *.
    assert (Hun1 : forall c, ~ tracked st1 b c)
      by (intros c Hc; apply (Hun c); now apply Ht1).
    destruct (NewPrivateRefCountEntry_spec st1 b i Hok1 Hb Hi Hun1)
      as (Hnew & Hok2 & Hp2 & Hoth2).
    cbv zeta in *. rewrite Hnew.
    rewrite (points_to_deref _ _ _ _ Hok2 Hp2).
    destruct (store_refcount_spec _ (ArrayRef i) b 0 (0 + 1) Hok2 Hb Hp2)
      as (Hok3 & Hp3 & Hoth3 & _).
    cbv zeta in *. eexists. split; [reflexivity|].
    split; [assumption|]. split; [|split].
    + intros b' c' Hb' Ht'. destruct (Z.eq_dec b' b) as [->|Hne].
      * rewrite (tracked_fun _ b c' (0 + 1) Hok3 Hb Ht'
                   (points_to_tracked _ _ _ _ Hp3)). lia.
      * apply (Hpos b' c' Hb'). apply Ht1; [assumption|].
        apply Hoth2; [assumption|assumption|]. now apply Hoth3.
    + destruct (GetPrivateRefCount_untracked st b Hok Hb Hun) as (-> & _).
      apply GetPrivateRefCount_tracked; try assumption.
      exact (points_to_tracked _ _ _ _ Hp3).
    + intros b' Hb' Hne. apply GetPrivateRefCount_ext; try assumption.
      intros c'. rewrite <- (Ht1 b' c' Hb'), <- (Hoth2 b' c' Hb' Hne).
      now apply Hoth3.
Qed.

Lemma UnpinBuffer_private_spec (st : PinCache) (b : Z) :
  cache_ok st -> counts_positive st -> b <> InvalidBuffer ->
  0 < GetPrivateRefCount b st ->
  exists st' : PinCache,
    UnpinBuffer_private b st = Some st'
    /\ cache_ok st' /\ counts_positive st'
    /\ GetPrivateRefCount b st' = GetPrivateRefCount b st - 1
    /\ forall b', b' <> InvalidBuffer -> b' <> b ->
         GetPrivateRefCount b' st' = GetPrivateRefCount b' st.
Proof.
  intros Hok Hpos Hb Hc. unfold UnpinBuffer_private.
  destruct (GetPrivateRefCountEntry b false st) as [[r|] st0] eqn:Eg.
  2:{ unfold GetPrivateRefCount in Hc. rewrite Eg in Hc. cbn in Hc. lia. }
  destruct (GetPrivateRefCountEntry_points_to st b r st0 Hok Hb Eg) as (-> & Hp).
  set (c := deref r st) in *.
  assert (Ec : GetPrivateRefCount b st = c)
    by (apply GetPrivateRefCount_tracked; try assumption;
        exact (points_to_tracked _ _ _ _ Hp)).
  rewrite Ec in *.
  destruct (store_refcount_spec st r b c (c - 1) Hok Hb Hp)
    as (Hok1 & Hp1 & Hoth1 & _).
  cbv zeta in *. set (st1 := store_refcount r (c - 1) st) in *.
  rewrite (points_to_deref _ _ _ _ Hok1 Hp1).
  destruct (Z.eqb_spec (c - 1) 0) as [E0|E0].
  - destruct (ForgetPrivateRefCountEntry_spec st1 r b _ Hok1 Hb Hp1)
      as (Hok2 & Hun2 & Hoth2).
    cbv zeta in *. eexists. split; [reflexivity|].
    split; [assumption|]. split; [|split].
    + intros b' c' Hb' Ht'. destruct (Z.eq_dec b' b) as [->|Hne].
      * now destruct (Hun2 c').
      * apply (Hpos b' c' Hb'). apply Hoth1; [assumption|assumption|].
        now apply Hoth2.
    + rewrite E0. now apply GetPrivateRefCount_untracked.
    + intros b' Hb' Hne. apply GetPrivateRefCount_ext; try assumption.
      intros c'. rewrite <- (Hoth1 b' c' Hb' Hne). now apply Hoth2.
  - eexists. split; [reflexivity|].
    split; [assumption|]. split; [|split].
    + intros b' c' Hb' Ht'. destruct (Z.eq_dec b' b) as [->|Hne].
      * rewrite (tracked_fun _ b c' (c - 1) Hok1 Hb Ht'
                   (points_to_tracked _ _ _ _ Hp1)). lia.
      * apply (Hpos b' c' Hb'). now apply Hoth1.
    + apply GetPrivateRefCount_tracked; try assumption.
      exact (points_to_tracked _ _ _ _ Hp1).
    + intros b' Hb' Hne. apply GetPrivateRefCount_ext; try assumption.
      intros c'. now apply Hoth1.
Qed.

(** The tracker counts pins per buffer.  What [PinBuffer] does to it
    raises the count of the buffer by one and what [UnpinBuffer] does lowers
    it by one, whether the entry sits in the array or in the overflow table
    and whether or not an entry is displaced or forgotten on the way; the
    counts of all other buffers are never affected, so a pin followed by
    its release restores every count.  The tracker stays in order and
    never keeps an entry with count 0. *)
Theorem private_pin_unpin_counts (st : PinCache) (b : Z) :
  cache_ok st -> counts_positive st -> b <> InvalidBuffer ->
  exists st1 st2 : PinCache,
    PinBuffer_private b st = Some st1
    /\ UnpinBuffer_private b st1 = Some st2
    /\ cache_ok st1 /\ counts_positive st1
    /\ cache_ok st2 /\ counts_positive st2
    /\ GetPrivateRefCount b st1 = GetPrivateRefCount b st + 1
    /\ (forall b', b' <> InvalidBuffer -> b' <> b ->
          GetPrivateRefCount b' st1 = GetPrivateRefCount b' st)
    /\ (forall b', b' <> InvalidBuffer ->
          GetPrivateRefCount b' st2 = GetPrivateRefCount b' st).
Proof.
  intros Hok Hpos Hb.
  destruct (PinBuffer_private_spec st b Hok Hpos Hb)
    as (st1 & Hpin & Hok1 & Hpos1 & Hc1 & Hoth1).
  assert (H0 : 0 <= GetPrivateRefCount b st).
  { pose proof (GetPrivateRefCountEntry_spec st b Hok Hb) as H.
    unfold GetPrivateRefCount.
    destruct (GetPrivateRefCountEntry b false st) as [[r|] st0]; cbn [fst];
      [|lia].
    destruct H as (_ & H & _). specialize (Hpos b _ Hb H). lia. }
  destruct (UnpinBuffer_private_spec st1 b Hok1 Hpos1 Hb)
    as (st2 & Hunpin & Hok2 & Hpos2 & Hc2 & Hoth2); [lia|].
  exists st1, st2. repeat (split; [assumption|]).
  intros b' Hb'. destruct (Z.eq_dec b' b) as [->|Hne].
  - lia.
  - rewrite Hoth2, Hoth1 by assumption. reflexivity.
Qed.

Lemma private_pin_unpin_counts_witness :
  exists st1 st2 : PinCache,
    PinBuffer_private 11 cache_overflowed = Some st1
    /\ UnpinBuffer_private 11 st1 = Some st2
    /\ cache_ok st1 /\ counts_positive st1
    /\ cache_ok st2 /\ counts_positive st2
    /\ GetPrivateRefCount 11 st1 = GetPrivateRefCount 11 cache_overflowed + 1
    /\ (forall b', b' <> InvalidBuffer -> b' <> 11 ->
          GetPrivateRefCount b' st1 = GetPrivateRefCount b' cache_overflowed)
    /\ (forall b', b' <> InvalidBuffer ->
          GetPrivateRefCount b' st2 = GetPrivateRefCount b' cache_overflowed).
Proof.
  apply (private_pin_unpin_counts cache_overflowed 11).
  - exact cache_overflowed_ok.
  - intros b c Hb [(i & Hi)|[E|[]]].
    + do 8 (destruct i as [|i]; [injection Hi as _ <-; lia|]).
      now destruct i.
    + injection E as _ <-. lia.
  - discriminate.
Defined.

(** [IncrBufferRefCount] on a shared buffer the backend has pinned: the
    count of the buffer is raised by one, no other count changes and the
    tracker stays in order.  On a buffer the backend has not pinned there
    is no entry to increment (the assertion [ref != NULL] fails). *)
Theorem IncrBufferRefCount_counts (st : PinCache) (b : Z) :
  cache_ok st -> counts_positive st -> b <> InvalidBuffer ->
  if 0 <? GetPrivateRefCount b st then
    exists st' : PinCache,
      IncrBufferRefCount b st = Some st'
      /\ cache_ok st' /\ counts_positive st'
      /\ GetPrivateRefCount b st' = GetPrivateRefCount b st + 1
      /\ forall b', b' <> InvalidBuffer -> b' <> b ->
           GetPrivateRefCount b' st' = GetPrivateRefCount b' st
  else IncrBufferRefCount b st = None.
Proof.
  intros Hok Hpos Hb. unfold IncrBufferRefCount.
  pose proof (GetPrivateRefCountEntry_move_spec st b Hok Hb) as H.
  destruct (GetPrivateRefCountEntry b true st) as [[r|] st1].
  - destruct H as (Hok1 & (i & c & -> & Hp & Ht) & Hall).
    rewrite (GetPrivateRefCount_tracked st b c Hok Hb Ht).
    pose proof (Hpos b c Hb Ht) as Hc.
    replace (0 <? c) with true by (symmetry; apply Z.ltb_lt; lia).
    rewrite (points_to_deref _ _ _ _ Hok1 Hp).
    destruct (store_refcount_spec st1 (ArrayRef i) b c (c + 1) Hok1 Hb Hp)
      as (Hok2 & Hp2 & Hoth & _).
    cbv zeta in *. eexists. split; [reflexivity|].
    split; [assumption|]. split; [|split].
    + intros b' c' Hb' Ht'. destruct (Z.eq_dec b' b) as [->|Hne].
      * rewrite (tracked_fun _ b c' (c + 1) Hok2 Hb Ht'
                   (points_to_tracked _ _ _ _ Hp2)). lia.
      * apply (Hpos b' c' Hb'). apply Hall; [assumption|].
        now apply Hoth.
    + apply GetPrivateRefCount_tracked; try assumption.
      exact (points_to_tracked _ _ _ _ Hp2).
    + intros b' Hb' Hne. apply GetPrivateRefCount_ext; try assumption.
      intros c'. rewrite <- (Hall b' c' Hb'). now apply Hoth.
  - destruct H as (-> & Hun).
    destruct (GetPrivateRefCount_untracked st b Hok Hb Hun) as (-> & _).
    reflexivity.
Qed.

Lemma IncrBufferRefCount_counts_witness :
  if 0 <? GetPrivateRefCount 12 cache_overflowed then
    exists st' : PinCache,
      IncrBufferRefCount 12 cache_overflowed = Some st'
      /\ cache_ok st' /\ counts_positive st'
      /\ GetPrivateRefCount 12 st' = GetPrivateRefCount 12 cache_overflowed + 1
      /\ forall b', b' <> InvalidBuffer -> b' <> 12 ->
           GetPrivateRefCount b' st' = GetPrivateRefCount b' cache_overflowed
  else IncrBufferRefCount 12 cache_overflowed = None.
Proof.
  apply (IncrBufferRefCount_counts cache_overflowed 12).
  - exact cache_overflowed_ok.
  - intros b c Hb [(i & Hi)|[E|[]]].
    + do 8 (destruct i as [|i]; [injection Hi as _ <-; lia|]).
      now destruct i.
    + injection E as _ <-. lia.
  - discriminate.
Defined.

(** * Orders, writeback requests and pin limits *)

(** ** The comparators *)

Ltac split_comparisons :=
  repeat match goal with
         | H : context [?a >? ?b] |- _ => rewrite (Z.gtb_ltb a b) in H
         | |- context [?a >? ?b] => rewrite (Z.gtb_ltb a b)
         end;
  repeat match goal with
         | H : context [?a <? ?b] |- _ => destruct (Z.ltb_spec a b)
         | |- context [?a <? ?b] => destruct (Z.ltb_spec a b)
         end.




Lemma ckpt_buforder_comparator_cases (a b : CkptSortItem) :
  (ckpt_buforder_comparator a b = -1
   /\ (ck_tsId a < ck_tsId b
       \/ (ck_tsId a = ck_tsId b
           /\ (ck_relNumber a < ck_relNumber b
               \/ (ck_relNumber a = ck_relNumber b
                   /\ (ck_forkNum a < ck_forkNum b
                       \/ (ck_forkNum a = ck_forkNum b
                           /\ ck_blockNum a < ck_blockNum b)))))))
  \/ (ckpt_buforder_comparator a b = 1
      /\ (ck_tsId b < ck_tsId a
          \/ (ck_tsId a = ck_tsId b
              /\ (ck_relNumber b < ck_relNumber a
                  \/ (ck_relNumber a = ck_relNumber b
                      /\ (ck_forkNum b < ck_forkNum a
                          \/ (ck_forkNum a = ck_forkNum b
                              /\ ck_blockNum b < ck_blockNum a)))))))
  \/ (ckpt_buforder_comparator a b = 0
      /\ ck_tsId a = ck_tsId b /\ ck_relNumber a = ck_relNumber b
      /\ ck_forkNum a = ck_forkNum b /\ ck_blockNum a = ck_blockNum b).
Proof.
  unfold ckpt_buforder_comparator. split_comparisons;
    first [left; split; [reflexivity|lia]
          |right; left; split; [reflexivity|lia]
          |right; right; split; [reflexivity|lia]].
Qed.

(** [ckpt_buforder_comparator] orders the buffers to checkpoint by
    tablespace first: an item of a smaller tablespace always comes first,
    whatever the rest, so a sorted array keeps each tablespace together.
    It is a total preorder (swapping negates, transitive) that answers 0
    exactly when tablespace, relation, fork and block agree; the buffer id
    is not compared. *)
Theorem ckpt_buforder_comparator_tablespace_first (a b c : CkptSortItem) :
  (ck_tsId a < ck_tsId b -> ckpt_buforder_comparator a b = -1)
  /\ (ckpt_buforder_comparator a b <= 0 -> ck_tsId a <= ck_tsId b)
  /\ (ckpt_buforder_comparator a b = 0 <->
      ck_tsId a = ck_tsId b /\ ck_relNumber a = ck_relNumber b
      /\ ck_forkNum a = ck_forkNum b /\ ck_blockNum a = ck_blockNum b)
  /\ ckpt_buforder_comparator b a = - ckpt_buforder_comparator a b
  /\ (ckpt_buforder_comparator a b <= 0 -> ckpt_buforder_comparator b c <= 0 ->
      ckpt_buforder_comparator a c <= 0).
Proof.
  split; [|split; [|split; [|split]]].
  - intros Hlt. destruct (ckpt_buforder_comparator_cases a b)
      as [(E & H)|[(E & H)|(E & H)]]; [assumption|lia|lia].
  - destruct (ckpt_buforder_comparator_cases a b)
      as [(E & H)|[(E & H)|(E & H)]]; rewrite E; lia.
  - destruct (ckpt_buforder_comparator_cases a b)
      as [(E & H)|[(E & H)|(E & H)]]; rewrite E;
      (split; [try discriminate; auto|intros; try reflexivity; lia]).
  - destruct (ckpt_buforder_comparator_cases a b)
      as [(E & H)|[(E & H)|(E & H)]];
      destruct (ckpt_buforder_comparator_cases b a)
        as [(E' & H')|[(E' & H')|(E' & H')]]; rewrite E, E';
      try reflexivity; exfalso; lia.
  - destruct (ckpt_buforder_comparator_cases a b)
      as [(E & H)|[(E & H)|(E & H)]];
      destruct (ckpt_buforder_comparator_cases b c)
        as [(E' & H')|[(E' & H')|(E' & H')]];
      destruct (ckpt_buforder_comparator_cases a c)
        as [(E'' & H'')|[(E'' & H'')|(E'' & H'')]];
      rewrite E, E', E''; intros; try lia; exfalso; lia.
Qed.

(** ** Pending writebacks *)

Lemma In_sort_insert (t x : BufferTag) (l : list BufferTag) :
  In x (Writeback.sort_insert t l) <-> x = t \/ In x l.
Proof.
  induction l as [|y l IH]; cbn [Writeback.sort_insert].
  - cbn. intuition.
  - destruct (buffertag_comparator t y <=? 0); cbn [In].
    + intuition.
    + rewrite IH. intuition.
Qed.

Lemma In_sort_pending_writebacks (x : BufferTag) (l : list BufferTag) :
  In x (Writeback.sort_pending_writebacks l) <-> In x l.
Proof.
  unfold Writeback.sort_pending_writebacks.
  induction l as [|y l IH]; cbn [fold_right In]; [reflexivity|].
  rewrite In_sort_insert, IH. intuition.
Qed.

Lemma length_sort_insert (t : BufferTag) (l : list BufferTag) :
  List.length (Writeback.sort_insert t l) = S (List.length l).
Proof.
  induction l as [|y l IH]; cbn [Writeback.sort_insert]; [reflexivity|].
  destruct (buffertag_comparator t y <=? 0); cbn [List.length]; congruence.
Qed.

Lemma length_sort_pending_writebacks (l : list BufferTag) :
  List.length (Writeback.sort_pending_writebacks l) = List.length l.
Proof.
  unfold Writeback.sort_pending_writebacks.
  induction l as [|y l IH]; cbn [fold_right]; [reflexivity|].
  rewrite length_sort_insert. cbn. congruence.
Qed.

Lemma RelFileLocatorEquals_refl (t : BufferTag) :
  Writeback.RelFileLocatorEquals t t = true.
Proof. unfold Writeback.RelFileLocatorEquals. now rewrite !Z.eqb_refl. Qed.

Lemma RelFileLocatorEquals_trans (a b c : BufferTag) :
  Writeback.RelFileLocatorEquals a b = true ->
  Writeback.RelFileLocatorEquals b c = true ->
  Writeback.RelFileLocatorEquals a c = true.
Proof.
  unfold Writeback.RelFileLocatorEquals.
  rewrite !andb_true_iff, !Z.eqb_eq. intuition congruence.
Qed.

Lemma u32_succ (x n : Z) : u32 (u32 (x + (n - 1)) + 1) = u32 (x + n).
Proof.
  unfold u32. rewrite Zplus_mod_idemp_l. f_equal. lia.
Qed.

Lemma u32_id (x : Z) : is_u32 x -> u32 x = x.
Proof. intros H. unfold u32. apply Z.mod_small. exact H. Qed.

(** The first call of a run is the one under construction, at least as long
    as it already is. *)
Lemma coalesce_first (tag cur : BufferTag) (n : Z) (rest : list BufferTag) :
  exists n' more,
    Writeback.coalesce tag cur n rest = (tag, n') :: more /\ n <= n'.
Proof.
  revert cur n. induction rest as [|next rest IH]; intros cur n;
    cbn [Writeback.coalesce].
  - exists n, []. split; [reflexivity|lia].
  - destruct (_ || _); [exists n; eexists; split; [reflexivity|lia]|].
    destruct (blockNum cur =? blockNum next); [apply IH|].
    destruct (negb _); [exists n; eexists; split; [reflexivity|lia]|].
    destruct (IH next (n + 1)) as (n' & more & E & Hn).
    exists n', more. split; [assumption|lia].
Qed.

Lemma run_ok_start (t : BufferTag) : is_u32 (blockNum t) -> run_ok t t 1.
Proof.
  intros H. repeat split; try lia.
  - apply RelFileLocatorEquals_refl.
  - replace (blockNum t + (1 - 1)) with (blockNum t) by lia.
    now rewrite u32_id.
Qed.

Lemma coalesce_covers (tag cur : BufferTag) (n : Z) (rest : list BufferTag) :
  run_ok tag cur n ->
  Forall (fun t => is_u32 (blockNum t)) rest ->
  forall t, In t rest ->
    exists c, In c (Writeback.coalesce tag cur n rest) /\ Writeback.covers c t.
Proof.
  revert tag cur n. induction rest as [|next rest IH];
    intros tag cur n Hrun Hu t Hin; [contradiction|].
  inversion Hu as [|? ? Hnext Hrest]; subst.
  destruct Hrun as (Hn & Hfile & Hfork & Hblock).
  cbn [Writeback.coalesce].
  assert (Hnew : forall t, In t (next :: rest) ->
            exists c, In c (Writeback.coalesce next next 1 rest)
                      /\ Writeback.covers c t).
  { intros t' [<-|Ht'].
    - destruct (coalesce_first next next 1 rest) as (n' & more & E & Hn').
      exists (next, n'). rewrite E. split; [now left|].
      split; [apply RelFileLocatorEquals_refl|]. split; [reflexivity|].
      exists 0. cbn [fst snd]. split; [lia|].
      rewrite Z.add_0_r. symmetry. now apply u32_id.
    - exact (IH next next 1 (run_ok_start next Hnext) Hrest t' Ht'). }
  destruct (negb (Writeback.RelFileLocatorEquals tag next)
            || negb (forkNum cur =? forkNum next)) eqn:Ediff.
  { destruct (Hnew t Hin) as (c & Hc & Hcov). exists c. split; [now right|auto]. }
  apply orb_false_iff in Ediff. destruct Ediff as [Ef Ek].
  apply negb_false_iff in Ef, Ek. apply Z.eqb_eq in Ek.
  destruct (Z.eqb_spec (blockNum cur) (blockNum next)) as [Esame|Ediff].
  { destruct Hin as [<-|Hin].
    - destruct (coalesce_first tag cur n rest) as (n' & more & E & Hn').
      exists (tag, n'). rewrite E. split; [now left|].
      split; [exact Ef|]. split; [cbn; congruence|].
      exists (n - 1). cbn [fst snd]. split; [lia|congruence].
    - apply (IH tag cur n); repeat split; assumption. }
  destruct (Z.eqb_spec (u32 (blockNum cur + 1)) (blockNum next)) as [Econs|Egap];
    cbn [negb].
  2:{ destruct (Hnew t Hin) as (c & Hc & Hcov). exists c. split; [now right|auto]. }
  assert (Hrun' : run_ok tag next (n + 1)).
  { repeat split; try lia; try assumption; try congruence.
    rewrite <- Econs, Hblock. replace (n + 1 - 1) with n by lia.
    apply u32_succ. }
  destruct Hin as [<-|Hin].
  - destruct (coalesce_first tag next (n + 1) rest) as (n' & more & E & Hn').
    exists (tag, n'). rewrite E. split; [now left|].
    split; [exact Ef|]. split; [cbn; congruence|].
    exists n. cbn [fst snd]. split; [lia|].
    destruct Hrun' as (_ & _ & _ & Hb). rewrite Hb. f_equal. lia.
  - exact (IH tag next (n + 1) Hrun' Hrest t Hin).
Qed.

Lemma coalesce_exact (tag cur : BufferTag) (n : Z)
    (seen rest : list BufferTag) :
  run_ok tag cur n ->
  Forall (fun t => is_u32 (blockNum t)) rest ->
  (forall k, 0 <= k < n ->
     exists t, In t seen /\ Writeback.covers (tag, k + 1) t
               /\ blockNum t = u32 (blockNum tag + k)) ->
  forall c k, In c (Writeback.coalesce tag cur n rest) -> 0 <= k < snd c ->
    exists t, In t (seen ++ rest)
              /\ Writeback.RelFileLocatorEquals (fst c) t = true
              /\ forkNum (fst c) = forkNum t
              /\ blockNum t = u32 (blockNum (fst c) + k).
Proof.
  revert tag cur n seen. induction rest as [|next rest IH];
    intros tag cur n seen Hrun Hu Hseen c k Hc Hk.
  - cbn in Hc. destruct Hc as [<-|[]]. cbn [fst snd] in *.
    destruct (Hseen k Hk) as (t & Ht & (Hf & Hfk & _) & Hb).
    exists t. rewrite app_nil_r. auto.
  - inversion Hu as [|? ? Hnext Hrest]; subst.
    pose proof Hrun as (Hn & Hfile & Hfork & Hblock).
    cbn [Writeback.coalesce] in Hc.
    assert (Hold : c = (tag, n) ->
              exists t, In t (seen ++ next :: rest)
                        /\ Writeback.RelFileLocatorEquals (fst c) t = true
                        /\ forkNum (fst c) = forkNum t
                        /\ blockNum t = u32 (blockNum (fst c) + k)).
    { intros ->. cbn [fst snd] in *.
      destruct (Hseen k Hk) as (t & Ht & (Hf & Hfk & _) & Hb).
      exists t. split; [apply in_or_app; now left|auto]. }
    assert (Hnew : In c (Writeback.coalesce next next 1 rest) ->
              exists t, In t (seen ++ next :: rest)
                        /\ Writeback.RelFileLocatorEquals (fst c) t = true
                        /\ forkNum (fst c) = forkNum t
                        /\ blockNum t = u32 (blockNum (fst c) + k)).
    { intros Hc'.
      destruct (IH next next 1 [next] (run_ok_start next Hnext) Hrest) with
        (c := c) (k := k) as (t & Ht & Hrest'); try assumption.
      - intros k0 Hk0. assert (k0 = 0) by lia. subst k0.
        exists next. split; [now left|]. rewrite Z.add_0_r.
        split; [|symmetry; now apply u32_id].
        split; [apply RelFileLocatorEquals_refl|]. split; [reflexivity|].
        exists 0. cbn [fst snd]. split; [lia|].
        rewrite Z.add_0_r. symmetry. now apply u32_id.
      - exists t. split; [|assumption].
        apply in_or_app. right. exact Ht. }
    destruct (negb (Writeback.RelFileLocatorEquals tag next)
              || negb (forkNum cur =? forkNum next)) eqn:Ediff.
    { destruct Hc as [<-|Hc]; [now apply Hold|now apply Hnew]. }
    apply orb_false_iff in Ediff. destruct Ediff as [Ef Ek].
    apply negb_false_iff in Ef, Ek. apply Z.eqb_eq in Ek.
    destruct (Z.eqb_spec (blockNum cur) (blockNum next)) as [Esame|Edf].
    { destruct (IH tag cur n seen Hrun Hrest Hseen c k Hc Hk)
        as (t & Ht & Hrest').
      exists t. split; [|assumption].
      apply in_app_or in Ht. apply in_or_app.
      destruct Ht; [now left|right; now right]. }
    destruct (Z.eqb_spec (u32 (blockNum cur + 1)) (blockNum next))
      as [Econs|Egap]; cbn [negb] in Hc.
    2:{ destruct Hc as [<-|Hc]; [now apply Hold|now apply Hnew]. }
    assert (Hrun' : run_ok tag next (n + 1)).
    { repeat split; try lia; try assumption; try congruence.
      rewrite <- Econs, Hblock. replace (n + 1 - 1) with n by lia.
      apply u32_succ. }
    destruct (IH tag next (n + 1) (seen ++ [next]) Hrun' Hrest) with
      (c := c) (k := k) as (t & Ht & Hrest'); try assumption.
    + intros k0 Hk0. destruct (Z.eq_dec k0 n) as [->|Hne].
      * exists next. split; [apply in_or_app; right; now left|].
        destruct Hrun' as (_ & _ & _ & Hb).
        replace (n + 1 - 1) with n in Hb by lia.
        split; [|exact Hb].
        split; [exact Ef|]. split; [cbn; congruence|].
        exists n. cbn [fst snd]. split; [lia|exact Hb].
      * destruct (Hseen k0) as (t & Ht & Hcov & Hb); [lia|].
        exists t. split; [apply in_or_app; now left|auto].
    + exists t. split; [|assumption].
      rewrite <- app_assoc in Ht. exact Ht.
Qed.

Lemma coalesce_length (tag cur : BufferTag) (n : Z) (rest : list BufferTag) :
  (List.length (Writeback.coalesce tag cur n rest) <= S (List.length rest))%nat.
Proof.
  revert tag cur n. induction rest as [|next rest IH]; intros tag cur n;
    cbn [Writeback.coalesce List.length]; [lia|].
  destruct (_ || _); cbn [List.length].
  - specialize (IH next next 1). lia.
  - destruct (_ =? _); [specialize (IH tag cur n); lia|].
    destruct (negb _); cbn [List.length].
    + specialize (IH next next 1). lia.
    + specialize (IH tag next (n + 1)). lia.
Qed.

(** What [IssuePendingWritebacks] issues, for block numbers that are
    [uint32]s. *)
Lemma IssuePendingWritebacks_spec (wb : Writeback.WritebackContext) :
  Forall (fun t => is_u32 (blockNum t)) (Writeback.pending_writebacks wb) ->
  let wb' := fst (Writeback.IssuePendingWritebacks wb) in
  let calls := snd (Writeback.IssuePendingWritebacks wb) in
  Writeback.max_pending wb' = Writeback.max_pending wb
  /\ Writeback.nr_pending wb' = 0
  /\ (forall t, In t (Writeback.pending_writebacks wb) ->
        exists c, In c calls /\ Writeback.covers c t)
  /\ (forall c k, In c calls -> 0 <= k < snd c ->
        exists t, In t (Writeback.pending_writebacks wb)
                  /\ Writeback.RelFileLocatorEquals (fst c) t = true
                  /\ forkNum (fst c) = forkNum t
                  /\ blockNum t = u32 (blockNum (fst c) + k))
  /\ (List.length calls <= List.length (Writeback.pending_writebacks wb))%nat.
Proof.
  intros Hu. cbv zeta. unfold Writeback.IssuePendingWritebacks.
  unfold Writeback.nr_pending.
  destruct (Writeback.pending_writebacks wb) as [|p l] eqn:El.
  { cbn. rewrite El. cbn.
    split; [reflexivity|]. split; [reflexivity|].
    split; [intros t []|]. split; [intros c k []|lia]. }
  rewrite <- El in *.
  replace (Z.of_nat (List.length (Writeback.pending_writebacks wb)) =? 0)
    with false by (symmetry; apply Z.eqb_neq; rewrite El; cbn; lia).
  pose proof (length_sort_pending_writebacks (Writeback.pending_writebacks wb))
    as Hlen.
  assert (Hus : Forall (fun t => is_u32 (blockNum t))
                  (Writeback.sort_pending_writebacks
                     (Writeback.pending_writebacks wb))).
  { rewrite Forall_forall in *. intros t Ht. apply Hu.
    now apply In_sort_pending_writebacks. }
  destruct (Writeback.sort_pending_writebacks (Writeback.pending_writebacks wb))
    as [|tag rest] eqn:Es.
  { rewrite El in Hlen. cbn in Hlen. lia. }
  cbn [fst snd Writeback.max_pending].
  inversion Hus as [|? ? Htag Hrest]; subst.
  split; [reflexivity|]. split; [reflexivity|]. split; [|split].
  - intros t Ht.
    assert (Ht' : In t (tag :: rest))
      by (rewrite <- Es; now apply In_sort_pending_writebacks).
    destruct Ht' as [<-|Ht'].
    + destruct (coalesce_first tag tag 1 rest) as (n' & more & E & Hn').
      exists (tag, n'). rewrite E. split; [now left|].
      split; [apply RelFileLocatorEquals_refl|]. split; [reflexivity|].
      exists 0. cbn [fst snd]. split; [lia|].
      rewrite Z.add_0_r. symmetry. now apply u32_id.
    + exact (coalesce_covers tag tag 1 rest (run_ok_start tag Htag) Hrest t Ht').
  - intros c k Hc Hk.
    destruct (coalesce_exact tag tag 1 [tag] rest (run_ok_start tag Htag) Hrest)
      with (c := c) (k := k) as (t & Ht & Hrest'); try assumption.
    + intros k0 Hk0. assert (k0 = 0) by lia. subst k0.
      exists tag. split; [now left|]. rewrite Z.add_0_r.
      split; [|symmetry; now apply u32_id].
      split; [apply RelFileLocatorEquals_refl|]. split; [reflexivity|].
      exists 0. cbn [fst snd]. split; [lia|].
      rewrite Z.add_0_r. symmetry. now apply u32_id.
    + exists t. split; [|assumption].
      apply In_sort_pending_writebacks. rewrite Es. exact Ht.
  - pose proof (coalesce_length tag tag 1 rest) as Hl.
    cbn [List.length] in Hlen. lia.
Qed.

(** [IssuePendingWritebacks] issues exactly what is pending: afterwards no
    request is pending; every pending block lies in the range of some
    writeback issued for its relation and fork; every block of every range
    issued was pending; and no more writebacks are issued than requests
    were pending.  Coalescing never asks the kernel to write back a block
    that was not scheduled. *)
Theorem IssuePendingWritebacks_issues_exactly_pending
    (wb : Writeback.WritebackContext) :
  Forall (fun t => is_u32 (blockNum t)) (Writeback.pending_writebacks wb) ->
  let wb' := fst (Writeback.IssuePendingWritebacks wb) in
  let calls := snd (Writeback.IssuePendingWritebacks wb) in
  Writeback.max_pending wb' = Writeback.max_pending wb
  /\ Writeback.nr_pending wb' = 0
  /\ (forall t, In t (Writeback.pending_writebacks wb) ->
        exists c, In c calls /\ Writeback.covers c t)
  /\ (forall c k, In c calls -> 0 <= k < snd c ->
        exists t, In t (Writeback.pending_writebacks wb)
                  /\ Writeback.RelFileLocatorEquals (fst c) t = true
                  /\ forkNum (fst c) = forkNum t
                  /\ blockNum t = u32 (blockNum (fst c) + k))
  /\ (List.length calls <= List.length (Writeback.pending_writebacks wb))%nat.
Proof. exact (IssuePendingWritebacks_spec wb). Qed.

Lemma IssuePendingWritebacks_issues_exactly_pending_witness :
  Writeback.max_pending (fst (Writeback.IssuePendingWritebacks wb_example))
  = Writeback.max_pending wb_example
  /\ Writeback.nr_pending (fst (Writeback.IssuePendingWritebacks wb_example)) = 0
  /\ (forall t, In t (Writeback.pending_writebacks wb_example) ->
        exists c, In c (snd (Writeback.IssuePendingWritebacks wb_example))
                  /\ Writeback.covers c t)
  /\ (forall c k,
        In c (snd (Writeback.IssuePendingWritebacks wb_example)) ->
        0 <= k < snd c ->
        exists t, In t (Writeback.pending_writebacks wb_example)
                  /\ Writeback.RelFileLocatorEquals (fst c) t = true
                  /\ forkNum (fst c) = forkNum t
                  /\ blockNum t = u32 (blockNum (fst c) + k))
  /\ (List.length (snd (Writeback.IssuePendingWritebacks wb_example))
      <= List.length (Writeback.pending_writebacks wb_example))%nat.
Proof.
  apply (IssuePendingWritebacks_issues_exactly_pending wb_example).
  repeat (apply Forall_cons; [vm_compute; split; [discriminate|reflexivity]|]).
  apply Forall_nil.
Defined.

(** The example: blocks 7 and 8 (queued twice) are merged into one
    writeback of two blocks; block 10 and the other relation get their
    own. *)
Example IssuePendingWritebacks_run :
  snd (Writeback.IssuePendingWritebacks wb_example)
  = [(mkTag 1663 5 16384 0 7, 2); (mkTag 1663 5 16384 0 10, 1);
     (mkTag 1663 5 16385 0 3, 1)].
Proof. vm_compute. reflexivity. Qed.

(** [ScheduleBufferTagForWriteback]: with direct I/O nothing is queued or
    issued.  Otherwise the limit is kept and, after the call, either
    nothing is pending or nothing was issued and fewer than [max_pending]
    requests are pending, so the next request fits the array; no request is
    lost: each tag that was pending, and the new one when writeback control
    is on, is still pending or lies in the range of a writeback issued.
    When control is off ([max_pending] not positive) the new tag is not
    queued and whatever was pending is issued. *)
Theorem ScheduleBufferTagForWriteback_keeps_below_limit
    (wb : Writeback.WritebackContext) (tag : BufferTag) :
  Forall (fun t => is_u32 (blockNum t)) (Writeback.pending_writebacks wb) ->
  is_u32 (blockNum tag) ->
  let wb' := fst (Writeback.ScheduleBufferTagForWriteback false wb tag) in
  let calls := snd (Writeback.ScheduleBufferTagForWriteback false wb tag) in
  Writeback.ScheduleBufferTagForWriteback true wb tag = (wb, [])
  /\ Writeback.max_pending wb' = Writeback.max_pending wb
  /\ (Writeback.nr_pending wb' = 0
      \/ (calls = [] /\ Writeback.nr_pending wb' < Writeback.max_pending wb))
  /\ (forall t,
        In t (Writeback.pending_writebacks wb)
        \/ (0 < Writeback.max_pending wb /\ t = tag) ->
        In t (Writeback.pending_writebacks wb')
        \/ exists c, In c calls /\ Writeback.covers c t)
  /\ (Writeback.max_pending wb <= 0 ->
      Writeback.nr_pending wb' = 0
      /\ (List.length calls
          <= List.length (Writeback.pending_writebacks wb))%nat).
Proof.
  intros Hu Ht. cbv zeta. split; [reflexivity|].
  unfold Writeback.ScheduleBufferTagForWriteback.
  destruct (Z.gtb_spec (Writeback.max_pending wb) 0) as [Hmax|Hmax].
  - set (wb1 := Writeback.mkContext (Writeback.max_pending wb)
                  (Writeback.pending_writebacks wb ++ [tag])).
    assert (Hu1 : Forall (fun t => is_u32 (blockNum t))
                    (Writeback.pending_writebacks wb1)).
    { cbn. apply Forall_app. split; [assumption|]. now constructor. }
    destruct (Z.geb_spec (Writeback.nr_pending wb1) (Writeback.max_pending wb1))
      as [Hfull|Hroom].
    + destruct (IssuePendingWritebacks_spec wb1 Hu1) as (A & B & C & _ & _).
      cbv zeta in *.
      split; [exact A|]. split; [now left|]. split; [|lia].
      intros t Hin. right. apply C. cbn. apply in_or_app.
      destruct Hin as [Hin|[_ ->]]; [now left|right; now left].
    + cbn [fst snd]. split; [reflexivity|].
      split; [right; split; [reflexivity|exact Hroom]|]. split; [|lia].
      intros t Hin. left. cbn. apply in_or_app.
      destruct Hin as [Hin|[_ ->]]; [now left|right; now left].
  - assert (Hge : (Writeback.nr_pending wb >=? Writeback.max_pending wb) = true).
    { apply Z.geb_le. unfold Writeback.nr_pending. lia. }
    rewrite Hge.
    destruct (IssuePendingWritebacks_spec wb Hu) as (A & B & C & _ & E).
    cbv zeta in *.
    split; [exact A|]. split; [now left|]. split; [|auto].
    intros t [Hin|[Hpos _]]; [|lia]. right. now apply C.
Qed.

Lemma ScheduleBufferTagForWriteback_keeps_below_limit_witness :
  Writeback.ScheduleBufferTagForWriteback true wb_example
    (mkTag 1663 5 16384 0 9) = (wb_example, [])
  /\ Writeback.max_pending
       (fst (Writeback.ScheduleBufferTagForWriteback false wb_example
               (mkTag 1663 5 16384 0 9)))
     = Writeback.max_pending wb_example
  /\ (Writeback.nr_pending
        (fst (Writeback.ScheduleBufferTagForWriteback false wb_example
                (mkTag 1663 5 16384 0 9))) = 0
      \/ (snd (Writeback.ScheduleBufferTagForWriteback false wb_example
                 (mkTag 1663 5 16384 0 9)) = []
          /\ Writeback.nr_pending
               (fst (Writeback.ScheduleBufferTagForWriteback false wb_example
                       (mkTag 1663 5 16384 0 9)))
             < Writeback.max_pending wb_example))
  /\ (forall t,
        In t (Writeback.pending_writebacks wb_example)
        \/ (0 < Writeback.max_pending wb_example
            /\ t = mkTag 1663 5 16384 0 9) ->
        In t (Writeback.pending_writebacks
                (fst (Writeback.ScheduleBufferTagForWriteback false wb_example
                        (mkTag 1663 5 16384 0 9))))
        \/ exists c,
             In c (snd (Writeback.ScheduleBufferTagForWriteback false wb_example
                          (mkTag 1663 5 16384 0 9)))
             /\ Writeback.covers c t)
  /\ (Writeback.max_pending wb_example <= 0 ->
      Writeback.nr_pending
        (fst (Writeback.ScheduleBufferTagForWriteback false wb_example
                (mkTag 1663 5 16384 0 9))) = 0
      /\ (List.length
            (snd (Writeback.ScheduleBufferTagForWriteback false wb_example
                    (mkTag 1663 5 16384 0 9)))
          <= List.length (Writeback.pending_writebacks wb_example))%nat).
Proof.
  apply (ScheduleBufferTagForWriteback_keeps_below_limit wb_example
           (mkTag 1663 5 16384 0 9)).
  - repeat (apply Forall_cons; [vm_compute; split; [discriminate|reflexivity]|]).
    apply Forall_nil.
  - vm_compute. split; [discriminate|reflexivity].
Defined.

(** ** [LimitAdditionalPins] *)

Lemma int32_id (x : Z) : - 2 ^ 31 <= x < 2 ^ 31 -> int32 x = x.
Proof.
  intros H. unfold int32. rewrite Z.mod_small; lia.
Qed.

(** [LimitAdditionalPins] clamps, and always allows one pin: the request is
    never raised; a request of at least one pin stays at least one; a
    request of at most one pin is left alone; and a larger one is cut to
    the backend's share [NBuffers / (MaxBackends + NUM_AUXILIARY_PROCS)]
    less the pins it may already hold (the overflowed ones and a full
    array), or to 1 if that is not positive. *)
Theorem LimitAdditionalPins_clamps
    (NBuffers MaxBackends NUM_AUXILIARY_PROCS overflowed additional_pins : Z) :
  is_u32 additional_pins ->
  0 <= NBuffers < 2 ^ 31 ->
  0 < MaxBackends + NUM_AUXILIARY_PROCS < 2 ^ 31 ->
  0 <= overflowed < 2 ^ 30 ->
  let r := LimitAdditionalPins NBuffers MaxBackends NUM_AUXILIARY_PROCS
             overflowed additional_pins in
  let share := NBuffers / (MaxBackends + NUM_AUXILIARY_PROCS)
               - (overflowed + REFCOUNT_ARRAY_ENTRIES) in
  r <= additional_pins
  /\ (1 <= additional_pins -> 1 <= r)
  /\ (additional_pins <= 1 -> r = additional_pins)
  /\ (1 < additional_pins -> r = Z.min additional_pins (Z.max 1 share)).
Proof.
  intros Ha Hn Hm Ho. cbv zeta. unfold LimitAdditionalPins.
  destruct (Z.leb_spec additional_pins 1) as [H1|H1];
    [repeat split; lia|].
  assert (Em : u32 (MaxBackends + NUM_AUXILIARY_PROCS)
               = MaxBackends + NUM_AUXILIARY_PROCS)
    by (apply u32_id; unfold is_u32; lia).
  assert (En : u32 NBuffers = NBuffers) by (apply u32_id; unfold is_u32; lia).
  rewrite Em, En.
  set (q := NBuffers / (MaxBackends + NUM_AUXILIARY_PROCS)).
  assert (Hq : 0 <= q <= NBuffers).
  { unfold q. split; [apply Z.div_pos; lia|].
    apply Z.div_le_upper_bound; [lia|]. nia. }
  rewrite (int32_id q) by lia.
  unfold REFCOUNT_ARRAY_ENTRIES in *.
  rewrite (int32_id (q - (overflowed + 8))) by lia.
  destruct (Z.leb_spec (q - (overflowed + 8)) 0) as [Hs|Hs].
  - change (u32 1) with 1.
    replace (additional_pins >? 1) with true
      by (symmetry; apply Z.gtb_lt; lia).
    repeat split; lia.
  - rewrite (u32_id (q - (overflowed + 8))) by (unfold is_u32; lia).
    destruct (Z.gtb_spec additional_pins (q - (overflowed + 8)));
      repeat split; lia.
Qed.

Lemma LimitAdditionalPins_clamps_witness :
  LimitAdditionalPins 16384 100 5 0 64 <= 64
  /\ (1 <= 64 -> 1 <= LimitAdditionalPins 16384 100 5 0 64)
  /\ (64 <= 1 -> LimitAdditionalPins 16384 100 5 0 64 = 64)
  /\ (1 < 64 ->
      LimitAdditionalPins 16384 100 5 0 64
      = Z.min 64 (Z.max 1 (16384 / (100 + 5) - (0 + REFCOUNT_ARRAY_ENTRIES)))).
Proof.
  apply (LimitAdditionalPins_clamps 16384 100 5 0 64).
  - vm_compute. split; [discriminate|reflexivity].
  - lia.
  - lia.
  - lia.
Defined.

(** A pool of 128 buffers shared by 105 processes: the share is not
    positive, so a request for 64 pins is cut to one. *)
Example LimitAdditionalPins_small_pool :
  LimitAdditionalPins 128 100 5 0 64 = 1.
Proof. reflexivity. Qed.
